(* ===== verification/_CoqProject ===== *)
-Q . S2P
Prelude.v
Utf8.v
CaseTable.v
GoStrings.v
Regex.v
GoTime.v
Json.v
JsonFacts.v
StrictJson.v
Sha256.v
Url.v
Contracts.v
Receipt.v
Program.v
Azure.v
Effects.v
Worker.v
AzureStorage.v
Protocol.v
Guarantees.v
NoPanic.v
GoHttp.v
Config.v
Base64.v
Auth.v
HttpEffects.v
Range.v
Blob.v
HttpApi.v
Download.v
DownloadGuarantees.v
Mail.v
MailStub.v
WorkerConfig.v
Runtime.v
GoPath.v
Csv.v
PublicationEffects.v
Source.v
Publisher.v
PublicationAzure.v
PublicationConfig.v
Batches.v
PublicationSpec.v
PublicationGuarantees.v
SourceFacts.v
Cohort.v
Origins.v
PublicationEnds.v
PublisherMain.v
DownloadMain.v
TestStorage.v
