(* ===== verification/Prelude.v ===== *)
(** * DAR Release Distribution: a verification development

    The repository holds three programs around one private release archive (a "DAR"):

    - the publisher (cmd/dar-release-publisher, internal/publication) finds the newest release of a
      repository, checks its archive and the protected list of recipients, stores archive, manifest
      and recipient batches in Blob storage, sends one queue message per batch and advances the
      current manifest last;
    - the distribution worker (cmd/dar-distribution-worker, internal/distribution) receives those
      messages, verifies everything they reference and notifies every recipient by mail, with one
      durable receipt per recipient that bounds what is sent whatever crashes or runs twice;
    - the download service (cmd/dar-download, internal/httpapi and the packages below it)
      authenticates a caller behind a trusted boundary and streams one object from Blob storage,
      or a byte range of it.

    Every Go file of the three programs is modelled. Pure functions are Rocq functions of the
    same name. Code with effects is a tree of requests ([program], in Program) with one
    continuation per answer; its runs are the histories of requests and answers, and a theorem
    about every run is a theorem about every behaviour of files, storage, queue, provider, clock
    and client. Code with several goroutines is a transition system. A Go [int] or [int64] is a [Z]
    whose wrap-around is written out where the code can reach it ([wrap64]); a [string] or [[]byte]
    is a list of bytes; a value and an error are a [result]; a run-time panic is [None] or a request
    without an answer, and so is a loop that does not end.

    ** Files

    What the Go standard library does, as far as the program relies on it:
    Prelude (strings, results, lists, tactics and the hint databases), Utf8 (unicode/utf8),
    CaseTable (unicode.ToLower), GoStrings (strings, strconv, hex), Regex (regexp, by derivatives),
    GoTime (time), Json and JsonFacts (encoding/json), Sha256 (crypto/sha256, crypto/hmac),
    Url (net/url), Base64, GoHttp (header maps), GoPath (path, filepath), Csv (encoding/csv).

    Shared by the programs: StrictJson (internal/strictjson and the decoding of structs, with the
    class [GoStruct] of the struct types), Program (effects, runs, specifications, bounds),
    Azure (errors of the SDK).

    The worker: Contracts (contracts.go), Receipt (receipt.go and its state machine), Effects (the
    requests, and the interfaces [BlobStore], [ReceiptStore], [Mailer] of worker.go), Worker
    (worker.go), AzureStorage (azure_storage.go), Mail (mail.go), MailStub (stub.go), WorkerConfig
    (config.go), Runtime (runtime.go). Protocol puts any number of deliveries beside each other over
    one receipt container; Guarantees states what follows, and NoPanic that a delivery does not panic
    in any environment.

    The download service: Config (internal/config), Auth (internal/auth), Range
    (internal/download), HttpEffects (requests, the interface [Store]), Blob (internal/blob),
    HttpApi (internal/httpapi). Download proves the handler against the laws of a store
    ([LawfulStore], with the Azure adapter as its instance); DownloadGuarantees states what follows.

    The publisher: PublicationEffects (requests, the interfaces [BlobWriter] and [QueueWriter]),
    Source (source.go), Publisher (publisher.go), PublicationAzure (azure.go), PublicationConfig
    (config.go). Batches relates the batches written and the batches read. PublicationSpec proves
    [Publish] against the laws of its writers ([LawfulBlobs], [LawfulQueue], with the Azure adapters
    as instances); PublicationGuarantees states what follows and composes it with the worker.
    SourceFacts and Cohort are about what the publisher accepts, Origins about the addresses it
    puts into messages, PublicationEnds about its termination.

    The processes: PublisherMain (the publisher command with its flags and exit codes), DownloadMain
    (the life of the download process, the worker process). TestStorage is the Blob double and the
    identity headers of internal/testsupport.

    ** State and operations

    - A receipt is the record [Receipt] with the fields of the Go struct; [StartSend], [Accept],
      [Simulate], [Retry], [Fail], [MarkUnknown], [Reclaim], [Exhaust] and [RecoverStale] are the
      methods, their guards and final validation included. [astep] is the abstract machine
      they refine.
    - The worker's state is in storage: [world] of Protocol holds the history of every receipt and
      the mails sent; a thread is a delivery with the program that is left of it. A step starts a
      delivery, answers one request of one delivery (a write may fail before or after it took
      effect), or stops a delivery.
    - A delivery of the runtime is the pair of goroutines of processReceivedMessage with their
      channel and context ([main_step], [renew_step]).
    - A download is a run of [ServeHTTP]; what was observed of it (bytes read and written, bodies
      open, responses, audit records) is the state of the specification in Download.
    - A publication is a run of [Publish]; what it may request is a statement about the history so far
      ([check] of PublicationSpec): what storage acknowledged, what the queue accepted.
    - The download process is [service]: where the main goroutine is, the channel of the serving
      goroutine, the signal and the shutdown.

    ** Theorems

    - Notification (Guarantees): at most five mails per recipient and operation, each under its own
      durable SEND_STARTED, only to authorised recipients; a completed delivery notified everyone of
      its batch; the history of a receipt is a run of its machine. NoPanic: whatever is answered, a
      delivery goes on to a result.
    - Download (DownloadGuarantees): no storage request before authentication, and only at the object
      named; a completed download is the selected interval; reads are bounded and contiguous under
      one ETag; the audit record counts the bytes; one response; termination within 500 requests.
    - Publication (PublicationGuarantees), whatever is answered: messages are sent only when everything
      they name was acknowledged with its digest and size, a text is uploaded under its own digest and
      the archive under the one its file had when it was read before, the current manifest only moves
      forward and last, success means that everything was acknowledged and sent; and, with the worker,
      a cohort whose publication succeeded and whose messages were completed has been notified, unless
      storage holds another text with the digest of a batch. Batches: the worker reads the rows that
      were written. Origins: what a message of the publisher is refused for. PublicationEnds: it
      terminates, within 21 requests and three per batch.
    - Runtime, Mail, MailStub: a message is settled at most once and as decided, the goroutines end,
      the worker starts; mail goes only where it may and every outcome is recordable, but for a request
      identifier with a control character; the mailer and the stub agree, with their timeouts.
    - Validation, each as an equivalence with a description of what is accepted: messages, receipts,
      environments, identities, ranges, archives, recipient files; and that [Decode] takes one
      document without duplicate keys and nothing after it (StrictJson).
    - Processes: exit codes (PublisherMain, DownloadMain) and the end of the download service.

    Each group ends with an honest environment or a sample execution on which the theorems are
    applied.

    ** Bounds and fuel

    Recursion that is not structural has fuel computed from the input: twice the length of the text
    and two for JSON documents and tokens (every second step consumes a byte), the length of the
    data for scanned lines, hash blocks, batches and flags, the binary logarithm for decimal digits,
    one round per 4 MiB segment and two for streaming. That it is enough is part of the theorems: a
    marshalled document is read back, a download completes, batches make up the cohort. The streaming
    loop and the loop that builds batches make a request without an answer ([HDiverge], [PDiverge])
    when their fuel is used up, and the termination theorems show that this is not reached. [RunWorker]
    is a loop without an end; its fuel is a number of polls, the theorems hold for each, and the
    result [None] is a worker that goes on.

    ** What is assumed

    Answers of the SDK clients, the file system, the HTTP client and the provider are arbitrary,
    except where a theorem names the service it needs: for the system of workers, versions of blobs
    whose content does not change ([blobs] of Protocol) and a receipt container with atomic
    conditional writes; for downloads, answers with the types of the SDK ([typed]) and, where bytes
    are compared, of objects ([from_objects]). Nothing is assumed of the publisher's environment.
    Digests are the functions of FIPS 180-4, computed; no theorem uses that they are free of
    collisions, and where one would matter ([collision]) it is an alternative of the conclusion.

    ** Not modelled

    The Azure SDK, the Service Bus client, net/http and the provider beyond their answers; the
    construction of SDK client options; logging handlers; the read and write timeouts of the
    servers, which are data of the model only; the fixture of the logging rule in security/testdata;
    the deployment files, workflows and documents of the repository, which are not Go. Type
    declarations of interfaces and of structs that only hold clients have no counterpart of their
    own: the interface is a class, the client is an event. *)

From stdpp Require Export prelude gmap numbers list.
From Stdlib Require Export ZArith Lia.
From Stdlib Require Export Strings.Ascii.
From Stdlib Require Strings.String.
Export Strings.String (string(..)).
Export (notations) Strings.String.

Declare Scope go_scope.
Delimit Scope go_scope with go.

(** ** Strings and bytes

    A Go [string] or [[]byte] is a list of 8-bit characters; [len] is the list's length. *)

Abbreviation gostring := (list ascii).

(** A Go string literal. *)
Definition lit (s : string) : gostring := Strings.String.list_ascii_of_string s.
Arguments lit s%_string_scope.

(** The numeric value of a byte, between 0 and 255. *)
Definition code (c : ascii) : Z := Z.of_N (N_of_ascii c).

(** The byte with a numeric value (taken modulo 256, as a Go conversion to [byte] does). *)
Definition byte (z : Z) : ascii := ascii_of_N (Z.to_N (z `mod` 256)).

(** Go's [len] on strings, byte slices and slices, an [int]. *)
Definition len {A} (l : list A) : Z := Z.of_nat (length l).

(** [==] on strings. *)
Fixpoint str_eqb (s t : gostring) : bool :=
  match s, t with
  | [], [] => true
  | a :: s', b :: t' => Ascii.eqb a b && str_eqb s' t'
  | _, _ => false
  end.

(** [<] on strings: lexicographic on bytes. *)
Fixpoint str_ltb (s t : gostring) : bool :=
  match s, t with
  | [], [] => false
  | [], _ :: _ => true
  | _ :: _, [] => false
  | a :: s', b :: t' => (code a <? code b)%Z || ((code a =? code b)%Z && str_ltb s' t')
  end.

Infix "=s" := str_eqb (at level 70, no associativity) : go_scope.
Infix "<s" := str_ltb (at level 70, no associativity) : go_scope.
Open Scope go_scope.
Open Scope Z_scope.

(** ** Fallible code: a Go [(value, error)] pair of which exactly one side is meaningful *)

Inductive result (E A : Type) : Type :=
| Ok (a : A)
| Err (e : E).
Arguments Ok {E A} a.
Arguments Err {E A} e.

Definition result_bind {E A B} (f : A → result E B) (r : result E A) : result E B :=
  match r with Ok a => f a | Err e => Err e end.

#[export] Instance result_mbind {E} : MBind (result E) := λ A B f r, result_bind f r.
#[export] Instance result_mret {E} : MRet (result E) := λ A a, Ok a.

Definition is_ok {E A} (r : result E A) : bool := match r with Ok _ => true | Err _ => false end.

(** ** Machine integers

    Go's [int] and [int64] are 64-bit two's complement on the target platforms. *)

Definition wrap64 (z : Z) : Z := (z + 2 ^ 63) `mod` 2 ^ 64 - 2 ^ 63.
Definition int64_range (z : Z) : Prop := - 2 ^ 63 ≤ z < 2 ^ 63.
Definition maxInt64 : Z := 2 ^ 63 - 1.
Definition minInt64 : Z := - 2 ^ 63.

(** ** Boolean reflection

    The code's conditions are boolean functions; [breflect] turns them into propositions. *)

Create HintDb go discriminated.
Create Rewrite HintDb gobool.
Create Rewrite HintDb golen.

Lemma str_eqb_eq s t : str_eqb s t = true ↔ s = t.
Proof.
  revert t; induction s as [|a s IH]; intros [|b t]; simpl; try done.
  rewrite andb_true_iff, Ascii.eqb_eq, IH. split; [intros [-> ->]|intros [= -> ->]]; done.
Qed.

Lemma str_eqb_neq s t : str_eqb s t = false ↔ s ≠ t.
Proof. rewrite <- str_eqb_eq. by destruct (str_eqb s t). Qed.

Lemma str_eqb_refl s : str_eqb s s = true.
Proof. by apply str_eqb_eq. Qed.

Lemma andb_false_iff' a b : a && b = false ↔ a = false ∨ b = false.
Proof. destruct a, b; simpl; intuition congruence. Qed.

Lemma orb_false_iff' a b : a || b = false ↔ a = false ∧ b = false.
Proof. destruct a, b; simpl; intuition congruence. Qed.

#[export] Hint Rewrite andb_true_iff orb_true_iff negb_true_iff negb_false_iff
  andb_false_iff' orb_false_iff' Z.ltb_lt Z.leb_le Z.eqb_eq Z.ltb_ge Z.leb_gt Z.eqb_neq
  str_eqb_eq str_eqb_neq Ascii.eqb_eq Ascii.eqb_neq bool_decide_eq_true bool_decide_eq_false
  Z.gtb_lt Z.geb_le : gobool.

Ltac breflect := autorewrite with gobool in *.

(** Split every conjunction and existential of the context. *)
Ltac split_hyps := repeat match goal with
  | H : _ ∧ _ |- _ => destruct H
  | H : ∃ _, _ |- _ => destruct H
  end.

(** Case analysis on the conditional of a hypothesis or of the goal, keeping the equation. *)
Ltac case_if_in H :=
  match type of H with
  | context [if ?b then _ else _] => let E := fresh "E" in destruct b eqn:E
  end.

(** ** Bytes *)

Lemma code_range c : 0 ≤ code c < 256.
Proof.
  unfold code. pose proof (N_ascii_bounded c). lia.
Qed.

Lemma code_inj a b : code a = code b → a = b.
Proof.
  unfold code. intros H%N2Z.inj.
  by rewrite <- (ascii_N_embedding a), <- (ascii_N_embedding b), H.
Qed.

Lemma code_byte z : code (byte z) = z `mod` 256.
Proof.
  unfold code, byte. pose proof (Z.mod_pos_bound z 256 ltac:(lia)).
  rewrite N_ascii_embedding by lia. lia.
Qed.

Lemma byte_code c : byte (code c) = c.
Proof.
  apply code_inj. rewrite code_byte. apply Z.mod_small, code_range.
Qed.

Lemma code_byte_small z : 0 ≤ z < 256 → code (byte z) = z.
Proof. intros. rewrite code_byte. by apply Z.mod_small. Qed.

(** A property of bytes that a boolean function decides holds when it holds of all 256. *)
Lemma ascii_forall (P : ascii → bool) :
  forallb (λ n, P (ascii_of_nat n)) (seq 0 256) = true → ∀ c, P c = true.
Proof.
  intros H c. rewrite forallb_forall in H.
  rewrite <- (ascii_nat_embedding c). apply H, in_seq.
  pose proof (nat_ascii_bounded c). lia.
Qed.

(** ** Lengths *)

Lemma len_nonneg {A} (l : list A) : 0 ≤ len l.
Proof. unfold len. lia. Qed.

Lemma len_app {A} (l k : list A) : len (l ++ k) = len l + len k.
Proof. unfold len. rewrite length_app. lia. Qed.

Lemma len_cons {A} (x : A) l : len (x :: l) = len l + 1.
Proof. unfold len. simpl. lia. Qed.

Lemma len_nil {A} : len (@nil A) = 0.
Proof. done. Qed.

Lemma len_0_nil {A} (l : list A) : len l = 0 → l = [].
Proof. destruct l; [done|]. unfold len. simpl. lia. Qed.

#[export] Hint Rewrite @len_app @len_cons @len_nil : golen.

(** ** Machine integers *)

Lemma wrap64_small z : int64_range z → wrap64 z = z.
Proof. unfold int64_range, wrap64. intros. rewrite Z.mod_small; lia. Qed.

Lemma wrap64_range z : int64_range (wrap64 z).
Proof.
  unfold int64_range, wrap64. pose proof (Z.mod_pos_bound (z + 2 ^ 63) (2 ^ 64) ltac:(lia)). lia.
Qed.

(** ** The order of strings *)

Lemma str_ltb_irrefl s : str_ltb s s = false.
Proof.
  induction s as [|a s IH]; simpl; [done|].
  rewrite IH, Z.ltb_irrefl, andb_false_r. done.
Qed.

Lemma str_ltb_trans s t u : str_ltb s t = true → str_ltb t u = true → str_ltb s u = true.
Proof.
  revert t u; induction s as [|a s IH]; intros [|b t] [|c u]; simpl; try done.
  intros H1 H2. breflect.
  destruct H1 as [?|[??]], H2 as [?|[??]]; [left; lia..|].
  right. split; [lia|]. eauto.
Qed.

Lemma str_ltb_total s t : str_ltb s t = true ∨ s = t ∨ str_ltb t s = true.
Proof.
  revert t; induction s as [|a s IH]; intros [|b t]; simpl; [naive_solver..|].
  breflect. destruct (Ztrichotomy (code a) (code b)) as [?|[E|?]]; [naive_solver| |naive_solver lia].
  destruct (IH t) as [?|[->|?]]; [naive_solver| |naive_solver].
  apply code_inj in E as ->. naive_solver.
Qed.

(** ** Lists *)

Lemma Forall_app_iff {A} (P : A → Prop) l k : Forall P (l ++ k) ↔ Forall P l ∧ Forall P k.
Proof. apply Forall_app. Qed.

Lemma forallb_Forall {A} (f : A → bool) l : forallb f l = true ↔ Forall (λ x, f x = true) l.
Proof. rewrite forallb_forall, List.Forall_forall. done. Qed.

Lemma NoDup_map_inj {A B} (f : A → B) l x y : NoDup (map f l) → x ∈ l → y ∈ l → f x = f y → x = y.
Proof.
  induction l as [|z l IH]; intros Hn Hx Hy E; [set_solver|]. simpl in Hn. apply NoDup_cons in Hn as [Hz Hn].
  apply elem_of_cons in Hx as [->|Hx], Hy as [->|Hy]; [done| | |auto].
  - destruct Hz. rewrite E. by apply list_elem_of_fmap_2.
  - destruct Hz. rewrite <- E. by apply list_elem_of_fmap_2.
Qed.

(** Distinct numbers between one and [n] are at most [n] many. *)
Lemma nodup_range (l : list Z) n : 0 ≤ n → NoDup l → (∀ a, a ∈ l → 1 ≤ a ≤ n) → len l ≤ n.
Proof.
  intros Hn Hnd Hr. assert (Hs : l ⊆+ seqZ 1 n).
  { apply NoDup_submseteq; [done|]. intros a Ha. apply elem_of_seqZ. specialize (Hr a Ha). lia. }
  apply submseteq_length in Hs. rewrite length_seqZ in Hs. unfold len. lia.
Qed.
