(* ===== verification/Utf8.v ===== *)
(** * UTF-8 as the Go standard library decodes it

    The runes a [range] loop over a string visits, [utf8.Valid], and the encoder, for the parts of
    [unicode/utf8] the program relies on: [controlFree] and [containsControl] loop over runes,
    [strictjson.Decode] rejects invalid UTF-8, and [encoding/json] replaces invalid bytes. *)

From S2P Require Import Prelude.

(** One step of a [range] loop: a scalar value with the bytes that encode it, or one byte that is
    not part of a valid encoding and is visited as U+FFFD. *)
Inductive rune : Type :=
| RValid (cp : Z) (raw : gostring)
| RBad (b : ascii).

Definition between (lo hi : Z) (c : ascii) : bool := (lo <=? code c) && (code c <=? hi).
Definition cont (c : ascii) : bool := between 0x80 0xBF c.

Definition decode2 (b0 b1 : ascii) : option Z :=
  if between 0xC2 0xDF b0 && cont b1
  then Some ((code b0 - 0xC0) * 64 + (code b1 - 0x80)) else None.

(** The second byte's range depends on the first: it excludes overlong forms and surrogates. *)
Definition second3 (b0 b1 : ascii) : bool :=
  if code b0 =? 0xE0 then between 0xA0 0xBF b1
  else if code b0 =? 0xED then between 0x80 0x9F b1 else cont b1.

Definition decode3 (b0 b1 b2 : ascii) : option Z :=
  if between 0xE0 0xEF b0 && second3 b0 b1 && cont b2
  then Some ((code b0 - 0xE0) * 4096 + (code b1 - 0x80) * 64 + (code b2 - 0x80)) else None.

Definition second4 (b0 b1 : ascii) : bool :=
  if code b0 =? 0xF0 then between 0x90 0xBF b1
  else if code b0 =? 0xF4 then between 0x80 0x8F b1 else cont b1.

Definition decode4 (b0 b1 b2 b3 : ascii) : option Z :=
  if between 0xF0 0xF4 b0 && second4 b0 b1 && cont b2 && cont b3
  then Some ((code b0 - 0xF0) * 262144 + (code b1 - 0x80) * 4096 +
             (code b2 - 0x80) * 64 + (code b3 - 0x80)) else None.

(** [for _, character := range s]. *)
Fixpoint runes (s : gostring) : list rune :=
  match s with
  | [] => []
  | b0 :: s1 =>
    if code b0 <? 0x80 then RValid (code b0) [b0] :: runes s1 else
    match s1 with
    | [] => [RBad b0]
    | b1 :: s2 =>
      match decode2 b0 b1 with
      | Some cp => RValid cp [b0; b1] :: runes s2
      | None =>
        match s2 with
        | [] => RBad b0 :: runes s1
        | b2 :: s3 =>
          match decode3 b0 b1 b2 with
          | Some cp => RValid cp [b0; b1; b2] :: runes s3
          | None =>
            match s3 with
            | [] => RBad b0 :: runes s1
            | b3 :: s4 =>
              match decode4 b0 b1 b2 b3 with
              | Some cp => RValid cp [b0; b1; b2; b3] :: runes s4
              | None => RBad b0 :: runes s1
              end
            end
          end
        end
      end
    end
  end.

Definition runeError : Z := 0xFFFD.
Definition runeErrorBytes : gostring := map byte [0xEF; 0xBF; 0xBD].

(** The [rune] a loop sees, and the bytes of its encoding. *)
Definition rune_cp (r : rune) : Z := match r with RValid cp _ => cp | RBad _ => runeError end.
Definition rune_raw (r : rune) : gostring := match r with RValid _ raw => raw | RBad b => [b] end.
Definition rune_bytes (r : rune) : gostring :=
  match r with RValid _ raw => raw | RBad _ => runeErrorBytes end.
Definition rune_ok (r : rune) : bool := match r with RValid _ _ => true | RBad _ => false end.

(** [utf8.Valid] and [utf8.ValidString]. *)
Definition utf8_valid (s : gostring) : bool := forallb rune_ok (runes s).

(** What remains of a string when every invalid byte is replaced by U+FFFD. *)
Definition sanitize (s : gostring) : gostring := flat_map rune_bytes (runes s).

(** [utf8.EncodeRune]: surrogates and out of range values are encoded as U+FFFD. *)
Definition encode_rune (cp : Z) : gostring :=
  if (0 <=? cp) && (cp <? 0x80) then [byte cp]
  else if (0 <=? cp) && (cp <? 0x800) then [byte (0xC0 + cp / 64); byte (0x80 + cp `mod` 64)]
  else if (cp <? 0) || (0x10FFFF <? cp) || ((0xD800 <=? cp) && (cp <=? 0xDFFF)) then runeErrorBytes
  else if cp <? 0x10000 then
    [byte (0xE0 + cp / 4096); byte (0x80 + (cp / 64) `mod` 64); byte (0x80 + cp `mod` 64)]
  else [byte (0xF0 + cp / 262144); byte (0x80 + (cp / 4096) `mod` 64);
        byte (0x80 + (cp / 64) `mod` 64); byte (0x80 + cp `mod` 64)].

(** A control character in the sense of [controlFree]: below 0x20, or DEL. *)
Definition is_ctl (cp : Z) : bool := (cp <? 0x20) || (cp =? 0x7f).
(** [unicode.IsControl]: the category Cc. *)
Definition is_control (cp : Z) : bool :=
  ((0 <=? cp) && (cp <? 0x20)) || ((0x7f <=? cp) && (cp <? 0xa0)).

(** An ASCII byte. *)
Definition is_ascii (c : ascii) : bool := code c <? 0x80.

(** ** Decoding a string from the left *)

Lemma runes_ascii b s : is_ascii b = true → runes (b :: s) = RValid (code b) [b] :: runes s.
Proof. unfold is_ascii. intros H. simpl. by rewrite H. Qed.

Lemma runes_2 b0 b1 s cp :
  is_ascii b0 = false → decode2 b0 b1 = Some cp → runes (b0 :: b1 :: s) = RValid cp [b0; b1] :: runes s.
Proof. unfold is_ascii. intros H E. simpl. by rewrite H, E. Qed.

Lemma between_spec lo hi c : between lo hi c = true ↔ lo ≤ code c ≤ hi.
Proof. unfold between. breflect. done. Qed.
#[export] Hint Rewrite between_spec : gobool.

Lemma decode2_lead b0 b1 cp : decode2 b0 b1 = Some cp → 0xC2 ≤ code b0 ≤ 0xDF.
Proof. unfold decode2. intros H. case_if_in H; [|done]. breflect. tauto. Qed.

Lemma decode3_lead b0 b1 b2 cp : decode3 b0 b1 b2 = Some cp → 0xE0 ≤ code b0 ≤ 0xEF.
Proof. unfold decode3. intros H. case_if_in H; [|done]. breflect. tauto. Qed.

Lemma decode4_lead b0 b1 b2 b3 cp : decode4 b0 b1 b2 b3 = Some cp → 0xF0 ≤ code b0 ≤ 0xF4.
Proof. unfold decode4. intros H. case_if_in H; [|done]. breflect. tauto. Qed.

Lemma decode2_wide b0 b1 : 0xE0 ≤ code b0 → decode2 b0 b1 = None.
Proof. intros. destruct (decode2 b0 b1) eqn:E; [|done]. apply decode2_lead in E. lia. Qed.

Lemma decode3_wide b0 b1 b2 : 0xF0 ≤ code b0 → decode3 b0 b1 b2 = None.
Proof. intros. destruct (decode3 b0 b1 b2) eqn:E; [|done]. apply decode3_lead in E. lia. Qed.

Lemma runes_3 b0 b1 b2 s cp :
  decode3 b0 b1 b2 = Some cp → runes (b0 :: b1 :: b2 :: s) = RValid cp [b0; b1; b2] :: runes s.
Proof.
  intros E. pose proof (decode3_lead _ _ _ _ E). simpl.
  rewrite (proj2 (Z.ltb_ge _ _)) by lia. rewrite decode2_wide by lia. by rewrite E.
Qed.

Lemma runes_4 b0 b1 b2 b3 s cp :
  decode4 b0 b1 b2 b3 = Some cp →
  runes (b0 :: b1 :: b2 :: b3 :: s) = RValid cp [b0; b1; b2; b3] :: runes s.
Proof.
  intros E. pose proof (decode4_lead _ _ _ _ _ E). simpl.
  rewrite (proj2 (Z.ltb_ge _ _)) by lia. rewrite decode2_wide, decode3_wide by lia. by rewrite E.
Qed.

(** A rune that is decoded from the front of a string: either valid with one of the four
    encodings, or a bad byte. *)
Inductive rune_wf : rune → Prop :=
| wf_1 b : is_ascii b = true → rune_wf (RValid (code b) [b])
| wf_2 b0 b1 cp : decode2 b0 b1 = Some cp → rune_wf (RValid cp [b0; b1])
| wf_3 b0 b1 b2 cp : decode3 b0 b1 b2 = Some cp → rune_wf (RValid cp [b0; b1; b2])
| wf_4 b0 b1 b2 b3 cp : decode4 b0 b1 b2 b3 = Some cp → rune_wf (RValid cp [b0; b1; b2; b3])
| wf_bad b : is_ascii b = false → rune_wf (RBad b).

(** The next rune of a non-empty string and the bytes after it. *)
Lemma runes_cons b s :
  ∃ r t, rune_wf r ∧ b :: s = rune_raw r ++ t ∧ runes (b :: s) = r :: runes t.
Proof.
  destruct (is_ascii b) eqn:Ha.
  { exists (RValid (code b) [b]), s. by rewrite runes_ascii by done; auto using wf_1. }
  assert (Hbad : (∃ r t, rune_wf r ∧ b :: s = rune_raw r ++ t ∧ RBad b :: runes s = r :: runes t)).
  { exists (RBad b), s. auto using wf_bad. }
  pose proof Ha as Hb. unfold is_ascii in Ha. simpl. rewrite Ha.
  destruct s as [|b1 s]; [exact Hbad|].
  destruct (decode2 b b1) as [cp|] eqn:E2; [eexists (RValid cp _), s; eauto using wf_2|].
  destruct s as [|b2 s]; [exact Hbad|].
  destruct (decode3 b b1 b2) as [cp|] eqn:E3; [eexists (RValid cp _), s; eauto using wf_3|].
  destruct s as [|b3 s]; [exact Hbad|].
  destruct (decode4 b b1 b2 b3) as [cp|] eqn:E4; [eexists (RValid cp _), s; eauto using wf_4|].
  exact Hbad.
Qed.

(** A valid rune in front of a string is the first rune of the whole. *)
Lemma runes_app_valid cp raw t :
  rune_wf (RValid cp raw) → runes (raw ++ t) = RValid cp raw :: runes t.
Proof.
  inversion 1; subst; simpl app.
  - by apply runes_ascii.
  - apply runes_2; [|done]. unfold is_ascii. breflect.
    match goal with E : decode2 _ _ = _ |- _ => apply decode2_lead in E end. lia.
  - by apply runes_3.
  - by apply runes_4.
Qed.

Lemma rune_raw_nonempty r : rune_raw r = [] → rune_wf r → False.
Proof. intros E H. destruct H; done. Qed.

(** Induction along the runes of a string. *)
Lemma runes_ind (P : gostring → Prop) :
  P [] →
  (∀ r t, rune_wf r → runes (rune_raw r ++ t) = r :: runes t → P t → P (rune_raw r ++ t)) →
  ∀ s, P s.
Proof.
  intros Hnil Hcons s. remember (length s) as n eqn:Hn.
  revert s Hn. induction (lt_wf n) as [n _ IH]. intros [|b s] ->; [done|].
  destruct (runes_cons b s) as (r & t & Hwf & E & Hr).
  rewrite E in *. apply Hcons; [done..|].
  eapply IH; [|done]. simpl. rewrite length_app.
  destruct (rune_raw r) eqn:Er; [by destruct (rune_raw_nonempty r)|]. simpl. lia.
Qed.

Lemma runes_wf s : Forall rune_wf (runes s).
Proof.
  induction s as [|r t Hwf E IH] using runes_ind; [constructor|]. rewrite E. by constructor.
Qed.

Lemma flat_map_raw_runes s : flat_map rune_raw (runes s) = s.
Proof.
  induction s as [|r t Hwf E IH] using runes_ind; [done|]. rewrite E. simpl. by rewrite IH.
Qed.

Lemma sanitize_valid s : utf8_valid s = true → sanitize s = s.
Proof.
  intros H. rewrite <- (flat_map_raw_runes s) at 2. unfold sanitize, utf8_valid in *.
  induction (runes s) as [|r rs IH]; [done|]. simpl in *. breflect. destruct H as [H1 H2].
  rewrite IH by done. by destruct r.
Qed.

Lemma decode_runeError t : runes (runeErrorBytes ++ t) = RValid runeError runeErrorBytes :: runes t.
Proof. by apply (runes_3 (byte 0xEF) (byte 0xBF) (byte 0xBD) t runeError). Qed.

Lemma runeError_wf : rune_wf (RValid runeError runeErrorBytes).
Proof. by apply (wf_3 (byte 0xEF) (byte 0xBF) (byte 0xBD)). Qed.

(** Concatenating decoded encodings decodes back to the same runes. *)
Lemma runes_flat_map rs t :
  Forall rune_wf rs → forallb rune_ok rs = true → runes (flat_map rune_raw rs ++ t) = rs ++ runes t.
Proof.
  induction rs as [|r rs IH]; intros Hwf Hok; [done|]. simpl in *. breflect.
  apply Forall_cons in Hwf as [? ?]. destruct Hok. destruct r as [cp raw|]; [|done]. simpl rune_raw.
  rewrite <- app_assoc, (runes_app_valid cp raw) by done. by rewrite IH.
Qed.

(** [sanitize] produces valid UTF-8. *)
Lemma sanitize_runes_valid s : utf8_valid (sanitize s) = true.
Proof.
  unfold utf8_valid, sanitize. pose proof (runes_wf s) as Hwf.
  induction (runes s) as [|r rs IH]; [done|]. simpl. apply Forall_cons in Hwf as [? ?].
  destruct r as [cp raw|b]; simpl rune_bytes.
  - rewrite (runes_app_valid cp raw) by done. simpl. auto.
  - rewrite decode_runeError. simpl. auto.
Qed.

(** ** ASCII strings *)

Definition all_ascii (s : gostring) : bool := forallb is_ascii s.

Lemma runes_all_ascii s t :
  all_ascii s = true → runes (s ++ t) = map (λ b, RValid (code b) [b]) s ++ runes t.
Proof.
  unfold all_ascii. induction s as [|b s IH]; intros H; [done|]. simpl in H. breflect.
  destruct H. simpl app. rewrite runes_ascii by done. simpl. by rewrite IH.
Qed.

Lemma utf8_valid_ascii s : all_ascii s = true → utf8_valid s = true.
Proof.
  intros H. unfold utf8_valid. rewrite <- (app_nil_r s), runes_all_ascii by done.
  simpl. rewrite app_nil_r. clear H. by induction s.
Qed.

Lemma utf8_valid_cons b s : is_ascii b = true → utf8_valid (b :: s) = utf8_valid s.
Proof. intros H. unfold utf8_valid. by rewrite runes_ascii. Qed.

(** Valid strings concatenate. *)
Lemma runes_app s t : utf8_valid s = true → runes (s ++ t) = runes s ++ runes t.
Proof.
  intros H. rewrite <- (flat_map_raw_runes s) at 1. apply runes_flat_map; [apply runes_wf|done].
Qed.

Lemma utf8_valid_app s t : utf8_valid s = true → utf8_valid (s ++ t) = utf8_valid t.
Proof.
  intros H. unfold utf8_valid. rewrite runes_app by done. rewrite forallb_app.
  unfold utf8_valid in H. by rewrite H.
Qed.

(** Only valid text becomes ASCII when its invalid bytes are replaced. *)
Lemma sanitize_ascii_inv s : all_ascii (sanitize s) = true → sanitize s = s.
Proof.
  rewrite <- (flat_map_raw_runes s) at 3. unfold sanitize, all_ascii. induction (runes s) as [|r rs IH]; [done|]. cbn [flat_map].
  rewrite forallb_app. intros [Hr Hrs]%andb_prop. rewrite (IH Hrs). by destruct r.
Qed.
