(* ===== verification/GoStrings.v ===== *)
(** * The parts of Go's [strings], [strconv] and [encoding/hex] packages the program calls

    Each function is named after the one it models. Failures of [strconv] are [None]: no caller
    looks at the error it gets. *)

From S2P Require Import Prelude Utf8 CaseTable.

(** ** package strings *)

Fixpoint has_prefix (p s : gostring) : bool :=
  match p, s with
  | [], _ => true
  | a :: p', b :: s' => Ascii.eqb a b && has_prefix p' s'
  | _ :: _, [] => false
  end.

Definition has_suffix (p s : gostring) : bool := has_prefix (rev p) (rev s).

Definition trim_prefix (p s : gostring) : gostring :=
  if has_prefix p s then drop (length p) s else s.
Definition trim_suffix (p s : gostring) : gostring :=
  if has_suffix p s then take (length s - length p) s else s.

(** [strings.Contains]. *)
Fixpoint contains (p s : gostring) : bool :=
  has_prefix p s || match s with [] => false | _ :: s' => contains p s' end.

Definition contains_byte (c : ascii) (s : gostring) : bool := existsb (Ascii.eqb c) s.
(** [strings.ContainsAny] with an ASCII character set. *)
Definition contains_any (cs s : gostring) : bool := existsb (λ c, contains_byte c cs) s.
(** [strings.Count] of a one-byte separator. *)
Definition count_byte (c : ascii) (s : gostring) : Z := len (List.filter (Ascii.eqb c) s).

(** [strings.Split] with a one-byte separator. *)
Fixpoint split_on (c : ascii) (s : gostring) : list gostring :=
  match s with
  | [] => [[]]
  | a :: s' =>
    if Ascii.eqb a c then [] :: split_on c s'
    else match split_on c s' with
         | [] => [[a]]
         | h :: t => (a :: h) :: t
         end
  end.

(** [strings.Cut] with a one-byte separator: the text before and after its first occurrence. *)
Fixpoint cut_byte (c : ascii) (s : gostring) : gostring * option gostring :=
  match s with
  | [] => ([], None)
  | a :: s' =>
    if Ascii.eqb a c then ([], Some s')
    else let '(before, after) := cut_byte c s' in (a :: before, after)
  end.

Fixpoint drop_while {A} (f : A → bool) (s : list A) : list A :=
  match s with
  | [] => []
  | a :: s' => if f a then drop_while f s' else s
  end.

Definition trim_both {A} (f : A → bool) (s : list A) : list A :=
  rev (drop_while f (rev (drop_while f s))).

(** [strings.Trim] with a one-byte cutset. *)
Definition trim_byte (c : ascii) (s : gostring) : gostring := trim_both (Ascii.eqb c) s.

(** [unicode.IsSpace]. *)
Definition is_space (cp : Z) : bool :=
  ((9 <=? cp) && (cp <=? 13)) || (cp =? 32) || (cp =? 0x85) || (cp =? 0xA0) || (cp =? 0x1680) ||
  ((0x2000 <=? cp) && (cp <=? 0x200a)) || (cp =? 0x2028) || (cp =? 0x2029) || (cp =? 0x202f) ||
  (cp =? 0x205f) || (cp =? 0x3000).

(** [strings.TrimSpace]. *)
Definition trim_space (s : gostring) : gostring :=
  flat_map rune_raw (trim_both (λ r, is_space (rune_cp r)) (runes s)).

Definition lower_byte (c : ascii) : ascii :=
  if between 65 90 c then byte (code c + 32) else c.

(** [unicode.ToLower] of one rune; an invalid byte becomes U+FFFD. *)
Definition lower_rune (r : rune) : gostring :=
  match r with
  | RBad _ => runeErrorBytes
  | RValid cp raw =>
    if cp <? 0x80 then if (65 <=? cp) && (cp <=? 90) then [byte (cp + 32)] else raw
    else
      let lower := lower_cp cp in
      if lower =? cp then raw else encode_rune lower
  end.

(** [strings.ToLower]. *)
Definition to_lower (s : gostring) : gostring := flat_map lower_rune (runes s).

(** [strings.Repeat] of one character. *)
Definition repeat_byte (c : ascii) (n : Z) : gostring := replicate (Z.to_nat n) c.

(** ** package strconv *)

Definition is_digit (c : ascii) : bool := between 48 57 c.
Definition digit (n : Z) : ascii := byte (48 + n).

(** The decimal value of a string of digits. *)
Definition dec_value (s : gostring) : Z := fold_left (λ acc c, acc * 10 + (code c - 48)) s 0.

(** [strconv.ParseUint(s, 10, bits)]: empty input, a non-digit and a value that does not fit in
    [bits] bits are errors. *)
Definition parse_uint (bits : Z) (s : gostring) : option Z :=
  match s with
  | [] => None
  | _ => if forallb is_digit s && (dec_value s <? 2 ^ bits) then Some (dec_value s) else None
  end.

(** [strconv.ParseInt(s, 10, 64)] and [strconv.Atoi]. *)
Definition parse_int (s : gostring) : option Z :=
  let unsigned t := match t with
    | [] => None
    | _ => if forallb is_digit t then Some (dec_value t) else None
    end in
  match s with
  | [] => None
  | c :: t =>
    if Ascii.eqb c "-"%char then
      v ← unsigned t; if v <=? 2 ^ 63 then Some (- v) else None
    else
      v ← unsigned (if Ascii.eqb c "+"%char then t else s); if v <? 2 ^ 63 then Some v else None
  end.

Fixpoint dec_digits (fuel : nat) (n : Z) (acc : gostring) : gostring :=
  match fuel with
  | O => acc
  | S f => let acc' := digit (n `mod` 10) :: acc in
           if n <? 10 then acc' else dec_digits f (n / 10) acc'
  end.

(** The decimal digits of a non-negative number: a number has at most as many decimal digits as
    binary ones, so the fuel suffices. *)
Definition utoa (n : Z) : gostring := dec_digits (S (Z.to_nat (Z.log2 n))) n [].

(** [strconv.Itoa] and [strconv.FormatInt(n, 10)]. *)
Definition itoa (n : Z) : gostring := if n <? 0 then "-"%char :: utoa (- n) else utoa n.

(** ** package encoding/hex *)

Definition hex_digit (n : Z) : ascii := if n <? 10 then byte (48 + n) else byte (87 + n).
Definition hex_byte (c : ascii) : gostring := [hex_digit (code c / 16); hex_digit (code c `mod` 16)].
(** [hex.EncodeToString]. *)
Definition hex_encode (s : gostring) : gostring := flat_map hex_byte s.

(** ** Lemmas: prefixes, suffixes and separators *)

Lemma has_prefix_spec p s : has_prefix p s = true ↔ ∃ t, s = p ++ t.
Proof.
  revert s; induction p as [|a p IH]; intros s; simpl; [split; eauto|].
  destruct s as [|b s]; [split; [done|intros [t ?]; done]|].
  rewrite andb_true_iff, Ascii.eqb_eq, IH. split.
  - intros [-> [t ->]]. by exists t.
  - intros [t [= -> ->]]. eauto.
Qed.

Lemma has_suffix_spec p s : has_suffix p s = true ↔ ∃ t, s = t ++ p.
Proof.
  unfold has_suffix. rewrite has_prefix_spec. split; intros [t E].
  - exists (rev t). apply (f_equal (@rev ascii)) in E. rewrite rev_app_distr, !rev_involutive in E. done.
  - exists (rev t). by rewrite E, rev_app_distr.
Qed.

Lemma has_prefix_app p s : has_prefix p (p ++ s) = true.
Proof. apply has_prefix_spec. eauto. Qed.

Lemma trim_prefix_app p s : trim_prefix p (p ++ s) = s.
Proof. unfold trim_prefix. by rewrite has_prefix_app, drop_app_length. Qed.

Lemma contains_byte_app c s t : contains_byte c (s ++ t) = contains_byte c s || contains_byte c t.
Proof. unfold contains_byte. apply existsb_app. Qed.

Lemma contains_byte_false c s : contains_byte c s = false ↔ c ∉ s.
Proof.
  unfold contains_byte. induction s as [|a s IH]; simpl; [set_solver|].
  rewrite orb_false_iff', Ascii.eqb_neq, IH. set_solver.
Qed.

(** Splitting never yields an empty list, and joining the pieces gives the string back. *)
Definition join_on (c : ascii) (l : list gostring) : gostring :=
  match l with
  | [] => []
  | h :: t => h ++ flat_map (λ s, c :: s) t
  end.

Lemma split_on_nonempty c s : split_on c s ≠ [].
Proof. destruct s as [|a s]; simpl; [done|]. destruct (Ascii.eqb a c); [done|]. by destruct (split_on c s). Qed.

Lemma join_split c s : join_on c (split_on c s) = s.
Proof.
  induction s as [|a s IH]; simpl; [done|].
  pose proof (split_on_nonempty c s).
  destruct (Ascii.eqb a c) eqn:E.
  - apply Ascii.eqb_eq in E as ->. destruct (split_on c s) as [|h t]; [done|]. simpl in *. by rewrite IH.
  - destruct (split_on c s) as [|h t]; [done|]. simpl in *. by rewrite IH.
Qed.

Lemma split_on_free c s : c ∉ s → split_on c s = [s].
Proof.
  induction s as [|a s IH]; intros H; simpl; [done|].
  rewrite (proj2 (Ascii.eqb_neq a c)) by set_solver. rewrite IH by set_solver. done.
Qed.

Lemma split_on_app c s t : c ∉ s → split_on c (s ++ c :: t) = s :: split_on c t.
Proof.
  induction s as [|a s IH]; intros H; simpl; [by rewrite Ascii.eqb_refl|].
  rewrite (proj2 (Ascii.eqb_neq a c)) by set_solver. rewrite IH by set_solver. done.
Qed.

(** Splitting is the inverse of joining segments free of the separator. *)
Lemma split_join c h t :
  Forall (λ s, c ∉ s) (h :: t) → split_on c (join_on c (h :: t)) = h :: t.
Proof.
  revert h; induction t as [|k t IH]; intros h H; simpl.
  - rewrite app_nil_r. apply split_on_free. apply Forall_cons in H. tauto.
  - apply Forall_cons in H as [Hh Ht]. rewrite split_on_app by done.
    f_equal. by apply IH.
Qed.

Lemma split_on_segments_free c s : Forall (λ x, c ∉ x) (split_on c s).
Proof.
  induction s as [|a s IH]; simpl; [repeat constructor; set_solver|].
  destruct (Ascii.eqb a c) eqn:E; [constructor; [set_solver|done]|].
  apply Ascii.eqb_neq in E. destruct (split_on c s) as [|h t]; [repeat constructor; set_solver|].
  apply Forall_cons in IH as [??]. constructor; set_solver.
Qed.

Lemma cut_byte_spec c s before after :
  cut_byte c s = (before, after) →
  c ∉ before ∧ s = before ++ match after with Some t => c :: t | None => [] end.
Proof.
  revert before after; induction s as [|a s IH]; intros before after H; simpl in H.
  - injection H as <- <-. set_solver.
  - destruct (Ascii.eqb a c) eqn:E.
    + injection H as <- <-. apply Ascii.eqb_eq in E as ->. set_solver.
    + destruct (cut_byte c s) as [b r]. injection H as <- <-.
      destruct (IH b r eq_refl) as [? ->]. apply Ascii.eqb_neq in E. set_solver.
Qed.

Lemma cut_byte_none c s : c ∉ s → cut_byte c s = (s, None).
Proof.
  induction s as [|a s IH]; intros H; simpl; [done|].
  rewrite (proj2 (Ascii.eqb_neq a c)) by set_solver. rewrite IH by set_solver. done.
Qed.

Lemma cut_byte_app c s t : c ∉ s → cut_byte c (s ++ c :: t) = (s, Some t).
Proof.
  induction s as [|a s IH]; intros H; simpl; [by rewrite Ascii.eqb_refl|].
  rewrite (proj2 (Ascii.eqb_neq a c)) by set_solver. rewrite IH by set_solver. done.
Qed.

(** ** Lemmas: decimal numbers *)

Lemma is_digit_spec c : is_digit c = true ↔ 48 ≤ code c ≤ 57.
Proof. unfold is_digit. breflect. reflexivity. Qed.

Lemma code_digit n : 0 ≤ n < 10 → code (digit n) = 48 + n.
Proof. intros. unfold digit. apply code_byte_small. lia. Qed.

Lemma is_digit_digit n : 0 ≤ n < 10 → is_digit (digit n) = true.
Proof. intros. apply is_digit_spec. rewrite code_digit; lia. Qed.

Lemma dec_value_app s t : dec_value (s ++ t) = fold_left (λ acc c, acc * 10 + (code c - 48)) t (dec_value s).
Proof. unfold dec_value. by rewrite fold_left_app. Qed.

Lemma fold_dec_shift t a :
  fold_left (λ acc c, acc * 10 + (code c - 48)) t a = a * 10 ^ len t + dec_value t.
Proof.
  unfold dec_value. revert a. induction t as [|c t IH]; intros a; cbn [fold_left].
  - rewrite len_nil. lia.
  - rewrite IH, (IH (0 * 10 + (code c - 48))). rewrite len_cons, Z.pow_add_r by (pose proof (len_nonneg t); lia). lia.
Qed.

Lemma dec_value_cons c t : dec_value (c :: t) = (code c - 48) * 10 ^ len t + dec_value t.
Proof. unfold dec_value at 1. cbn [fold_left]. rewrite fold_dec_shift. f_equal. Qed.

Lemma dec_value_bounds s : forallb is_digit s = true → 0 ≤ dec_value s < 10 ^ len s.
Proof.
  induction s as [|c s IH]; intros H; simpl in H; [by split|].
  rewrite andb_true_iff, is_digit_spec in H. destruct H as [Hc H]. specialize (IH H).
  rewrite dec_value_cons, len_cons, Z.pow_add_r by (pose proof (len_nonneg s); lia).
  change (10 ^ 1) with 10. nia.
Qed.

Lemma dec_digits_digits fuel n acc :
  0 ≤ n → forallb is_digit acc = true → forallb is_digit (dec_digits fuel n acc) = true.
Proof.
  revert n acc; induction fuel as [|f IH]; intros n acc Hn Ha; simpl; [done|].
  assert (forallb is_digit (digit (n `mod` 10) :: acc) = true).
  { simpl. rewrite is_digit_digit, Ha; [done|]. apply Z.mod_pos_bound. lia. }
  destruct (n <? 10); [done|]. apply IH; [|done]. apply Z.div_pos; lia.
Qed.

Lemma dec_digits_value fuel n acc :
  0 ≤ n → n < 2 ^ Z.of_nat fuel → (fuel ≠ 0)%nat →
  dec_value (dec_digits fuel n acc) = n * 10 ^ len acc + dec_value acc.
Proof.
  revert n acc; induction fuel as [|f IH]; intros n acc Hn Hf Hz; [done|]. simpl.
  pose proof (Z.mod_pos_bound n 10 ltac:(lia)).
  assert (Hd : dec_value (digit (n `mod` 10) :: acc) = n `mod` 10 * 10 ^ len acc + dec_value acc).
  { rewrite dec_value_cons, code_digit by lia. f_equal. lia. }
  destruct (n <? 10) eqn:E.
  - apply Z.ltb_lt in E. rewrite Hd, Z.mod_small by lia. done.
  - apply Z.ltb_ge in E. rewrite Nat2Z.inj_succ, Z.pow_succ_r in Hf by lia.
    destruct f as [|f]; [simpl in Hf; lia|].
    rewrite IH; [|apply Z.div_pos; lia|apply Z.div_lt_upper_bound; lia|done].
    rewrite Hd, len_cons, Z.pow_add_r by (pose proof (len_nonneg acc); lia).
    rewrite (Z.div_mod n 10) at 3 by lia. lia.
Qed.

Lemma utoa_digits n : 0 ≤ n → forallb is_digit (utoa n) = true.
Proof. intros. by apply dec_digits_digits. Qed.

Lemma utoa_value n : 0 ≤ n → dec_value (utoa n) = n.
Proof.
  intros Hn. unfold utoa. rewrite dec_digits_value; [change (dec_value []) with 0; rewrite len_nil; lia|done| |done].
  rewrite Nat2Z.inj_succ, Z2Nat.id by apply Z.log2_nonneg.
  destruct (Z.eq_dec n 0) as [->|]; [done|]. apply Z.log2_spec. lia.
Qed.

Lemma dec_digits_nonempty fuel n acc : (fuel ≠ 0)%nat ∨ acc ≠ [] → dec_digits fuel n acc ≠ [].
Proof.
  revert n acc; induction fuel as [|f IH]; intros n acc [?|?]; simpl; try done;
    (destruct (n <? 10); [done|]; apply IH; by right).
Qed.

Lemma utoa_nonempty n : utoa n ≠ [].
Proof. apply dec_digits_nonempty. by left. Qed.

Lemma digit_not_sign c : is_digit c = true → c ≠ "-"%char ∧ c ≠ "+"%char.
Proof. rewrite is_digit_spec. split; intros ->; cbv in *; naive_solver. Qed.

(** Parsing what [strconv.Itoa] printed gives the number back. *)
Lemma parse_int_itoa z : int64_range z → parse_int (itoa z) = Some z.
Proof.
  unfold int64_range, itoa. intros Hz. destruct (z <? 0) eqn:E; breflect; unfold parse_int.
  - rewrite Ascii.eqb_refl. pose proof (utoa_nonempty (- z)) as Hne.
    pose proof (utoa_digits (- z) ltac:(lia)) as Hd. pose proof (utoa_value (- z) ltac:(lia)) as Hv.
    destruct (utoa (- z)) as [|c t]; [done|]. rewrite Hd. simpl. rewrite Hv.
    rewrite (proj2 (Z.leb_le _ _)) by lia. f_equal. lia.
  - pose proof (utoa_nonempty z) as Hne.
    pose proof (utoa_digits z ltac:(lia)) as Hd. pose proof (utoa_value z ltac:(lia)) as Hv.
    destruct (utoa z) as [|c t]; [done|]. pose proof Hd as Hd'. simpl in Hd'. breflect.
    destruct (digit_not_sign c) as [H1 H2]; [tauto|].
    rewrite (proj2 (Ascii.eqb_neq _ _) H1), (proj2 (Ascii.eqb_neq _ _) H2).
    rewrite Hd. simpl. rewrite Hv. by rewrite (proj2 (Z.ltb_lt _ _)) by lia.
Qed.

Lemma parse_uint_range bits s v : parse_uint bits s = Some v → 0 ≤ v < 2 ^ bits.
Proof.
  unfold parse_uint. destruct s as [|c s]; [done|]. intros H. case_if_in H; [|done].
  injection H as <-. rewrite andb_true_iff, Z.ltb_lt in E. destruct E as [E1 E2].
  pose proof (dec_value_bounds _ E1). lia.
Qed.

Lemma parse_uint_utoa bits n : 0 ≤ n < 2 ^ bits → parse_uint bits (utoa n) = Some n.
Proof.
  intros Hn. unfold parse_uint. pose proof (utoa_nonempty n).
  destruct (utoa n) as [|c t] eqn:E; [done|]. rewrite <- E.
  rewrite utoa_digits, utoa_value by lia. simpl. by rewrite (proj2 (Z.ltb_lt _ _)) by lia.
Qed.

(** ** Lemmas: hexadecimal *)

Definition is_hex (c : ascii) : bool := between 48 57 c || between 97 102 c.

Lemma hex_byte_hex c : forallb is_hex (hex_byte c) = true.
Proof. revert c. apply ascii_forall. vm_compute. reflexivity. Qed.

Lemma hex_encode_hex s : forallb is_hex (hex_encode s) = true.
Proof.
  unfold hex_encode. induction s as [|c s IH]; [done|].
  cbn [flat_map]. by rewrite forallb_app, hex_byte_hex, IH.
Qed.

Lemma hex_encode_length s : length (hex_encode s) = (2 * length s)%nat.
Proof. unfold hex_encode. induction s as [|c s IH]; simpl in *; lia. Qed.

Lemma hex_digit_inj m n : 0 ≤ m < 16 → 0 ≤ n < 16 → hex_digit m = hex_digit n → m = n.
Proof.
  intros Hm Hn H. apply (f_equal code) in H. unfold hex_digit in H.
  destruct (Z.ltb_spec m 10), (Z.ltb_spec n 10); rewrite !code_byte_small in H by lia; lia.
Qed.

Lemma hex_byte_inj a b : hex_byte a = hex_byte b → a = b.
Proof.
  unfold hex_byte. intros H. pose proof (code_range a). pose proof (code_range b). apply code_inj.
  rewrite (Z.div_mod (code a) 16), (Z.div_mod (code b) 16) by lia. f_equal; [f_equal|]; apply hex_digit_inj;
    try (apply Z.mod_pos_bound; lia); try (split; [apply Z.div_pos; lia|apply Z.div_lt_upper_bound; lia]); by injection H.
Qed.

(** ** Lemmas: case and space on ASCII *)

Lemma lower_rune_ascii b :
  is_ascii b = true → lower_rune (RValid (code b) [b]) = [lower_byte b].
Proof.
  unfold is_ascii, lower_rune, lower_byte, between. intros ->. by case_match.
Qed.

Lemma to_lower_ascii s : all_ascii s = true → to_lower s = map lower_byte s.
Proof.
  intros H. unfold to_lower. rewrite <- (app_nil_r s) at 1. rewrite runes_all_ascii by done.
  simpl. rewrite app_nil_r. unfold all_ascii in H.
  induction s as [|b s IH]; [done|]. simpl in H. breflect. destruct H as [Hb H].
  cbn [map flat_map]. rewrite lower_rune_ascii by done. simpl. by rewrite IH.
Qed.
