(* ===== verification/Regex.v ===== *)
(** * Anchored regular expressions

    The program validates every identifier with [regexp.MustCompile("^...$").MatchString]. This
    file gives those patterns a syntax, a meaning ([matches]) and an executable matcher by
    derivatives ([match_string]), and proves the two equal. All classes of the program's patterns
    are positive and ASCII, so that matching bytes and matching runes coincide. *)

From S2P Require Import Prelude Utf8 GoStrings.

Inductive re : Type :=
| RVoid
| REps
| RClass (p : ascii → bool)
| RCat (r s : re)
| RAlt (r s : re)
| RStar (r : re)
(** A counted class [[...]{lo,hi}]. *)
| RCount (p : ascii → bool) (lo hi : nat).

(** A character class is a list of ranges. *)
Definition in_ranges (l : list (ascii * ascii)) (c : ascii) : bool :=
  existsb (λ '(a, b), (code a <=? code c) && (code c <=? code b)) l.

Definition in_set (s : gostring) (c : ascii) : bool := contains_byte c s.

(** Literal text, [r+], [r?] and concatenation of several. *)
Definition RLit (s : string) : re := fold_right (λ c r, RCat (RClass (Ascii.eqb c)) r) REps (lit s).
Definition RPlus (r : re) : re := RCat r (RStar r).
Definition ROpt (r : re) : re := RAlt REps r.
Definition RSeq (l : list re) : re := fold_right RCat REps l.

(** The character classes of the patterns. *)
Module Class_.
Definition digit := in_ranges [("0", "9")]%char.
Definition lower := in_ranges [("a", "z")]%char.
Definition upper := in_ranges [("A", "Z")]%char.
Definition hex := in_ranges [("a", "f"); ("0", "9")]%char.
Definition lower_digit (c : ascii) : bool := lower c || digit c.
Definition alpha (c : ascii) : bool := upper c || lower c.
Definition alnum (c : ascii) : bool := alpha c || digit c.
Definition plus (p : ascii → bool) (s : gostring) (c : ascii) : bool := p c || in_set s c.
End Class_.
(** ** Meaning *)

Inductive matches : re → gostring → Prop :=
| m_eps : matches REps []
| m_class p c : p c = true → matches (RClass p) [c]
| m_cat r s u v : matches r u → matches s v → matches (RCat r s) (u ++ v)
| m_alt_l r s u : matches r u → matches (RAlt r s) u
| m_alt_r r s u : matches s u → matches (RAlt r s) u
| m_star_nil r : matches (RStar r) []
| m_star_cons r u v : matches r u → matches (RStar r) v → matches (RStar r) (u ++ v)
| m_count p lo hi u :
    (lo ≤ length u ≤ hi)%nat → Forall (λ c, p c = true) u → matches (RCount p lo hi) u.

(** ** The matcher *)

Fixpoint nullable (r : re) : bool :=
  match r with
  | RVoid | RClass _ => false
  | REps | RStar _ => true
  | RCat r s => nullable r && nullable s
  | RAlt r s => nullable r || nullable s
  | RCount _ lo _ => bool_decide (lo = 0%nat)
  end.

(** Constructors that drop dead branches, which keeps derivatives small. *)
Definition mk_cat (r s : re) : re :=
  match r, s with
  | RVoid, _ | _, RVoid => RVoid
  | REps, _ => s
  | _, _ => RCat r s
  end.
Definition mk_alt (r s : re) : re :=
  match r, s with
  | RVoid, _ => s
  | _, RVoid => r
  | _, _ => RAlt r s
  end.

Fixpoint der (c : ascii) (r : re) : re :=
  match r with
  | RVoid | REps => RVoid
  | RClass p => if p c then REps else RVoid
  | RCat r s =>
    if nullable r then mk_alt (mk_cat (der c r) s) (der c s) else mk_cat (der c r) s
  | RAlt r s => mk_alt (der c r) (der c s)
  | RStar r => mk_cat (der c r) (RStar r)
  | RCount p lo hi =>
    match hi with
    | O => RVoid
    | S h => if p c then RCount p (pred lo) h else RVoid
    end
  end.

(** [regexp.MustCompile("^r$").MatchString(s)]. *)
Fixpoint match_string (r : re) (s : gostring) : bool :=
  match s with
  | [] => nullable r
  | c :: s' => match_string (der c r) s'
  end.

(** Inclusion of a class in a set of bytes, and whether every character a pattern can consume is
    in a set: used to bound what a validated string contains. *)
Definition class_sub (p P : ascii → bool) : bool :=
  forallb (λ n, implb (p (ascii_of_nat n)) (P (ascii_of_nat n))) (seq 0 256).
Arguments class_sub : simpl never.

Fixpoint re_chars (P : ascii → bool) (r : re) : bool :=
  match r with
  | RVoid | REps => true
  | RClass p | RCount p _ _ => class_sub p P
  | RCat r s | RAlt r s => re_chars P r && re_chars P s
  | RStar r => re_chars P r
  end.

(** The longest match of a star-free pattern; [None] when unbounded. *)
Fixpoint re_maxlen (r : re) : option nat :=
  match r with
  | RVoid | REps => Some 0%nat
  | RClass _ => Some 1%nat
  | RCat r s => m ← re_maxlen r; n ← re_maxlen s; Some (m + n)%nat
  | RAlt r s => m ← re_maxlen r; n ← re_maxlen s; Some (m `max` n)%nat
  | RStar _ => None
  | RCount _ _ hi => Some hi
  end.

Fixpoint re_minlen (r : re) : nat :=
  match r with
  | RVoid | REps | RStar _ => 0%nat
  | RClass _ => 1%nat
  | RCat r s => (re_minlen r + re_minlen s)%nat
  | RAlt r s => (re_minlen r `min` re_minlen s)%nat
  | RCount _ lo _ => lo
  end.

(** ** Correctness of the matcher *)

Lemma matches_void s : ¬ matches RVoid s.
Proof. inversion 1. Qed.

Lemma matches_eps s : matches REps s ↔ s = [].
Proof. split; [by inversion 1|intros ->; constructor]. Qed.

Lemma matches_cat r s w : matches (RCat r s) w ↔ ∃ u v, w = u ++ v ∧ matches r u ∧ matches s v.
Proof. split; [inversion 1; eauto|intros (u & v & -> & ? & ?); by constructor]. Qed.

Lemma matches_alt r s w : matches (RAlt r s) w ↔ matches r w ∨ matches s w.
Proof. split; [inversion 1; eauto|intros [?|?]; [by apply m_alt_l|by apply m_alt_r]]. Qed.

Lemma matches_class p w : matches (RClass p) w ↔ ∃ c, w = [c] ∧ p c = true.
Proof. split; [inversion 1; eauto|intros (c & -> & ?); by constructor]. Qed.

Lemma matches_count p lo hi w :
  matches (RCount p lo hi) w ↔ (lo ≤ length w ≤ hi)%nat ∧ Forall (λ c, p c = true) w.
Proof. split; [by inversion 1|intros []; by constructor]. Qed.

Lemma matches_mk_cat r s w : matches (mk_cat r s) w ↔ matches (RCat r s) w.
Proof.
  assert (Hv : ∀ q, matches RVoid w ↔ matches (RCat q RVoid) w).
  { intros q. rewrite matches_cat. split; [by intros ?%matches_void|].
    by intros (?&?&_&_&?%matches_void). }
  assert (Hv' : ∀ q, matches RVoid w ↔ matches (RCat RVoid q) w).
  { intros q. rewrite matches_cat. split; [by intros ?%matches_void|].
    by intros (?&?&_&?%matches_void&_). }
  assert (He : matches s w ↔ matches (RCat REps s) w).
  { rewrite matches_cat. split.
    - intros. exists [], w. by repeat constructor.
    - intros (u & v & -> & ->%matches_eps & ?). done. }
  destruct r, s; simpl; try done.
Qed.

Lemma matches_mk_alt r s w : matches (mk_alt r s) w ↔ matches (RAlt r s) w.
Proof.
  destruct r, s; simpl; rewrite ?matches_alt; try tauto;
    (split; [tauto|intros [H|H]; [|exact H]; try exact H; by apply matches_void in H])
    || (split; [tauto|intros [H|H]; [exact H|by apply matches_void in H]]).
Qed.

Lemma nullable_spec r : nullable r = true ↔ matches r [].
Proof.
  induction r as [| |p|r IHr s IHs|r IHr s IHs|r IHr|p lo hi]; simpl.
  - split; [done|by intros ?%matches_void].
  - split; [constructor|done].
  - split; [done|]. by intros (c & ? & _)%matches_class.
  - rewrite andb_true_iff, IHr, IHs, matches_cat. split.
    + intros []. by exists [], [].
    + intros (u & v & E & ? & ?). symmetry in E. apply app_nil in E as [-> ->]. done.
  - by rewrite orb_true_iff, IHr, IHs, matches_alt.
  - split; [constructor|done].
  - rewrite bool_decide_eq_true, matches_count. simpl. split; [intros ->; split; [lia|done]|lia].
Qed.

Lemma matches_star_cons r c w :
  matches (RStar r) (c :: w) ↔ ∃ u v, w = u ++ v ∧ matches r (c :: u) ∧ matches (RStar r) v.
Proof.
  split.
  - intros H. remember (RStar r) as q eqn:Eq. remember (c :: w) as x eqn:Ex.
    revert w Ex. induction H as [| | | | | |q u v Hu _ Hv IH|]; intros w Ex; try discriminate.
    injection Eq as ->. destruct u as [|a u]; simpl in Ex; [by apply IH|].
    injection Ex as -> <-. eauto.
  - intros (u & v & -> & Hu & Hv). change (c :: u ++ v) with ((c :: u) ++ v). by constructor.
Qed.

Lemma matches_cat_cons r s c w :
  matches (RCat r s) (c :: w) ↔
  (∃ u v, w = u ++ v ∧ matches r (c :: u) ∧ matches s v) ∨ (matches r [] ∧ matches s (c :: w)).
Proof.
  rewrite matches_cat. split.
  - intros (u & v & E & ? & ?). destruct u as [|a u]; simpl in E; [subst; auto|].
    injection E as <- ->. left. eauto.
  - intros [(u & v & -> & ? & ?)|[]]; [by exists (c :: u), v|by exists [], (c :: w)].
Qed.

Lemma der_spec c r w : matches (der c r) w ↔ matches r (c :: w).
Proof.
  revert w. induction r as [| |p|r IHr s IHs|r IHr s IHs|r IHr|p lo hi]; intros w; simpl.
  - split; by intros ?%matches_void.
  - split; [by intros ?%matches_void|by intros ?%matches_eps].
  - rewrite matches_class. destruct (p c) eqn:E.
    + rewrite matches_eps. split; [intros ->; eauto|by intros (? & [= -> ->] & _)].
    + split; [by intros ?%matches_void|]. intros (? & [= -> ->] & ?). congruence.
  - assert (Hl : matches (mk_cat (der c r) s) w ↔ ∃ u v, w = u ++ v ∧ matches r (c :: u) ∧ matches s v).
    { rewrite matches_mk_cat, matches_cat. by setoid_rewrite IHr. }
    rewrite matches_cat_cons, <- nullable_spec. destruct (nullable r).
    + rewrite matches_mk_alt, matches_alt, Hl, IHs. naive_solver.
    + rewrite Hl. naive_solver.
  - by rewrite matches_mk_alt, !matches_alt, IHr, IHs.
  - rewrite matches_mk_cat, matches_cat, matches_star_cons. by setoid_rewrite IHr.
  - rewrite matches_count. destruct hi as [|h].
    { split; [by intros ?%matches_void|]. simpl. lia. }
    rewrite Forall_cons. simpl length. destruct (p c) eqn:E.
    + rewrite matches_count. split; intros [??]; repeat split; try done; try tauto; lia.
    + split; [by intros ?%matches_void|]. intros (_ & ? & _). congruence.
Qed.

(** The matcher decides the language of the pattern. *)
Lemma match_string_spec r s : match_string r s = true ↔ matches r s.
Proof.
  revert r; induction s as [|c s IH]; intros r; simpl; [apply nullable_spec|].
  by rewrite IH, der_spec.
Qed.

(** ** What a match tells *)

Lemma re_chars_spec P r s : re_chars P r = true → matches r s → forallb P s = true.
Proof.
  assert (Hp : ∀ p c, class_sub p P = true → p c = true → P c = true).
  { intros p c Hall Hc. pose proof (ascii_forall (λ c, implb (p c) (P c)) Hall c) as H.
    simpl in H. by rewrite Hc in H. }
  intros H. induction 1 as [|p c Hc|r1 r2 u v _ IH1 _ IH2|r1 r2 u _ IH|r1 r2 u _ IH|r|r u v _ IH1 _ IH2|p lo hi u _ Hu];
    simpl in H; try (rewrite andb_true_iff in H; destruct H as [H1 H2]); rewrite ?forallb_app; try done.
  - simpl. rewrite (Hp p c) by done. done.
  - rewrite IH1, IH2 by done. done.
  - auto.
  - auto.
  - rewrite IH1, IH2 by done. done.
  - rewrite forallb_Forall. eapply Forall_impl; [exact Hu|]. simpl. eauto.
Qed.

Lemma re_maxlen_spec r s n : re_maxlen r = Some n → matches r s → (length s ≤ n)%nat.
Proof.
  intros H Hm. revert n H. induction Hm as [|p c Hc|r1 r2 u v _ IH1 _ IH2|r1 r2 u _ IH|r1 r2 u _ IH|r|r u v _ IH1 _ IH2|p lo hi u Hl Hu];
    intros n H; simpl in H; simplify_option_eq; rewrite ?length_app; simpl; try lia.
  - specialize (IH1 _ eq_refl). specialize (IH2 _ eq_refl). lia.
  - specialize (IH _ eq_refl). lia.
  - specialize (IH _ eq_refl). lia.
Qed.

Lemma re_minlen_spec r s : matches r s → (re_minlen r ≤ length s)%nat.
Proof. induction 1; simpl; rewrite ?length_app; lia. Qed.

(** A matched string consists of characters of the pattern. *)
Lemma match_string_chars P r s : re_chars P r = true → match_string r s = true → forallb P s = true.
Proof. intros ? ?%match_string_spec. by eapply re_chars_spec. Qed.

Lemma match_string_minlen r s : match_string r s = true → (re_minlen r ≤ length s)%nat.
Proof. intros ?%match_string_spec. by apply re_minlen_spec. Qed.

Lemma match_string_maxlen r s n :
  re_maxlen r = Some n → match_string r s = true → (length s ≤ n)%nat.
Proof. intros ? ?%match_string_spec. by eapply re_maxlen_spec. Qed.

Lemma match_string_nonempty r s : (1 ≤ re_minlen r)%nat → match_string r s = true → s ≠ [].
Proof. intros ? ?%match_string_minlen ->. simpl in *. lia. Qed.

Lemma match_string_count p lo hi s :
  match_string (RCount p lo hi) s = true ↔ (lo ≤ length s ≤ hi)%nat ∧ forallb p s = true.
Proof. by rewrite match_string_spec, matches_count, forallb_Forall. Qed.

Lemma match_string_cat r s u v :
  match_string r u = true → match_string s v = true → match_string (RCat r s) (u ++ v) = true.
Proof. rewrite !match_string_spec. apply m_cat. Qed.

(** Every pattern of the program is ASCII. *)
Lemma pattern_ascii r s : re_chars is_ascii r = true → match_string r s = true → all_ascii s = true.
Proof. apply match_string_chars. Qed.

Lemma pattern_utf8 r s : re_chars is_ascii r = true → match_string r s = true → utf8_valid s = true.
Proof. intros. eapply utf8_valid_ascii, pattern_ascii; eauto. Qed.

Lemma pattern_free c r s : re_chars (λ d, negb (Ascii.eqb c d)) r = true → match_string r s = true → c ∉ s.
Proof.
  intros Hr Hm Hin. pose proof (match_string_chars _ _ _ Hr Hm) as H. rewrite forallb_forall in H.
  apply list_elem_of_In, H in Hin. by rewrite Ascii.eqb_refl in Hin.
Qed.
