(* ===== verification/GoTime.v ===== *)
(** * Go's [time] package as the receipts use it

    Instants, durations, and the textual form ["2006-01-02T15:04:05Z"] of receipts, manifests and
    queue messages: [Format], and [Parse] with the liberties Go takes (a fractional second is
    accepted after the seconds, the hour may have one digit). The main result is that a
    formatted instant parses back to itself, truncated to the second. *)

From S2P Require Import Prelude Utf8 GoStrings.

#[local] Ltac Zify.zify_post_hook ::= Z.div_mod_to_equations.

(** A [time.Time]: nanoseconds since the Unix epoch, and whether its location is [time.UTC]. *)
Record Time : Type := mkTime { t_ns : Z; t_utc : bool }.

(** A [time.Duration] is an [int64] of nanoseconds. *)
Definition Second : Z := 1000000000.

(** [t.Before(u)], [t.UTC()], [t.Add(d)]. *)
Definition time_before (t u : Time) : bool := t_ns t <? t_ns u.
Definition time_utc (t : Time) : Time := mkTime (t_ns t) true.
Definition time_add (t : Time) (d : Z) : Time := mkTime (t_ns t + d) (t_utc t).
(** [t.Sub(u)] saturates at the limits of a [Duration]. *)
Definition time_sub (t u : Time) : Z := Z.max minInt64 (Z.min maxInt64 (t_ns t - t_ns u)).

(** ** The proleptic Gregorian calendar *)

Definition is_leap (y : Z) : bool :=
  ((y `mod` 4 =? 0) && negb (y `mod` 100 =? 0)) || (y `mod` 400 =? 0).

(** Days from the first day of year 0 to the first day of year [y]. *)
Definition days_before_year (y : Z) : Z := 365 * y + (y + 3) / 4 - (y + 99) / 100 + (y + 399) / 400.

Definition month_lengths (leap : bool) : list Z :=
  [31; if leap then 29 else 28; 31; 30; 31; 30; 31; 31; 30; 31; 30; 31].

(** [daysIn(month, year)]. *)
Definition days_in (m y : Z) : Z := nth (Z.to_nat (m - 1)) (month_lengths (is_leap y)) 0.

Definition days_before_month (m y : Z) : Z :=
  fold_right Z.add 0 (take (Z.to_nat (m - 1)) (month_lengths (is_leap y))).

(** The year of a day number: the quotient by the mean length of a year is off by at most one. *)
Definition year_of_day (d : Z) : Z :=
  let y := 400 * d / 146097 in
  if d <? days_before_year y then y - 1
  else if days_before_year (y + 1) <=? d then y + 1 else y.

Fixpoint month_of (lens : list Z) (m d : Z) : Z * Z :=
  match lens with
  | [] => (m, d + 1)
  | l :: lens' => if d <? l then (m, d + 1) else month_of lens' (m + 1) (d - l)
  end.

(** The first day of 1970. *)
Definition epoch_day : Z := days_before_year 1970.

Record civil : Type := mkCivil { c_year : Z; c_month : Z; c_day : Z }.

Definition civil_of_day (d : Z) : civil :=
  let y := year_of_day d in
  let '(m, dd) := month_of (month_lengths (is_leap y)) 1 (d - days_before_year y) in
  mkCivil y m dd.

Definition day_of_civil (c : civil) : Z :=
  days_before_year (c_year c) + days_before_month (c_month c) (c_year c) + (c_day c - 1).

(** ** Format *)

Fixpoint fixed_digits (w : nat) (n : Z) : gostring :=
  match w with
  | O => []
  | S w' => fixed_digits w' (n / 10) ++ [digit (n `mod` 10)]
  end.

(** [appendInt(b, x, width)] of package time. *)
Definition append_int (w : nat) (x : Z) : gostring :=
  let u := Z.abs x in
  (if x <? 0 then ["-"%char] else []) ++
  (if u <? 10 ^ Z.of_nat w then fixed_digits w u else utoa u).

(** [formatTime], and [Format(time.RFC3339)] on a UTC instant. *)
Definition formatTime (t : Time) : gostring :=
  let secs := t_ns t / Second in
  let c := civil_of_day (secs / 86400 + epoch_day) in
  let s := secs `mod` 86400 in
  append_int 4 (c_year c) ++ "-"%char :: append_int 2 (c_month c) ++ "-"%char ::
  append_int 2 (c_day c) ++ "T"%char :: append_int 2 (s / 3600) ++ ":"%char ::
  append_int 2 ((s / 60) `mod` 60) ++ ":"%char :: append_int 2 (s `mod` 60) ++ ["Z"%char].

(** [Format(time.RFC3339Nano)] on a UTC instant: the fraction of the second without trailing zeros. *)
Definition formatTimeNano (t : Time) : gostring :=
  let fraction := rev (drop_while (Ascii.eqb "0"%char) (rev (fixed_digits 9 (t_ns t `mod` Second)))) in
  removelast (formatTime t) ++ match fraction with [] => [] | _ => "."%char :: fraction end ++ ["Z"%char].

(** ** Parse *)

(** [getnum(s, fixed)]: one or two digits, two when [fixed]. *)
Definition getnum (fixed : bool) (s : gostring) : option (Z * gostring) :=
  match s with
  | a :: t =>
    if is_digit a then
      match t with
      | b :: u =>
        if is_digit b then Some ((code a - 48) * 10 + (code b - 48), u)
        else if fixed then None else Some (code a - 48, t)
      | [] => if fixed then None else Some (code a - 48, t)
      end
    else None
  | [] => None
  end.

Definition expect (c : ascii) (s : gostring) : option gostring :=
  match s with
  | a :: t => if Ascii.eqb a c then Some t else None
  | [] => None
  end.

Definition get_year (s : gostring) : option (Z * gostring) :=
  if (4 <=? len s) && forallb is_digit (take 4 s) then Some (dec_value (take 4 s), drop 4 s) else None.

Fixpoint span_digits (s : gostring) : gostring * gostring :=
  match s with
  | a :: t => if is_digit a then let '(d, r) := span_digits t in (a :: d, r) else ([], s)
  | [] => ([], [])
  end.

(** The fractional second that [Parse] takes after the seconds although the layout has none. *)
Definition get_fraction (s : gostring) : Z * gostring :=
  match s with
  | a :: b :: t =>
    if (Ascii.eqb a "."%char || Ascii.eqb a ","%char) && is_digit b then
      let '(ds, r) := span_digits (b :: t) in
      let ds9 := take 9 ds in
      (dec_value ds9 * 10 ^ (9 - len ds9), r)
    else (0, s)
  | _ => (0, s)
  end.

(** [time.Parse] with the layouts ["2006-01-02T15:04:05Z"] and, for texts that end in [Z],
    [time.RFC3339]. *)
Definition time_parse (s : gostring) : option Time :=
  '(year, s) ← get_year s;
  s ← expect "-"%char s;
  '(month, s) ← getnum true s;
  if (month <? 1) || (12 <? month) then None else
  s ← expect "-"%char s;
  '(day, s) ← getnum true s;
  s ← expect "T"%char s;
  '(hour, s) ← getnum false s;
  if 24 <=? hour then None else
  s ← expect ":"%char s;
  '(min, s) ← getnum true s;
  if 60 <=? min then None else
  s ← expect ":"%char s;
  '(sec, s) ← getnum true s;
  if 60 <=? sec then None else
  let '(nsec, s) := get_fraction s in
  s ← expect "Z"%char s;
  match s with
  | _ :: _ => None
  | [] =>
    if (day <? 1) || (days_in month year <? day) then None else
    let days := day_of_civil (mkCivil year month day) - epoch_day in
    Some (mkTime ((days * 86400 + hour * 3600 + min * 60 + sec) * Second + nsec) true)
  end.

(** The instants whose year has four digits. *)
Definition time_range (t : Time) : Prop :=
  (- epoch_day) * 86400 * Second ≤ t_ns t < (days_before_year 10000 - epoch_day) * 86400 * Second.

(** ** The calendar is a bijection *)

Lemma days_before_year_step y :
  days_before_year (y + 1) = days_before_year y + (if is_leap y then 366 else 365).
Proof.
  unfold days_before_year, is_leap.
  destruct (Z.eqb_spec (y `mod` 4) 0), (Z.eqb_spec (y `mod` 100) 0), (Z.eqb_spec (y `mod` 400) 0);
    simpl; lia.
Qed.

Lemma year_of_day_spec d :
  days_before_year (year_of_day d) ≤ d < days_before_year (year_of_day d + 1).
Proof.
  unfold year_of_day. set (y := 400 * d / 146097).
  assert (days_before_year (y - 1) ≤ d < days_before_year (y + 2)).
  { subst y. unfold days_before_year. lia. }
  destruct (Z.ltb_spec d (days_before_year y)).
  { replace (y - 1 + 1) with y by lia. lia. }
  destruct (Z.leb_spec (days_before_year (y + 1)) d); [|lia].
  replace (y + 1 + 1) with (y + 2) by lia. lia.
Qed.

Lemma days_before_year_mono y z : y ≤ z → days_before_year y ≤ days_before_year z.
Proof. unfold days_before_year. lia. Qed.

Lemma year_of_day_unique d y :
  days_before_year y ≤ d < days_before_year (y + 1) → year_of_day d = y.
Proof.
  intros H. pose proof (year_of_day_spec d) as H'.
  destruct (Z.lt_trichotomy (year_of_day d) y) as [Hl|[|Hl]]; [|done|].
  - pose proof (days_before_year_mono (year_of_day d + 1) y ltac:(lia)). lia.
  - pose proof (days_before_year_mono (y + 1) (year_of_day d) ltac:(lia)). lia.
Qed.

(** The month and day found in a list of month lengths add up to the day of the year. *)
Lemma month_of_spec lens m d m' dd :
  month_of lens m d = (m', dd) → 0 ≤ d < fold_right Z.add 0 lens →
  m ≤ m' < m + len lens ∧
  d = fold_right Z.add 0 (take (Z.to_nat (m' - m)) lens) + (dd - 1) ∧
  1 ≤ dd ≤ nth (Z.to_nat (m' - m)) lens 0.
Proof.
  revert m d; induction lens as [|l lens IH]; intros m d H Hd; simpl in *; [lia|].
  rewrite len_cons. pose proof (len_nonneg lens).
  destruct (Z.ltb_spec d l) as [Hl|Hl].
  - injection H as <- <-. rewrite Z.sub_diag. simpl. lia.
  - destruct (IH _ _ H) as (H1 & H2 & H3); [lia|].
    replace (Z.to_nat (m' - m)) with (S (Z.to_nat (m' - (m + 1)))) by lia. simpl. lia.
Qed.

Lemma month_lengths_total leap :
  fold_right Z.add 0 (month_lengths leap) = if leap then 366 else 365.
Proof. by destruct leap. Qed.

Lemma civil_of_day_spec d :
  let c := civil_of_day d in
  c_year c = year_of_day d ∧ 1 ≤ c_month c ≤ 12 ∧
  1 ≤ c_day c ≤ days_in (c_month c) (c_year c) ∧ day_of_civil c = d.
Proof.
  unfold civil_of_day, day_of_civil, days_before_month, days_in.
  destruct (month_of _ _ _) as [m dd] eqn:E. cbn [c_year c_month c_day].
  pose proof (year_of_day_spec d) as Hy. rewrite days_before_year_step in Hy.
  apply month_of_spec in E as (H1 & H2 & H3); [|rewrite month_lengths_total; destruct (is_leap _); lia].
  change (len (month_lengths (is_leap (year_of_day d)))) with 12 in H1. lia.
Qed.

Lemma days_in_range m y : 1 ≤ m ≤ 12 → 28 ≤ days_in m y ≤ 31.
Proof.
  intros Hm. unfold days_in.
  assert (Hf : Forall (λ l, 28 ≤ l ≤ 31) (month_lengths (is_leap y))).
  { unfold month_lengths. destruct (is_leap y); repeat constructor; lia. }
  rewrite List.Forall_forall in Hf. apply Hf, nth_In.
  change (length (month_lengths (is_leap y))) with 12%nat. lia.
Qed.

(** ** Parsing fixed-width numbers *)

Lemma fixed_digits_length w n : length (fixed_digits w n) = w.
Proof. revert n; induction w as [|w IH]; intros n; simpl; [done|]. rewrite length_app, IH. simpl. lia. Qed.

Lemma fixed_digits_digits w n : 0 ≤ n → forallb is_digit (fixed_digits w n) = true.
Proof.
  revert n; induction w as [|w IH]; intros n Hn; simpl; [done|].
  rewrite forallb_app, IH by lia. simpl. rewrite is_digit_digit by lia. done.
Qed.

Lemma fixed_digits_value w n : 0 ≤ n < 10 ^ Z.of_nat w → dec_value (fixed_digits w n) = n.
Proof.
  revert n; induction w as [|w IH]; intros n Hn.
  - simpl in *. unfold dec_value. simpl. lia.
  - rewrite Nat2Z.inj_succ, Z.pow_succ_r in Hn by lia. simpl.
    rewrite dec_value_app. cbn [fold_left]. rewrite IH, code_digit by lia. lia.
Qed.

Lemma append_int_small w x : 0 ≤ x < 10 ^ Z.of_nat w → append_int w x = fixed_digits w x.
Proof.
  intros. unfold append_int. rewrite (proj2 (Z.ltb_ge x 0)), (proj2 (Z.ltb_lt _ _)); [|lia..].
  by rewrite Z.abs_eq by lia.
Qed.

Lemma getnum_fixed fixed x s : 0 ≤ x < 100 → getnum fixed (append_int 2 x ++ s) = Some (x, s).
Proof.
  intros. rewrite append_int_small by done. simpl. rewrite !is_digit_digit, !code_digit by lia.
  do 2 f_equal. lia.
Qed.

Lemma get_year_fixed x s : 0 ≤ x < 10000 → get_year (append_int 4 x ++ s) = Some (x, s).
Proof.
  intros. rewrite append_int_small by done. unfold get_year.
  pose proof (fixed_digits_length 4 x) as Hl.
  rewrite len_app. unfold len at 1. rewrite Hl.
  rewrite take_app_le, drop_app_le by lia. rewrite !take_ge, drop_ge by lia.
  rewrite fixed_digits_digits, fixed_digits_value by lia.
  rewrite (proj2 (Z.leb_le _ _)) by (pose proof (len_nonneg s); lia). done.
Qed.

Lemma expect_cons c s : expect c (c :: s) = Some s.
Proof. simpl. by rewrite Ascii.eqb_refl. Qed.

Lemma get_fraction_Z : get_fraction ["Z"%char] = (0, ["Z"%char]).
Proof. done. Qed.

(** An instant written by [formatTime] is read back as the same instant without its fraction of a
    second. *)
Lemma time_parse_format t :
  time_range t → time_parse (formatTime t) = Some (mkTime (t_ns t / Second * Second) true).
Proof.
  unfold time_range, formatTime. intros Hr. set (secs := t_ns t / Second).
  set (d := secs / 86400 + epoch_day).
  assert (Hd : days_before_year 0 ≤ d < days_before_year 10000).
  { subst d secs. unfold Second in *. change (days_before_year 0) with 0. lia. }
  destruct (civil_of_day_spec d) as (Hy & Hm & Hdd & Hday).
  set (c := civil_of_day d) in *.
  assert (Hyr : 0 ≤ c_year c < 10000).
  { rewrite Hy. pose proof (year_of_day_spec d) as [H1 H2]. split.
    - destruct (Z.le_gt_cases 0 (year_of_day d)); [done|].
      pose proof (days_before_year_mono (year_of_day d + 1) 0 ltac:(lia)). lia.
    - destruct (Z.lt_ge_cases (year_of_day d) 10000); [done|].
      pose proof (days_before_year_mono 10000 (year_of_day d) ltac:(lia)). lia. }
  pose proof (days_in_range (c_month c) (c_year c) Hm) as Hin.
  set (s := secs `mod` 86400). assert (Hs : 0 ≤ s < 86400) by (subst s; lia).
  unfold time_parse. rewrite get_year_fixed by lia. cbn [mbind option_bind].
  rewrite expect_cons. cbn [mbind option_bind]. rewrite getnum_fixed by lia. cbn [mbind option_bind].
  rewrite (proj2 (Z.ltb_ge (c_month c) 1)), (proj2 (Z.ltb_ge 12 (c_month c))) by lia. cbn [orb].
  rewrite expect_cons. cbn [mbind option_bind]. rewrite getnum_fixed by lia. cbn [mbind option_bind].
  rewrite expect_cons. cbn [mbind option_bind]. rewrite getnum_fixed by lia. cbn [mbind option_bind].
  rewrite (proj2 (Z.leb_gt 24 (s / 3600))) by lia.
  rewrite expect_cons. cbn [mbind option_bind]. rewrite getnum_fixed by lia. cbn [mbind option_bind].
  rewrite (proj2 (Z.leb_gt 60 ((s / 60) `mod` 60))) by lia.
  rewrite expect_cons. cbn [mbind option_bind]. rewrite getnum_fixed by lia. cbn [mbind option_bind].
  rewrite (proj2 (Z.leb_gt 60 (s `mod` 60))) by lia.
  rewrite get_fraction_Z, expect_cons. cbn [mbind option_bind].
  rewrite (proj2 (Z.ltb_ge (c_day c) 1)), (proj2 (Z.ltb_ge (days_in (c_month c) (c_year c)) (c_day c))) by lia.
  cbn [orb]. f_equal. f_equal.
  replace {| c_year := c_year c; c_month := c_month c; c_day := c_day c |} with c by (by destruct c).
  rewrite Hday, Z.add_0_r. f_equal. subst d s. clearbody secs. clear. lia.
Qed.

(** ** Characters of a formatted time *)

Definition is_time_char (c : ascii) : bool := is_digit c || contains_byte c (lit "-T:Z").

Lemma digits_time_chars s : forallb is_digit s = true → forallb is_time_char s = true.
Proof.
  rewrite !forallb_Forall. intros H. eapply Forall_impl; [exact H|]. unfold is_time_char. by intros c ->.
Qed.

Lemma append_int_chars w x : forallb is_time_char (append_int w x) = true.
Proof.
  unfold append_int. rewrite forallb_app, andb_true_iff. split; [by destruct (x <? 0)|].
  apply digits_time_chars. destruct (_ <? _); [apply fixed_digits_digits|apply utoa_digits]; lia.
Qed.

Lemma formatTime_chars t : forallb is_time_char (formatTime t) = true.
Proof.
  unfold formatTime. repeat (rewrite forallb_app, append_int_chars; cbn [forallb andb]).
  by rewrite ?andb_true_r.
Qed.

Lemma formatTime_utf8 t : utf8_valid (formatTime t) = true.
Proof.
  apply utf8_valid_ascii. unfold all_ascii. pose proof (formatTime_chars t) as H. revert H.
  rewrite !forallb_Forall. intros H. eapply Forall_impl; [exact H|].
  intros c. apply implb_true_iff. revert c. apply ascii_forall. vm_compute. reflexivity.
Qed.
