(* ===== verification/Json.v ===== *)
(** * encoding/json

    The parts of Go's [encoding/json] the program uses: the compact encoder with HTML escaping
    ([json.Marshal]), the value parser behind [Decoder.Decode] and [json.Unmarshal], and the token
    stream of [Decoder.Token] and [Decoder.More] with its state machine. *)

From S2P Require Import Prelude Utf8 GoStrings.

(** A parsed document: object members in document order, duplicates included, strings unquoted,
    numbers as their literals. *)
Inductive json : Type :=
| JNull
| JBool (b : bool)
| JNum (l : gostring)
| JStr (s : gostring)
| JArr (l : list json)
| JObj (l : list (gostring * json)).

(** ** Encoding *)

Definition quote : ascii := byte 34.
Definition backslash : ascii := byte 92.

Definition hex4 (cp : Z) : gostring :=
  [hex_digit (cp / 4096); hex_digit ((cp / 256) `mod` 16); hex_digit ((cp / 16) `mod` 16);
   hex_digit (cp `mod` 16)].
Definition u_escape (cp : Z) : gostring := backslash :: "u"%char :: hex4 cp.

(** [appendString] on one ASCII byte, with [escapeHTML]. *)
Definition escape_byte (c : ascii) : gostring :=
  let n := code c in
  if (n =? 34) || (n =? 92) then [backslash; c]
  else if n =? 8 then [backslash; "b"%char]
  else if n =? 12 then [backslash; "f"%char]
  else if n =? 10 then [backslash; "n"%char]
  else if n =? 13 then [backslash; "r"%char]
  else if n =? 9 then [backslash; "t"%char]
  else if (n <? 0x20) || (n =? 60) || (n =? 62) || (n =? 38) then u_escape n
  else [c].

Definition escape_rune (r : rune) : gostring :=
  match r with
  | RBad _ => u_escape runeError
  | RValid cp raw =>
    if cp <? 0x80 then flat_map escape_byte raw
    else if (cp =? 0x2028) || (cp =? 0x2029) then u_escape cp
    else raw
  end.

Definition escape (s : gostring) : gostring := flat_map escape_rune (runes s).
Definition print_string (s : gostring) : gostring := quote :: escape s ++ [quote].
Arguments print_string : simpl never.

(** The compact text of a document. *)
Fixpoint print (j : json) : gostring :=
  match j with
  | JNull => lit "null"
  | JBool true => lit "true"
  | JBool false => lit "false"
  | JNum l => l
  | JStr s => print_string s
  | JArr l =>
    "["%char :: match l with
                | [] => []
                | x :: xs => print x ++ flat_map (λ y, ","%char :: print y) xs
                end ++ ["]"%char]
  | JObj l =>
    "{"%char :: match l with
                | [] => []
                | (k, x) :: xs =>
                  print_string k ++ ":"%char :: print x ++
                  flat_map (λ kv, ","%char :: print_string (fst kv) ++ ":"%char :: print (snd kv)) xs
                end ++ ["}"%char]
  end.

(** ** Lexing *)

Definition is_ws (c : ascii) : bool :=
  let n := code c in (n =? 32) || (n =? 9) || (n =? 13) || (n =? 10).
Definition skip_ws (s : gostring) : gostring := drop_while is_ws s.

Definition hex_val (c : ascii) : option Z :=
  if between 48 57 c then Some (code c - 48)
  else if between 97 102 c then Some (code c - 87)
  else if between 65 70 c then Some (code c - 55)
  else None.
Definition is_hexdigit (c : ascii) : bool := match hex_val c with Some _ => true | None => false end.

Definition is_simple_escape (c : ascii) : bool := contains_byte c (quote :: backslash :: lit "/bfnrt").

(** The body of a string literal after its opening quote, and the text after its closing one, as
    the scanner delimits it. *)
Fixpoint lex_string (s : gostring) : option (gostring * gostring) :=
  match s with
  | [] => None
  | c :: t =>
    if Ascii.eqb c quote then Some ([], t)
    else if Ascii.eqb c backslash then
      match t with
      | e :: t' =>
        if is_simple_escape e then '(b, r) ← lex_string t'; Some (c :: e :: b, r)
        else if Ascii.eqb e "u"%char then
          match t' with
          | h1 :: h2 :: h3 :: h4 :: t'' =>
            if is_hexdigit h1 && is_hexdigit h2 && is_hexdigit h3 && is_hexdigit h4
            then '(b, r) ← lex_string t''; Some (c :: e :: h1 :: h2 :: h3 :: h4 :: b, r)
            else None
          | _ => None
          end
        else None
      | [] => None
      end
    else if code c <? 0x20 then None
    else '(b, r) ← lex_string t; Some (c :: b, r)
  end.

Definition rune_hex (r : rune) : option Z :=
  match r with RValid _ [c] => hex_val c | _ => None end.
Definition hex4_val (h1 h2 h3 h4 : rune) : option Z :=
  a ← rune_hex h1; b ← rune_hex h2; c ← rune_hex h3; d ← rune_hex h4;
  Some (a * 4096 + b * 256 + c * 16 + d).

Definition is_surrogate (cp : Z) : bool := (0xD800 <=? cp) && (cp <? 0xE000).

(** [utf16.DecodeRune]. *)
Definition utf16_decode (r1 r2 : Z) : option Z :=
  if (0xD800 <=? r1) && (r1 <? 0xDC00) && (0xDC00 <=? r2) && (r2 <? 0xE000)
  then Some ((r1 - 0xD800) * 1024 + (r2 - 0xDC00) + 0x10000) else None.

Definition simple_escape (cp : Z) : option ascii :=
  if (cp =? 34) || (cp =? 92) || (cp =? 47) then Some (byte cp)
  else if cp =? 98 then Some (byte 8)
  else if cp =? 102 then Some (byte 12)
  else if cp =? 110 then Some (byte 10)
  else if cp =? 114 then Some (byte 13)
  else if cp =? 116 then Some (byte 9)
  else None.

(** [unquoteBytes] on the body of a literal: escapes are resolved, a lone surrogate and every
    invalid byte become U+FFFD. *)
Fixpoint unquote (rs : list rune) : option gostring :=
  match rs with
  | [] => Some []
  | RBad _ :: t => s ← unquote t; Some (runeErrorBytes ++ s)
  | RValid cp raw :: t =>
    if cp =? 92 then
      match t with
      | RValid e _ :: t1 =>
        if e =? 117 then
          match t1 with
          | h1 :: h2 :: h3 :: h4 :: t2 =>
            rr ← hex4_val h1 h2 h3 h4;
            if is_surrogate rr then
              match t2 with
              | RValid b _ :: RValid u _ :: g1 :: g2 :: g3 :: g4 :: t3 =>
                match (if (b =? 92) && (u =? 117) then
                         rr1 ← hex4_val g1 g2 g3 g4; utf16_decode rr rr1
                       else None) with
                | Some dec => s ← unquote t3; Some (encode_rune dec ++ s)
                | None => s ← unquote t2; Some (runeErrorBytes ++ s)
                end
              | _ => s ← unquote t2; Some (runeErrorBytes ++ s)
              end
            else s ← unquote t2; Some (encode_rune rr ++ s)
          | _ => None
          end
        else c ← simple_escape e; s ← unquote t1; Some (c :: s)
      | _ => None
      end
    else if (cp =? 34) || (cp <? 0x20) then None
    else s ← unquote t; Some (raw ++ s)
  end.

(** A string literal after its opening quote: its value and the text after it. *)
Definition parse_string (s : gostring) : option (gostring * gostring) :=
  '(b, r) ← lex_string s; v ← unquote (runes b); Some (v, r).

(** Number literals: an optional minus sign, an integer part without leading zeros, an optional
    fraction and an optional exponent. *)
Fixpoint span_digit (s : gostring) : gostring * gostring :=
  match s with
  | a :: t => if is_digit a then let '(d, r) := span_digit t in (a :: d, r) else ([], s)
  | [] => ([], [])
  end.

Definition lex_int_part (s : gostring) : option (gostring * gostring) :=
  match s with
  | a :: t =>
    if Ascii.eqb a "0"%char then Some ([a], t)
    else if is_digit a then let '(d, r) := span_digit t in Some (a :: d, r)
    else None
  | [] => None
  end.

Definition lex_frac (s : gostring) : option (gostring * gostring) :=
  match s with
  | a :: t =>
    if Ascii.eqb a "."%char then
      match span_digit t with ([], _) => None | (d, r) => Some (a :: d, r) end
    else Some ([], s)
  | [] => Some ([], s)
  end.

Definition lex_exp (s : gostring) : option (gostring * gostring) :=
  match s with
  | a :: t =>
    if Ascii.eqb a "e"%char || Ascii.eqb a "E"%char then
      let '(sign, t) := match t with
        | b :: t' => if Ascii.eqb b "+"%char || Ascii.eqb b "-"%char then ([b], t') else ([], t)
        | [] => ([], t)
        end in
      match span_digit t with ([], _) => None | (d, r) => Some (a :: sign ++ d, r) end
    else Some ([], s)
  | [] => Some ([], s)
  end.

Definition lex_number (s : gostring) : option (gostring * gostring) :=
  let '(sign, s) := match s with
    | a :: t => if Ascii.eqb a "-"%char then ([a], t) else ([], s)
    | [] => ([], s)
    end in
  '(i, s) ← lex_int_part s;
  '(f, s) ← lex_frac s;
  '(e, s) ← lex_exp s;
  Some (sign ++ i ++ f ++ e, s).

Definition lex_literal (s : gostring) : option (json * gostring) :=
  if has_prefix (lit "null") s then Some (JNull, drop 4 s)
  else if has_prefix (lit "true") s then Some (JBool true, drop 4 s)
  else if has_prefix (lit "false") s then Some (JBool false, drop 5 s)
  else None.

(** A scalar: string, number or literal. *)
Definition parse_scalar (s : gostring) : option (json * gostring) :=
  match s with
  | [] => None
  | c :: t =>
    if Ascii.eqb c quote then '(v, r) ← parse_string t; Some (JStr v, r)
    else if Ascii.eqb c "-"%char || is_digit c then '(l, r) ← lex_number s; Some (JNum l, r)
    else lex_literal s
  end.

(** ** Values *)

Definition maxNestingDepth : Z := 10000.

(** One value from the front of a text, as the scanner accepts it. [fuel] bounds the number of
    calls; [depth] is the number of open arrays and objects. *)
Fixpoint parse_value (fuel : nat) (depth : Z) (s : gostring) : option (json * gostring) :=
  match fuel with
  | O => None
  | S f =>
    match skip_ws s with
    | [] => None
    | c :: t =>
      if Ascii.eqb c "["%char then
        if maxNestingDepth <? depth + 1 then None else
        match skip_ws t with
        | d :: t' =>
          if Ascii.eqb d "]"%char then Some (JArr [], t')
          else '(l, r) ← parse_elements f (depth + 1) t; Some (JArr l, r)
        | [] => None
        end
      else if Ascii.eqb c "{"%char then
        if maxNestingDepth <? depth + 1 then None else
        match skip_ws t with
        | d :: t' =>
          if Ascii.eqb d "}"%char then Some (JObj [], t')
          else '(l, r) ← parse_members f (depth + 1) t; Some (JObj l, r)
        | [] => None
        end
      else parse_scalar (c :: t)
    end
  end
with parse_elements (fuel : nat) (depth : Z) (s : gostring) : option (list json * gostring) :=
  match fuel with
  | O => None
  | S f =>
    '(v, r) ← parse_value f depth s;
    match skip_ws r with
    | c :: t =>
      if Ascii.eqb c "]"%char then Some ([v], t)
      else if Ascii.eqb c ","%char then '(l, r) ← parse_elements f depth t; Some (v :: l, r)
      else None
    | [] => None
    end
  end
with parse_members (fuel : nat) (depth : Z) (s : gostring) : option (list (gostring * json) * gostring) :=
  match fuel with
  | O => None
  | S f =>
    match skip_ws s with
    | q :: s1 =>
      if Ascii.eqb q quote then
        '(k, s2) ← parse_string s1;
        match skip_ws s2 with
        | colon :: s3 =>
          if Ascii.eqb colon ":"%char then
            '(v, r) ← parse_value f depth s3;
            match skip_ws r with
            | c :: t =>
              if Ascii.eqb c "}"%char then Some ([(k, v)], t)
              else if Ascii.eqb c ","%char then '(l, r) ← parse_members f depth t; Some ((k, v) :: l, r)
              else None
            | [] => None
            end
          else None
        | [] => None
        end
      else None
    | [] => None
    end
  end.

(** [Decoder.Decode]: the next value of the stream, with enough fuel for its length. *)
Definition decode_next (s : gostring) : option (json * gostring) :=
  parse_value (2 * length s + 2) 0 s.

(** ** Tokens *)

Inductive tokenState : Type :=
| tokenTopValue | tokenArrayStart | tokenArrayValue | tokenArrayComma
| tokenObjectStart | tokenObjectKey | tokenObjectColon | tokenObjectValue | tokenObjectComma.

Inductive token : Type :=
| Delim (c : ascii)
| TString (s : gostring)
| TScalar.

Record decoder : Type := mkDecoder {
  d_rest : gostring; d_state : tokenState; d_stack : list tokenState }.

Definition tokenValueAllowed (st : tokenState) : bool :=
  match st with
  | tokenTopValue | tokenArrayStart | tokenArrayValue | tokenObjectValue => true
  | _ => false
  end.

Definition tokenValueEnd (st : tokenState) : tokenState :=
  match st with
  | tokenArrayStart | tokenArrayValue => tokenArrayComma
  | tokenObjectValue => tokenObjectComma
  | st => st
  end.

(** The exponent [strconv.ParseFloat] reads: digits beyond the value 10000 are ignored. *)
Definition float_exp (s : gostring) : Z :=
  let '(neg, s) := match s with
    | c :: t => if Ascii.eqb c "-"%char then (true, t) else if Ascii.eqb c "+"%char then (false, t) else (false, s)
    | [] => (false, s)
    end in
  let e := fold_left (λ e c, if e <? 10000 then e * 10 + (code c - 48) else e) s 0 in
  if neg then - e else e.

(** An unsigned literal as [m * 10^e]. *)
Definition float_parts (l : gostring) : Z * Z :=
  let '(mant, exp) := match cut_byte "e"%char l with
    | (m, Some e) => (m, float_exp e)
    | (_, None) => match cut_byte "E"%char l with (m, Some e) => (m, float_exp e) | (m, None) => (m, 0) end
    end in
  let '(ip, fp) := match cut_byte "."%char mant with (i, Some f) => (i, f) | (i, None) => (i, []) end in
  (dec_value (ip ++ fp), exp - len fp).

(** Whether a number literal overflows [float64], which decoding into [any] reports as an error:
    its magnitude is at least the midpoint between the largest float and 2^1024. *)
Definition float_overflow (l : gostring) : bool :=
  let '(m, e10) := float_parts (match l with c :: t => if Ascii.eqb c "-"%char then t else l | [] => l end) in
  let threshold := 2 ^ 1024 - 2 ^ 970 in
  if m =? 0 then false
  else if len (utoa m) + e10 <? 300 then false
  else if 400 <? len (utoa m) + e10 then true
  else if 0 <=? e10 then threshold <=? m * 10 ^ e10 else threshold * 10 ^ (- e10) <=? m.

(** [Decoder.Token]. The loop consumes at most one colon or comma before a token, so that three
    rounds suffice. *)
Fixpoint token_loop (fuel : nat) (d : decoder) : option (token * decoder) :=
  match fuel with
  | O => None
  | S f =>
    let st := d_state d in
    match skip_ws (d_rest d) with
    | [] => None
    | c :: t =>
      if Ascii.eqb c "["%char then
        if tokenValueAllowed st
        then Some (Delim c, mkDecoder t tokenArrayStart (st :: d_stack d)) else None
      else if Ascii.eqb c "]"%char then
        match st, d_stack d with
        | (tokenArrayStart | tokenArrayComma), top :: stack =>
          Some (Delim c, mkDecoder t (tokenValueEnd top) stack)
        | _, _ => None
        end
      else if Ascii.eqb c "{"%char then
        if tokenValueAllowed st
        then Some (Delim c, mkDecoder t tokenObjectStart (st :: d_stack d)) else None
      else if Ascii.eqb c "}"%char then
        match st, d_stack d with
        | (tokenObjectStart | tokenObjectComma), top :: stack =>
          Some (Delim c, mkDecoder t (tokenValueEnd top) stack)
        | _, _ => None
        end
      else if Ascii.eqb c ":"%char then
        match st with
        | tokenObjectColon => token_loop f (mkDecoder t tokenObjectValue (d_stack d))
        | _ => None
        end
      else if Ascii.eqb c ","%char then
        match st with
        | tokenArrayComma => token_loop f (mkDecoder t tokenArrayValue (d_stack d))
        | tokenObjectComma => token_loop f (mkDecoder t tokenObjectKey (d_stack d))
        | _ => None
        end
      else
        match Ascii.eqb c quote, st with
        | true, (tokenObjectStart | tokenObjectKey) =>
          '(k, r) ← parse_string t; Some (TString k, mkDecoder r tokenObjectColon (d_stack d))
        | _, _ =>
          if tokenValueAllowed st then
            '(v, r) ← parse_scalar (c :: t);
            let d' := mkDecoder r (tokenValueEnd st) (d_stack d) in
            match v with
            | JStr s => Some (TString s, d')
            | JNum l => if float_overflow l then None else Some (TScalar, d')
            | _ => Some (TScalar, d')
            end
          else None
        end
    end
  end.

Definition Token (d : decoder) : option (token * decoder) := token_loop 3 d.

(** [Decoder.More]. *)
Definition More (d : decoder) : bool :=
  match skip_ws (d_rest d) with
  | [] => false
  | c :: _ => negb (Ascii.eqb c "]"%char) && negb (Ascii.eqb c "}"%char)
  end.

Definition new_decoder (raw : gostring) : decoder := mkDecoder raw tokenTopValue [].
