(* ===== verification/JsonFacts.v ===== *)
(** * Reading back what encoding/json wrote

    Parsing the text of a document gives the document back, with every invalid UTF-8 byte of its
    strings replaced by U+FFFD ([sanitize]), as Go's encoder does. *)

From S2P Require Import Prelude Utf8 GoStrings Json.

#[local] Ltac Zify.zify_post_hook ::= Z.div_mod_to_equations.

(** Induction over nested documents. *)
Lemma json_nested_ind (P : json → Prop) :
  P JNull → (∀ b, P (JBool b)) → (∀ l, P (JNum l)) → (∀ s, P (JStr s)) →
  (∀ l, Forall P l → P (JArr l)) →
  (∀ l, Forall (λ kv, P (snd kv)) l → P (JObj l)) →
  ∀ j, P j.
Proof.
  intros Hn Hb Hi Hs Ha Ho. fix IH 1. intros [|b|l|s|l|l]; [exact Hn|apply Hb|apply Hi|apply Hs| |].
  - apply Ha. induction l as [|x l IHl]; constructor; [apply IH|exact IHl].
  - apply Ho. induction l as [|x l IHl]; constructor; [apply IH|exact IHl].
Qed.

(** The numbers of the documents the program writes are [int] and [int64] values. *)
Fixpoint json_wf (j : json) : Prop :=
  match j with
  | JNum l => ∃ z, int64_range z ∧ l = itoa z
  | JArr l => fold_right (λ x acc, json_wf x ∧ acc) True l
  | JObj l => fold_right (λ kv acc, json_wf (snd kv) ∧ acc) True l
  | _ => True
  end.

Fixpoint json_sanitize (j : json) : json :=
  match j with
  | JStr s => JStr (sanitize s)
  | JArr l => JArr (map json_sanitize l)
  | JObj l => JObj (map (λ kv, (sanitize (fst kv), json_sanitize (snd kv))) l)
  | j => j
  end.

Fixpoint json_depth (j : json) : Z :=
  match j with
  | JArr l => 1 + fold_right (λ x acc, Z.max (json_depth x) acc) 0 l
  | JObj l => 1 + fold_right (λ kv acc, Z.max (json_depth (snd kv)) acc) 0 l
  | _ => 0
  end.

(** The number of calls the parser needs. *)
Fixpoint json_cost (j : json) : nat :=
  match j with
  | JArr l => S (fold_right (λ x acc, (S (json_cost x) + acc)%nat) 0%nat l)
  | JObj l => S (fold_right (λ kv acc, (S (json_cost (snd kv)) + acc)%nat) 0%nat l)
  | _ => 1%nat
  end.

(** A number ends where no character continues it. *)
Definition num_end (r : gostring) : bool :=
  match r with
  | [] => true
  | c :: _ => negb (is_digit c || Ascii.eqb c "."%char || Ascii.eqb c "e"%char || Ascii.eqb c "E"%char)
  end.

(** ** Strings *)

Lemma encode_rune_raw cp raw : rune_wf (RValid cp raw) → encode_rune cp = raw.
Proof.
  intros H. inversion H as [b Hb|b0 b1 ? Hd|b0 b1 b2 ? Hd|b0 b1 b2 b3 ? Hd|]; subst; unfold encode_rune.
  - unfold is_ascii in Hb. pose proof (code_range b). rewrite Hb.
    rewrite (proj2 (Z.leb_le _ _)) by lia. simpl. by rewrite byte_code.
  - unfold decode2, cont in Hd. case_if_in Hd; [|done]. injection Hd as <-. breflect.
    rewrite (proj2 (Z.ltb_ge _ 0x80)) by lia. rewrite andb_false_r.
    rewrite (proj2 (Z.leb_le _ _)), (proj2 (Z.ltb_lt _ 0x800)) by lia. simpl.
    f_equal; [|f_equal]; apply code_inj; rewrite code_byte_small; lia.
  - unfold decode3, cont, second3 in Hd. case_if_in Hd; [|done]. injection Hd as <-. breflect.
    destruct E as [[E1 E2] E3].
    assert (E2' : 0x80 ≤ code b1 ≤ 0xBF ∧ (code b0 = 0xE0 → 0xA0 ≤ code b1) ∧ (code b0 = 0xED → code b1 ≤ 0x9F)).
    { destruct (Z.eqb_spec (code b0) 0xE0), (Z.eqb_spec (code b0) 0xED); unfold cont in E2;
        rewrite between_spec in E2; lia. }
    rewrite (proj2 (Z.ltb_ge _ 0x80)), (proj2 (Z.ltb_ge _ 0x800)) by lia. rewrite !andb_false_r.
    rewrite (proj2 (Z.ltb_lt _ 0x10000)) by lia.
    match goal with |- (if ?b then _ else _) = _ => replace b with false by (symmetry; breflect; lia) end.
    f_equal; [|f_equal; [|f_equal]]; apply code_inj; rewrite code_byte_small; lia.
  - unfold decode4, cont, second4 in Hd. case_if_in Hd; [|done]. injection Hd as <-. breflect.
    destruct E as [[[E1 E2] E3] E4].
    assert (E2' : 0x80 ≤ code b1 ≤ 0xBF ∧ (code b0 = 0xF0 → 0x90 ≤ code b1) ∧ (code b0 = 0xF4 → code b1 ≤ 0x8F)).
    { destruct (Z.eqb_spec (code b0) 0xF0), (Z.eqb_spec (code b0) 0xF4); unfold cont in E2;
        rewrite between_spec in E2; lia. }
    rewrite (proj2 (Z.ltb_ge _ 0x80)), (proj2 (Z.ltb_ge _ 0x800)), (proj2 (Z.ltb_ge _ 0x10000)) by lia.
    rewrite !andb_false_r.
    match goal with |- (if ?b then _ else _) = _ => replace b with false by (symmetry; breflect; lia) end.
    f_equal; [|f_equal; [|f_equal; [|f_equal]]]; apply code_inj; rewrite code_byte_small; lia.
Qed.

(** The three forms of an escaped ASCII byte. *)
Definition plain (c : ascii) : bool :=
  negb (Ascii.eqb c quote) && negb (Ascii.eqb c backslash) && (0x20 <=? code c).

Definition escape_class (c : ascii) : bool :=
  (plain c && str_eqb (escape_byte c) [c]) ||
  match escape_byte c with
  | [b; e] => Ascii.eqb b backslash && is_simple_escape e && is_ascii e && negb (code e =? 117) &&
              bool_decide (simple_escape (code e) = Some c)
  | _ => str_eqb (escape_byte c) (u_escape (code c)) && is_ascii c
  end.

Lemma escape_byte_cases c :
  is_ascii c = true →
  (plain c = true ∧ escape_byte c = [c]) ∨
  (∃ e, escape_byte c = [backslash; e] ∧ is_simple_escape e = true ∧ is_ascii e = true ∧
        code e ≠ 117 ∧ simple_escape (code e) = Some c) ∨
  escape_byte c = u_escape (code c).
Proof.
  intros Ha. assert (H : escape_class c = true).
  { revert Ha. apply implb_true_iff. revert c. apply ascii_forall. vm_compute. reflexivity. }
  unfold escape_class in H. apply orb_true_iff in H as [H|H].
  - left. breflect. tauto.
  - destruct (escape_byte c) as [|b [|e [|? ?]]] eqn:E; rewrite <- ?E in H; breflect;
      try (right; right; rewrite <- E; by destruct H as [H _]).
    destruct H as [[[[-> ?] ?] ?] ?]. right. left. eauto 10.
Qed.

Lemma hex_val_digit n : 0 ≤ n < 16 → hex_val (hex_digit n) = Some n.
Proof.
  intros. unfold hex_digit. destruct (Z.ltb_spec n 10); unfold hex_val, between;
    rewrite !code_byte_small by lia.
  - rewrite (proj2 (Z.leb_le _ _)), (proj2 (Z.leb_le _ _)) by lia. simpl. f_equal. lia.
  - rewrite (proj2 (Z.leb_gt _ 57)) by lia. rewrite andb_false_r.
    rewrite (proj2 (Z.leb_le _ _)), (proj2 (Z.leb_le _ _)) by lia. simpl. f_equal. lia.
Qed.

Lemma is_ascii_hex_digit n : 0 ≤ n < 16 → is_ascii (hex_digit n) = true.
Proof.
  intros. unfold hex_digit, is_ascii. destruct (Z.ltb_spec n 10); rewrite code_byte_small by lia; breflect; lia.
Qed.

Lemma u_escape_ascii n : 0 ≤ n < 65536 → all_ascii (u_escape n) = true.
Proof. intros. unfold u_escape, hex4, all_ascii. cbn [forallb]. rewrite !is_ascii_hex_digit by lia. done. Qed.

(** Prefixing a literal's body: the lexer copies one escaped character, the unquoter yields it. *)
Definition copies (e : gostring) : Prop :=
  ∀ t, lex_string (e ++ t) = '(b, r) ← lex_string t; Some (e ++ b, r).
Definition yields (e v : gostring) : Prop :=
  ∀ t, unquote (runes (e ++ t)) = s ← unquote (runes t); Some (v ++ s).

Lemma copies_plain c : plain c = true → copies [c].
Proof.
  unfold plain. intros H t. breflect. destruct H as [[H1 H2] H3]. simpl.
  rewrite (proj2 (Ascii.eqb_neq _ _) H1), (proj2 (Ascii.eqb_neq _ _) H2).
  by rewrite (proj2 (Z.ltb_ge _ _)) by lia.
Qed.

Lemma copies_app e1 e2 : copies e1 → copies e2 → copies (e1 ++ e2).
Proof.
  intros H1 H2 t. rewrite <- app_assoc, H1, H2.
  destruct (lex_string t) as [[b r]|]; simpl; [|done]. by rewrite app_assoc.
Qed.

Lemma copies_nil : copies [].
Proof. intros t. simpl. by destruct (lex_string t) as [[b r]|]. Qed.

Lemma copies_plain_list l : forallb plain l = true → copies l.
Proof.
  induction l as [|c l IH]; intros H; [apply copies_nil|]. simpl in H. breflect. destruct H.
  change (c :: l) with ([c] ++ l). apply copies_app; auto using copies_plain.
Qed.

Lemma copies_u n : 0 ≤ n < 65536 → copies (u_escape n).
Proof.
  intros Hn t. unfold u_escape, hex4. cbn [app]. simpl lex_string.
  unfold is_hexdigit. rewrite !hex_val_digit by lia. simpl.
  by destruct (lex_string t) as [[b r]|].
Qed.

Lemma copies_simple e : is_simple_escape e = true → copies [backslash; e].
Proof. intros He t. simpl. rewrite He. by destruct (lex_string t) as [[b r]|]. Qed.

Lemma yields_u n :
  0 ≤ n < 65536 → is_surrogate n = false → yields (u_escape n) (encode_rune n).
Proof.
  intros Hn Hs t. rewrite runes_all_ascii by (by apply u_escape_ascii).
  unfold u_escape, hex4. cbn [map app]. simpl unquote. unfold hex4_val, rune_hex.
  rewrite !hex_val_digit by lia. simpl.
  match goal with |- context [is_surrogate ?z] => replace z with n by lia end.
  by rewrite Hs.
Qed.

Lemma yields_simple e c :
  is_ascii e = true → code e ≠ 117 → simple_escape (code e) = Some c → yields [backslash; e] [c].
Proof.
  intros Ha Hu Hs t. change ([backslash; e] ++ t) with (backslash :: e :: t).
  rewrite runes_ascii by done. rewrite runes_ascii by done.
  change (code backslash) with 92. simpl. rewrite (proj2 (Z.eqb_neq _ _) Hu), Hs. done.
Qed.

Lemma rune_wide_bytes cp raw :
  rune_wf (RValid cp raw) → 0x80 ≤ cp → forallb plain raw = true.
Proof.
  assert (Hp : ∀ b, 0x80 ≤ code b → plain b = true).
  { intros b Hb. unfold plain. breflect. repeat split; [| |lia]; intros ->; cbv in Hb; lia. }
  intros H Hcp. inversion H as [b Hb|b0 b1 ? Hd|b0 b1 b2 ? Hd|b0 b1 b2 b3 ? Hd|]; subst; simpl.
  - unfold is_ascii in Hb. breflect. lia.
  - unfold decode2, cont in Hd. case_if_in Hd; [|done]. breflect. rewrite !Hp by lia. done.
  - unfold decode3, cont, second3 in Hd. case_if_in Hd; [|done]. breflect.
    destruct E as [[E1 E2] E3].
    assert (0x80 ≤ code b1).
    { destruct (code b0 =? 0xE0), (code b0 =? 0xED); unfold cont in E2; rewrite between_spec in E2; lia. }
    rewrite !Hp by lia. done.
  - unfold decode4, cont, second4 in Hd. case_if_in Hd; [|done]. breflect.
    destruct E as [[[E1 E2] E3] E4].
    assert (0x80 ≤ code b1).
    { destruct (code b0 =? 0xF0), (code b0 =? 0xF4); unfold cont in E2; rewrite between_spec in E2; lia. }
    rewrite !Hp by lia. done.
Qed.

Lemma rune_ascii_raw cp raw :
  rune_wf (RValid cp raw) → cp < 0x80 → ∃ b, raw = [b] ∧ is_ascii b = true ∧ cp = code b.
Proof.
  intros H Hcp. inversion H as [b Hb|b0 b1 ? Hd|b0 b1 b2 ? Hd|b0 b1 b2 b3 ? Hd|]; subst; [eauto|..]; exfalso.
  - unfold decode2, cont in Hd. case_if_in Hd; [|done]. injection Hd as <-. breflect. lia.
  - unfold decode3, cont, second3 in Hd. case_if_in Hd; [|done]. injection Hd as <-. breflect.
    destruct E as [[E1 E2] E3].
    destruct (Z.eqb_spec (code b0) 0xE0), (Z.eqb_spec (code b0) 0xED); unfold cont in E2;
      rewrite between_spec in E2; lia.
  - unfold decode4, cont, second4 in Hd. case_if_in Hd; [|done]. injection Hd as <-. breflect.
    destruct E as [[[E1 E2] E3] E4].
    destruct (Z.eqb_spec (code b0) 0xF0), (Z.eqb_spec (code b0) 0xF4); unfold cont in E2;
      rewrite between_spec in E2; lia.
Qed.

(** Each rune, escaped, is one unit for the lexer, and unquotes to its bytes. *)
Lemma escape_rune_unit r :
  rune_wf r →
  copies (escape_rune r) ∧ yields (escape_rune r) (rune_bytes r) ∧ utf8_valid (escape_rune r) = true.
Proof.
  intros Hwf. destruct r as [cp raw|b]; simpl.
  2: { split; [apply copies_u; done|]. split; [|done]. by apply (yields_u runeError). }
  destruct (Z.ltb_spec cp 0x80) as [Hcp|Hcp].
  - destruct (rune_ascii_raw cp raw Hwf Hcp) as (b & -> & Hb & ->). simpl. rewrite app_nil_r.
    pose proof (code_range b).
    destruct (escape_byte_cases b Hb) as [[Hp E]|[(e & E & He1 & He2 & He3 & He4)|E]]; rewrite E.
    + split; [by apply copies_plain|]. split; [|apply utf8_valid_ascii; simpl; by rewrite Hb].
      intros t. cbn [app]. rewrite runes_ascii by done. unfold plain in Hp. breflect.
      destruct Hp as [[H1 H2] H3]. simpl.
      rewrite (proj2 (Z.eqb_neq _ 92)), (proj2 (Z.eqb_neq _ 34)), (proj2 (Z.ltb_ge _ 32)); [done|lia|..];
        intros E'; [apply H1|apply H2]; by apply code_inj.
    + split; [by apply copies_simple|]. split; [by apply yields_simple|].
      apply utf8_valid_ascii. simpl. by rewrite He2.
    + split; [apply copies_u; lia|]. split; [|apply utf8_valid_ascii, u_escape_ascii; lia].
      intros t. rewrite yields_u; [|lia|unfold is_surrogate; breflect; left; lia].
      by rewrite (encode_rune_raw _ [b]).
  - assert (Hr : copies raw ∧ yields raw raw ∧ utf8_valid raw = true).
    { split; [apply copies_plain_list; by apply (rune_wide_bytes cp)|]. split.
      - intros t. rewrite (runes_app_valid cp raw) by done. simpl.
        by rewrite (proj2 (Z.eqb_neq cp 92)), (proj2 (Z.eqb_neq cp 34)), (proj2 (Z.ltb_ge cp 32)) by lia.
      - unfold utf8_valid. rewrite <- (app_nil_r raw), (runes_app_valid cp raw) by done. done. }
    destruct ((cp =? 0x2028) || (cp =? 0x2029)) eqn:E; [|done]. breflect.
    split; [apply copies_u; lia|]. split; [|apply utf8_valid_ascii, u_escape_ascii; lia].
    intros t. rewrite yields_u; [|lia|unfold is_surrogate; breflect; left; lia].
    by rewrite (encode_rune_raw _ raw).
Qed.

Lemma lex_escape rs t :
  Forall rune_wf rs →
  lex_string (flat_map escape_rune rs ++ quote :: t) = Some (flat_map escape_rune rs, t).
Proof.
  induction 1 as [|r rs Hr _ IH]; [done|]. cbn [flat_map].
  destruct (escape_rune_unit r Hr) as (Hc & _ & _). rewrite <- app_assoc, Hc, IH. done.
Qed.

Lemma unquote_escape rs :
  Forall rune_wf rs →
  unquote (runes (flat_map escape_rune rs)) = Some (flat_map rune_bytes rs).
Proof.
  induction 1 as [|r rs Hr _ IH]; [done|]. cbn [flat_map].
  destruct (escape_rune_unit r Hr) as (_ & Hy & _). rewrite Hy, IH. done.
Qed.

(** Reading a printed string gives the sanitized string. *)
Lemma parse_string_escape s t : parse_string (escape s ++ quote :: t) = Some (sanitize s, t).
Proof.
  unfold parse_string, escape, sanitize. pose proof (runes_wf s).
  rewrite lex_escape by done. simpl. by rewrite unquote_escape.
Qed.

Lemma utf8_valid_escape s : utf8_valid (escape s) = true.
Proof.
  unfold escape. pose proof (runes_wf s) as H. induction H as [|r rs Hr _ IH]; [done|].
  cbn [flat_map]. destruct (escape_rune_unit r Hr) as (_ & _ & Hv). by rewrite utf8_valid_app.
Qed.

Lemma print_string_app s t : print_string s ++ t = quote :: escape s ++ quote :: t.
Proof. unfold print_string. simpl. by rewrite <- app_assoc. Qed.

Lemma utf8_valid_print_string s : utf8_valid (print_string s) = true.
Proof.
  unfold print_string. rewrite utf8_valid_cons by done.
  rewrite utf8_valid_app by apply utf8_valid_escape. done.
Qed.

(** ** Numbers *)

Lemma span_digit_app d r :
  forallb is_digit d = true → match r with [] => true | c :: _ => negb (is_digit c) end = true →
  span_digit (d ++ r) = (d, r).
Proof.
  intros Hd Hr. induction d as [|c d IH]; simpl in *.
  - destruct r as [|c r]; [done|]. simpl. apply negb_true_iff in Hr. by rewrite Hr.
  - breflect. destruct Hd as [-> Hd]. by rewrite IH.
Qed.

Lemma num_end_spec r :
  num_end r = true →
  lex_frac r = Some ([], r) ∧ lex_exp r = Some ([], r) ∧
  match r with [] => true | c :: _ => negb (is_digit c) end = true.
Proof.
  unfold num_end. destruct r as [|c r]; [done|]. rewrite negb_true_iff. breflect.
  intros [[[H1 H2] H3] H4]. simpl.
  rewrite (proj2 (Ascii.eqb_neq _ _) H2), (proj2 (Ascii.eqb_neq _ _) H3), (proj2 (Ascii.eqb_neq _ _) H4).
  by rewrite H1.
Qed.

(** The leading digit of a number above nine is not zero. *)
Lemma dec_digits_head fuel n acc :
  0 ≤ n → n < 2 ^ Z.of_nat fuel → (fuel ≠ 0)%nat →
  ∃ c t, dec_digits fuel n acc = c :: t ∧ (c = "0"%char → n = 0) ∧ (n = 0 → t = acc).
Proof.
  revert n acc; induction fuel as [|f IH]; intros n acc Hn Hf Hz; [done|]. simpl.
  destruct (Z.ltb_spec n 10) as [Hl|Hl].
  - exists (digit (n `mod` 10)), acc. split; [done|]. split; [|done]. intros E.
    apply (f_equal code) in E. rewrite code_digit in E by lia. change (code "0") with 48 in E. lia.
  - rewrite Nat2Z.inj_succ, Z.pow_succ_r in Hf by lia.
    destruct f as [|f]; [simpl in Hf; lia|].
    destruct (IH (n / 10) (digit (n `mod` 10) :: acc)) as (c & t & E & H1 & H2); [lia|lia|done|].
    exists c, t. rewrite E. split; [done|]. split; [intros Ec; specialize (H1 Ec); lia|lia].
Qed.

Lemma utoa_head n :
  0 ≤ n → ∃ c t, utoa n = c :: t ∧ (c = "0"%char → n = 0) ∧ (n = 0 → t = []).
Proof.
  intros. apply dec_digits_head; [done| |done].
  rewrite Nat2Z.inj_succ, Z2Nat.id by apply Z.log2_nonneg.
  destruct (Z.eq_dec n 0) as [->|]; [done|]. apply Z.log2_spec. lia.
Qed.

Lemma lex_int_part_utoa n r :
  0 ≤ n → match r with [] => true | c :: _ => negb (is_digit c) end = true →
  lex_int_part (utoa n ++ r) = Some (utoa n, r).
Proof.
  intros Hn Hr. pose proof (utoa_digits n Hn) as Hd.
  destruct (utoa_head n Hn) as (c & t & E & H1 & H2). rewrite E in *. simpl in Hd. breflect.
  destruct Hd as [Hc Hd]. simpl. destruct (Ascii.eqb c "0"%char) eqn:E0; breflect.
  - rewrite (H2 (H1 E0)). done.
  - rewrite Hc, span_digit_app by done. done.
Qed.

Lemma lex_number_itoa z r : num_end r = true → lex_number (itoa z ++ r) = Some (itoa z, r).
Proof.
  intros Hr. destruct (num_end_spec r Hr) as (Hf & He & Hd). unfold lex_number, itoa.
  destruct (Z.ltb_spec z 0).
  - simpl. rewrite lex_int_part_utoa by (done || lia). simpl. rewrite Hf. simpl. rewrite He. simpl.
    by rewrite !app_nil_r.
  - pose proof (utoa_digits z ltac:(lia)) as Hdg.
    destruct (utoa_head z ltac:(lia)) as (c & t & E & _).
    rewrite E in Hdg. simpl in Hdg. breflect. destruct Hdg as [Hc _].
    destruct (digit_not_sign c Hc) as [Hm _].
    assert (Hs : match utoa z ++ r with
                 | [] => ([], utoa z ++ r)
                 | a :: t => if Ascii.eqb a "-"%char then ([a], t) else ([], utoa z ++ r)
                 end = ([], utoa z ++ r)).
    { rewrite E. simpl. by rewrite (proj2 (Ascii.eqb_neq _ _) Hm). }
    rewrite Hs. simpl. rewrite lex_int_part_utoa by (done || lia). simpl. rewrite Hf. simpl. rewrite He. simpl.
    by rewrite !app_nil_r.
Qed.

Lemma itoa_head z : ∃ c t, itoa z = c :: t ∧ Ascii.eqb c "-"%char || is_digit c = true.
Proof.
  unfold itoa. destruct (Z.ltb_spec z 0); [by eexists _, _|].
  pose proof (utoa_digits z ltac:(lia)) as Hd. pose proof (utoa_nonempty z).
  destruct (utoa z) as [|c t]; [done|]. simpl in Hd. breflect. exists c, t. breflect. tauto.
Qed.

(** ** Values *)

(** The first character of a printed value. *)
Definition value_start (c : ascii) : bool :=
  negb (is_ws c || Ascii.eqb c "]"%char || Ascii.eqb c "}"%char || Ascii.eqb c ":"%char || Ascii.eqb c ","%char).

Lemma number_start c : Ascii.eqb c "-"%char || is_digit c = true →
  value_start c && negb (Ascii.eqb c quote) && negb (Ascii.eqb c "["%char) && negb (Ascii.eqb c "{"%char) = true.
Proof. apply implb_true_iff. revert c. apply ascii_forall. vm_compute. reflexivity. Qed.

Lemma print_head j : json_wf j → ∃ c t, print j = c :: t ∧ value_start c = true.
Proof.
  destruct j as [|[]|l|s|l|l]; simpl; intros H; try (by eexists _, _).
  destruct H as (z & Hz & ->). destruct (itoa_head z) as (c & t & -> & Hc). exists c, t. split; [done|].
  apply number_start in Hc. breflect. tauto.
Qed.

Lemma skip_ws_char c t : is_ws c = false → skip_ws (c :: t) = c :: t.
Proof. unfold skip_ws. intros H. simpl. by rewrite H. Qed.

Lemma skip_ws_start c t : value_start c = true → skip_ws (c :: t) = c :: t.
Proof.
  unfold value_start. intros H. apply skip_ws_char. apply negb_true_iff in H. breflect. tauto.
Qed.

Lemma skip_ws_print j r : json_wf j → skip_ws (print j ++ r) = print j ++ r.
Proof.
  intros H. destruct (print_head j H) as (c & t & -> & Hc). cbn [app]. by apply skip_ws_start.
Qed.

(** Scalars are read back, for the value parser and for the token stream alike. *)
Definition is_scalar (j : json) : bool := match j with JArr _ | JObj _ => false | _ => true end.

Lemma parse_scalar_print j r :
  is_scalar j = true → json_wf j → num_end r = true →
  parse_scalar (print j ++ r) = Some (json_sanitize j, r).
Proof.
  destruct j as [|[]|l|s|l|l]; try done; intros _ Hwf Hr.
  - destruct Hwf as (z & Hz & ->). cbn [print json_sanitize].
    pose proof (lex_number_itoa z r Hr) as Hlex.
    destruct (itoa_head z) as (c & t & E & Hc). pose proof (number_start c Hc) as Hs.
    breflect. destruct Hs as [[[_ Hq] _] _]. rewrite E in *. cbn [app] in *. unfold parse_scalar.
    rewrite (proj2 (Ascii.eqb_neq _ _) Hq).
    replace (Ascii.eqb c "-"%char || is_digit c) with true by (symmetry; breflect; tauto).
    by rewrite Hlex.
  - cbn [print json_sanitize]. unfold print_string. cbn [app]. rewrite <- app_assoc. cbn [app].
    unfold parse_scalar. rewrite Ascii.eqb_refl, parse_string_escape. done.
Qed.

Lemma parse_value_scalar j f depth r :
  is_scalar j = true → json_wf j → num_end r = true →
  parse_value (S f) depth (print j ++ r) = Some (json_sanitize j, r).
Proof.
  intros Hs Hwf Hr. pose proof (parse_scalar_print j r Hs Hwf Hr) as Hp.
  cbn [parse_value]. rewrite skip_ws_print by done.
  assert (Hc : ∃ c t, print j = c :: t ∧ c ≠ "["%char ∧ c ≠ "{"%char).
  { destruct j as [|[]|l|s|l|l]; try done; try (by eexists _, _).
    destruct Hwf as (z & Hz & ->). destruct (itoa_head z) as (c & t & E & Hc).
    exists c, t. apply number_start in Hc. breflect. tauto. }
  destruct Hc as (c & t & E & H1 & H2). rewrite E in *. cbn [app] in *.
  cbv beta iota. by rewrite (proj2 (Ascii.eqb_neq _ _) H1), (proj2 (Ascii.eqb_neq _ _) H2).
Qed.

(** What the induction hypothesis says of one value. *)
Definition reads_back (j : json) : Prop :=
  json_wf j → ∀ fuel depth r,
  (json_cost j ≤ fuel)%nat → depth + json_depth j ≤ maxNestingDepth → (is_scalar j = true → num_end r = true) →
  parse_value fuel depth (print j ++ r) = Some (json_sanitize j, r).

(** Nothing is skipped before a structural character. *)
Ltac at_char := rewrite skip_ws_char by done; cbv beta iota; simpl Ascii.eqb; cbv beta iota.

Lemma parse_elements_print x xs fuel depth r :
  Forall reads_back (x :: xs) → fold_right (λ x acc, json_wf x ∧ acc) True (x :: xs) →
  (fold_right (λ x acc, (S (json_cost x) + acc)%nat) 0%nat (x :: xs) ≤ fuel)%nat →
  depth + fold_right (λ x acc, Z.max (json_depth x) acc) 0 (x :: xs) ≤ maxNestingDepth →
  parse_elements fuel depth (print x ++ flat_map (λ y, ","%char :: print y) xs ++ "]"%char :: r) =
  Some (map json_sanitize (x :: xs), r).
Proof.
  revert x fuel. induction xs as [|y ys IH]; intros x fuel Hrb Hwf Hf Hd;
    apply Forall_cons in Hrb as [Hx Hxs]; cbn [fold_right] in Hwf, Hf, Hd; destruct Hwf as [Hwx Hwxs];
    (destruct fuel as [|f]; [lia|]); cbn [parse_elements flat_map].
  - cbn [app]. rewrite Hx by (done || lia). done.
  - rewrite <- app_assoc. cbn [app]. rewrite Hx by (done || lia). cbn [mbind option_bind]. at_char.
    rewrite IH; [done|done|done|cbn [fold_right]; lia|cbn [fold_right]; lia].
Qed.

Lemma parse_members_print k x xs fuel depth r :
  Forall (λ kv, reads_back (snd kv)) ((k, x) :: xs) →
  fold_right (λ kv acc, json_wf (snd kv) ∧ acc) True ((k, x) :: xs) →
  (fold_right (λ kv acc, (S (json_cost (snd kv)) + acc)%nat) 0%nat ((k, x) :: xs) ≤ fuel)%nat →
  depth + fold_right (λ kv acc, Z.max (json_depth (snd kv)) acc) 0 ((k, x) :: xs) ≤ maxNestingDepth →
  parse_members fuel depth
    (print_string k ++ ":"%char :: print x ++
     flat_map (λ kv, ","%char :: print_string (fst kv) ++ ":"%char :: print (snd kv)) xs ++ "}"%char :: r) =
  Some (map (λ kv, (sanitize (fst kv), json_sanitize (snd kv))) ((k, x) :: xs), r).
Proof.
  revert k x fuel. induction xs as [|[k' y] ys IH]; intros k x fuel Hrb Hwf Hf Hd;
    apply Forall_cons in Hrb as [Hx Hxs]; cbn [fold_right snd] in Hwf, Hf, Hd, Hx;
    destruct Hwf as [Hwx Hwxs]; (destruct fuel as [|f]; [lia|]);
    cbn [parse_members flat_map]; rewrite (print_string_app k); at_char;
    rewrite parse_string_escape; cbn [mbind option_bind]; at_char.
  - rewrite Hx by (done || lia). done.
  - cbn [fst snd]. rewrite <- !app_assoc. cbn [app]. rewrite Hx by (done || lia).
    cbn [mbind option_bind]. at_char. 
    rewrite <- app_assoc. cbn [app]. rewrite IH; [done|done|done|cbn [fold_right snd]; lia|cbn [fold_right snd]; lia].
Qed.

Lemma fold_max_nonneg {A} (f : A → Z) l : 0 ≤ fold_right (λ x acc, Z.max (f x) acc) 0 l.
Proof. induction l; simpl; lia. Qed.

(** Parsing a printed document. *)
Lemma parse_value_print j : reads_back j.
Proof.
  induction j as [|b|l|s|l IH|l IH] using json_nested_ind; intros Hwf fuel depth r Hf Hd Hr;
    (destruct fuel as [|f]; [simpl in Hf; lia|]); try (by apply parse_value_scalar, Hr).
  - cbn [print]. cbn [app]. cbn [parse_value json_depth json_cost json_wf] in *. at_char.
    pose proof (fold_max_nonneg json_depth l). rewrite (proj2 (Z.ltb_ge _ _)) by lia.
    destruct l as [|x xs]; [done|]. rewrite <- !app_assoc. cbn [app].
    apply Forall_cons in IH as [Hx Hxs].
    destruct (print_head x) as (c & t & E & Hc); [by destruct Hwf|].
    rewrite skip_ws_print by (by destruct Hwf).
    rewrite E at 1. cbn [app]. cbv beta iota. unfold value_start in Hc. apply negb_true_iff in Hc. breflect.
    destruct Hc as [[[[_ Hc] _] _] _]. rewrite (proj2 (Ascii.eqb_neq _ _) Hc).
    rewrite parse_elements_print; [done|by constructor|done|lia|lia].
  - cbn [print]. cbn [app]. cbn [parse_value json_depth json_cost json_wf] in *. at_char.
    pose proof (fold_max_nonneg (λ kv : gostring * json, json_depth (snd kv)) l).
    rewrite (proj2 (Z.ltb_ge _ _)) by lia.
    destruct l as [|[k x] xs]; [done|]. rewrite <- !app_assoc. cbn [app]. rewrite <- !app_assoc.
    rewrite (print_string_app k). at_char. rewrite <- print_string_app.
    rewrite parse_members_print; [done|done|done|lia|lia].
Qed.

(** The fuel of [decode_next] is enough: a value needs at most two calls per character. *)
Lemma json_cost_length j : json_wf j → (json_cost j ≤ 2 * length (print j))%nat.
Proof.
  induction j as [|[]|l|s|l IH|l IH] using json_nested_ind; intros Hwf; try (simpl; lia).
  - destruct Hwf as (z & Hz & ->). destruct (itoa_head z) as (c & t & E & _). cbn [print]. rewrite E. simpl. lia.
  - cbn [print json_cost json_wf] in *. cbn [length]. rewrite length_app.
    destruct l as [|x xs]; [simpl; lia|]. cbn [fold_right] in *. rewrite length_app.
    apply Forall_cons in IH as [Hx Hxs]. destruct Hwf as [Hwx Hwxs]. specialize (Hx Hwx).
    assert (Hl : (fold_right (λ x acc, S (json_cost x) + acc) 0 xs ≤
                  2 * length (flat_map (λ y, ","%char :: print y) xs))%nat).
    { clear Hx. induction xs as [|y ys IHys]; cbn [fold_right flat_map] in *; [simpl; lia|].
      apply Forall_cons in Hxs as [Hy Hys]. destruct Hwxs as [Hwy Hwys].
      specialize (Hy Hwy). specialize (IHys Hys Hwys). rewrite length_app. cbn [length]. lia. }
    cbn [length]. lia.
  - cbn [print json_cost json_wf] in *. cbn [length]. rewrite length_app.
    destruct l as [|[k x] xs]; [simpl; lia|]. cbn [fold_right snd] in *. rewrite length_app.
    cbn [length]. rewrite length_app.
    apply Forall_cons in IH as [Hx Hxs]. destruct Hwf as [Hwx Hwxs]. specialize (Hx Hwx). cbn [snd] in Hx.
    assert (Hl : (fold_right (λ kv acc, S (json_cost (snd kv)) + acc) 0 xs ≤
                  2 * length (flat_map (λ kv : gostring * json,
                    ","%char :: print_string (fst kv) ++ ":"%char :: print (snd kv)) xs))%nat).
    { clear Hx. induction xs as [|[k' y] ys IHys]; cbn [fold_right flat_map] in *; [simpl; lia|].
      apply Forall_cons in Hxs as [Hy Hys]. destruct Hwxs as [Hwy Hwys]. cbn [snd fst] in *.
      specialize (Hy Hwy). specialize (IHys Hys Hwys). rewrite length_app. cbn [length].
      rewrite length_app. cbn [length]. lia. }
    lia.
Qed.

(** [Decoder.Decode] on the text of a document. *)
Lemma decode_next_print j r :
  json_wf j → json_depth j ≤ maxNestingDepth → (is_scalar j = true → num_end r = true) →
  decode_next (print j ++ r) = Some (json_sanitize j, r).
Proof.
  intros Hwf Hd Hr. unfold decode_next. apply parse_value_print; [done| |lia|done].
  pose proof (json_cost_length j Hwf). rewrite length_app. lia.
Qed.

(** A document's text is valid UTF-8 whatever its strings hold. *)
Lemma utf8_valid_print j : json_wf j → utf8_valid (print j) = true.
Proof.
  induction j as [|[]|l|s|l IH|l IH] using json_nested_ind; intros Hwf; try done.
  - destruct Hwf as (z & Hz & ->). apply utf8_valid_ascii. cbn [print]. unfold itoa.
    assert (Hd : ∀ n, 0 ≤ n → all_ascii (utoa n) = true).
    { intros n Hn. unfold all_ascii. pose proof (utoa_digits n Hn) as H. revert H.
      rewrite !forallb_Forall. intros H. eapply Forall_impl; [exact H|]. intros c Hc%is_digit_spec.
      unfold is_ascii. breflect. lia. }
    destruct (Z.ltb_spec z 0); [simpl; apply Hd; lia|apply Hd; lia].
  - apply utf8_valid_print_string.
  - cbn [print json_wf] in *. rewrite utf8_valid_cons by done.
    destruct l as [|x xs]; [done|]. apply Forall_cons in IH as [Hx Hxs]. destruct Hwf as [Hwx Hwxs].
    rewrite <- app_assoc, utf8_valid_app by auto.
    induction xs as [|y ys IHys]; [done|]. apply Forall_cons in Hxs as [Hy Hys]. destruct Hwxs as [Hwy Hwys].
    cbn [flat_map app]. rewrite utf8_valid_cons by done. rewrite <- app_assoc, utf8_valid_app by auto. auto.
  - cbn [print json_wf] in *. rewrite utf8_valid_cons by done.
    destruct l as [|[k x] xs]; [done|]. apply Forall_cons in IH as [Hx Hxs]. destruct Hwf as [Hwx Hwxs].
    rewrite <- app_assoc, utf8_valid_app by apply utf8_valid_print_string.
    cbn [app]. rewrite utf8_valid_cons by done. rewrite <- ?app_assoc, utf8_valid_app by auto.
    induction xs as [|[k' y] ys IHys]; [done|]. apply Forall_cons in Hxs as [Hy Hys].
    destruct Hwxs as [Hwy Hwys]. cbn [flat_map app fst snd]. rewrite utf8_valid_cons by done.
    rewrite <- !app_assoc, utf8_valid_app by apply utf8_valid_print_string.
    cbn [app]. rewrite utf8_valid_cons by done. rewrite utf8_valid_app by auto. auto.
Qed.

(** No text of an array or object is a proper prefix of another document's text. *)
Lemma print_prefix j1 j2 t :
  json_wf j1 → json_wf j2 → is_scalar j1 = false → json_depth j1 ≤ maxNestingDepth → json_depth j2 ≤ maxNestingDepth →
  print j2 = print j1 ++ t → t = [].
Proof.
  intros H1 H2 Hs Hd1 Hd2 E. pose proof (decode_next_print j2 [] H2 Hd2 (λ _, eq_refl)) as P2.
  rewrite app_nil_r, E, decode_next_print in P2; [by injection P2|done|done|by rewrite Hs].
Qed.
