(* ===== verification/StrictJson.v ===== *)
(** * internal/strictjson and decoding into Go structs

    [Decode] is the gate every security-sensitive document passes: size bound, valid UTF-8, no
    duplicate key at any depth, no unknown field, nothing after the document. Go's reflection-driven
    decoding is modelled by a universe of the struct types the program decodes ([kind]) and their
    values ([gval]). Theorems: duplicate keys and trailing data are found exactly, and a marshalled struct
    decodes to itself. *)

From stdpp Require Import strings.
From S2P Require Import Prelude Utf8 GoStrings Json JsonFacts.

(** ** Walking the tokens: [rejectDuplicateKeys] *)

(** [walkValue]. [seen] is the set of keys of the enclosing object; [fuel] bounds the calls. *)
Fixpoint walkValue (fuel : nat) (d : decoder) : option decoder :=
  match fuel with
  | O => None
  | S f =>
    '(tok, d) ← Token d;
    match tok with
    | Delim c =>
      if Ascii.eqb c "{"%char then walkMembers f [] d
      else if Ascii.eqb c "["%char then walkElements f d
      else None
    | _ => Some d
    end
  end
with walkMembers (fuel : nat) (seen : list gostring) (d : decoder) : option decoder :=
  match fuel with
  | O => None
  | S f =>
    if More d then
      '(tok, d) ← Token d;
      match tok with
      | TString key =>
        if existsb (str_eqb key) seen then None
        else d ← walkValue f d; walkMembers f (key :: seen) d
      | _ => None
      end
    else
      '(tok, d) ← Token d;
      match tok with
      | Delim c => if Ascii.eqb c "}"%char then Some d else None
      | _ => None
      end
  end
with walkElements (fuel : nat) (d : decoder) : option decoder :=
  match fuel with
  | O => None
  | S f =>
    if More d then d ← walkValue f d; walkElements f d
    else
      '(tok, d) ← Token d;
      match tok with
      | Delim c => if Ascii.eqb c "]"%char then Some d else None
      | _ => None
      end
  end.

(** [ensureEOF]: only white space is left. *)
Definition ensureEOF (rest : gostring) : bool := match skip_ws rest with [] => true | _ => false end.

(** [rejectDuplicateKeys]; [true] when no error. *)
Definition rejectDuplicateKeys (raw : gostring) : bool :=
  match walkValue (2 * length raw + 2) (new_decoder raw) with
  | Some d => ensureEOF (d_rest d)
  | None => false
  end.

(** ** Struct types and their values *)

(** The types of struct fields: [string], [int]/[int64], [*string], [*int], nested structs with the
    JSON names of their fields in declaration order, slices and [map[string]string]. *)
Inductive kind : Type :=
| KString
| KInt
| KStringPtr
| KIntPtr
| KStruct (fs : list (gostring * kind))
| KSlice (k : kind)
| KStringMap.

Inductive gval : Type :=
| GStr (s : gostring)
| GInt (z : Z)
| GStringPtr (o : option gostring)
| GIntPtr (o : option Z)
| GStruct (vs : list gval)
(** The elements of a slice, and those its memory still holds past its length. *)
| GSlice (vs stale : list gval)
| GStringMap (m : gmap gostring gostring).

(** The zero value of a type. *)
Fixpoint zero (k : kind) : gval :=
  match k with
  | KString => GStr []
  | KInt => GInt 0
  | KStringPtr => GStringPtr None
  | KIntPtr => GIntPtr None
  | KStruct fs => GStruct (map (λ nk, zero (snd nk)) fs)
  | KSlice _ => GSlice [] []
  | KStringMap => GStringMap ∅
  end.

(** [foldName]: field names match case-insensitively when no field has the exact name. Only the
    code points that fold to ASCII matter, as all field names are ASCII. *)
Definition fold_cp (cp : Z) : Z :=
  if (97 <=? cp) && (cp <=? 122) then cp - 32
  else if cp =? 0x17F then 83
  else if cp =? 0x212A then 75
  else cp.
Definition fold_name (s : gostring) : list Z := map (λ r, fold_cp (rune_cp r)) (runes s).

(** [strings.EqualFold] with an ASCII string. *)
Definition equal_fold (s t : gostring) : bool := bool_decide (fold_name s = fold_name t).

Fixpoint index_of {A} (p : A → bool) (l : list A) : option nat :=
  match l with
  | [] => None
  | a :: l' => if p a then Some O else S <$> index_of p l'
  end.

Definition find_field (fs : list (gostring * kind)) (key : gostring) : option nat :=
  match index_of (λ nk, str_eqb key (fst nk)) fs with
  | Some i => Some i
  | None => index_of (λ nk, bool_decide (fold_name key = fold_name (fst nk))) fs
  end.

(** The members of an object, in document order, into the fields of a struct; an unknown member is
    an error ([DisallowUnknownFields]). *)
Definition decode_members (dec : json → kind → gval → option gval) (fs : list (gostring * kind)) :=
  fix go (ms : list (gostring * json)) (vs : list gval) : option (list gval) :=
    match ms with
    | [] => Some vs
    | (key, j) :: ms' =>
      i ← find_field fs key;
      nk ← fs !! i;
      old ← vs !! i;
      v ← dec j (snd nk) old;
      go ms' (<[i := v]> vs)
    end.

(** The elements of an array into a slice: an element the slice's memory holds is decoded into, the
    others are new. Returns the elements of the slice and what its memory holds past them. *)
Definition decode_elements (dec : json → kind → gval → option gval) (k : kind) :=
  fix go (l : list json) (memory : list gval) : option (list gval * list gval) :=
    match l with
    | [] => Some ([], memory)
    | j :: l' =>
      v ← dec j k (match memory with old :: _ => old | [] => zero k end);
      '(vs, stale) ← go l' (tail memory);
      Some (v :: vs, stale)
    end.

(** The members of an object into a map of strings; [null] is the empty string. *)
Fixpoint decode_map (ms : list (gostring * json)) (m : gmap gostring gostring) : option (gmap gostring gostring) :=
  match ms with
  | [] => Some m
  | (key, JStr s) :: ms' => decode_map ms' (<[key := s]> m)
  | (key, JNull) :: ms' => decode_map ms' (<[key := []]> m)
  | _ => None
  end.

(** Decoding a document into a variable that holds [old]: [null] leaves a string, number or struct
    as it is and clears a pointer, a slice or a map; an empty array makes a new slice. *)
Fixpoint decode_into (j : json) (k : kind) (old : gval) {struct j} : option gval :=
  match k, j with
  | KString, JStr s => Some (GStr s)
  | KInt, JNum l => z ← parse_int l; Some (GInt z)
  | KStringPtr, JStr s => Some (GStringPtr (Some s))
  | KStringPtr, JNull => Some (GStringPtr None)
  | KIntPtr, JNum l => z ← parse_int l; Some (GIntPtr (Some z))
  | KIntPtr, JNull => Some (GIntPtr None)
  | KStruct fs, JObj ms =>
    match old with
    | GStruct vs => vs' ← decode_members decode_into fs ms vs; Some (GStruct vs')
    | _ => None
    end
  | KSlice k', JArr [] => Some (GSlice [] [])
  | KSlice k', JArr l =>
    match old with
    | GSlice vs stale => '(vs', stale') ← decode_elements decode_into k' l (vs ++ stale); Some (GSlice vs' stale')
    | _ => None
    end
  | KSlice _, JNull => Some (GSlice [] [])
  | KStringMap, JObj ms =>
    match old with
    | GStringMap m => m' ← decode_map ms m; Some (GStringMap m')
    | _ => None
    end
  | KStringMap, JNull => Some (GStringMap ∅)
  | (KString | KInt | KStruct _), JNull => Some old
  | _, _ => None
  end.

(** [strictjson.Decode(raw, maxBytes, &destination)] into a zero destination. *)
Definition Decode (raw : gostring) (maxBytes : Z) (k : kind) : option gval :=
  if (len raw =? 0) || (maxBytes <? len raw) || negb (utf8_valid raw) then None
  else if negb (rejectDuplicateKeys raw) then None
  else
    '(j, rest) ← decode_next raw;
    v ← decode_into j k (zero k);
    if ensureEOF rest then Some v else None.

(** [json.Marshal] of a struct: its fields in declaration order. No slice or map is
    marshalled. *)
Fixpoint encode (v : gval) (k : kind) {struct v} : json :=
  match v, k with
  | GStr s, _ => JStr s
  | GInt z, _ => JNum (itoa z)
  | GStringPtr (Some s), _ => JStr s
  | GIntPtr (Some z), _ => JNum (itoa z)
  | GStruct vs, KStruct fs =>
    JObj ((fix go vs fs {struct vs} := match vs, fs with
           | v :: vs', (n, k') :: fs' => (n, encode v k') :: go vs' fs'
           | _, _ => []
           end) vs fs)
  | GSlice vs _, KSlice k' => JArr (map (λ v, encode v k') vs)
  | _, _ => JNull
  end.

Definition marshal (v : gval) (k : kind) : gostring := print (encode v k).

(** ** Specifications *)

(** No object of the document has two equal keys. *)
Fixpoint nodup_keys (j : json) : bool :=
  match j with
  | JArr l => forallb nodup_keys l
  | JObj l =>
    bool_decide (NoDup (map fst l)) && forallb (λ kv, nodup_keys (snd kv)) l
  | _ => true
  end.

(** A value of a type, with its integers in range. *)
Fixpoint has_kind (v : gval) (k : kind) {struct v} : Prop :=
  match v, k with
  | GStr _, KString | GStringPtr _, KStringPtr | GIntPtr None, KIntPtr | GStringMap _, KStringMap => True
  | GInt z, KInt | GIntPtr (Some z), KIntPtr => int64_range z
  | GStruct vs, KStruct fs =>
    (fix go vs fs {struct vs} := match vs, fs with
     | [], [] => True
     | v :: vs', (_, k') :: fs' => has_kind v k' ∧ go vs' fs'
     | _, _ => False
     end) vs fs
  | GSlice vs stale, KSlice k' =>
    fold_right (λ v acc, has_kind v k' ∧ acc) True vs ∧ fold_right (λ v acc, has_kind v k' ∧ acc) True stale
  | _, _ => False
  end.

(** The types that are marshalled: no slices and maps, and field names are distinct ASCII strings. *)
Fixpoint kind_ok (k : kind) : Prop :=
  match k with
  | KStruct fs =>
    NoDup (map fst fs) ∧ Forall (λ nk, all_ascii (fst nk) = true) fs ∧
    fold_right (λ nk acc, kind_ok (snd nk) ∧ acc) True fs
  | KSlice _ | KStringMap => False
  | _ => True
  end.

Fixpoint kind_depth (k : kind) : Z :=
  match k with
  | KStruct fs => 1 + fold_right (λ nk acc, Z.max (kind_depth (snd nk)) acc) 0 fs
  | KSlice k' => 1 + Z.max 0 (kind_depth k')
  | _ => 0
  end.

(** Every string of a value with invalid bytes replaced. *)
Fixpoint gval_sanitize (v : gval) : gval :=
  match v with
  | GStr s => GStr (sanitize s)
  | GStringPtr o => GStringPtr (sanitize <$> o)
  | GStruct vs => GStruct (map gval_sanitize vs)
  | GSlice vs stale => GSlice (map gval_sanitize vs) (map gval_sanitize stale)
  | v => v
  end.

Fixpoint gval_utf8 (v : gval) : Prop :=
  match v with
  | GStr s | GStringPtr (Some s) => utf8_valid s = true
  | GStruct vs => fold_right (λ v acc, gval_utf8 v ∧ acc) True vs
  | GSlice vs stale =>
    fold_right (λ v acc, gval_utf8 v ∧ acc) True vs ∧ fold_right (λ v acc, gval_utf8 v ∧ acc) True stale
  | _ => True
  end.

(** ** Duplicate keys are found exactly *)

Fixpoint members_ok (seen : list gostring) (l : list (gostring * json)) : bool :=
  match l with
  | [] => true
  | (k, v) :: l' => negb (existsb (str_eqb k) seen) && nodup_keys v && members_ok (k :: seen) l'
  end.

Lemma existsb_str_eqb k l : existsb (str_eqb k) l = bool_decide (k ∈ l).
Proof.
  induction l as [|x l IH]; cbn [existsb]; [by rewrite bool_decide_eq_false_2 by set_solver|].
  rewrite IH. destruct (str_eqb k x) eqn:E; breflect; cbn [orb].
  - subst. symmetry. apply bool_decide_eq_true. set_solver.
  - apply bool_decide_ext. set_solver.
Qed.

Lemma members_ok_spec seen l :
  members_ok seen l = true ↔
  (NoDup (map fst l) ∧ ∀ k, k ∈ map fst l → k ∉ seen) ∧ forallb (λ kv, nodup_keys (snd kv)) l = true.
Proof.
  revert seen; induction l as [|[k v] l IH]; intros seen; cbn [members_ok map fst snd forallb].
  { split; [|done]. repeat split; [constructor|set_solver]. }
  rewrite !andb_true_iff, IH, existsb_str_eqb, negb_true_iff, bool_decide_eq_false, NoDup_cons. split.
  - intros [[H1 H2] [[H3 H4] H5]]. repeat split; try done; [intros H%H4; set_solver|set_solver].
  - intros [[[H1 H2] H3] [H4 H5]]. repeat split; try done; [apply H3; set_solver|].
    intros k' Hk'. rewrite not_elem_of_cons. split; [by intros ->|apply H3; set_solver].
Qed.

Lemma members_ok_nil l : members_ok [] l = nodup_keys (JObj l).
Proof.
  apply eq_true_iff_eq. rewrite members_ok_spec. cbn [nodup_keys]. rewrite andb_true_iff, bool_decide_eq_true.
  set_solver.
Qed.

Lemma dec_digits_length fuel n acc : (length (dec_digits fuel n acc) ≤ fuel + length acc)%nat.
Proof.
  revert n acc; induction fuel as [|f IH]; intros n acc; simpl; [lia|].
  destruct (n <? 10); simpl; [lia|]. specialize (IH (n / 10) (digit (n `mod` 10) :: acc)). simpl in IH. lia.
Qed.

Lemma utoa_length n : 0 ≤ n ≤ 2 ^ 63 → len (utoa n) ≤ 64.
Proof.
  intros Hn. unfold len, utoa. pose proof (dec_digits_length (S (Z.to_nat (Z.log2 n))) n []) as H.
  pose proof (Z.log2_le_mono n (2 ^ 63) ltac:(lia)) as Hl. rewrite Z.log2_pow2 in Hl by lia.
  pose proof (Z.log2_nonneg n). cbn [length] in H. lia.
Qed.

Lemma utoa_free c n : 0 ≤ n → is_digit c = false → c ∉ utoa n.
Proof.
  intros Hn Hc Hin. pose proof (utoa_digits n Hn) as Hd. rewrite forallb_forall in Hd.
  rewrite Hd in Hc; [done|]. by apply list_elem_of_In.
Qed.

(** An integer in the 64-bit range does not overflow a float. *)
Lemma float_parts_utoa n : 0 ≤ n → float_parts (utoa n) = (n, 0).
Proof.
  intros Hn. unfold float_parts. rewrite !cut_byte_none by (by apply utoa_free).
  by rewrite app_nil_r, utoa_value.
Qed.

Lemma float_overflow_utoa n :
  0 ≤ n ≤ 2 ^ 63 → float_overflow (utoa n) = false ∧ float_overflow ("-"%char :: utoa n) = false.
Proof.
  intros Hn. pose proof (utoa_length n Hn) as Hl. pose proof (utoa_digits n ltac:(lia)) as Hd.
  unfold float_overflow. rewrite Ascii.eqb_refl.
  assert (E : match utoa n with c :: t => if Ascii.eqb c "-"%char then t else utoa n | [] => utoa n end = utoa n).
  { destruct (utoa n) as [|c t]; [done|]. simpl in Hd. breflect. destruct Hd as [Hc _].
    destruct (digit_not_sign c Hc) as [Hm _]. by rewrite (proj2 (Ascii.eqb_neq _ _) Hm). }
  rewrite E, float_parts_utoa by lia. rewrite (proj2 (Z.ltb_lt _ 300)) by lia.
  by destruct (n =? 0).
Qed.

Lemma float_overflow_itoa z : int64_range z → float_overflow (itoa z) = false.
Proof.
  unfold int64_range. intros Hz. unfold itoa. destruct (Z.ltb_spec z 0); apply float_overflow_utoa; lia.
Qed.

(** One scalar token. *)
Lemma token_scalar n j st stack r :
  is_scalar j = true → json_wf j → num_end r = true → tokenValueAllowed st = true →
  ∃ tok, token_loop (S n) (mkDecoder (print j ++ r) st stack) = Some (tok, mkDecoder r (tokenValueEnd st) stack) ∧
         (∀ c, tok ≠ Delim c).
Proof.
  intros Hs Hwf Hr Hst. pose proof (parse_scalar_print j r Hs Hwf Hr) as Hp.
  assert (Hc : ∃ c t, print j = c :: t ∧ value_start c = true ∧ c ≠ "["%char ∧ c ≠ "{"%char).
  { destruct j as [|[]|l|s|l|l]; try done; try (by eexists _, _).
    destruct Hwf as (z & Hz & ->). destruct (itoa_head z) as (c & t & E & Hc).
    exists c, t. apply number_start in Hc. breflect. tauto. }
  destruct Hc as (c & t & E & Hv & H1 & H2). cbn [token_loop d_rest d_state d_stack].
  rewrite skip_ws_print by done. rewrite E in *. cbn [app] in *. cbv beta iota.
  unfold value_start in Hv. apply negb_true_iff in Hv. breflect.
  destruct Hv as [[[[_ H3] H4] H5] H6].
  rewrite (proj2 (Ascii.eqb_neq _ _) H1), (proj2 (Ascii.eqb_neq _ _) H2), (proj2 (Ascii.eqb_neq _ _) H3),
    (proj2 (Ascii.eqb_neq _ _) H4), (proj2 (Ascii.eqb_neq _ _) H5), (proj2 (Ascii.eqb_neq _ _) H6), Hp.
  assert (Hres : ∃ tok, (if tokenValueAllowed st then
      '(v, r) ← Some (json_sanitize j, r);
      let d' := mkDecoder r (tokenValueEnd st) stack in
      match v with
      | JStr s => Some (TString s, d')
      | JNum l => if float_overflow l then None else Some (TScalar, d')
      | _ => Some (TScalar, d')
      end else None) = Some (tok, mkDecoder r (tokenValueEnd st) stack) ∧ ∀ c, tok ≠ Delim c).
  { rewrite Hst. cbn [mbind option_bind]. destruct j as [|[]|l|s|l|l]; try done; try (by eexists).
    destruct Hwf as (z & Hz & ->). cbn [json_sanitize]. rewrite float_overflow_itoa by done. by eexists. }
  destruct (Ascii.eqb c quote), st; done || exact Hres.
Qed.

Lemma token_open n c t st stack :
  (c = "["%char ∨ c = "{"%char) → tokenValueAllowed st = true →
  token_loop (S n) (mkDecoder (c :: t) st stack) =
  Some (Delim c, mkDecoder t (if Ascii.eqb c "["%char then tokenArrayStart else tokenObjectStart) (st :: stack)).
Proof. intros [->| ->] Hst; cbn; by rewrite Hst. Qed.

(** What walking one value does, wherever the token stream stands. *)
Definition walks (j : json) : Prop :=
  json_wf j → ∀ fuel d n st stack r,
  (json_cost j < fuel)%nat → Token d = token_loop (S n) (mkDecoder (print j ++ r) st stack) →
  tokenValueAllowed st = true → num_end r = true →
  walkValue fuel d =
  if nodup_keys (json_sanitize j) then Some (mkDecoder r (tokenValueEnd st) stack) else None.

Lemma more_start c t st stack : value_start c = true → More (mkDecoder (c :: t) st stack) = true.
Proof.
  intros Hv. unfold More. cbn [d_rest]. rewrite skip_ws_start by done.
  unfold value_start in Hv. apply negb_true_iff in Hv. breflect. tauto.
Qed.

Lemma walkElements_print xs fuel st stack r :
  Forall walks xs → fold_right (λ x acc, json_wf x ∧ acc) True xs →
  (fold_right (λ x acc, (S (json_cost x) + acc)%nat) 0%nat xs < fuel)%nat →
  walkElements fuel (mkDecoder (flat_map (λ y, ","%char :: print y) xs ++ "]"%char :: r) tokenArrayComma (st :: stack)) =
  if forallb nodup_keys (map json_sanitize xs) then Some (mkDecoder r (tokenValueEnd st) stack) else None.
Proof.
  revert fuel. induction xs as [|x xs IH]; intros fuel Hw Hwf Hf;
    (destruct fuel as [|f]; [lia|]); cbn [walkElements flat_map map forallb].
  - done.
  - cbn [app]. apply Forall_cons in Hw as [Hx Hxs]. destruct Hwf as [Hwx Hwxs]. cbn [fold_right] in Hf.
    change (More (mkDecoder (","%char :: ?s) tokenArrayComma ?k)) with true.
    rewrite (Hx Hwx f _ 1%nat tokenArrayValue (st :: stack) (flat_map (λ y, ","%char :: print y) xs ++ "]"%char :: r));
      [|lia|cbn [app]; by rewrite <- app_assoc|done|by destruct xs].
    destruct (nodup_keys (json_sanitize x)); [|done]. cbn [mbind option_bind tokenValueEnd andb].
    apply IH; [done|done|lia].
Qed.

Lemma walkMembers_print xs fuel seen st stack r :
  Forall (λ kv, walks (snd kv)) xs → fold_right (λ kv acc, json_wf (snd kv) ∧ acc) True xs →
  (fold_right (λ kv acc, (S (json_cost (snd kv)) + acc)%nat) 0%nat xs < fuel)%nat →
  walkMembers fuel seen (mkDecoder
    (flat_map (λ kv, ","%char :: print_string (fst kv) ++ ":"%char :: print (snd kv)) xs ++ "}"%char :: r)
    tokenObjectComma (st :: stack)) =
  if members_ok seen (map (λ kv, (sanitize (fst kv), json_sanitize (snd kv))) xs)
  then Some (mkDecoder r (tokenValueEnd st) stack) else None.
Proof.
  revert fuel seen. induction xs as [|[k x] xs IH]; intros fuel seen Hw Hwf Hf;
    (destruct fuel as [|f]; [lia|]); cbn [walkMembers flat_map map members_ok fst snd].
  - done.
  - cbn [app]. apply Forall_cons in Hw as [Hx Hxs]. destruct Hwf as [Hwx Hwxs]. cbn [fold_right snd] in *.
    change (More (mkDecoder (","%char :: ?s) tokenObjectComma ?k)) with true.
    assert (Ht : ∀ s, Token (mkDecoder (","%char :: print_string k ++ s) tokenObjectComma (st :: stack)) =
                 Some (TString (sanitize k), mkDecoder s tokenObjectColon (st :: stack))).
    { intros s. rewrite print_string_app. unfold Token. cbn [token_loop d_rest d_state d_stack].
      at_char. at_char. rewrite parse_string_escape. done. }
    rewrite <- !app_assoc, Ht. cbn [mbind option_bind].
    destruct (existsb (str_eqb (sanitize k)) seen); [done|]. cbn [negb andb app].
    rewrite <- ?app_assoc. cbn [app].
    rewrite (Hx Hwx f _ 1%nat tokenObjectValue (st :: stack)
      (flat_map (λ kv, ","%char :: print_string (fst kv) ++ ":"%char :: print (snd kv)) xs ++ "}"%char :: r));
      [|lia|done|done|by destruct xs].
    destruct (nodup_keys (json_sanitize x)); [|done]. cbn [mbind option_bind tokenValueEnd andb].
    apply IH; [done|done|lia].
Qed.

Lemma walkValue_print j : walks j.
Proof.
  induction j as [|b|l|s|l IH|l IH] using json_nested_ind; intros Hwf fuel d n st stack r Hf Ht Hst Hr;
    (destruct fuel as [|f]; [lia|]); cbn [walkValue]; rewrite Ht;
    try (match goal with |- context [print ?j ++ r] =>
           destruct (token_scalar n j st stack r) as (tok & -> & Hd); [done..|] end;
         by destruct tok; [exfalso; by eapply Hd|..]).
  - cbn [print json_cost json_wf] in *. cbn [app]. rewrite token_open by auto. cbn [mbind option_bind].
    simpl Ascii.eqb. cbv beta iota. destruct l as [|x xs].
    { destruct f as [|f]; [simpl in Hf; lia|]. done. }
    rewrite <- !app_assoc. cbn [app]. apply Forall_cons in IH as [Hx Hxs]. destruct Hwf as [Hwx Hwxs].
    cbn [fold_right] in Hf. destruct f as [|f]; [lia|]. cbn [walkElements].
    destruct (print_head x Hwx) as (c & t & E & Hc).
    rewrite E at 1. cbn [app]. rewrite more_start by done.
    rewrite (Hx Hwx f _ 2%nat tokenArrayStart (st :: stack) (flat_map (λ y, ","%char :: print y) xs ++ "]"%char :: r));
      [|lia|done|done|by destruct xs].
    cbn [json_sanitize map nodup_keys forallb tokenValueEnd].
    destruct (nodup_keys (json_sanitize x)); [|done]. cbn [mbind option_bind andb].
    rewrite walkElements_print; [done|done|done|lia].
  - cbn [print json_cost json_wf] in *. cbn [app]. rewrite token_open by auto. cbn [mbind option_bind].
    simpl Ascii.eqb. cbv beta iota. destruct l as [|[k x] xs].
    { destruct f as [|f]; [simpl in Hf; lia|]. done. }
    rewrite <- !app_assoc. cbn [app]. rewrite <- app_assoc.
    apply Forall_cons in IH as [Hx Hxs]. destruct Hwf as [Hwx Hwxs].
    cbn [fold_right snd] in *. destruct f as [|f]; [lia|]. cbn [walkMembers].
    assert (Htok : ∀ s, Token (mkDecoder (print_string k ++ s) tokenObjectStart (st :: stack)) =
                 Some (TString (sanitize k), mkDecoder s tokenObjectColon (st :: stack))).
    { intros s. rewrite print_string_app. unfold Token. cbn [token_loop d_rest d_state d_stack].
      at_char. rewrite parse_string_escape. done. }
    rewrite Htok. rewrite print_string_app at 1. rewrite more_start by done.
    cbn [mbind option_bind existsb].
    rewrite (Hx Hwx f _ 1%nat tokenObjectValue (st :: stack)
      (flat_map (λ kv, ","%char :: print_string (fst kv) ++ ":"%char :: print (snd kv)) xs ++ "}"%char :: r));
      [|lia|done|done|by destruct xs].
    cbn [json_sanitize]. rewrite <- members_ok_nil. cbn [map members_ok fst snd existsb negb andb tokenValueEnd].
    destruct (nodup_keys (json_sanitize x)); [|done]. cbn [mbind option_bind andb].
    rewrite walkMembers_print; [done|done|done|lia].
Qed.

(** The duplicate check decides whether the decoded keys of a document are distinct and nothing but
    white space follows it. *)
Lemma rejectDuplicateKeys_print j r :
  json_wf j → num_end r = true → rejectDuplicateKeys (print j ++ r) = nodup_keys (json_sanitize j) && ensureEOF r.
Proof.
  intros Hwf Hr. unfold rejectDuplicateKeys, new_decoder.
  rewrite (walkValue_print j Hwf _ _ 2%nat tokenTopValue [] r); [|..|done|done].
  - by destruct (nodup_keys (json_sanitize j)).
  - pose proof (json_cost_length j Hwf). rewrite length_app. lia.
  - done.
Qed.

(** ** Struct values *)

Lemma kind_nested_ind (P : kind → Prop) :
  P KString → P KInt → P KStringPtr → P KIntPtr → P KStringMap →
  (∀ fs, Forall (λ nk, P (snd nk)) fs → P (KStruct fs)) → (∀ k, P k → P (KSlice k)) → ∀ k, P k.
Proof.
  intros H1 H2 H3 H4 H5 H6 H7. fix IH 1. intros [| | | |fs|k|]; [done..| |apply H7, IH|done].
  apply H6. induction fs as [|nk fs IHf]; constructor; [apply IH|exact IHf].
Qed.

Lemma has_kind_struct v fs :
  has_kind v (KStruct fs) ↔ ∃ vs, v = GStruct vs ∧ Forall2 (λ v nk, has_kind v (snd nk)) vs fs.
Proof.
  destruct v as [s|z|o|[z|]|vs|vs stale|m]; simpl; try (split; [done|intros (? & [=] & _)]).
  transitivity (Forall2 (λ v nk, has_kind v (snd nk)) vs fs); [|naive_solver].
  revert fs; induction vs as [|v vs IH]; intros [|[n k] fs]; simpl.
  - split; [constructor|done].
  - split; [done|intros H; inversion H].
  - split; [done|intros H; inversion H].
  - by rewrite Forall2_cons, IH.
Qed.

Lemma fold_and_Forall {A} (P : A → Prop) l : fold_right (λ x acc, P x ∧ acc) True l ↔ Forall P l.
Proof. induction l; simpl; [split; [constructor|done]|]. by rewrite Forall_cons, IHl. Qed.

Lemma has_kind_slice v k :
  has_kind v (KSlice k) ↔
  ∃ vs stale, v = GSlice vs stale ∧ Forall (λ v, has_kind v k) vs ∧ Forall (λ v, has_kind v k) stale.
Proof.
  destruct v as [s|z|o|[z|]|vs|vs stale|m]; simpl; try (split; [done|intros (? & ? & [=] & _)]).
  rewrite !fold_and_Forall. naive_solver.
Qed.

(** The fields of a struct with their names. *)
Lemma encode_struct vs fs :
  encode (GStruct vs) (KStruct fs) = JObj (zip_with (λ v nk, (fst nk, encode v (snd nk))) vs fs).
Proof.
  simpl. f_equal. revert fs; induction vs as [|v vs IH]; intros [|[n k] fs]; simpl; [done..|]. by rewrite IH.
Qed.

Lemma zero_has_kind k : has_kind (zero k) k.
Proof.
  induction k as [| | | | |fs IH|k IH] using kind_nested_ind; try done.
  apply has_kind_struct. eexists. split; [done|].
  induction IH; simpl; constructor; done.
Qed.

Lemma encode_wf k v : has_kind v k → json_wf (encode v k).
Proof.
  revert v; induction k as [| | | | |fs IH|k IH] using kind_nested_ind; intros v Hv.
  1-5: destruct v as [s|z|[s|]|[z|]|vs|vs stale|m]; simpl in *; try done; eauto.
  2: { apply has_kind_slice in Hv as (vs & stale & -> & Hv & _). simpl. apply fold_and_Forall, Forall_map.
       eapply Forall_impl; [done|]. auto. }
  apply has_kind_struct in Hv as (vs & -> & Hv). rewrite encode_struct. simpl.
  induction Hv as [|v [n k] vs fs Hk Hv IHv]; simpl; [done|].
  apply Forall_cons in IH as [H IH]. split; [by apply H|by apply IHv].
Qed.

Lemma encode_depth k v : has_kind v k → json_depth (encode v k) ≤ kind_depth k.
Proof.
  revert v; induction k as [| | | | |fs IH|k IH] using kind_nested_ind; intros v Hv.
  1-5: destruct v as [s|z|[s|]|[z|]|vs|vs stale|m]; simpl in *; done.
  2: { apply has_kind_slice in Hv as (vs & stale & -> & Hv & _). cbn [json_depth kind_depth encode].
       apply Zplus_le_compat_l. induction Hv as [|v vs Hv _ IHv]; simpl; [lia|]. specialize (IH v Hv). lia. }
  apply has_kind_struct in Hv as (vs & -> & Hv). rewrite encode_struct. cbn [json_depth kind_depth].
  apply Zplus_le_compat_l. induction Hv as [|v [n k] vs fs Hk Hv IHv]; simpl; [done|].
  apply Forall_cons in IH as [H IH]. apply Z.max_le_compat; [by apply H|by apply IHv].
Qed.

Lemma kind_ok_struct fs :
  kind_ok (KStruct fs) ↔ NoDup (map fst fs) ∧ Forall (λ nk, all_ascii (fst nk) = true ∧ kind_ok (snd nk)) fs.
Proof.
  simpl. rewrite Forall_and. apply and_iff_compat_l, and_iff_compat_l.
  induction fs as [|nk fs IH]; simpl; [split; [constructor|done]|]. by rewrite Forall_cons, IH.
Qed.

Lemma sanitize_ascii s : all_ascii s = true → sanitize s = s.
Proof. intros. by apply sanitize_valid, utf8_valid_ascii. Qed.

Lemma zip_names {A} (f : A → (gostring * kind) → json) vs fs :
  length vs = length fs → map fst (zip_with (λ v nk, (fst nk, f v nk)) vs fs) = map fst fs.
Proof.
  revert fs; induction vs as [|v vs IH]; intros [|nk fs] E; simpl in *; try done. rewrite IH; [done|lia].
Qed.

(** The encoded document of a struct has no duplicate keys, invalid strings replaced or not. *)
Lemma encode_sanitize_struct vs fs :
  Forall (λ nk, all_ascii (fst nk) = true ∧ kind_ok (snd nk)) fs →
  json_sanitize (encode (GStruct vs) (KStruct fs)) =
  JObj (zip_with (λ v nk, (fst nk, json_sanitize (encode v (snd nk)))) vs fs).
Proof.
  intros H. rewrite encode_struct. simpl. f_equal.
  revert vs; induction H as [|nk fs [Ha _] H IH]; intros [|v vs]; simpl; [done..|].
  by rewrite sanitize_ascii, IH.
Qed.

Lemma encode_nodup k v : has_kind v k → kind_ok k → nodup_keys (json_sanitize (encode v k)) = true.
Proof.
  revert v; induction k as [| | | | |fs IH|k IH] using kind_nested_ind; intros v Hv Hk; [..|done].
  1-5: destruct v as [s|z|[s|]|[z|]|vs|vs stale|m]; simpl in *; done.
  apply has_kind_struct in Hv as (vs & -> & Hv). apply kind_ok_struct in Hk as [Hn Hf].
  rewrite encode_sanitize_struct by done. cbn [nodup_keys].
  rewrite andb_true_iff, bool_decide_eq_true, zip_names by eauto using Forall2_length.
  split; [done|]. clear Hn. induction Hv as [|v [n k] vs fs Hvk Hv IHv]; simpl; [done|].
  apply Forall_cons in IH as [H IH]. apply Forall_cons in Hf as [[_ Hok] Hf]. simpl in *.
  rewrite H by done. by apply IHv.
Qed.

(** A field is found by its own name. *)
Lemma index_of_app {A} (p : A → bool) l1 x l2 :
  forallb (λ y, negb (p y)) l1 = true → p x = true → index_of p (l1 ++ x :: l2) = Some (length l1).
Proof.
  intros Hl Hx. induction l1 as [|y l1 IH]; simpl in *; [by rewrite Hx|].
  breflect. destruct Hl as [-> Hl]. by rewrite IH.
Qed.

Lemma find_field_app fs1 n k fs2 :
  NoDup (map fst (fs1 ++ (n, k) :: fs2)) → find_field (fs1 ++ (n, k) :: fs2) n = Some (length fs1).
Proof.
  intros Hnd. unfold find_field. rewrite index_of_app; [done| |apply str_eqb_refl].
  rewrite map_app in Hnd. apply NoDup_app in Hnd as (_ & Hd & _).
  rewrite forallb_forall. intros [n' k'] Hin%list_elem_of_In. simpl. apply negb_true_iff, str_eqb_neq.
  intros ->. apply (Hd n'); [|simpl; set_solver]. apply list_elem_of_fmap. by exists (n', k').
Qed.

(** Decoding an encoded value, whatever the destination held. *)
Definition decodes_back (v : gval) (k : kind) : Prop :=
  ∀ old, has_kind old k → decode_into (json_sanitize (encode v k)) k old = Some (gval_sanitize v).

Lemma decode_members_zip fs1 fs2 done olds vs :
  NoDup (map fst (fs1 ++ fs2)) → length done = length fs1 →
  Forall2 (λ v nk, has_kind v (snd nk)) olds fs2 →
  Forall2 (λ v nk, decodes_back v (snd nk)) vs fs2 →
  decode_members decode_into (fs1 ++ fs2)
    (zip_with (λ v nk, (fst nk, json_sanitize (encode v (snd nk)))) vs fs2) (done ++ olds) =
  Some (done ++ map gval_sanitize vs).
Proof.
  intros Hnd Hl Ho Hv. revert fs1 done olds Hnd Hl Ho.
  induction Hv as [|v [n k] vs fs2 Hd Hv IH]; intros fs1 done olds Hnd Hl Ho.
  { by inversion Ho. }
  apply Forall2_cons_inv_r in Ho as (o & olds' & Hko & Ho & ->).
  cbn [zip_with decode_members fst snd map] in *. rewrite find_field_app by done. cbn [mbind option_bind].
  rewrite list_lookup_middle by done. cbn [mbind option_bind].
  rewrite list_lookup_middle by done. cbn [mbind option_bind snd].
  rewrite (Hd o Hko). cbn [mbind option_bind].
  rewrite <- Hl, insert_app_r_alt, Nat.sub_diag by done. cbn [insert list_insert].
  specialize (IH (fs1 ++ [(n, k)]) (done ++ [gval_sanitize v]) olds').
  rewrite <- !app_assoc in IH. apply IH; [done|rewrite !length_app; simpl; lia|done].
Qed.

Lemma decode_into_encode k v : has_kind v k → kind_ok k → decodes_back v k.
Proof.
  revert v; induction k as [| | | | |fs IH|k IH] using kind_nested_ind; intros v Hv Hk old Hold; [..|done].
  1-5: destruct v as [s|z|[s|]|[z|]|vs|vs stale|m]; simpl in *; try done; by rewrite parse_int_itoa.
  apply has_kind_struct in Hv as (vs & -> & Hv). apply has_kind_struct in Hold as (olds & -> & Hold).
  apply kind_ok_struct in Hk as [Hn Hf].
  rewrite encode_sanitize_struct by done. cbn [decode_into gval_sanitize].
  pose proof (decode_members_zip [] fs [] olds vs Hn eq_refl Hold) as H. cbn [app] in H.
  rewrite H; [done|]. clear H Hn Hold. induction Hv as [|v [n k] vs fs Hvk Hv IHv]; constructor.
  - apply Forall_cons in IH as [H _]. apply Forall_cons in Hf as [[_ Hok] _]. by apply H.
  - apply Forall_cons in IH as [_ IH]. apply Forall_cons in Hf as [_ Hf]. by apply IHv.
Qed.

Lemma gval_nested_ind (P : gval → Prop) :
  (∀ s, P (GStr s)) → (∀ z, P (GInt z)) → (∀ o, P (GStringPtr o)) → (∀ o, P (GIntPtr o)) → (∀ m, P (GStringMap m)) →
  (∀ vs, Forall P vs → P (GStruct vs)) → (∀ vs stale, Forall P vs → Forall P stale → P (GSlice vs stale)) → ∀ v, P v.
Proof.
  intros H1 H2 H3 H4 H5 H6 H7. fix IH 1.
  intros [s|z|o|o|vs|vs stale|m]; [apply H1|apply H2|apply H3|apply H4|apply H6|apply H7|apply H5].
  - induction vs as [|v vs IHv]; constructor; [apply IH|exact IHv].
  - induction vs as [|v vs IHv]; constructor; [apply IH|exact IHv].
  - induction stale as [|v stale IHv]; constructor; [apply IH|exact IHv].
Qed.

Lemma map_sanitize_utf8 vs :
  Forall (λ v, gval_utf8 v → gval_sanitize v = v) vs → fold_right (λ v acc, gval_utf8 v ∧ acc) True vs →
  map gval_sanitize vs = vs.
Proof. induction 1 as [|v vs Hv _ IH]; simpl; [done|]. intros [H1 H2]. by rewrite Hv, IH. Qed.

Lemma gval_sanitize_utf8 v : gval_utf8 v → gval_sanitize v = v.
Proof.
  induction v as [s|z|[s|]|o|m|vs IH|vs stale IH IHs] using gval_nested_ind; simpl; intros H; try done.
  - by rewrite sanitize_valid.
  - by rewrite sanitize_valid.
  - by rewrite map_sanitize_utf8.
  - destruct H. by rewrite !map_sanitize_utf8.
Qed.

Lemma map_utf8_sanitize vs :
  Forall (λ v, gval_utf8 (gval_sanitize v)) vs → fold_right (λ v acc, gval_utf8 v ∧ acc) True (map gval_sanitize vs).
Proof. induction 1; simpl; auto. Qed.

Lemma gval_utf8_sanitize v : gval_utf8 (gval_sanitize v).
Proof.
  induction v as [s|z|[s|]|o|m|vs IH|vs stale IH IHs] using gval_nested_ind; simpl; auto using map_utf8_sanitize, sanitize_runes_valid.
Qed.

(** White space. *)
Lemma ensureEOF_ws r : ensureEOF r = forallb is_ws r.
Proof. unfold ensureEOF, skip_ws. induction r as [|c r IH]; [done|]. cbn [drop_while forallb]. by destruct (is_ws c). Qed.

Lemma ws_ascii r : forallb is_ws r = true → all_ascii r = true ∧ num_end r = true.
Proof.
  intros H. split.
  - unfold all_ascii. rewrite forallb_forall in *. intros c Hc. specialize (H c Hc). apply implb_true_iff with (b1 := is_ws c); [|done].
    revert c Hc H. intros c _ _. revert c. apply ascii_forall. vm_compute. reflexivity.
  - destruct r as [|c r]; [done|]. cbn [forallb] in H. apply andb_true_iff in H as [H _]. cbn [num_end].
    apply implb_true_iff with (b1 := is_ws c); [|done]. clear H. revert c. apply ascii_forall. vm_compute. reflexivity.
Qed.

(** Decoding the compact text of a document with something after it. *)
Lemma Decode_print_rest j r k maxBytes :
  json_wf j → json_depth j ≤ maxNestingDepth → (is_scalar j = true → num_end r = true) →
  Decode (print j ++ r) maxBytes k =
  if (len (print j ++ r) <=? maxBytes) && nodup_keys (json_sanitize j) && forallb is_ws r
  then decode_into (json_sanitize j) k (zero k) else None.
Proof.
  intros Hwf Hd Hr. unfold Decode.
  assert (Hne : len (print j ++ r) ≠ 0).
  { destruct (print_head _ Hwf) as (c & t & -> & _). cbn [app]. rewrite len_cons. pose proof (len_nonneg (t ++ r)). lia. }
  rewrite (proj2 (Z.eqb_neq _ _) Hne), decode_next_print by done. cbn [orb mbind option_bind]. rewrite <- ensureEOF_ws.
  destruct (ensureEOF r) eqn:Er.
  - rewrite ensureEOF_ws in Er. destruct (ws_ascii r Er) as [Ha Hn]. rewrite rejectDuplicateKeys_print, ensureEOF_ws, Er by done.
    assert (Hu : utf8_valid (print j ++ r) = true) by (rewrite utf8_valid_app by (by apply utf8_valid_print); by apply utf8_valid_ascii).
    rewrite Hu, !andb_true_r. destruct (Z.ltb_spec maxBytes (len (print j ++ r))), (Z.leb_spec (len (print j ++ r)) maxBytes); try lia; [done|].
    cbn [orb negb andb]. destruct (nodup_keys _); [|done]. by destruct (decode_into _ _ _).
  - rewrite !andb_false_r. do 2 (case_match; [done|]). by destruct (decode_into _ _ _).
Qed.

Lemma Decode_print j k maxBytes :
  json_wf j → json_depth j ≤ maxNestingDepth → len (print j) ≤ maxBytes → nodup_keys (json_sanitize j) = true →
  Decode (print j) maxBytes k = decode_into (json_sanitize j) k (zero k).
Proof.
  intros Hwf Hd Hl Hk. rewrite <- (app_nil_r (print j)), Decode_print_rest, app_nil_r by done. by rewrite (proj2 (Z.leb_le _ _) Hl), Hk.
Qed.

(** Decoding the marshalled text of a struct value gives the value, its strings made valid UTF-8. *)
Lemma Decode_marshal v k maxBytes :
  has_kind v k → kind_ok k → kind_depth k ≤ maxNestingDepth → len (marshal v k) ≤ maxBytes →
  Decode (marshal v k) maxBytes k = Some (gval_sanitize v).
Proof.
  intros Hv Hk Hd Hl. pose proof (encode_depth k v Hv). unfold marshal in *.
  rewrite Decode_print by (auto using encode_wf, encode_nodup; lia).
  by rewrite (decode_into_encode k v Hv Hk (zero k) (zero_has_kind k)).
Qed.

Lemma Decode_marshal_utf8 v k maxBytes :
  has_kind v k → kind_ok k → kind_depth k ≤ maxNestingDepth → len (marshal v k) ≤ maxBytes →
  gval_utf8 v → Decode (marshal v k) maxBytes k = Some v.
Proof. intros. rewrite Decode_marshal by done. by rewrite gval_sanitize_utf8. Qed.

(** What a successful [Decode] says of its input. *)
Lemma Decode_some raw maxBytes k v :
  Decode raw maxBytes k = Some v → 1 ≤ len raw ≤ maxBytes ∧ utf8_valid raw = true ∧ rejectDuplicateKeys raw = true.
Proof.
  unfold Decode. intros H. case_if_in H; [done|]. case_if_in H; [done|].
  breflect. pose proof (len_nonneg raw). repeat split; try tauto; lia.
Qed.

(** ** Decoded values are values of their type *)

Lemma parse_int_range s z : parse_int s = Some z → int64_range z.
Proof.
  unfold parse_int, int64_range. intros H.
  assert (Hu : ∀ t v, match t with [] => None | _ :: _ => if forallb is_digit t then Some (dec_value t) else None end
                      = Some v → 0 ≤ v).
  { intros [|c t] v Hv; [done|]. case_if_in Hv; [|done]. simplify_eq. by apply dec_value_bounds. }
  destruct s as [|c t]; [done|].
  case_if_in H; apply bind_Some in H as (v & Hv%Hu & H); case_if_in H; simplify_eq; breflect; lia.
Qed.

Lemma decode_members_kind fs ms vs vs' :
  Forall (λ kv : gostring * json, ∀ k old v, has_kind old k → decode_into (snd kv) k old = Some v → has_kind v k) ms →
  Forall2 (λ v nk, has_kind v (snd nk)) vs fs → decode_members decode_into fs ms vs = Some vs' →
  Forall2 (λ v nk, has_kind v (snd nk)) vs' fs.
Proof.
  intros Hms. revert vs. induction Hms as [|[key j] ms Hj Hms IH]; intros vs Hvs Hd; simpl in Hd; [by simplify_eq|].
  destruct (find_field fs key) as [i|]; [|done]. simpl in Hd.
  destruct (fs !! i) as [nk|] eqn:Hnk; [|done]. simpl in Hd.
  destruct (vs !! i) as [old|] eqn:Hold; [|done]. simpl in Hd.
  destruct (decode_into j (snd nk) old) as [v|] eqn:Hv; [|done]. simpl in Hd.
  pose proof (Forall2_lookup_lr _ _ _ _ _ _ Hvs Hold Hnk) as Hk.
  apply (IH (<[i := v]> vs)); [|done].
  rewrite <- (list_insert_id fs i nk Hnk). apply Forall2_insert; [done|]. exact (Hj _ old _ Hk Hv).
Qed.

Lemma decode_elements_kind k l memory vs stale :
  Forall (λ j, ∀ k old v, has_kind old k → decode_into j k old = Some v → has_kind v k) l →
  Forall (λ v, has_kind v k) memory → decode_elements decode_into k l memory = Some (vs, stale) →
  Forall (λ v, has_kind v k) vs ∧ Forall (λ v, has_kind v k) stale.
Proof.
  intros Hl. revert memory vs stale. induction Hl as [|j l Hj Hl IH]; intros memory vs stale Hm Hd; simpl in Hd.
  { simplify_eq. by split. }
  destruct (decode_into j k _) as [v|] eqn:Ev; [|done]. simpl in Hd.
  destruct (decode_elements decode_into k l (tail memory)) as [[vs' st']|] eqn:Er; [|done]. simpl in Hd. simplify_eq.
  apply IH in Er as [H1 H2]; [|by destruct Hm]. split; [|done]. constructor; [|done].
  eapply Hj; [|done]. destruct Hm; [apply zero_has_kind|done].
Qed.

Lemma decode_into_kind j k old v : has_kind old k → decode_into j k old = Some v → has_kind v k.
Proof.
  revert k old v; induction j as [|b|l|s|l IH|ms IH] using json_nested_ind; intros k old v Hold Hd;
    destruct k as [| | | |fs|k|]; simpl in Hd; simplify_eq; try done;
    try (destruct (parse_int l) as [z|] eqn:E; simpl in Hd; simplify_eq; by apply parse_int_range in E).
  { destruct l as [|j l]; [by simplify_eq|]. apply has_kind_slice in Hold as (vs & stale & -> & Hvs & Hst).
    apply bind_Some in Hd as ([vs' stale'] & E & [= <-]). eapply decode_elements_kind in E; [|done|by apply Forall_app].
    apply has_kind_slice. by eexists _, _. }
  2: { destruct old as [| | | | | |m]; try done. destruct (decode_map ms m); simpl in Hd; by simplify_eq. }
  apply has_kind_struct in Hold as (vs & -> & Hvs).
  destruct (decode_members decode_into fs ms vs) as [vs'|] eqn:E; simpl in Hd; simplify_eq.
  apply has_kind_struct. exists vs'. split; [done|]. by eapply decode_members_kind.
Qed.

Lemma Decode_kind raw maxBytes k v : Decode raw maxBytes k = Some v → has_kind v k.
Proof.
  unfold Decode. intros H. case_if_in H; [done|]. case_if_in H; [done|].
  destruct (decode_next raw) as [[j rest]|]; [|done]. simpl in H.
  destruct (decode_into j k (zero k)) as [v'|] eqn:Ed; [|done]. simpl in H.
  case_if_in H; [|done]. simplify_eq. eapply decode_into_kind; [apply zero_has_kind|done].
Qed.

(** ** Go structs as records

    [GoStruct] ties a record of the model to the struct type the code decodes and marshals. *)

Class GoStruct (A : Type) : Type := {
  kind_of : kind;
  to_gval : A → gval;
  of_gval : gval → option A;
  struct_kind_ok : kind_ok kind_of;
  struct_depth : kind_depth kind_of ≤ maxNestingDepth;
  of_to_gval : ∀ a, of_gval (to_gval a) = Some a;
  to_of_gval : ∀ v, has_kind v kind_of → ∃ a, of_gval v = Some a ∧ to_gval a = v }.

Section Structs.
Context {A : Type} `{GoStruct A}.

(** [strictjson.Decode] into a variable of the struct type. *)
Definition decode_struct (raw : gostring) (maxBytes : Z) : option A :=
  v ← Decode raw maxBytes kind_of; of_gval v.

(** [json.Marshal] of a struct; it cannot fail for these types. *)
Definition marshal_struct (a : A) : gostring := marshal (to_gval a) kind_of.

(** [canonical]: the text is exactly what marshalling the value gives. *)
Definition canonical (raw : gostring) (a : A) : bool := raw =s marshal_struct a.

(** The integers of a struct fit their width, its strings are UTF-8. *)
Definition struct_ok (a : A) : Prop := has_kind (to_gval a) kind_of ∧ gval_utf8 (to_gval a).

Lemma decode_struct_marshal a maxBytes :
  struct_ok a → len (marshal_struct a) ≤ maxBytes → decode_struct (marshal_struct a) maxBytes = Some a.
Proof.
  intros [Hk Hu] Hl. unfold decode_struct, marshal_struct.
  rewrite Decode_marshal_utf8 by (done || apply struct_kind_ok || apply struct_depth). simpl.
  by rewrite of_to_gval.
Qed.

Lemma canonical_spec raw a : canonical raw a = true ↔ raw = marshal_struct a.
Proof. unfold canonical. apply str_eqb_eq. Qed.

(** Decoding a marshalled struct yields it with its strings made valid. *)
Lemma decode_struct_sanitized a maxBytes x :
  has_kind (to_gval a) kind_of → decode_struct (marshal_struct a) maxBytes = Some x → to_gval x = gval_sanitize (to_gval a).
Proof.
  intros Hk. unfold decode_struct. destruct (Decode (marshal_struct a) maxBytes kind_of) as [v|] eqn:E; [|done].
  pose proof (Decode_some _ _ _ _ E) as (Hl & _ & _). pose proof (Decode_kind _ _ _ _ E) as Hv. unfold marshal_struct in *.
  rewrite Decode_marshal in E by (done || apply struct_kind_ok || apply struct_depth || lia). injection E as <-. cbn [mbind option_bind].
  destruct (to_of_gval _ Hv) as (y & Hy & Ey). rewrite Hy. intros [= <-]. done.
Qed.

(** Structs in range and in UTF-8 with the same text are equal. *)
Lemma marshal_struct_inj a b : struct_ok a → struct_ok b → marshal_struct a = marshal_struct b → a = b.
Proof.
  intros Ha Hb E. apply (inj Some).
  by rewrite <- (decode_struct_marshal a (len (marshal_struct a))), E, decode_struct_marshal by (done || rewrite E; lia).
Qed.

(** No text of a struct is a proper prefix of another's. *)
Lemma marshal_struct_prefix fs a1 a2 t :
  kind_of = KStruct fs → has_kind (to_gval a1) kind_of → has_kind (to_gval a2) kind_of →
  marshal_struct a2 = marshal_struct a1 ++ t → t = [].
Proof.
  unfold marshal_struct, marshal. intros Hfs H1 H2. pose proof (struct_depth (A := A)).
  apply print_prefix; auto using encode_wf; [|by etransitivity; [apply encode_depth|]..].
  rewrite Hfs in *. apply has_kind_struct in H1 as (vs & -> & _). by rewrite encode_struct.
Qed.

(** A canonical document that decodes holds integers in range and valid UTF-8 strings. *)
Lemma decode_struct_canonical raw maxBytes a :
  decode_struct raw maxBytes = Some a → canonical raw a = true →
  raw = marshal_struct a ∧ struct_ok a ∧ 1 ≤ len raw ≤ maxBytes.
Proof.
  unfold decode_struct. intros Hd Hc%canonical_spec. destruct (Decode raw maxBytes kind_of) as [v|] eqn:E; [|done].
  simpl in Hd. pose proof (Decode_kind _ _ _ _ E) as Hk. pose proof (Decode_some _ _ _ _ E) as (Hl & _ & _).
  destruct (to_of_gval v Hk) as (a' & Ha & Hv). simplify_eq. split; [done|]. split; [|done]. split; [done|].
  unfold marshal_struct in *. rewrite Decode_marshal in E by (done || apply struct_kind_ok || apply struct_depth || lia).
  injection E as E. rewrite <- E. apply gval_utf8_sanitize.
Qed.
End Structs.

(** C38: [Decode] accepts one document and nothing else. For a JSON document whose numbers are 64-bit
    integers and that is nested at most 10000 deep, in compact form and followed by any text that does
    not continue a number: it is refused when the whole is longer than the limit, when any object in it,
    at any depth, has the same key twice, or when something other than white space follows; otherwise
    the result is that of decoding the document into the zero value of the destination, with invalid
    UTF-8 in its strings replaced. *)
Theorem Decode_document j r k maxBytes :
  json_wf j → json_depth j ≤ maxNestingDepth → (is_scalar j = true → num_end r = true) →
  Decode (print j ++ r) maxBytes k =
  if (len (print j ++ r) <=? maxBytes) && nodup_keys (json_sanitize j) && forallb is_ws r
  then decode_into (json_sanitize j) k (zero k) else None.
Proof. apply Decode_print_rest. Qed.

(** A document and a copy of it in which a nested key is repeated. *)
Definition sample_pair : kind := KStruct [(lit "name", KString); (lit "nested", KStruct [(lit "count", KIntPtr)])].
Definition sample_document (counts : list Z) : json :=
  JObj [(lit "name", JStr (lit "a")); (lit "nested", JObj (map (λ z, (lit "count", JNum (itoa z))) counts))].

Lemma sample_document_wf counts : Forall int64_range counts → json_wf (sample_document counts).
Proof. intros H. repeat split. cbn. induction H as [|z counts Hz _ IH]; cbn; [done|]. split; [by exists z|exact IH]. Qed.

Lemma Decode_document_witness :
  Decode (print (sample_document [3]) ++ lit " ") 64 sample_pair = Some (GStruct [GStr (lit "a"); GStruct [GIntPtr (Some 3)]]) ∧
  Decode (print (sample_document [3]) ++ lit "1") 64 sample_pair = None ∧
  Decode (print (sample_document [3; 4])) 64 sample_pair = None.
Proof.
  assert (Hr : ∀ z, -10 ≤ z ≤ 10 → int64_range z) by (unfold int64_range; lia).
  split_and!.
  - rewrite (Decode_document (sample_document [3])); [vm_compute; reflexivity|apply sample_document_wf; repeat constructor; lia|by vm_compute|done].
  - rewrite (Decode_document (sample_document [3])); [vm_compute; reflexivity|apply sample_document_wf; repeat constructor; lia|by vm_compute|done].
  - rewrite <- (app_nil_r (print _)), (Decode_document (sample_document [3; 4]));
      [vm_compute; reflexivity|apply sample_document_wf; repeat constructor; lia|by vm_compute|done].
Defined.
