(* ===== verification/Sha256.v ===== *)
(** * crypto/sha256 and crypto/hmac

    FIPS 180-4 on byte strings with 32-bit words as integers modulo 2^32, and RFC 2104 over it. Blob
    references, recipient identifiers and operation identifiers are built from these digests; the
    development uses that they are functions with a fixed output format, never that they are
    collision free. *)

From S2P Require Import Prelude Utf8 GoStrings Regex.

Definition mask32 : Z := 0xffffffff.
Definition w32 (z : Z) : Z := Z.land z mask32.
Definition rotr (n x : Z) : Z := Z.lor (Z.shiftr x n) (w32 (Z.shiftl x (32 - n))).
Definition Ch (x y z : Z) : Z := Z.lxor (Z.land x y) (Z.land (mask32 - x) z).
Definition Maj (x y z : Z) : Z := Z.lxor (Z.lxor (Z.land x y) (Z.land x z)) (Z.land y z).
Definition Sigma0 (x : Z) : Z := Z.lxor (Z.lxor (rotr 2 x) (rotr 13 x)) (rotr 22 x).
Definition Sigma1 (x : Z) : Z := Z.lxor (Z.lxor (rotr 6 x) (rotr 11 x)) (rotr 25 x).
Definition sigma0 (x : Z) : Z := Z.lxor (Z.lxor (rotr 7 x) (rotr 18 x)) (Z.shiftr x 3).
Definition sigma1 (x : Z) : Z := Z.lxor (Z.lxor (rotr 17 x) (rotr 19 x)) (Z.shiftr x 10).

(** The constants are fractional parts of roots of the first primes. *)
Definition primes : list Z :=
  List.filter (λ n, forallb (λ d, negb (n `mod` d =? 0)) (map Z.of_nat (seq 2 (Z.to_nat n - 2))))
    (map Z.of_nat (seq 2 310)).

(** The integer cube root of [n] below [lo + 2^k]. *)
Fixpoint cbrt (k : nat) (lo n : Z) : Z :=
  match k with
  | O => lo
  | S k' => let mid := lo + 2 ^ Z.of_nat k' in cbrt k' (if mid * mid * mid <=? n then mid else lo) n
  end.

Definition K256 : list Z := Eval vm_compute in map (λ p, w32 (cbrt 36 0 (p * 2 ^ 96))) primes.

Record hash_state : Type := mkHash {
  ha : Z; hb : Z; hc : Z; hd : Z; he : Z; hf : Z; hg : Z; hh : Z }.

Definition H256 : hash_state := Eval vm_compute in
  match map (λ p, w32 (Z.sqrt (p * 2 ^ 64))) primes with
  | a :: b :: c :: d :: e :: f :: g :: h :: _ => mkHash a b c d e f g h
  | _ => mkHash 0 0 0 0 0 0 0 0
  end.

Definition be32 (b0 b1 b2 b3 : ascii) : Z :=
  Z.shiftl (code b0) 24 + Z.shiftl (code b1) 16 + Z.shiftl (code b2) 8 + code b3.
Fixpoint words (s : gostring) : list Z :=
  match s with
  | b0 :: b1 :: b2 :: b3 :: t => be32 b0 b1 b2 b3 :: words t
  | _ => []
  end.

(** The message schedule: [w] holds the words so far, latest first. *)
Fixpoint schedule (n : nat) (w : list Z) : list Z :=
  match n with
  | O => rev w
  | S n' =>
    let at_ i := nth i w 0 in
    schedule n' (w32 (sigma1 (at_ 1%nat) + at_ 6%nat + sigma0 (at_ 14%nat) + at_ 15%nat) :: w)
  end.

Definition round (h : hash_state) (kw : Z * Z) : hash_state :=
  let t1 := w32 (hh h + Sigma1 (he h) + Ch (he h) (hf h) (hg h) + fst kw + snd kw) in
  let t2 := w32 (Sigma0 (ha h) + Maj (ha h) (hb h) (hc h)) in
  mkHash (w32 (t1 + t2)) (ha h) (hb h) (hc h) (w32 (hd h + t1)) (he h) (hf h) (hg h).

Definition compress (h : hash_state) (block : gostring) : hash_state :=
  let r := fold_left round (zip K256 (schedule 48 (rev (words block)))) h in
  mkHash (w32 (ha h + ha r)) (w32 (hb h + hb r)) (w32 (hc h + hc r)) (w32 (hd h + hd r))
         (w32 (he h + he r)) (w32 (hf h + hf r)) (w32 (hg h + hg r)) (w32 (hh h + hh r)).

(** The big-endian bytes of an integer. *)
Fixpoint be_bytes (n : nat) (z : Z) : gostring :=
  match n with O => [] | S n' => be_bytes n' (z / 256) ++ [byte z] end.

Definition sha_pad (s : gostring) : gostring :=
  s ++ byte 0x80 :: repeat_byte (byte 0) ((55 - len s) `mod` 64) ++ be_bytes 8 (8 * len s).

Fixpoint blocks (fuel : nat) (s : gostring) (h : hash_state) : hash_state :=
  match fuel, s with
  | S f, _ :: _ => blocks f (drop 64 s) (compress h (take 64 s))
  | _, _ => h
  end.

(** [sha256.Sum256]: 32 bytes. *)
Definition sha256 (s : gostring) : gostring :=
  let p := sha_pad s in
  let h := blocks (length p) p H256 in
  flat_map (be_bytes 4) [ha h; hb h; hc h; hd h; he h; hf h; hg h; hh h].

(** [hex.EncodeToString] of a digest. *)
Definition sha256_hex (s : gostring) : gostring := hex_encode (sha256 s).

Definition xor_pad (v : Z) (k : gostring) : gostring :=
  map (λ c, byte (Z.lxor (code c) v)) (k ++ repeat_byte (byte 0) (64 - len k)).

(** [hmac.New(sha256.New, key)] over a message. *)
Definition hmac_sha256 (key msg : gostring) : gostring :=
  let k := if 64 <? len key then sha256 key else key in
  sha256 (xor_pad 0x5c k ++ sha256 (xor_pad 0x36 k ++ msg)).

(** ** Format of digests *)

Lemma be_bytes_length n z : length (be_bytes n z) = n.
Proof. revert z; induction n as [|n IH]; intros z; simpl; [done|]. rewrite length_app, IH. simpl. lia. Qed.

Lemma sha256_length s : length (sha256 s) = 32%nat.
Proof. unfold sha256. cbv zeta. cbn [flat_map]. by rewrite !length_app, !be_bytes_length. Qed.

(** A hexadecimal digest is 64 lower-case hexadecimal digits. *)
Lemma sha256_hex_format s : length (sha256_hex s) = 64%nat ∧ forallb is_hex (sha256_hex s) = true.
Proof. unfold sha256_hex. rewrite hex_encode_length, sha256_length. split; [done|apply hex_encode_hex]. Qed.

(** FIPS 180-4 and RFC 4231 test vectors. *)
Example sha256_abc :
  sha256_hex (lit "abc") = lit "ba7816bf8f01cfea414140de5dae2223b00361a396177a9cb410ff61f20015ad".
Proof. vm_compute. reflexivity. Qed.

Example sha256_two_blocks :
  sha256_hex (lit "abcdbcdecdefdefgefghfghighijhijkijkljklmklmnlmnomnopnopq") =
  lit "248d6a61d20638b8e5c026930c3e6039a33ce45964ff2167f6ecedd419db06c1".
Proof. vm_compute. reflexivity. Qed.

Example hmac_rfc4231 :
  hex_encode (hmac_sha256 (lit "Jefe") (lit "what do ya want for nothing?")) =
  lit "5bdcc146bf60754e6a042426089575c75a003f089d2739839dec58b964ec3843".
Proof. vm_compute. reflexivity. Qed.
