(* ===== verification/Url.v ===== *)
(** * net/url

    [url.Parse] as the program uses it: scheme, userinfo, host, path, query and fragment, with the
    percent-decoding rules of each part, and the host and port accessors. Bracketed hosts are
    checked as IPv6 literals ([netip.ParseAddr]). *)

From S2P Require Import Prelude Utf8 GoStrings Json.

Record URL : Type := mkURL {
  u_scheme : gostring; u_opaque : gostring; u_user : option gostring; u_host : gostring;
  u_path : gostring; u_raw_path : gostring; u_force_query : bool; u_raw_query : gostring; u_fragment : gostring }.

Definition is_alpha (c : ascii) : bool := between 97 122 c || between 65 90 c.
Definition is_alnum (c : ascii) : bool := is_alpha c || is_digit c.

(** [strings.LastIndex] of a byte, as the text before and after it. *)
Fixpoint rcut_byte (c : ascii) (s : gostring) : option (gostring * gostring) :=
  match s with
  | [] => None
  | a :: t =>
    match rcut_byte c t with
    | Some (b, r) => Some (a :: b, r)
    | None => if Ascii.eqb a c then Some ([], t) else None
    end
  end.

(** [getScheme]: [None] is an error. *)
Fixpoint scheme_end (s : gostring) : option (gostring * gostring) :=
  match s with
  | [] => None
  | c :: t =>
    if is_alnum c || contains_byte c (lit "+-.") then
      '(a, r) ← scheme_end t; Some (c :: a, r)
    else if Ascii.eqb c ":"%char then Some ([], t)
    else None
  end.
Definition getScheme (s : gostring) : option (gostring * gostring) :=
  match s with
  | [] => Some ([], s)
  | c :: _ =>
    if is_alpha c then match scheme_end s with Some r => Some r | None => Some ([], s) end
    else if Ascii.eqb c ":"%char then None
    else Some ([], s)
  end.

Inductive encoding : Type := encodePath | encodeHost | encodeZone | encodeUserPassword | encodeFragment.

(** [shouldEscape] in the host and zone modes. *)
Definition shouldEscapeHost (c : ascii) : bool :=
  negb (is_alnum c || contains_byte c (byte 34 :: lit "!$&'()*+,;=:[]<>-_.~")).

(** [unescape]: percent-decoding with the rules of the part; [None] is an error. *)
Fixpoint unescape (mode : encoding) (s : gostring) : option gostring :=
  match s with
  | [] => Some []
  | c :: t =>
    if Ascii.eqb c "%"%char then
      match t with
      | h1 :: h2 :: t' =>
        a ← hex_val h1; b ← hex_val h2;
        let v := byte (a * 16 + b) in
        let is25 := Ascii.eqb h1 "2"%char && Ascii.eqb h2 "5"%char in
        if (match mode with
            | encodeHost => (a <? 8) && negb is25
            | encodeZone => negb is25 && negb (Ascii.eqb v " "%char) && shouldEscapeHost v
            | _ => false
            end)
        then None
        else r ← unescape mode t'; Some (v :: r)
      | _ => None
      end
    else if (match mode with
             | encodeHost | encodeZone => is_ascii c && shouldEscapeHost c
             | _ => false
             end)
    then None
    else r ← unescape mode t; Some (c :: r)
  end.

(** [shouldEscape] in the path mode. *)
Definition shouldEscapePath (c : ascii) : bool := negb (is_alnum c || contains_byte c (lit "-_.~$&+,/:;=@")).

Definition upper_hex (n : Z) : ascii := if n <? 10 then byte (48 + n) else byte (55 + n).

(** [escape] with the rules of a part. *)
Definition escape (should : ascii → bool) (s : gostring) : gostring :=
  flat_map (λ c, if should c then ["%"%char; upper_hex (code c / 16); upper_hex (code c `mod` 16)] else [c]) s.

(** [setPath]: the decoded path, and the text itself when it is not the default encoding. *)
Definition setPath (p : gostring) : option (gostring * gostring) :=
  path ← unescape encodePath p;
  Some (path, if str_eqb p (escape shouldEscapePath path) then [] else p).

(** [validEncoded] in the path mode. *)
Definition validEncodedPath (s : gostring) : bool :=
  forallb (λ c, contains_byte c (lit "!$&'()*+,;=:@[]%") || negb (shouldEscapePath c)) s.

(** [validOptionalPort]. *)
Definition validOptionalPort (port : gostring) : bool :=
  match port with
  | [] => true
  | c :: t => Ascii.eqb c ":"%char && forallb is_digit t
  end.

(** One field of a dotted IPv4 tail: at most 255, no leading zeros. *)
Definition ipv4_field (s : gostring) : bool :=
  negb (len s =? 0) && (len s <=? 3) && forallb is_digit s && (dec_value s <=? 255) &&
  match s with "0"%char :: _ :: _ => false | _ => true end.
Definition ipv4_fields (s : gostring) : bool :=
  let fs := split_on "."%char s in (len fs =? 4) && forallb ipv4_field fs.

Fixpoint span_hex (s : gostring) : gostring * gostring :=
  match s with
  | a :: t => if is_hexdigit a then let '(d, r) := span_hex t in (a :: d, r) else ([], s)
  | [] => ([], [])
  end.

(** The group loop of [parseIPv6]: [i] bytes are filled, [ell] tells whether "::" was seen. At most
    eight groups are read. *)
Fixpoint ipv6_loop (fuel : nat) (i : Z) (ell : bool) (s : gostring) : bool :=
  match fuel with
  | O => negb ell && match s with [] => true | _ => false end
  | S f =>
    let '(d, r) := span_hex s in
    if (len d =? 0) || (4 <? len d) then false else
    match r with
    | "."%char :: _ =>
      if (negb ell && negb (i =? 12)) || (16 <? i + 4) then false
      else ipv4_fields s && (if i + 4 <? 16 then ell else negb ell)
    | [] => if i + 2 <? 16 then ell else negb ell
    | ":"%char :: [] => false
    | ":"%char :: ":"%char :: r' =>
      if ell then false
      else match r' with
           | [] => i + 2 <? 16
           | _ => ipv6_loop f (i + 2) true r'
           end
    | ":"%char :: r' => ipv6_loop f (i + 2) ell r'
    | _ => false
    end
  end.

Definition parseIPv6 (s : gostring) : bool :=
  let '(s, zone) := cut_byte "%"%char s in
  if match zone with Some [] => true | _ => false end then false else
  match s with
  | ":"%char :: ":"%char :: [] => true
  | ":"%char :: ":"%char :: r => ipv6_loop 8 0 true r
  | _ => ipv6_loop 8 0 false s
  end.

(** [netip.ParseAddr] yields an IPv6 address: the first of ".", ":" and "%" is a colon. *)
Fixpoint is_ipv6_literal_at (s all : gostring) : bool :=
  match s with
  | [] => false
  | c :: t =>
    if Ascii.eqb c ":"%char then parseIPv6 all
    else if Ascii.eqb c "."%char || Ascii.eqb c "%"%char then false
    else is_ipv6_literal_at t all
  end.
Definition is_ipv6_literal (s : gostring) : bool := is_ipv6_literal_at s s.

(** The text before and from the first "%25" of a bracketed host. *)
Fixpoint cut_zone (s : gostring) : gostring * gostring :=
  match s with
  | [] => ([], [])
  | c :: t => if has_prefix (lit "%25") s then ([], s) else let '(a, b) := cut_zone t in (c :: a, b)
  end.

Definition parseHost (host : gostring) : option gostring :=
  match rcut_byte "["%char host with
  | Some ([], rest) =>
    '(hostname, colonPort) ← rcut_byte "]"%char rest;
    if negb (validOptionalPort colonPort) then None else
    port ← unescape encodeHost colonPort;
    let '(h, z) := cut_zone hostname in
    h' ← unescape encodeHost h;
    z' ← unescape encodeZone z;
    if is_ipv6_literal (h' ++ z') then Some ("["%char :: (h' ++ z') ++ "]"%char :: port) else None
  | Some _ => None
  | None =>
    match cut_byte ":"%char host with
    | (_, Some port) =>
      if validOptionalPort (":"%char :: port) then unescape encodeHost host else None
    | (_, None) => unescape encodeHost host
    end
  end.

Definition validUserinfo (s : gostring) : bool :=
  forallb (λ c, is_alnum c || contains_byte c (lit "-._:~!$&'()*+,;=%@")) s.

(** [parseAuthority]; the userinfo is kept decoded. *)
Definition parseAuthority (authority : gostring) : option (option gostring * gostring) :=
  match rcut_byte "@"%char authority with
  | None => host ← parseHost authority; Some (None, host)
  | Some (userinfo, rest) =>
    host ← parseHost rest;
    if negb (validUserinfo userinfo) then None
    else user ← unescape encodeUserPassword userinfo; Some (Some user, host)
  end.

(** [parse] on the text before the fragment. *)
Definition parse_no_fragment (raw fragment : gostring) : option URL :=
  if existsb (λ c, (code c <? 0x20) || (code c =? 0x7f)) raw then None else
  if str_eqb raw (lit "*") then Some (mkURL [] [] None [] (lit "*") [] false [] fragment) else
  '(scheme, rest) ← getScheme raw;
  let scheme := to_lower scheme in
  let '(rest, force, query) :=
    if has_suffix (lit "?") rest && (count_byte "?"%char rest =? 1)
    then (trim_suffix (lit "?") rest, true, [])
    else match cut_byte "?"%char rest with
         | (r, Some q) => (r, false, q)
         | (r, None) => (r, false, [])
         end in
  if negb (has_prefix (lit "/") rest) && negb (str_eqb scheme []) then
    Some (mkURL scheme rest None [] [] [] force query fragment)
  else if negb (has_prefix (lit "/") rest) && contains_byte ":"%char (fst (cut_byte "/"%char rest)) then None
  else if (negb (str_eqb scheme []) || negb (has_prefix (lit "///") rest)) && has_prefix (lit "//") rest then
    let authority := drop 2 rest in
    let '(auth, path) := match cut_byte "/"%char authority with
      | (a, Some p) => (a, "/"%char :: p)
      | (a, None) => (a, [])
      end in
    '(user, host) ← parseAuthority auth;
    '(path', rawPath) ← setPath path;
    Some (mkURL scheme [] user host path' rawPath force query fragment)
  else
    '(path', rawPath) ← setPath rest;
    Some (mkURL scheme [] None [] path' rawPath force query fragment).

(** [url.Parse]. *)
Definition url_parse (raw : gostring) : option URL :=
  match cut_byte "#"%char raw with
  | (u, Some frag) => p ← parse_no_fragment u []; f ← unescape encodeFragment frag;
    Some (mkURL (u_scheme p) (u_opaque p) (u_user p) (u_host p) (u_path p) (u_raw_path p) (u_force_query p) (u_raw_query p) f)
  | (u, None) => parse_no_fragment u []
  end.

(** [splitHostPort], behind [Hostname] and [Port]. *)
Definition splitHostPort (hostPort : gostring) : gostring * gostring :=
  let '(host, port) := match rcut_byte ":"%char hostPort with
    | Some (h, p) => if validOptionalPort (":"%char :: p) then (h, p) else (hostPort, [])
    | None => (hostPort, [])
    end in
  if has_prefix (lit "[") host && has_suffix (lit "]") host
  then (trim_suffix (lit "]") (trim_prefix (lit "[") host), port) else (host, port).
Definition Hostname (u : URL) : gostring := fst (splitHostPort (u_host u)).
Definition Port (u : URL) : gostring := snd (splitHostPort (u_host u)).

(** [EscapedPath]. *)
Definition EscapedPath (u : URL) : gostring :=
  if negb (str_eqb (u_raw_path u) []) && validEncodedPath (u_raw_path u) &&
     match unescape encodePath (u_raw_path u) with Some p => str_eqb p (u_path u) | None => false end
  then u_raw_path u
  else if str_eqb (u_path u) (lit "*") then lit "*"
  else escape shouldEscapePath (u_path u).

(** [URL.String] of a URL with a scheme and a host, and without userinfo, opaque part, query and
    fragment. *)
Definition url_string (u : URL) : gostring :=
  let path := EscapedPath u in
  u_scheme u ++ lit "://" ++ escape shouldEscapeHost (u_host u) ++
  (match path with c :: _ => if Ascii.eqb c "/"%char then [] else lit "/" | [] => [] end) ++ path.

Example url_string_1 :
  (u ← url_parse (lit "https://login.example.com:8443/a%20b/c"); Some (url_string u)) =
    Some (lit "https://login.example.com:8443/a%20b/c") ∧
  (u ← url_parse (lit "HTTPS://h/a%2fb"); Some (url_string u)) = Some (lit "https://h/a%2fb").
Proof. by vm_compute. Qed.

Example url_parse_1 :
  url_parse (lit "https://downloads.env.azurecontainerapps.io:443/v1/releases/1.2.3/download/app.dar") =
  Some (mkURL (lit "https") [] None (lit "downloads.env.azurecontainerapps.io:443")
          (lit "/v1/releases/1.2.3/download/app.dar") [] false [] []).
Proof. vm_compute. reflexivity. Qed.

Example url_parse_2 : url_parse (lit "https://h%41/x") = None ∧ url_parse (lit "https://h:80:80/x") = None.
Proof. vm_compute. done. Qed.

Example url_parse_3 :
  (u ← url_parse (lit "HTTPS://user@[fe80::1%25en0]:8443/a%2Fb?q=1#frag"); Some (Hostname u, Port u, u_path u, u_user u)) =
  Some (lit "fe80::1%en0", lit "8443", lit "/a/b", Some (lit "user")).
Proof. vm_compute. reflexivity. Qed.

(** ** URLs made of plain characters *)

(** Letters, digits, hyphens and dots: no part of a URL treats them specially. *)
Definition url_plain (c : ascii) : bool := is_alnum c || contains_byte c (lit "-.").

Lemma url_plain_free c s : url_plain c = false → forallb url_plain s = true → c ∉ s.
Proof.
  rewrite forallb_forall. intros Hc H Hin%list_elem_of_In. specialize (H _ Hin). congruence.
Qed.

Lemma url_plain_all (p : ascii → bool) s :
  forallb (λ c, implb (url_plain c) (p c)) (map ascii_of_nat (seq 0 256)) = true →
  forallb url_plain s = true → forallb p s = true.
Proof.
  intros Hp. rewrite !forallb_forall. intros H c Hc. specialize (H c Hc). apply (implb_true_iff (url_plain c) (p c)); [|done].
  rewrite forallb_forall in Hp. apply Hp. rewrite <- (ascii_nat_embedding c). apply in_map, in_seq.
  pose proof (nat_ascii_bounded c). lia.
Qed.

Lemma rcut_byte_free c s : c ∉ s → rcut_byte c s = None.
Proof.
  induction s as [|a s IH]; intros H; simpl; [done|]. rewrite IH by set_solver.
  by rewrite (proj2 (Ascii.eqb_neq a c)) by set_solver.
Qed.

Lemma unescape_plain mode s : forallb url_plain s = true → unescape mode s = Some s.
Proof.
  induction s as [|c s IH]; intros H; [done|]. cbn [forallb] in H. apply andb_true_iff in H as [Hc Hs]. cbn [unescape].
  rewrite IH by done. cbn [mbind option_bind].
  assert (He : implb (url_plain c) (negb (Ascii.eqb c "%"%char) && negb (shouldEscapeHost c)) = true).
  { apply (ascii_forall (λ c, implb (url_plain c) (negb (Ascii.eqb c "%"%char) && negb (shouldEscapeHost c)))).
    vm_compute. reflexivity. }
  rewrite Hc in He. simpl in He. breflect. destruct He as [H1 H2].
  rewrite (proj2 (Ascii.eqb_neq _ _) H1), H2, andb_false_r. by destruct mode.
Qed.

Lemma escape_plain s : forallb url_plain s = true → escape shouldEscapePath s = s.
Proof.
  intros H. unfold escape. pose proof (url_plain_all (λ c, negb (shouldEscapePath c)) s ltac:(vm_compute; reflexivity) H) as He.
  clear H. induction s as [|c s IH]; [done|]. cbn [forallb flat_map] in *. breflect. destruct He as [-> He]. cbn [app]. by rewrite IH.
Qed.

Lemma parseHost_plain s : forallb url_plain s = true → parseHost s = Some s.
Proof.
  intros H. unfold parseHost. rewrite rcut_byte_free by (by apply url_plain_free).
  rewrite cut_byte_none by (by apply url_plain_free). by apply unescape_plain.
Qed.

(** An HTTPS URL of a plain host and a plain path segment is parsed into exactly those parts. *)
Lemma url_parse_plain host p :
  forallb url_plain host = true → forallb url_plain p = true →
  url_parse (lit "https://" ++ host ++ "/"%char :: p) =
  Some (mkURL (lit "https") [] None host ("/"%char :: p) [] false [] []).
Proof.
  intros Hh Hp. set (raw := lit "https://" ++ host ++ "/"%char :: p).
  assert (Hfree : ∀ c, url_plain c = false → contains_byte c (lit "https:/") = false → c ∉ raw).
  { intros c Hc Hl. unfold raw. rewrite !elem_of_app, elem_of_cons.
    assert (Hl' : c ∉ lit "https://" ∧ c ≠ "/"%char).
    { apply contains_byte_false in Hl. set_solver. }
    intros [H|[H|[H|H]]]; [tauto|by apply (url_plain_free c host)|tauto|by apply (url_plain_free c p)]. }
  unfold url_parse. rewrite cut_byte_none by (by apply Hfree). unfold parse_no_fragment.
  assert (Hctl : existsb (λ c, (code c <? 0x20) || (code c =? 0x7f)) raw = false).
  { unfold raw. rewrite !existsb_app. cbn [existsb].
    assert (Hn : ∀ s, forallb url_plain s = true → existsb (λ c, (code c <? 0x20) || (code c =? 0x7f)) s = false).
    { intros s Hs. apply not_true_iff_false. rewrite existsb_exists. intros (c & Hin & Hc).
      pose proof (url_plain_all (λ c, negb ((code c <? 0x20) || (code c =? 0x7f))) s ltac:(vm_compute; reflexivity) Hs) as Ha.
      rewrite forallb_forall in Ha. specialize (Ha c Hin). rewrite Hc in Ha. done. }
    rewrite (Hn host Hh), (Hn p Hp). reflexivity. }
  rewrite Hctl. change (str_eqb raw (lit "*")) with false. cbv iota.
  change (getScheme raw) with (Some (lit "https", lit "//" ++ host ++ "/"%char :: p)). cbn [mbind option_bind].
  set (rest := lit "//" ++ host ++ "/"%char :: p).
  assert (Hq : "?"%char ∉ rest).
  { intros H. apply (Hfree "?"%char eq_refl eq_refl). unfold raw. change (lit "https://") with (lit "https:" ++ lit "//").
    rewrite <- app_assoc. apply elem_of_app. by right. }
  assert (Hs : has_suffix (lit "?") rest = false).
  { apply not_true_iff_false. rewrite has_suffix_spec. intros [t E]. apply Hq. rewrite E. set_solver. }
  rewrite Hs. cbn [andb]. rewrite cut_byte_none by done. cbv beta iota.
  change (has_prefix (lit "/") rest) with true. change (has_prefix (lit "//") rest) with true.
  change (to_lower (lit "https")) with (lit "https"). cbn [negb andb orb str_eqb].
  change (str_eqb (lit "https") []) with false. cbn [negb andb orb]. change (drop 2 rest) with (host ++ "/"%char :: p).
  rewrite cut_byte_app by (by apply url_plain_free). unfold parseAuthority.
  rewrite rcut_byte_free by (by apply url_plain_free). rewrite parseHost_plain by done. cbn [mbind option_bind].
  unfold setPath. assert (Hu : unescape encodePath ("/"%char :: p) = Some ("/"%char :: p)).
  { cbn [unescape]. rewrite unescape_plain by done. done. }
  rewrite Hu. cbn [mbind option_bind]. assert (He : escape shouldEscapePath ("/"%char :: p) = "/"%char :: p).
  { change (escape shouldEscapePath ("/"%char :: p)) with ("/"%char :: escape shouldEscapePath p). by rewrite escape_plain. }
  by rewrite He, str_eqb_refl.
Qed.
