(* ===== verification/Contracts.v ===== *)
(** * internal/distribution/contracts.go

    The documents that cross the boundary between publisher and worker: queue messages, published
    manifests and recipient rows, their decoding and validation. *)

From S2P Require Import Prelude Utf8 GoStrings Regex GoTime Json StrictJson Sha256 Url.

Definition maxMessageBytes : Z := 64 * 1024.
Definition maxManifestBytes : Z := 64 * 1024.
Definition maxArtifactBytes : Z := 1024 * 1024 * 1024.

(** The errors of the package and of the contexts it passes on. *)
Inductive error : Type :=
| ErrContract
| ErrDependency
| ErrReceiptConflict
| ErrCanceled
| ErrDeadlineExceeded
| errStopBatch.
#[export] Instance error_eq_dec : EqDecision error.
Proof. solve_decision. Defined.

(** ** Patterns *)

Import Class_.

Definition digestPattern : re := RCount hex 64 64.
Definition commitPattern : re := RCount hex 40 40.

(** [[a-z0-9](?:[a-z0-9_-]{0,62}[a-z0-9])?] *)
Definition releasePattern : re :=
  RCat (RClass lower_digit)
    (ROpt (RCat (RCount (plus lower_digit (lit "_-")) 0 62) (RClass lower_digit))).

Definition number : re :=
  RAlt (RLit "0") (RCat (RClass (in_ranges [("1", "9")]%char)) (RStar (RClass digit))).

(** [N.N.N(-[0-9A-Za-z.-]+)?] or [vN.N.N.[0-9]{2}]. *)
Definition releaseVersionPattern : re :=
  RAlt
    (RSeq [number; RLit "."; number; RLit "."; number;
           ROpt (RCat (RLit "-") (RPlus (RClass (plus alnum (lit ".-")))))])
    (RSeq [RLit "v"; number; RLit "."; number; RLit "."; number; RLit "."; RCount digit 2 2]).

Definition repositoryPattern : re :=
  RSeq [RPlus (RClass (plus alnum (lit "_.-"))); RLit "/"; RPlus (RClass (plus alnum (lit "_.-")))].

Definition containerPattern : re :=
  RCat (RClass lower_digit)
    (ROpt (RCat (RCount (plus lower_digit (lit "-")) 1 61) (RClass lower_digit))).

Definition downloadNamePattern : re :=
  RSeq [RClass alnum; RCount (plus alnum (lit "._-")) 0 122; RLit "."; RAlt (RLit "dar") (RLit "zip")].

Definition namePattern : re := RCat (RClass alpha) (RCount (plus alpha (lit " .'-")) 0 63).

(** A DNS label of an e-mail domain. *)
Definition label : re :=
  RCat (RClass lower_digit)
    (ROpt (RCat (RCount (plus lower_digit (lit "-")) 0 61) (RClass lower_digit))).

Definition emailPattern : re :=
  RSeq [RPlus (RClass (plus lower_digit (lit ".!#$%&'*+/=?^_`{|}~-"))); RLit "@"; label;
        RPlus (RCat (RLit ".") label)].

(** ** Documents *)

Record BlobReference : Type := mkBlobReference {
  br_Container : gostring; br_Name : gostring; br_SHA256 : gostring; br_Size : Z; br_VersionID : gostring }.

Record BatchReference : Type := mkBatchReference {
  bt_BatchCount : Z; bt_BatchIndex : Z; bt_Container : gostring; bt_Name : gostring;
  bt_RecipientCount : Z; bt_SHA256 : gostring; bt_Size : Z; bt_VersionID : gostring }.

(** [Reference]. *)
Definition Reference (b : BatchReference) : BlobReference :=
  mkBlobReference (bt_Container b) (bt_Name b) (bt_SHA256 b) (bt_Size b) (bt_VersionID b).

Record QueueMessage : Type := mkQueueMessage {
  qm_ApplicationURL : gostring; qm_CreatedAt : gostring; qm_Manifest : BlobReference;
  qm_MessageID : gostring; qm_OperationID : gostring; qm_RecipientBatch : BatchReference;
  qm_ReleaseID : gostring; qm_ReleaseVersion : gostring; qm_SchemaVersion : gostring;
  qm_SourceCommitSHA : gostring }.

Record PublishedManifest : Type := mkPublishedManifest {
  pm_DAR : BlobReference; pm_DownloadName : gostring; pm_OperationID : gostring;
  pm_PublishedAt : gostring; pm_ReleaseID : gostring; pm_ReleaseVersion : gostring;
  pm_Repository : gostring; pm_SchemaVersion : gostring; pm_SourceCommitSHA : gostring }.

Record Recipient : Type := mkRecipient {
  rc_Email : gostring; rc_FirstName : gostring; rc_LastName : gostring }.

(** ** The JSON layout of the documents *)

Definition blob_kind : kind :=
  KStruct [(lit "container", KString); (lit "name", KString); (lit "sha256", KString);
           (lit "size", KInt); (lit "version_id", KString)].
Definition batch_kind : kind :=
  KStruct [(lit "batch_count", KInt); (lit "batch_index", KInt); (lit "container", KString);
           (lit "name", KString); (lit "recipient_count", KInt); (lit "sha256", KString);
           (lit "size", KInt); (lit "version_id", KString)].
Definition message_kind : kind :=
  KStruct [(lit "application_url", KString); (lit "created_at", KString); (lit "manifest", blob_kind);
           (lit "message_id", KString); (lit "operation_id", KString); (lit "recipient_batch", batch_kind);
           (lit "release_id", KString); (lit "release_version", KString);
           (lit "schema_version", KString); (lit "source_commit_sha", KString)].
Definition manifest_kind : kind :=
  KStruct [(lit "dar", blob_kind); (lit "download_name", KString); (lit "operation_id", KString);
           (lit "published_at", KString); (lit "release_id", KString);
           (lit "release_version", KString); (lit "repository", KString);
           (lit "schema_version", KString); (lit "source_commit_sha", KString)].
Definition recipient_kind : kind :=
  KStruct [(lit "email", KString); (lit "first_name", KString); (lit "last_name", KString)].

(** Proving the laws of [GoStruct]: names are distinct ASCII strings by evaluation, values of the
    type are records by inversion. *)
Ltac kind_ok_tac :=
  repeat match goal with
  | |- kind_ok (KStruct _) => apply kind_ok_struct; split; [apply (bool_decide_unpack _); vm_compute; exact I|]
  | |- Forall _ [] => constructor
  | |- Forall _ (_ :: _) => constructor; [split; [vm_compute; reflexivity|cbn [snd]]|]
  | |- kind_ok _ => exact I
  end.
Ltac invert_kind :=
  repeat match goal with
  | H : has_kind _ (KStruct _) |- _ =>
    apply has_kind_struct in H as (? & -> & H);
    repeat (apply Forall2_cons_inv_r in H as (? & ? & ? & H & ->));
    apply Forall2_nil_inv_r in H as ->; cbn [snd] in *
  | H : has_kind ?v KString |- _ => destruct v as [?|?|?|[?|]|?|? ?|?]; try (exfalso; exact H); clear H
  | H : has_kind ?v KInt |- _ => destruct v as [?|?|?|[?|]|?|? ?|?]; try (exfalso; exact H); clear H
  | H : has_kind ?v KStringPtr |- _ => destruct v as [?|?|?|[?|]|?|? ?|?]; try (exfalso; exact H); clear H
  | H : has_kind ?v KIntPtr |- _ => destruct v as [?|?|?|[?|]|?|? ?|?]; try (exfalso; exact H); clear H
  end.

Lemma blob_kind_ok : kind_ok blob_kind.
Proof. unfold blob_kind. kind_ok_tac. Qed.
Lemma batch_kind_ok : kind_ok batch_kind.
Proof. unfold batch_kind. kind_ok_tac. Qed.
Lemma message_kind_ok : kind_ok message_kind.
Proof. unfold message_kind, blob_kind, batch_kind. kind_ok_tac. Qed.
Lemma manifest_kind_ok : kind_ok manifest_kind.
Proof. unfold manifest_kind, blob_kind. kind_ok_tac. Qed.
Lemma recipient_kind_ok : kind_ok recipient_kind.
Proof. unfold recipient_kind. kind_ok_tac. Qed.

(** A depth bound by evaluation. *)
Ltac depth_tac := apply Z.leb_le; vm_compute; reflexivity.

#[export] Instance blob_struct : GoStruct BlobReference.
Proof.
  refine {|
    kind_of := blob_kind;
    to_gval b := GStruct [GStr (br_Container b); GStr (br_Name b); GStr (br_SHA256 b); GInt (br_Size b);
                          GStr (br_VersionID b)];
    of_gval v := match v with
      | GStruct [GStr c; GStr n; GStr d; GInt s; GStr i] => Some (mkBlobReference c n d s i)
      | _ => None
      end;
    struct_kind_ok := blob_kind_ok |}.
  - abstract depth_tac.
  - abstract (by intros []).
  - abstract (unfold blob_kind; intros v H; invert_kind; eexists; split; reflexivity).
Defined.

#[export] Instance batch_struct : GoStruct BatchReference.
Proof.
  refine {|
    kind_of := batch_kind;
    to_gval b := GStruct [GInt (bt_BatchCount b); GInt (bt_BatchIndex b); GStr (bt_Container b); GStr (bt_Name b);
                          GInt (bt_RecipientCount b); GStr (bt_SHA256 b); GInt (bt_Size b); GStr (bt_VersionID b)];
    of_gval v := match v with
      | GStruct [GInt bc; GInt bi; GStr c; GStr n; GInt rc; GStr d; GInt s; GStr i] =>
        Some (mkBatchReference bc bi c n rc d s i)
      | _ => None
      end;
    struct_kind_ok := batch_kind_ok |}.
  - abstract depth_tac.
  - abstract (by intros []).
  - abstract (unfold batch_kind; intros v H; invert_kind; eexists; split; reflexivity).
Defined.

#[export] Instance message_struct : GoStruct QueueMessage.
Proof.
  refine {|
    kind_of := message_kind;
    to_gval m := GStruct [GStr (qm_ApplicationURL m); GStr (qm_CreatedAt m); to_gval (qm_Manifest m);
      GStr (qm_MessageID m); GStr (qm_OperationID m); to_gval (qm_RecipientBatch m); GStr (qm_ReleaseID m);
      GStr (qm_ReleaseVersion m); GStr (qm_SchemaVersion m); GStr (qm_SourceCommitSHA m)];
    of_gval v := match v with
      | GStruct [GStr a; GStr c; m; GStr i; GStr o; b; GStr r; GStr rv; GStr s; GStr sha] =>
        m ← of_gval m; b ← of_gval b; Some (mkQueueMessage a c m i o b r rv s sha)
      | _ => None
      end;
    struct_kind_ok := message_kind_ok |}.
  - abstract depth_tac.
  - abstract (intros [?? m ?? b]; by rewrite !of_to_gval).
  - abstract (unfold message_kind, blob_kind, batch_kind; intros v H; invert_kind; eexists; split; reflexivity).
Defined.

#[export] Instance manifest_struct : GoStruct PublishedManifest.
Proof.
  refine {|
    kind_of := manifest_kind;
    to_gval m := GStruct [to_gval (pm_DAR m); GStr (pm_DownloadName m); GStr (pm_OperationID m);
      GStr (pm_PublishedAt m); GStr (pm_ReleaseID m); GStr (pm_ReleaseVersion m); GStr (pm_Repository m);
      GStr (pm_SchemaVersion m); GStr (pm_SourceCommitSHA m)];
    of_gval v := match v with
      | GStruct [d; GStr n; GStr o; GStr p; GStr r; GStr rv; GStr repo; GStr s; GStr sha] =>
        d ← of_gval d; Some (mkPublishedManifest d n o p r rv repo s sha)
      | _ => None
      end;
    struct_kind_ok := manifest_kind_ok |}.
  - abstract depth_tac.
  - abstract (intros [d]; by rewrite !of_to_gval).
  - abstract (unfold manifest_kind, blob_kind; intros v H; invert_kind; eexists; split; reflexivity).
Defined.

#[export] Instance recipient_struct : GoStruct Recipient.
Proof.
  refine {|
    kind_of := recipient_kind;
    to_gval r := GStruct [GStr (rc_Email r); GStr (rc_FirstName r); GStr (rc_LastName r)];
    of_gval v := match v with
      | GStruct [GStr e; GStr f; GStr l] => Some (mkRecipient e f l)
      | _ => None
      end;
    struct_kind_ok := recipient_kind_ok |}.
  - abstract depth_tac.
  - abstract (by intros []).
  - abstract (unfold recipient_kind; intros v H; invert_kind; eexists; split; reflexivity).
Defined.

(** ** Validation *)

(** [controlFree]: no code point below 0x20 and no 0x7f; an invalid byte counts as U+FFFD. *)
Definition controlFree (value : gostring) : bool :=
  forallb (λ r, negb ((rune_cp r <? 0x20) || (rune_cp r =? 0x7f))) (runes value).

Definition validBlobName (value : gostring) : bool :=
  if (value =s []) || (1024 <? len value) || has_prefix (lit "/") value || has_suffix (lit "/") value ||
     contains_any (lit "\?#") value || negb (controlFree value)
  then false
  else forallb (λ segment, negb ((segment =s []) || (segment =s lit ".") || (segment =s lit "..")))
         (split_on "/"%char value).

Definition validTimestamp (value : gostring) : bool :=
  if negb (has_suffix (lit "Z") value) then false
  else match time_parse value with Some parsed => t_utc parsed | None => false end.

Definition validApplicationURL (value releaseVersion : gostring) : bool :=
  match url_parse value with
  | None => false
  | Some parsed =>
    let approvedPath :=
      match split_on "/"%char (u_path parsed) with
      | [p0; p1; p2; p3; p4; p5] =>
        (p0 =s []) && (p1 =s lit "v1") && (p2 =s lit "releases") && (p3 =s releaseVersion) &&
        (p4 =s lit "download") && match_string downloadNamePattern p5
      | _ => false
      end in
    if negb (u_scheme parsed =s lit "https") || bool_decide (u_user parsed ≠ None) ||
       negb (u_raw_query parsed =s []) || negb (u_fragment parsed =s []) || negb approvedPath
    then false
    else
      let host := to_lower (Hostname parsed) in
      (has_suffix (lit ".azurecontainerapps.io") host || has_suffix (lit ".example.internal") host) &&
      ((Port parsed =s []) || (Port parsed =s lit "443"))
  end.

(** [BlobReference.valid]. *)
Definition blob_valid (r : BlobReference) : bool :=
  match_string containerPattern (br_Container r) && validBlobName (br_Name r) &&
  (1 <=? len (br_VersionID r)) && (len (br_VersionID r) <=? 128) &&
  controlFree (br_VersionID r) && match_string digestPattern (br_SHA256 r) &&
  (1 <=? br_Size r) && (br_Size r <=? maxArtifactBytes).

(** [BatchReference.valid]. *)
Definition batch_valid (r : BatchReference) : bool :=
  blob_valid (Reference r) && (0 <=? bt_BatchIndex r) && (bt_BatchIndex r <=? 9999) &&
  (1 <=? bt_BatchCount r) && (bt_BatchCount r <=? 10000) && (bt_BatchIndex r <? bt_BatchCount r) &&
  (1 <=? bt_RecipientCount r) && (bt_RecipientCount r <=? 500).

(** [BlobReference.Matches]. *)
Definition Matches (r : BlobReference) (content : gostring) : bool :=
  (len content =? br_Size r) && (sha256_hex content =s br_SHA256 r).

(** ** Parsing *)

(** The checks of [ParseQueueMessage] after decoding. *)
Definition message_checks (m : QueueMessage) (brokerMessageID : gostring) : bool :=
  negb (negb (qm_SchemaVersion m =s lit "1.0") || negb (qm_MessageID m =s brokerMessageID) ||
        negb (qm_MessageID m =s qm_OperationID m ++ lit ":" ++ itoa (bt_BatchIndex (qm_RecipientBatch m))) ||
        negb (match_string digestPattern (qm_OperationID m)) ||
        negb (match_string releasePattern (qm_ReleaseID m)) ||
        negb (match_string releaseVersionPattern (qm_ReleaseVersion m)) ||
        negb (match_string commitPattern (qm_SourceCommitSHA m)) ||
        negb (validTimestamp (qm_CreatedAt m)) ||
        negb (validApplicationURL (qm_ApplicationURL m) (qm_ReleaseVersion m)) ||
        negb (blob_valid (qm_Manifest m)) || negb (batch_valid (qm_RecipientBatch m))).

Definition ParseQueueMessage (raw brokerMessageID : gostring) : result error QueueMessage :=
  match decode_struct raw maxMessageBytes with
  | None => Err ErrContract
  | Some message =>
    if negb (canonical raw message) || negb (message_checks message brokerMessageID)
    then Err ErrContract else Ok message
  end.

(** The checks of [ParsePublishedManifest] after decoding. *)
Definition manifest_checks (m : PublishedManifest) : bool :=
  negb (negb (pm_SchemaVersion m =s lit "1.0") ||
        negb (match_string digestPattern (pm_OperationID m)) ||
        negb (match_string repositoryPattern (pm_Repository m)) ||
        negb (match_string commitPattern (pm_SourceCommitSHA m)) ||
        negb (match_string releasePattern (pm_ReleaseID m)) ||
        negb (match_string releaseVersionPattern (pm_ReleaseVersion m)) ||
        negb (match_string downloadNamePattern (pm_DownloadName m)) ||
        negb (validTimestamp (pm_PublishedAt m)) || negb (blob_valid (pm_DAR m))).

Definition ParsePublishedManifest (raw : gostring) : result error PublishedManifest :=
  match decode_struct raw maxManifestBytes with
  | None => Err ErrContract
  | Some manifest =>
    if negb (canonical raw manifest) || negb (manifest_checks manifest) then Err ErrContract else Ok manifest
  end.

(** The checks of [ParseRecipient] after decoding. *)
Definition recipient_checks (r : Recipient) : bool :=
  negb (negb (match_string namePattern (rc_FirstName r)) || negb (match_string namePattern (rc_LastName r)) ||
        (254 <? len (rc_Email r)) || negb (rc_Email r =s to_lower (trim_space (rc_Email r))) ||
        negb (match_string emailPattern (rc_Email r))).

Definition ParseRecipient (raw : gostring) : result error Recipient :=
  match decode_struct raw 1024 with
  | None => Err ErrContract
  | Some recipient =>
    if negb (canonical raw recipient) || negb (recipient_checks recipient) then Err ErrContract else Ok recipient
  end.

(** ** Bounded reads

    An [io.Reader]: the bytes it yields and the error that ends it, if it is not end-of-file. *)

Record Reader : Type := mkReader { rd_data : gostring; rd_err : option error }.

(** [readBounded]. At most [maximum + 1] bytes are read: a longer source is refused before any
    error behind those bytes is seen. *)
Definition readBounded (reader : option Reader) (maximum : Z) : result error gostring :=
  match reader with
  | None => Err ErrContract
  | Some r =>
    if maximum <? 1 then Err ErrContract
    else if maximum <? len (rd_data r) then Err ErrContract
    else match rd_err r with Some e => Err e | None => Ok (rd_data r) end
  end.

(** ** Facts about the patterns *)

(** No character of a matched string is below 0x20 or 0x7f. *)
Definition printable (c : ascii) : bool := (0x20 <=? code c) && (code c <? 0x7f).

(** Only bytes below 0x20 and 0x7f make a string fail [controlFree], valid UTF-8 or not. *)
Lemma controlFree_bytes s : Forall (λ c, 0x20 ≤ code c ∧ code c ≠ 0x7f) s → controlFree s = true.
Proof.
  unfold controlFree. induction s as [|r t Hwf E IH] using runes_ind; [done|].
  rewrite Forall_app, E. cbn [forallb]. intros [Hr Ht]. rewrite (IH Ht), andb_true_r, negb_true_iff.
  apply orb_false_iff. rewrite Z.ltb_ge, Z.eqb_neq.
  destruct Hwf as [b|b0 b1 cp H|b0 b1 b2 cp H|b0 b1 b2 b3 cp H|b]; cbn [rune_raw rune_cp] in *.
  - by inversion Hr.
  - unfold decode2 in H. case_if_in H; [|done]. injection H as <-. unfold cont in *. rewrite !andb_true_iff, !between_spec in *. lia.
  - unfold decode3, second3, cont in H. case_if_in H; [|done]. injection H as <-. rewrite !andb_true_iff, !between_spec in *.
    destruct (Z.eqb_spec (code b0) 0xE0); [|destruct (Z.eqb_spec (code b0) 0xED)]; rewrite between_spec in *; lia.
  - unfold decode4, second4, cont in H. case_if_in H; [|done]. injection H as <-. rewrite !andb_true_iff, !between_spec in *.
    destruct (Z.eqb_spec (code b0) 0xF0); [|destruct (Z.eqb_spec (code b0) 0xF4)]; rewrite between_spec in *; lia.
  - done.
Qed.

Lemma controlFree_printable s : forallb printable s = true → controlFree s = true.
Proof.
  unfold controlFree. induction s as [|c s IH]; [done|]. cbn [forallb]. intros H. breflect. destruct H as [Hc Hs].
  unfold printable in Hc. breflect. rewrite runes_ascii by (unfold is_ascii; breflect; lia).
  cbn [forallb rune_cp]. rewrite IH by done. rewrite (proj2 (Z.ltb_ge _ _)), (proj2 (Z.eqb_neq _ _)) by lia. done.
Qed.

Lemma pattern_controlFree r s : re_chars printable r = true → match_string r s = true → controlFree s = true.
Proof. intros. eapply controlFree_printable, match_string_chars; eauto. Qed.

Lemma digest_hex s : length s = 64%nat → forallb is_hex s = true → match_string digestPattern s = true.
Proof.
  intros Hl Hs. apply match_string_count. split; [lia|]. revert Hs. rewrite !forallb_Forall.
  intros Hs. eapply Forall_impl; [exact Hs|]. intros c. apply implb_true_iff. revert c. apply ascii_forall. vm_compute. reflexivity.
Qed.

(** A digest always has the form the contracts ask for. *)
Lemma digest_sha256 s : match_string digestPattern (sha256_hex s) = true.
Proof. destruct (sha256_hex_format s). by apply digest_hex. Qed.

#[export] Hint Resolve digest_sha256 : go.

(** ** What parsing accepts *)

Section Exact.
Context {A : Type} `{GoStruct A}.

(** Decoding, comparing with the canonical text and checking: the shape of every parser of the
    package. *)
Lemma parse_exact raw maxBytes (checks : A → bool) (e : error) a :
  (match decode_struct raw maxBytes with
   | None => Err e
   | Some x => if negb (canonical raw x) || negb (checks x) then Err e else Ok x
   end = Ok a) ↔
  raw = marshal_struct a ∧ len raw ≤ maxBytes ∧ struct_ok a ∧ checks a = true.
Proof.
  split.
  - destruct (decode_struct raw maxBytes) as [x|] eqn:E; [|done]. intros Hr.
    case_if_in Hr; [done|]. simplify_eq. apply orb_false_iff in E0 as [H1 H2]. apply negb_false_iff in H1, H2.
    destruct (decode_struct_canonical _ _ _ E H1) as (-> & Hok & ?). split_and!; [done|lia|done|done].
  - intros (-> & Hl & Hok & Hc). rewrite decode_struct_marshal by done.
    rewrite (proj2 (canonical_spec _ a)) by done. by rewrite Hc.
Qed.

(** Whatever is not accepted is refused with the parser's one error. *)
Lemma parse_error raw maxBytes (checks : A → bool) (e : error) :
  (∃ a, match decode_struct raw maxBytes with
        | None => Err e
        | Some x => if negb (canonical raw x) || negb (checks x) then Err e else Ok x
        end = Ok a) ∨
  match decode_struct raw maxBytes with
  | None => Err e
  | Some x => if negb (canonical raw x) || negb (checks x) then Err e else Ok x
  end = Err e.
Proof. destruct (decode_struct raw maxBytes); [|by right]. destruct (_ || _); eauto. Qed.
End Exact.

Lemma recipient_ok r : recipient_checks r = true → struct_ok r.
Proof.
  unfold recipient_checks. intros H. apply negb_true_iff in H. breflect. split_hyps.
  split; [done|]. simpl. split_and!; try done;
    (eapply pattern_utf8; [|eassumption]; vm_compute; reflexivity).
Qed.

(** [ParseRecipient] accepts exactly the canonical text, of at most 1024 bytes, of a recipient
    that passes the name and e-mail checks; it returns that recipient. *)
Theorem ParseRecipient_exact raw r :
  ParseRecipient raw = Ok r ↔ raw = marshal_struct r ∧ len raw ≤ 1024 ∧ recipient_checks r = true.
Proof.
  unfold ParseRecipient. rewrite parse_exact. split; [tauto|]. intros (? & ? & Hc).
  auto using recipient_ok.
Qed.

(** C24: [ParseQueueMessage] accepts exactly the canonical text, of at most 64 KiB, of a message
    whose strings are UTF-8, whose integers fit their width and which passes every check against the
    broker's message identifier; it returns that message. *)
Theorem ParseQueueMessage_exact raw brokerMessageID m :
  ParseQueueMessage raw brokerMessageID = Ok m ↔
  raw = marshal_struct m ∧ len raw ≤ maxMessageBytes ∧ struct_ok m ∧ message_checks m brokerMessageID = true.
Proof.
  unfold ParseQueueMessage. apply (parse_exact raw maxMessageBytes (λ m, message_checks m brokerMessageID)).
Qed.

(** [ParsePublishedManifest] accepts exactly the canonical text, of at most 64 KiB, of a manifest
    whose strings are UTF-8, whose integers fit their width and which passes every check. *)
Theorem ParsePublishedManifest_exact raw m :
  ParsePublishedManifest raw = Ok m ↔
  raw = marshal_struct m ∧ len raw ≤ maxManifestBytes ∧ struct_ok m ∧ manifest_checks m = true.
Proof. apply parse_exact. Qed.

Lemma readBounded_ok reader maximum body :
  readBounded (Some reader) maximum = Ok body ↔
  1 ≤ maximum ∧ len (rd_data reader) ≤ maximum ∧ rd_err reader = None ∧ body = rd_data reader.
Proof.
  unfold readBounded. destruct (Z.ltb_spec maximum 1); [split; [done|lia]|].
  destruct (Z.ltb_spec maximum (len (rd_data reader))); [split; [done|lia]|].
  destruct (rd_err reader); naive_solver.
Qed.

(** The message identifier determines operation and batch. *)
Lemma message_id_inj o1 o2 i1 i2 :
  match_string digestPattern o1 = true → match_string digestPattern o2 = true →
  int64_range i1 → int64_range i2 →
  o1 ++ lit ":" ++ itoa i1 = o2 ++ lit ":" ++ itoa i2 → o1 = o2 ∧ i1 = i2.
Proof.
  intros Ho1 Ho2 Hi1 Hi2 E.
  apply match_string_count in Ho1 as [Hl1 _], Ho2 as [Hl2 _].
  apply app_inj_1 in E as [-> E]; [|lia]. split; [done|]. injection E as E.
  apply (f_equal parse_int) in E. rewrite !parse_int_itoa in E by done. by injection E.
Qed.

Module Samples.
Definition digest : gostring := repeat_byte "a"%char 64.
Definition blob : BlobReference :=
  mkBlobReference (lit "releases") (lit "release-1/manifest.json") digest 512 (lit "2026-01-02T03:04:05Z").
Definition batch : BatchReference :=
  mkBatchReference 2 1 (lit "batches") (lit "release-1/batch-1.jsonl") 1 digest 100 (lit "v1").
Definition operation : gostring := digest.
Definition message : QueueMessage :=
  mkQueueMessage (lit "https://d.example.internal/v1/releases/1.2.3/download/app.dar")
    (lit "2026-01-02T03:04:05Z") blob (operation ++ lit ":1") operation batch (lit "release-1")
    (lit "1.2.3") (lit "1.0") (repeat_byte "b"%char 40).
Definition recipient : Recipient := mkRecipient (lit "ada@example.com") (lit "Ada") (lit "O'Hara").
End Samples.

Example parse_sample_message :
  ParseQueueMessage (marshal_struct Samples.message) (Samples.operation ++ lit ":1") = Ok Samples.message.
Proof. vm_compute. reflexivity. Qed.

Example parse_sample_recipient :
  ParseRecipient (marshal_struct Samples.recipient) = Ok Samples.recipient ∧
  ParseRecipient (marshal_struct Samples.recipient ++ lit " ") = Err ErrContract.
Proof. vm_compute. done. Qed.
