(* ===== verification/Receipt.v ===== *)
(** * internal/distribution/receipt.go

    The notification receipt: the per-recipient journal whose transitions surround every mail
    effect. Each transition is the whole Go method, its guards and its final validation included.
    The file ends with the receipt's state machine as a relation, the proof that the methods
    refine it, and the round trip through the stored text. *)

From S2P Require Import Prelude Utf8 GoStrings Regex GoTime Json StrictJson Sha256 Contracts.
Import Class_.

(** ** Statuses: a Go string type with seven constants *)

Definition ReceiptClaimed : gostring := lit "CLAIMED".
Definition ReceiptSendStarted : gostring := lit "SEND_STARTED".
Definition ReceiptRetryable : gostring := lit "RETRYABLE".
Definition ReceiptAccepted : gostring := lit "ACCEPTED".
Definition ReceiptSimulated : gostring := lit "SIMULATED".
Definition ReceiptFailed : gostring := lit "FAILED".
Definition ReceiptUnknown : gostring := lit "UNKNOWN".

Definition versionLabelPattern : re := RCount (plus alnum (lit "._-")) 1 64.
Definition reasonPattern : re := RCount (λ c, upper c || digit c || in_set (lit "_") c) 1 64.

Record Receipt : Type := mkReceipt {
  AttemptCount : Z;
  ClaimedAt : option gostring;
  HMACKeyVersion : gostring;
  NextAttemptAt : option gostring;
  OperationID : gostring;
  Provider : gostring;
  ProviderHTTPStatus : option Z;
  ProviderRequestID : option gostring;
  QueueMessageID : gostring;
  ReasonCode : option gostring;
  RecipientID : gostring;
  ReleaseID : gostring;
  ReleaseVersion : gostring;
  SchemaVersion : gostring;
  SendStartedAt : option gostring;
  StateVersion : Z;
  Status : gostring;
  TerminalAt : option gostring;
  UpdatedAt : gostring }.

(** The zero value [Receipt{}]. *)
Definition zeroReceipt : Receipt :=
  mkReceipt 0 None [] None [] [] None None [] None [] [] [] [] None 0 [] None [].

Record ReceiptIntent : Type := mkIntent {
  ri_OperationID : gostring; ri_ReleaseID : gostring; ri_ReleaseVersion : gostring;
  ri_RecipientID : gostring; ri_HMACKeyVersion : gostring; ri_Provider : gostring;
  ri_QueueMessageID : gostring }.

(** ** Validation *)

(** [parseTime]. *)
Definition parseTime (value : gostring) : result error Time :=
  match time_parse value with
  | Some parsed => if t_utc parsed then Ok parsed else Err ErrReceiptConflict
  | None => Err ErrReceiptConflict
  end.

Definition validReceiptTime (value : gostring) : bool := is_ok (parseTime value).

Definition validReceiptStatus (status : gostring) : bool :=
  existsb (str_eqb status)
    [ReceiptClaimed; ReceiptSendStarted; ReceiptRetryable; ReceiptAccepted; ReceiptSimulated;
     ReceiptFailed; ReceiptUnknown].

Definition terminal (r : Receipt) : bool :=
  (Status r =s ReceiptAccepted) || (Status r =s ReceiptSimulated) ||
  (Status r =s ReceiptFailed) || (Status r =s ReceiptUnknown).

(** [validate]; [true] when it returns no error. *)
Definition validate (r : Receipt) : bool :=
  if negb (SchemaVersion r =s lit "1.0") || negb (match_string digestPattern (OperationID r)) ||
     negb (match_string releasePattern (ReleaseID r)) ||
     negb (match_string releaseVersionPattern (ReleaseVersion r)) ||
     negb (match_string digestPattern (RecipientID r)) ||
     negb (match_string versionLabelPattern (HMACKeyVersion r)) ||
     (negb (Provider r =s lit "stub") && negb (Provider r =s lit "sendgrid")) ||
     (AttemptCount r <? 1) || (5 <? AttemptCount r) || (StateVersion r <? 1) ||
     (QueueMessageID r =s []) || (128 <? len (QueueMessageID r)) ||
     negb (controlFree (QueueMessageID r)) || negb (validReceiptStatus (Status r)) ||
     negb (validReceiptTime (UpdatedAt r)) ||
     match ReasonCode r with Some c => negb (match_string reasonPattern c) | None => false end
  then false
  else if existsb (λ v, match v with Some t => negb (validReceiptTime t) | None => false end)
            [ClaimedAt r; NextAttemptAt r; SendStartedAt r; TerminalAt r] then false
  else match ProviderRequestID r with
       | Some id => negb ((128 <? len id) || negb (controlFree id))
       | None => true
       end.

(** [return receipt, receipt.validate()] *)
Definition validated (r : Receipt) : result error Receipt :=
  if validate r then Ok r else Err ErrReceiptConflict.

(** ** Transitions *)

Definition conflict {A} : result error A := Err ErrReceiptConflict.

Definition ClaimReceipt (i : ReceiptIntent) (now : Time) : result error Receipt :=
  if negb (match_string digestPattern (ri_OperationID i)) || negb (match_string releasePattern (ri_ReleaseID i)) ||
     negb (match_string releaseVersionPattern (ri_ReleaseVersion i)) ||
     negb (match_string digestPattern (ri_RecipientID i)) ||
     negb (match_string versionLabelPattern (ri_HMACKeyVersion i)) ||
     (negb (ri_Provider i =s lit "stub") && negb (ri_Provider i =s lit "sendgrid")) ||
     (ri_QueueMessageID i =s []) || (128 <? len (ri_QueueMessageID i)) ||
     negb (controlFree (ri_QueueMessageID i)) || negb (t_utc now)
  then conflict
  else
    let timestamp := formatTime now in
    validated {|
      AttemptCount := 1; ClaimedAt := Some timestamp; HMACKeyVersion := ri_HMACKeyVersion i;
      NextAttemptAt := None; OperationID := ri_OperationID i; Provider := ri_Provider i;
      ProviderHTTPStatus := None; ProviderRequestID := None;
      QueueMessageID := ri_QueueMessageID i; ReasonCode := None; RecipientID := ri_RecipientID i;
      ReleaseID := ri_ReleaseID i; ReleaseVersion := ri_ReleaseVersion i; SchemaVersion := lit "1.0";
      SendStartedAt := None; StateVersion := 1; Status := ReceiptClaimed; TerminalAt := None;
      UpdatedAt := timestamp |}.

(** A copy of the receipt with some fields assigned; the identity fields never are. *)
Definition assign (r : Receipt) (attempts : Z) (claimed next : option gostring) (http : option Z)
  (request reason sent : option gostring) (version : Z) (status : gostring) (term : option gostring)
  (updated : gostring) : Receipt :=
  mkReceipt attempts claimed (HMACKeyVersion r) next (OperationID r) (Provider r) http request
    (QueueMessageID r) reason (RecipientID r) (ReleaseID r) (ReleaseVersion r) (SchemaVersion r)
    sent version status term updated.

Definition StartSend (r : Receipt) (now : Time) : result error Receipt :=
  if negb (Status r =s ReceiptClaimed) || terminal r || negb (t_utc now) then conflict
  else
    let timestamp := formatTime now in
    validated (assign r (AttemptCount r) (ClaimedAt r) None (ProviderHTTPStatus r) (ProviderRequestID r)
      None (Some timestamp) (wrap64 (StateVersion r + 1)) ReceiptSendStarted (TerminalAt r) timestamp).

Definition finish (r : Receipt) (now : Time) (status : gostring) (httpStatus : Z)
  (requestID reason : gostring) : result error Receipt :=
  if negb (Status r =s ReceiptSendStarted) || terminal r || negb (t_utc now) then conflict
  else if negb (requestID =s []) && ((128 <? len requestID) || negb (controlFree requestID)) then conflict
  else
    let timestamp := formatTime now in
    validated (assign r (AttemptCount r) (ClaimedAt r) None
      (if negb (httpStatus =? 0) then Some httpStatus else None)
      (if negb (requestID =s []) then Some requestID else None)
      (if negb (reason =s []) then Some reason else None)
      (SendStartedAt r) (wrap64 (StateVersion r + 1)) status (Some timestamp) timestamp).

Definition Accept (r : Receipt) (now : Time) (status : Z) (requestID : gostring) : result error Receipt :=
  if negb (status =? 202) then conflict else finish r now ReceiptAccepted status requestID [].

Definition Simulate (r : Receipt) (now : Time) (status : Z) (requestID : gostring) : result error Receipt :=
  if negb (status =? 200) then conflict else finish r now ReceiptSimulated status requestID [].

Definition Retry (r : Receipt) (now : Time) (status : Z) (reason : gostring) (retryAt : Time) : result error Receipt :=
  if negb (Status r =s ReceiptSendStarted) || terminal r ||
     (negb (status =? 429) && ((status <? 500) || (599 <? status))) ||
     negb (match_string reasonPattern reason) || time_before retryAt now ||
     negb (t_utc now) || negb (t_utc retryAt)
  then conflict
  else
    validated (assign r (AttemptCount r) (ClaimedAt r) (Some (formatTime retryAt)) (Some status) None
      (Some reason) (SendStartedAt r) (wrap64 (StateVersion r + 1)) ReceiptRetryable (TerminalAt r)
      (formatTime now)).

Definition Fail (r : Receipt) (now : Time) (status : Z) (reason : gostring) : result error Receipt :=
  if (status <? 0) || (599 <? status) || negb (match_string reasonPattern reason) then conflict
  else finish r now ReceiptFailed status [] reason.

Definition MarkUnknown (r : Receipt) (now : Time) (reason : gostring) : result error Receipt :=
  if negb (match_string reasonPattern reason) then conflict
  else finish r now ReceiptUnknown 0 [] reason.

Definition Reclaim (r : Receipt) (now : Time) (maxAttempts : Z) : result error Receipt :=
  if negb (Status r =s ReceiptRetryable) || terminal r || (maxAttempts <? 1) || (5 <? maxAttempts) ||
     (maxAttempts <=? AttemptCount r)
  then conflict
  else match NextAttemptAt r with
  | None => conflict
  | Some text =>
    match parseTime text with
    | Err _ => conflict
    | Ok next =>
      if time_before now next || negb (t_utc now) then conflict
      else
        let timestamp := formatTime now in
        validated (assign r (wrap64 (AttemptCount r + 1)) (Some timestamp) None None None None None
          (wrap64 (StateVersion r + 1)) ReceiptClaimed (TerminalAt r) timestamp)
    end
  end.

Definition Exhaust (r : Receipt) (now : Time) : result error Receipt :=
  if negb (Status r =s ReceiptRetryable) || terminal r then conflict
  else
    let timestamp := formatTime now in
    validated (assign r (AttemptCount r) (ClaimedAt r) None (ProviderHTTPStatus r) (ProviderRequestID r)
      (Some (lit "RETRY_BUDGET_EXHAUSTED")) (SendStartedAt r) (wrap64 (StateVersion r + 1))
      ReceiptFailed (Some timestamp) timestamp).

Definition RecoverStale (r : Receipt) (now : Time) (timeout maxAttempts : Z) : result error Receipt :=
  if terminal r || (timeout <=? 0) || negb (t_utc now) then conflict
  else if Status r =s ReceiptClaimed then
    match ClaimedAt r with
    | None => conflict
    | Some text =>
      if maxAttempts <=? AttemptCount r then conflict
      else match parseTime text with
      | Err _ => conflict
      | Ok claimed =>
        if time_sub now claimed <? timeout then conflict
        else
          let timestamp := formatTime now in
          validated (assign r (wrap64 (AttemptCount r + 1)) (Some timestamp) (NextAttemptAt r)
            (ProviderHTTPStatus r) (ProviderRequestID r) (ReasonCode r) (SendStartedAt r)
            (wrap64 (StateVersion r + 1)) (Status r) (TerminalAt r) timestamp)
      end
    end
  else if Status r =s ReceiptSendStarted then
    match SendStartedAt r with
    | None => conflict
    | Some text =>
      match parseTime text with
      | Err _ => conflict
      | Ok started =>
        if time_sub now started <? timeout then conflict
        else MarkUnknown r now (lit "STALE_SEND_OUTCOME")
      end
    end
  else conflict.

(** ** Stored text *)

Definition receipt_kind : kind :=
  KStruct [(lit "attempt_count", KInt); (lit "claimed_at", KStringPtr); (lit "hmac_key_version", KString);
           (lit "next_attempt_at", KStringPtr); (lit "operation_id", KString); (lit "provider", KString);
           (lit "provider_http_status", KIntPtr); (lit "provider_request_id", KStringPtr);
           (lit "queue_message_id", KString); (lit "reason_code", KStringPtr); (lit "recipient_id", KString);
           (lit "release_id", KString); (lit "release_version", KString); (lit "schema_version", KString);
           (lit "send_started_at", KStringPtr); (lit "state_version", KInt); (lit "status", KString);
           (lit "terminal_at", KStringPtr); (lit "updated_at", KString)].

Lemma receipt_kind_ok : kind_ok receipt_kind.
Proof. unfold receipt_kind. kind_ok_tac. Qed.

#[export] Instance receipt_struct : GoStruct Receipt.
Proof.
  refine {|
    kind_of := receipt_kind;
    to_gval r := GStruct [GInt (AttemptCount r); GStringPtr (ClaimedAt r); GStr (HMACKeyVersion r);
      GStringPtr (NextAttemptAt r); GStr (OperationID r); GStr (Provider r); GIntPtr (ProviderHTTPStatus r);
      GStringPtr (ProviderRequestID r); GStr (QueueMessageID r); GStringPtr (ReasonCode r);
      GStr (RecipientID r); GStr (ReleaseID r); GStr (ReleaseVersion r); GStr (SchemaVersion r);
      GStringPtr (SendStartedAt r); GInt (StateVersion r); GStr (Status r); GStringPtr (TerminalAt r);
      GStr (UpdatedAt r)];
    of_gval v := match v with
      | GStruct [GInt a; GStringPtr c; GStr h; GStringPtr n; GStr o; GStr p; GIntPtr ps; GStringPtr pr; GStr q;
                 GStringPtr rs; GStr rc; GStr rl; GStr rv; GStr sv; GStringPtr ss; GInt v; GStr st;
                 GStringPtr t; GStr u] =>
        Some (mkReceipt a c h n o p ps pr q rs rc rl rv sv ss v st t u)
      | _ => None
      end;
    struct_kind_ok := receipt_kind_ok |}.
  - abstract depth_tac.
  - abstract (by intros []).
  - abstract (unfold receipt_kind; intros v H; invert_kind; eexists; split; reflexivity).
Defined.

Definition maxReceiptBytes : Z := 32 * 1024.

Definition ParseReceipt (raw : gostring) : result error Receipt :=
  match decode_struct raw maxReceiptBytes with
  | None => conflict
  | Some receipt => if negb (canonical raw receipt) || negb (validate receipt) then conflict else Ok receipt
  end.

Definition MarshalReceipt (r : Receipt) : result error gostring :=
  if validate r then Ok (marshal_struct r) else conflict.

(** ** The state machine *)

(** The operations on an existing receipt, with their arguments. *)
Inductive Op : Type :=
| OStartSend (now : Time)
| OAccept (now : Time) (status : Z) (requestID : gostring)
| OSimulate (now : Time) (status : Z) (requestID : gostring)
| ORetry (now : Time) (status : Z) (reason : gostring) (retryAt : Time)
| OFail (now : Time) (status : Z) (reason : gostring)
| OMarkUnknown (now : Time) (reason : gostring)
| OReclaim (now : Time) (maxAttempts : Z)
| OExhaust (now : Time)
| ORecoverStale (now : Time) (timeout maxAttempts : Z).

Definition apply_op (r : Receipt) (o : Op) : result error Receipt :=
  match o with
  | OStartSend now => StartSend r now
  | OAccept now status id => Accept r now status id
  | OSimulate now status id => Simulate r now status id
  | ORetry now status reason at_ => Retry r now status reason at_
  | OFail now status reason => Fail r now status reason
  | OMarkUnknown now reason => MarkUnknown r now reason
  | OReclaim now maxAttempts => Reclaim r now maxAttempts
  | OExhaust now => Exhaust r now
  | ORecoverStale now timeout maxAttempts => RecoverStale r now timeout maxAttempts
  end.

Definition is_send (o : Op) : bool := match o with OStartSend _ => true | _ => false end.

(** The specification: the seven statuses, and the moves between them with the attempt count. *)
Inductive status : Type := Claimed | SendStarted | Retryable | Accepted | Simulated | Failed | Unknown.
#[export] Instance status_eq_dec : EqDecision status.
Proof. solve_decision. Defined.

Definition status_name (s : status) : gostring :=
  match s with
  | Claimed => ReceiptClaimed
  | SendStarted => ReceiptSendStarted
  | Retryable => ReceiptRetryable
  | Accepted => ReceiptAccepted
  | Simulated => ReceiptSimulated
  | Failed => ReceiptFailed
  | Unknown => ReceiptUnknown
  end.

Definition is_final (s : status) : bool :=
  match s with Accepted | Simulated | Failed | Unknown => true | _ => false end.

Record astate : Type := mkAstate { a_status : status; a_attempts : Z; a_version : Z }.

Inductive astep : astate → astate → Prop :=
| a_start n v : astep (mkAstate Claimed n v) (mkAstate SendStarted n (v + 1))
| a_finish s n v : is_final s = true → astep (mkAstate SendStarted n v) (mkAstate s n (v + 1))
| a_retry n v : astep (mkAstate SendStarted n v) (mkAstate Retryable n (v + 1))
| a_reclaim n v : n < 5 → astep (mkAstate Retryable n v) (mkAstate Claimed (n + 1) (v + 1))
| a_exhaust n v : astep (mkAstate Retryable n v) (mkAstate Failed n (v + 1))
| a_stale n v : n < 5 → astep (mkAstate Claimed n v) (mkAstate Claimed (n + 1) (v + 1)).

(** A receipt stands for an abstract state. *)
Definition abstracts (r : Receipt) (a : astate) : Prop :=
  Status r = status_name (a_status a) ∧ AttemptCount r = a_attempts a ∧ StateVersion r = a_version a.

(** The fields that bind a receipt to its operation and recipient. *)
Definition same_identity (r r' : Receipt) : Prop :=
  OperationID r' = OperationID r ∧ ReleaseID r' = ReleaseID r ∧ ReleaseVersion r' = ReleaseVersion r ∧
  RecipientID r' = RecipientID r ∧ HMACKeyVersion r' = HMACKeyVersion r ∧ Provider r' = Provider r ∧
  QueueMessageID r' = QueueMessageID r ∧ SchemaVersion r' = SchemaVersion r.

(** ** Facts about validation *)

Lemma validated_ok r r' : validated r = Ok r' → r' = r ∧ validate r = true.
Proof. unfold validated. destruct (validate r); [|done]. by intros [= ->]. Qed.

Lemma validReceiptStatus_spec s : validReceiptStatus s = true ↔ ∃ st, s = status_name st.
Proof.
  unfold validReceiptStatus. simpl. rewrite !orb_true_iff, !str_eqb_eq. split.
  - intros [->|[->|[->|[->|[->|[->|[->|?]]]]]]]; [by exists Claimed|by exists SendStarted|by exists Retryable|
      by exists Accepted|by exists Simulated|by exists Failed|by exists Unknown|done].
  - intros [[] ->]; simpl; tauto.
Qed.

Lemma status_name_inj s t : status_name s = status_name t → s = t.
Proof. by destruct s, t. Qed.

(** The parts of [validate] the proofs use. *)
Lemma validate_spec r :
  validate r = true →
  match_string digestPattern (OperationID r) = true ∧ match_string releasePattern (ReleaseID r) = true ∧
  match_string digestPattern (RecipientID r) = true ∧
  match_string versionLabelPattern (HMACKeyVersion r) = true ∧
  1 ≤ AttemptCount r ≤ 5 ∧ 1 ≤ StateVersion r ∧ validReceiptStatus (Status r) = true ∧ SchemaVersion r = lit "1.0".
Proof.
  unfold validate. intros H. case_if_in H; [done|]. clear H. breflect. split_hyps. split_and!; try done; lia.
Qed.

Lemma validate_abstracts r : validate r = true → ∃ a, abstracts r a ∧ 1 ≤ a_attempts a ≤ 5 ∧ 1 ≤ a_version a.
Proof.
  intros (_ & _ & _ & _ & Ha & Hv & Hs & _)%validate_spec. apply validReceiptStatus_spec in Hs as [st Hs].
  by exists (mkAstate st (AttemptCount r) (StateVersion r)).
Qed.

(** A version that is still positive after the increment did not wrap around. *)
Lemma wrap64_succ v : int64_range v → 1 ≤ v → 1 ≤ wrap64 (v + 1) → wrap64 (v + 1) = v + 1.
Proof.
  unfold int64_range. intros Hr Hv Hw. destruct (Z.eq_dec v (2 ^ 63 - 1)) as [->|Hne].
  - exfalso. revert Hw. vm_compute. tauto.
  - apply wrap64_small. unfold int64_range. lia.
Qed.

Lemma terminal_status r a : abstracts r a → terminal r = is_final (a_status a).
Proof. intros (Hs & _ & _). unfold terminal. rewrite Hs. by destruct (a_status a). Qed.

(** ** Each operation refines the specification *)

Definition opt_int (o : option Z) : Prop := match o with Some z => int64_range z | None => True end.

(** What the transitions have in common: a new version of the same receipt, valid, in a status and
    with an attempt count the machine allows. *)
Definition moves (r r' : Receipt) (s s' : status) (n' : Z) : Prop :=
  (∃ cl nx h rq rs se tm up,
    r' = assign r n' cl nx h rq rs se (wrap64 (StateVersion r + 1)) (status_name s') tm up ∧
    (opt_int (ProviderHTTPStatus r) → opt_int h)) ∧
  Status r = status_name s ∧ validate r' = true.

Ltac op_guards H := case_if_in H; [discriminate H|]; breflect; split_hyps.

Lemma finish_moves r now s' http id reason r' :
  int64_range http → finish r now (status_name s') http id reason = Ok r' → moves r r' SendStarted s' (AttemptCount r).
Proof.
  unfold finish. intros Hh H. op_guards H. op_guards H; apply validated_ok in H as [-> Hv];
    (split; [repeat eexists; by destruct (http =? 0)|done]).
Qed.

Lemma StartSend_moves r now r' : StartSend r now = Ok r' → moves r r' Claimed SendStarted (AttemptCount r).
Proof.
  unfold StartSend. intros H. op_guards H. apply validated_ok in H as [-> Hv]. split; [by repeat eexists|done].
Qed.

Lemma Retry_moves r now st reason at_ r' :
  Retry r now st reason at_ = Ok r' → moves r r' SendStarted Retryable (AttemptCount r).
Proof.
  unfold Retry. intros H. op_guards H; apply validated_ok in H as [-> Hv];
    (split; [repeat eexists; unfold opt_int, int64_range; lia|done]).
Qed.

Lemma Reclaim_moves r now m r' :
  Reclaim r now m = Ok r' → moves r r' Retryable Claimed (wrap64 (AttemptCount r + 1)) ∧ AttemptCount r < m ≤ 5.
Proof.
  unfold Reclaim. intros H. op_guards H. destruct (NextAttemptAt r); [|done].
  destruct (parseTime _); [|done]. case_if_in H; [done|]. apply validated_ok in H as [-> Hv].
  split; [split; [by repeat eexists|done]|lia].
Qed.

Lemma Exhaust_moves r now r' : Exhaust r now = Ok r' → moves r r' Retryable Failed (AttemptCount r).
Proof.
  unfold Exhaust. intros H. op_guards H. apply validated_ok in H as [-> Hv]. split; [by repeat eexists|done].
Qed.

Lemma RecoverStale_moves r now timeout m r' :
  RecoverStale r now timeout m = Ok r' →
  (moves r r' Claimed Claimed (wrap64 (AttemptCount r + 1)) ∧ AttemptCount r < m) ∨
  moves r r' SendStarted Unknown (AttemptCount r).
Proof.
  unfold RecoverStale. intros H. op_guards H.
  destruct (Status r =s ReceiptClaimed) eqn:Ec; breflect.
  - left. destruct (ClaimedAt r); [|done]. op_guards H. destruct (parseTime _); [|done].
    op_guards H. apply validated_ok in H as [-> Hv]. rewrite Ec in *. split; [split; [by repeat eexists|done]|lia].
  - right. destruct (Status r =s ReceiptSendStarted) eqn:Es; [|done].
    destruct (SendStartedAt r); [|done]. destruct (parseTime _); [|done]. op_guards H.
    unfold MarkUnknown in H. op_guards H. 
    eapply (finish_moves r now Unknown); [|exact H]; unfold int64_range; lia.
Qed.

(** From a move to a step of the specification. *)
Lemma moves_step r r' s s' n' :
  moves r r' s s' n' → struct_ok r → validate r = true →
  (∀ v, astep (mkAstate s (AttemptCount r) v) (mkAstate s' n' (v + 1))) →
  ∃ a a', abstracts r a ∧ abstracts r' a' ∧ astep a a'.
Proof.
  intros [(cl & nx & h & rq & rs & se & tm & up & -> & Hh) [Hs Hv']] [Hk _] Hv Hstep.
  apply validate_spec in Hv as (_ & _ & _ & _ & _ & Hver & _). apply validate_spec in Hv' as (_ & _ & _ & _ & _ & Hver' & _).
  assert (Hr : int64_range (StateVersion r)) by (cbn in Hk; tauto).
  exists (mkAstate s (AttemptCount r) (StateVersion r)), (mkAstate s' n' (StateVersion r + 1)).
  split; [done|]. split; [|done]. split; [done|]. split; [done|]. by apply wrap64_succ.
Qed.

Lemma moves_identity r r' s s' n' : moves r r' s s' n' → same_identity r r' ∧ validate r' = true.
Proof. by intros [(cl & nx & h & rq & rs & se & tm & up & -> & Hh) [_ Hv']]. Qed.

Lemma attempts_succ r r' s s' :
  moves r r' s s' (wrap64 (AttemptCount r + 1)) → validate r = true →
  wrap64 (AttemptCount r + 1) = AttemptCount r + 1 ∧ AttemptCount r < 5.
Proof.
  intros [(cl & nx & h & rq & rs & se & tm & up & -> & Hh) [_ Hv']] Hv.
  apply validate_spec in Hv as (_ & _ & _ & _ & Ha & _). apply validate_spec in Hv' as (_ & _ & _ & _ & Ha' & _).
  cbn [AttemptCount assign] in Ha'.
  assert (E : wrap64 (AttemptCount r + 1) = AttemptCount r + 1) by (apply wrap64_small; unfold int64_range; lia).
  rewrite E in Ha'. lia.
Qed.

(** Every operation is one of the moves, and only [StartSend] moves to SEND_STARTED. *)
Lemma apply_op_moves r o r' :
  apply_op r o = Ok r' → validate r = true →
  ∃ s s' n', moves r r' s s' n' ∧ (∀ v, astep (mkAstate s (AttemptCount r) v) (mkAstate s' n' (v + 1))) ∧
             is_send o = bool_decide (s' = SendStarted).
Proof.
  intros H Hv. destruct o; simpl in H.
  - exists Claimed, SendStarted, (AttemptCount r). split; [by eapply StartSend_moves|by repeat constructor].
  - unfold Accept in H. op_guards H. exists SendStarted, Accepted, (AttemptCount r).
    split; [eapply (finish_moves r _ Accepted); [|exact H]; unfold int64_range; lia|by repeat constructor].
  - unfold Simulate in H. op_guards H. exists SendStarted, Simulated, (AttemptCount r).
    split; [eapply (finish_moves r _ Simulated); [|exact H]; unfold int64_range; lia|by repeat constructor].
  - exists SendStarted, Retryable, (AttemptCount r). split; [by eapply Retry_moves|].
    split; [intros; apply a_retry|done].
  - unfold Fail in H. op_guards H. exists SendStarted, Failed, (AttemptCount r).
    split; [eapply (finish_moves r _ Failed); [|exact H]; unfold int64_range; lia|by repeat constructor].
  - unfold MarkUnknown in H. op_guards H. exists SendStarted, Unknown, (AttemptCount r).
    split; [eapply (finish_moves r _ Unknown); [|exact H]; unfold int64_range; lia|by repeat constructor].
  - apply Reclaim_moves in H as [H _]. exists Retryable, Claimed, (wrap64 (AttemptCount r + 1)).
    split; [done|]. destruct (attempts_succ _ _ _ _ H Hv) as [-> ?]. by repeat constructor.
  - exists Retryable, Failed, (AttemptCount r). split; [by eapply Exhaust_moves|].
    split; [intros; apply a_exhaust|done].
  - apply RecoverStale_moves in H as [[H _]|H].
    + exists Claimed, Claimed, (wrap64 (AttemptCount r + 1)). split; [done|].
      destruct (attempts_succ _ _ _ _ H Hv) as [-> ?]. by repeat constructor.
    + exists SendStarted, Unknown, (AttemptCount r). split; [done|by repeat constructor].
Qed.

(** C22: Every transition of a valid receipt that succeeds yields a valid receipt of the same
    operation, recipient, provider and message, and is a step of the specified state machine: the
    state version grows by exactly one and the attempt count stays within the machine's limit. *)
Theorem transition_refines r o r' :
  struct_ok r → validate r = true → apply_op r o = Ok r' →
  validate r' = true ∧ same_identity r r' ∧ ∃ a a', abstracts r a ∧ abstracts r' a' ∧ astep a a'.
Proof.
  intros Hok Hv H. destruct (apply_op_moves r o r' H Hv) as (s & s' & n' & Hm & Hstep & _).
  destruct (moves_identity _ _ _ _ _ Hm) as [Hid Hv']. eauto using moves_step.
Qed.

(** A terminal receipt never changes: every operation on it is refused. *)
Theorem terminal_absorbing r o : terminal r = true → apply_op r o = Err ErrReceiptConflict.
Proof.
  intros Ht. destruct o; simpl; unfold StartSend, Accept, Simulate, Retry, Fail, MarkUnknown, Reclaim, Exhaust,
    RecoverStale, finish; rewrite Ht, ?orb_true_r; try done;
    by match goal with |- context [if ?b then _ else _] => destruct b end.
Qed.

(** ** Runs of a receipt *)

(** A sequence of successful operations. *)
Inductive run : Receipt → list Op → Receipt → Prop :=
| run_nil r : run r [] r
| run_snoc r ops r1 o r2 : run r ops r1 → apply_op r1 o = Ok r2 → run r (ops ++ [o]) r2.

Definition sends (ops : list Op) : Z := len (List.filter is_send ops).

Lemma sends_snoc ops o : sends (ops ++ [o]) = sends ops + if is_send o then 1 else 0.
Proof. unfold sends. rewrite List.filter_app, len_app. simpl. by destruct (is_send o). Qed.

Lemma status_name_claimed s : (status_name s =s ReceiptClaimed) = bool_decide (s = Claimed).
Proof. by destruct s. Qed.

(** Sends so far, and the one a claim still allows, are covered by the attempt count. *)
Definition budget (r : Receipt) (n : Z) : Prop :=
  n + (if Status r =s ReceiptClaimed then 1 else 0) ≤ AttemptCount r.

Lemma op_budget r o r' n :
  validate r = true → apply_op r o = Ok r' → budget r n → budget r' (n + if is_send o then 1 else 0).
Proof.
  intros Hv H. unfold budget.
  destruct (apply_op_moves r o r' H Hv) as
    (s & s' & n' & [(cl & nx & h & rq & rs & se & tm & up & -> & Hh) [Hs _]] & Hstep & ->).
  specialize (Hstep 0). rewrite Hs. cbn [AttemptCount Status assign] in *.
  rewrite !status_name_claimed.
  inversion Hstep; subst; repeat case_bool_decide; simplify_eq; done || lia.
Qed.

Lemma run_valid r ops r' : run r ops r' → validate r = true → validate r' = true.
Proof.
  induction 1 as [|r ops r1 o r2 Hr IH Ho]; [done|]. intros Hv.
  destruct (apply_op_moves r1 o r2 Ho (IH Hv)) as (? & ? & ? & Hm & _). by destruct (moves_identity _ _ _ _ _ Hm).
Qed.

Lemma run_budget r ops r' n : run r ops r' → validate r = true → budget r n → budget r' (n + sends ops).
Proof.
  induction 1 as [|r ops r1 o r2 Hr IH Ho]; intros Hv Hb; [by rewrite Z.add_0_r|].
  rewrite sends_snoc, Z.add_assoc. eapply op_budget; [by eapply run_valid|exact Ho|by apply IH].
Qed.

Lemma ClaimReceipt_ok i now r :
  ClaimReceipt i now = Ok r → validate r = true ∧ AttemptCount r = 1 ∧ Status r = ReceiptClaimed ∧ StateVersion r = 1.
Proof. unfold ClaimReceipt. intros H. case_if_in H; [done|]. by apply validated_ok in H as [-> Hv]. Qed.

(** Along any sequence of successful operations from a fresh claim, the number of sends that
    are started never exceeds the receipt's attempt count, which never exceeds five. *)
Theorem sends_bounded i now r0 ops r :
  ClaimReceipt i now = Ok r0 → run r0 ops r → sends ops ≤ AttemptCount r ≤ 5.
Proof.
  intros (Hv & Ha & Hs & _)%ClaimReceipt_ok Hr.
  pose proof (run_budget r0 ops r 0 Hr Hv) as Hb. unfold budget in Hb. rewrite Hs, Ha in Hb. simpl in Hb.
  pose proof (validate_spec r (run_valid _ _ _ Hr Hv)) as (_ & _ & _ & _ & Hn & _).
  specialize (Hb ltac:(done)). destruct (Status r =s ReceiptClaimed); lia.
Qed.

(** ** Operations succeed exactly when their guards hold *)

Definition opt_ok {A} (p : A → bool) (o : option A) : bool := match o with Some a => p a | None => true end.
Definition request_ok (id : gostring) : bool := (len id <=? 128) && controlFree id.

(** [validate] as one conjunction, in the order of the code. *)
Lemma validate_split r :
  validate r =
  (SchemaVersion r =s lit "1.0") && match_string digestPattern (OperationID r) &&
  match_string releasePattern (ReleaseID r) && match_string releaseVersionPattern (ReleaseVersion r) &&
  match_string digestPattern (RecipientID r) && match_string versionLabelPattern (HMACKeyVersion r) &&
  ((Provider r =s lit "stub") || (Provider r =s lit "sendgrid")) &&
  (1 <=? AttemptCount r) && (AttemptCount r <=? 5) && (1 <=? StateVersion r) &&
  negb (QueueMessageID r =s []) && (len (QueueMessageID r) <=? 128) && controlFree (QueueMessageID r) &&
  validReceiptStatus (Status r) && validReceiptTime (UpdatedAt r) &&
  opt_ok (match_string reasonPattern) (ReasonCode r) &&
  (opt_ok validReceiptTime (ClaimedAt r) && opt_ok validReceiptTime (NextAttemptAt r) &&
   opt_ok validReceiptTime (SendStartedAt r) && opt_ok validReceiptTime (TerminalAt r)) &&
  opt_ok request_ok (ProviderRequestID r).
Proof.
  assert (Hif : ∀ b c : bool, (if b then false else c) = negb b && c) by (by intros []).
  assert (Ho : ∀ A (p : A → bool) o, negb (match o with Some a => negb (p a) | None => false end) = opt_ok p o)
    by (intros A p [a|]; simpl; [apply negb_involutive|done]).
  unfold validate. cbn [existsb]. rewrite !Hif, !negb_orb, !negb_involutive, !Ho, negb_andb, !negb_involutive.
  rewrite <- !Z.leb_antisym. rewrite andb_true_r, !andb_assoc. f_equal. unfold opt_ok, request_ok.
  destruct (ProviderRequestID r); [|done]. by rewrite negb_orb, negb_involutive, <- Z.leb_antisym.
Qed.

(** Assigning valid values to the fields of a valid receipt gives a valid receipt. *)
Lemma validate_assign r n cl nx h rq rs se v s tm up :
  validate r = true → 1 ≤ n ≤ 5 → 1 ≤ v → validReceiptTime up = true →
  opt_ok (match_string reasonPattern) rs && opt_ok validReceiptTime cl && opt_ok validReceiptTime nx &&
  opt_ok validReceiptTime se && opt_ok validReceiptTime tm && opt_ok request_ok rq = true →
  validate (assign r n cl nx h rq rs se v (status_name s) tm up) = true.
Proof.
  rewrite !validate_split. cbn [assign SchemaVersion OperationID ReleaseID ReleaseVersion RecipientID HMACKeyVersion
    Provider AttemptCount StateVersion QueueMessageID Status UpdatedAt ReasonCode ClaimedAt NextAttemptAt
    SendStartedAt TerminalAt ProviderRequestID].
  intros Hv Hn Hver Hup Ho.
  assert (Hs : validReceiptStatus (status_name s) = true) by (apply validReceiptStatus_spec; eauto).
  repeat (apply andb_true_iff in Hv as [Hv ?]). repeat (apply andb_true_iff in Ho as [Ho ?]).
  repeat (apply andb_true_iff; split); try assumption; apply Z.leb_le; lia.
Qed.

Lemma formatTime_valid now : time_range now → validReceiptTime (formatTime now) = true.
Proof. intros H. unfold validReceiptTime, parseTime. by rewrite time_parse_format. Qed.

Lemma validate_times r :
  validate r = true →
  opt_ok validReceiptTime (ClaimedAt r) = true ∧ opt_ok validReceiptTime (NextAttemptAt r) = true ∧
  opt_ok validReceiptTime (SendStartedAt r) = true ∧ opt_ok validReceiptTime (TerminalAt r) = true ∧
  opt_ok request_ok (ProviderRequestID r) = true ∧ opt_ok (match_string reasonPattern) (ReasonCode r) = true.
Proof. rewrite validate_split. intros H. breflect. tauto. Qed.

Lemma version_succ r :
  validate r = true → StateVersion r < maxInt64 → wrap64 (StateVersion r + 1) = StateVersion r + 1 ∧ 1 ≤ StateVersion r.
Proof.
  unfold maxInt64. intros (_ & _ & _ & _ & _ & Hv & _)%validate_spec Hm. split; [|lia].
  apply wrap64_small. unfold int64_range. lia.
Qed.

Lemma terminal_not r s : Status r = status_name s → is_final s = false → terminal r = false.
Proof. intros Hs Hf. unfold terminal. rewrite Hs. by destruct s. Qed.

(** Go's encoding of an optional string: nil when empty. *)
Lemma opt_ok_nonempty p (s : gostring) : s = [] ∨ p s = true → opt_ok p (if negb (s =s []) then Some s else None) = true.
Proof. destruct (s =s []) eqn:E; [done|]. breflect. by intros [->|H]. Qed.

(** [finish] on a receipt whose send was started. *)
Lemma finish_enabled r now s http id reason :
  validate r = true → Status r = ReceiptSendStarted → t_utc now = true → time_range now → StateVersion r < maxInt64 →
  id = [] ∨ request_ok id = true → reason = [] ∨ match_string reasonPattern reason = true →
  ∃ r', finish r now (status_name s) http id reason = Ok r' ∧ Status r' = status_name s.
Proof.
  intros Hv Hs Hu Ht Hm Hid Hr. unfold finish.
  rewrite Hs, str_eqb_refl, (terminal_not r SendStarted Hs eq_refl), Hu. cbn [negb orb].
  assert (Hg : negb (id =s []) && ((128 <? len id) || negb (controlFree id)) = false).
  { destruct Hid as [->|Hid]; [done|]. unfold request_ok in Hid. breflect. destruct Hid as [Hl ->].
    right. split; [lia|done]. }
  rewrite Hg. destruct (version_succ r Hv Hm) as [-> Hver]. destruct (validate_times r Hv) as (Hcl & Hnx & Hse & Htm & _).
  pose proof (formatTime_valid now Ht) as Hf. pose proof (validate_spec r Hv) as (_ & _ & _ & _ & Hn & _).
  unfold validated. rewrite validate_assign; [by eexists|done|done|lia|done|].
  rewrite Hcl, Hse, (opt_ok_nonempty _ _ Hid), (opt_ok_nonempty _ _ Hr). cbn [opt_ok andb]. by rewrite Hf.
Qed.

Lemma Retry_enabled r now http reason retryAt :
  validate r = true → Status r = ReceiptSendStarted → t_utc now = true → time_range now →
  StateVersion r < maxInt64 → match_string reasonPattern reason = true → http = 429 ∨ 500 ≤ http ≤ 599 →
  t_utc retryAt = true → time_range retryAt → t_ns now ≤ t_ns retryAt →
  ∃ r', Retry r now http reason retryAt = Ok r' ∧ Status r' = ReceiptRetryable.
Proof.
  intros Hv Hs Hu Ht Hm Hr Hst Hu2 Ht2 Hle.
  unfold Retry. rewrite Hs, str_eqb_refl, (terminal_not r SendStarted Hs eq_refl), Hu, Hu2, Hr.
  assert (Hg : negb (http =? 429) && ((http <? 500) || (599 <? http)) = false) by (breflect; lia).
  rewrite Hg. unfold time_before. rewrite (proj2 (Z.ltb_ge _ _) Hle). cbn [negb orb].
  destruct (version_succ r Hv Hm) as [-> Hver]. destruct (validate_times r Hv) as (Hcl & _ & Hse & Htm & _).
  pose proof (validate_spec r Hv) as (_ & _ & _ & _ & Hn & _).
  unfold validated.
  rewrite (validate_assign _ _ _ _ _ _ _ _ _ Retryable); [by eexists|done|done|lia|by apply formatTime_valid|].
  cbn [opt_ok]. by rewrite Hr, Hcl, Hse, Htm, formatTime_valid.
Qed.

(** Once a send was started, every outcome the provider can report is recordable: accepting,
    simulating, failing, scheduling a retry and marking unknown all succeed and lead to the status
    named, provided the request identifier is at most 128 bytes without control characters, the
    reason has the reason pattern, the clock is UTC within four-digit years and the version does not
    overflow. *)
Theorem outcomes_recordable r now id reason http retryAt :
  validate r = true → Status r = ReceiptSendStarted → t_utc now = true → time_range now →
  StateVersion r < maxInt64 → request_ok id = true → match_string reasonPattern reason = true →
  0 ≤ http ≤ 599 → t_utc retryAt = true → time_range retryAt → t_ns now ≤ t_ns retryAt →
  (∃ r', Accept r now 202 id = Ok r' ∧ Status r' = ReceiptAccepted) ∧
  (∃ r', Simulate r now 200 id = Ok r' ∧ Status r' = ReceiptSimulated) ∧
  (∃ r', Fail r now http reason = Ok r' ∧ Status r' = ReceiptFailed) ∧
  (∃ r', MarkUnknown r now reason = Ok r' ∧ Status r' = ReceiptUnknown) ∧
  (http = 429 ∨ 500 ≤ http → ∃ r', Retry r now http reason retryAt = Ok r' ∧ Status r' = ReceiptRetryable).
Proof.
  intros Hv Hs Hu Ht Hm Hid Hr Hh Hu2 Ht2 Hle. unfold Accept, Simulate, Fail, MarkUnknown. rewrite Hr.
  rewrite (proj2 (Z.ltb_ge http 0)), (proj2 (Z.ltb_ge 599 http)) by lia. cbn [Z.eqb Pos.eqb negb orb].
  split_and!; [apply (finish_enabled r now Accepted)|apply (finish_enabled r now Simulated)
    |apply (finish_enabled r now Failed)|apply (finish_enabled r now Unknown)|]; auto.
  intros Hst. apply Retry_enabled; auto; lia.
Qed.

(** ** The stored text *)

(** C23: [ParseReceipt] accepts exactly the canonical text, of at most 32 KiB, of a valid receipt
    with UTF-8 strings; it returns that receipt. *)
Theorem ParseReceipt_exact raw r :
  ParseReceipt raw = Ok r ↔
  raw = marshal_struct r ∧ len raw ≤ maxReceiptBytes ∧ struct_ok r ∧ validate r = true.
Proof. apply parse_exact. Qed.

Lemma ParseReceipt_valid raw r : ParseReceipt raw = Ok r → struct_ok r ∧ validate r = true ∧ raw = marshal_struct r.
Proof. unfold ParseReceipt, conflict. rewrite parse_exact. tauto. Qed.

(** What [MarshalReceipt] writes, [ParseReceipt] reads back, for receipts with UTF-8 strings
    whose text is at most 32 KiB. *)
Theorem receipt_roundtrip r raw :
  struct_ok r → MarshalReceipt r = Ok raw → len raw ≤ maxReceiptBytes → ParseReceipt raw = Ok r.
Proof.
  unfold MarshalReceipt. intros Hok H Hl. destruct (validate r) eqn:Hv; [|done]. injection H as <-.
  unfold ParseReceipt, conflict. apply parse_exact. auto.
Qed.

(** The arguments an operation stores: UTF-8 request identifiers and HTTP statuses of an [int]. *)
Definition op_args_ok (o : Op) : Prop :=
  match o with
  | OAccept _ status id | OSimulate _ status id => utf8_valid id = true
  | ORetry _ status _ _ | OFail _ status _ => int64_range status
  | _ => True
  end.

Definition opt_utf8 (o : option gostring) : Prop := match o with Some s => utf8_valid s = true | None => True end.

Lemma assign_struct_ok r n cl nx h rq rs se v s tm up :
  struct_ok r → int64_range n → int64_range v → opt_int h → utf8_valid up = true →
  opt_utf8 cl → opt_utf8 nx → opt_utf8 rq → opt_utf8 rs → opt_utf8 se → opt_utf8 tm →
  struct_ok (assign r n cl nx h rq rs se v (status_name s) tm up).
Proof.
  intros [Hk Hu] Hn Hv Hh Hup Hcl Hnx Hrq Hrs Hse Htm. cbn in Hk, Hu.
  split; cbn; [destruct h; tauto|].
  assert (utf8_valid (status_name s) = true) by (by destruct s).
  unfold opt_utf8 in *. tauto.
Qed.

Lemma reason_utf8 reason : match_string reasonPattern reason = true → utf8_valid reason = true.
Proof. apply pattern_utf8. vm_compute. reflexivity. Qed.

Lemma struct_ok_fields r :
  struct_ok r →
  opt_utf8 (ClaimedAt r) ∧ opt_utf8 (NextAttemptAt r) ∧ opt_utf8 (ProviderRequestID r) ∧ opt_utf8 (ReasonCode r) ∧
  opt_utf8 (SendStartedAt r) ∧ opt_utf8 (TerminalAt r) ∧ opt_int (ProviderHTTPStatus r) ∧ int64_range (AttemptCount r).
Proof. intros [Hk Hu]. cbn in Hk, Hu. unfold opt_utf8, opt_int. destruct (ProviderHTTPStatus r); tauto. Qed.

(** Discharging the premises of [assign_struct_ok]. *)
Ltac assign_ok s :=
  apply (assign_struct_ok _ _ _ _ _ _ _ _ _ s); cbn [opt_utf8 opt_int];
  try reflexivity; auto using wrap64_range, formatTime_utf8, reason_utf8.

Lemma finish_struct_ok r now s http id reason r' :
  struct_ok r → int64_range http → utf8_valid id = true → utf8_valid reason = true →
  finish r now (status_name s) http id reason = Ok r' → struct_ok r'.
Proof.
  intros Hok Hh Hid Hr. destruct (struct_ok_fields r Hok) as (? & ? & ? & ? & ? & ? & ? & ?).
  unfold finish. intros H'. case_if_in H'; [done|]. case_if_in H'; [done|]. apply validated_ok in H' as [-> _].
  assign_ok s; [by destruct (http =? 0)|by destruct (id =s [])|by destruct (reason =s [])].
Qed.

(** Operations keep strings UTF-8 and integers in range. *)
Lemma apply_op_struct_ok r o r' : struct_ok r → op_args_ok o → apply_op r o = Ok r' → struct_ok r'.
Proof.
  intros Hok Ho. destruct (struct_ok_fields r Hok) as (? & ? & ? & ? & ? & ? & ? & ?).
  assert (Hzero : int64_range 0) by (by unfold int64_range).
  destruct o; simpl in *; intros H'.
  - unfold StartSend in H'. case_if_in H'; [done|]. apply validated_ok in H' as [-> _].
    assign_ok SendStarted.
  - unfold Accept in H'. case_if_in H'; [done|]. breflect. subst.
    refine (finish_struct_ok _ _ Accepted _ _ _ _ Hok _ _ _ H'); [unfold int64_range; lia|done|reflexivity].
  - unfold Simulate in H'. case_if_in H'; [done|]. breflect. subst.
    refine (finish_struct_ok _ _ Simulated _ _ _ _ Hok _ _ _ H'); [unfold int64_range; lia|done|reflexivity].
  - unfold Retry in H'. op_guards H'; apply validated_ok in H' as [-> _];
      assign_ok Retryable.
  - unfold Fail in H'. op_guards H'. 
    refine (finish_struct_ok _ _ Failed _ _ _ _ Hok _ _ _ H'); [done|reflexivity|by apply reason_utf8].
  - unfold MarkUnknown in H'. op_guards H'. 
      refine (finish_struct_ok _ _ Unknown _ _ _ _ Hok _ _ _ H'); [done|reflexivity|by apply reason_utf8].
  - unfold Reclaim in H'. op_guards H'. destruct (NextAttemptAt r); [|done]. destruct (parseTime _); [|done].
    case_if_in H'; [done|]. apply validated_ok in H' as [-> _].
    assign_ok Claimed.
  - unfold Exhaust in H'. op_guards H'. apply validated_ok in H' as [-> _].
    assign_ok Failed.
  - unfold RecoverStale in H'. op_guards H'. destruct (Status r =s ReceiptClaimed) eqn:Es; breflect.
    + destruct (ClaimedAt r); [|done]. op_guards H'. destruct (parseTime _); [|done]. op_guards H'.
      apply validated_ok in H' as [-> _]. rewrite Es.
      assign_ok Claimed.
    + destruct (Status r =s ReceiptSendStarted); [|done]. destruct (SendStartedAt r); [|done].
      destruct (parseTime _); [|done]. op_guards H'. unfold MarkUnknown in H'. op_guards H'.
      
      refine (finish_struct_ok _ _ Unknown _ _ _ _ Hok _ _ _ H'); [done|reflexivity|by apply reason_utf8].
Qed.

(** ** Sample values *)

Module ReceiptSamples.
Definition now : Time := mkTime (1767323045 * Second) true.
Definition later : Time := mkTime (1767323145 * Second) true.
Definition intent : ReceiptIntent :=
  mkIntent Samples.digest (lit "release-1") (lit "1.2.3") Samples.digest (lit "k1") (lit "sendgrid")
    (Samples.operation ++ lit ":1").
Definition default (r : result error Receipt) : Receipt := match r with Ok r => r | Err _ => zeroReceipt end.
Definition claimed : Receipt := default (ClaimReceipt intent now).
Definition started : Receipt := default (StartSend claimed now).
End ReceiptSamples.

(** A provider request identifier that is not UTF-8 is accepted, validated and written, but the
    text written cannot be read back: the receipt is lost to every later delivery. *)
Theorem request_id_not_utf8_unreadable :
  ∃ r raw, Accept ReceiptSamples.started ReceiptSamples.now 202 [byte 0xFF] = Ok r ∧
           MarshalReceipt r = Ok raw ∧ ParseReceipt raw = Err ErrReceiptConflict.
Proof.
  eexists. eexists. split; [vm_compute; reflexivity|]. split; [vm_compute; reflexivity|vm_compute; reflexivity].
Qed.

Lemma started_ok : struct_ok ReceiptSamples.started ∧ validate ReceiptSamples.started = true.
Proof.
  split; [|vm_compute; reflexivity].
  eapply ParseReceipt_valid. instantiate (1 := marshal_struct ReceiptSamples.started). vm_compute. reflexivity.
Qed.

Lemma samples_range : time_range ReceiptSamples.now ∧ time_range ReceiptSamples.later.
Proof. split; (split; [apply Z.leb_le|apply Z.ltb_lt]; vm_compute; reflexivity). Qed.

Lemma transition_refines_witness :
  ∃ r', apply_op ReceiptSamples.started (OAccept ReceiptSamples.later 202 (lit "id-1")) = Ok r' ∧ validate r' = true.
Proof.
  destruct started_ok as [Hok Hv]. eexists. split; [vm_compute; reflexivity|].
  refine (proj1 (transition_refines ReceiptSamples.started (OAccept ReceiptSamples.later 202 (lit "id-1")) _ Hok Hv _)).
  vm_compute. reflexivity.
Defined.

Lemma terminal_absorbing_witness :
  apply_op (ReceiptSamples.default (Accept ReceiptSamples.started ReceiptSamples.now 202 (lit "id-1")))
    (OReclaim ReceiptSamples.later 5) = Err ErrReceiptConflict.
Proof. apply terminal_absorbing. vm_compute. reflexivity. Defined.

Lemma sends_bounded_witness :
  sends [OStartSend ReceiptSamples.now] ≤ AttemptCount ReceiptSamples.started ≤ 5.
Proof.
  apply (sends_bounded ReceiptSamples.intent ReceiptSamples.now ReceiptSamples.claimed); [vm_compute; reflexivity|].
  apply (run_snoc _ [] ReceiptSamples.claimed); [constructor|vm_compute; reflexivity].
Defined.

Lemma receipt_roundtrip_witness :
  ParseReceipt (marshal_struct ReceiptSamples.started) = Ok ReceiptSamples.started.
Proof.
  apply receipt_roundtrip; [apply started_ok|vm_compute; reflexivity|vm_compute; discriminate].
Defined.

Lemma outcomes_recordable_witness :
  ∃ r', MarkUnknown ReceiptSamples.started ReceiptSamples.now (lit "LOST") = Ok r' ∧ Status r' = ReceiptUnknown.
Proof.
  destruct (outcomes_recordable ReceiptSamples.started ReceiptSamples.now (lit "id-1") (lit "LOST") 503
    ReceiptSamples.later) as (_ & _ & _ & H & _);
    [apply started_ok|vm_compute; reflexivity|reflexivity|apply samples_range|vm_compute; reflexivity
    |vm_compute; reflexivity|vm_compute; reflexivity|lia|reflexivity|apply samples_range|vm_compute; discriminate|exact H].
Defined.
