(* ===== verification/Program.v ===== *)
(** * Programs with effects

    Effectful code is modelled as a tree of requests with one continuation per answer, over the
    requests of its component. This file holds the trees, their monad, and their runs. *)

From S2P Require Import Prelude.

(** Programs over the requests [E], answered by [ans]. *)
Inductive program (E : Type) (ans : E → Type) (A : Type) : Type :=
| Ret (a : A)
| Vis (e : E) (k : ans e → program E ans A).
Arguments Ret {E ans A} a.
Arguments Vis {E ans A} e k.

Section Program.
Context {E : Type} {ans : E → Type}.

Fixpoint prog_bind {A B} (f : A → program E ans B) (p : program E ans A) : program E ans B :=
  match p with
  | Ret a => f a
  | Vis e k => Vis e (λ x, prog_bind f (k x))
  end.

#[export] Instance prog_mbind : MBind (program E ans) := λ A B f p, prog_bind f p.
#[export] Instance prog_mret : MRet (program E ans) := λ A a, Ret a.

(** One request. *)
Definition perform (e : E) : program E ans (ans e) := Vis e (λ x, Ret x).

(** ** Runs: the requests made and answered, and the result if it was reached *)

Definition history : Type := list { e : E & ans e }.

Fixpoint runs {A} (p : program E ans A) (t : history) (r : option A) : Prop :=
  match p with
  | Ret a => t = [] ∧ (r = Some a ∨ r = None)
  | Vis e k => (t = [] ∧ r = None) ∨ ∃ x t', t = existT e x :: t' ∧ runs (k x) t' r
  end.

Lemma runs_stop {A} (p : program E ans A) : runs p [] None.
Proof. destruct p; simpl; auto. Qed.

(** A run of a sequence is a run of its first part, followed by a run of the rest when the first
    part returned. *)
Lemma runs_bind {A B} (p : program E ans A) (f : A → program E ans B) t r :
  runs (p ≫= f) t r →
  (runs p t None ∧ r = None) ∨
  (∃ t1 t2 a, t = t1 ++ t2 ∧ runs p t1 (Some a) ∧ runs (f a) t2 r).
Proof.
  revert t r; induction p as [a|e k IH]; intros t r H.
  - right. exists [], t, a. simpl. auto.
  - simpl in H. destruct H as [[-> ->]|(x & t' & -> & Hr)]; [left; simpl; auto|].
    apply IH in Hr as [[Hr ->]|(t1 & t2 & a & -> & H1 & H2)].
    + left. split; [|done]. right. eauto.
    + right. exists (existT e x :: t1), t2, a. split; [done|]. split; [|done]. right. eauto.
Qed.
End Program.
Arguments history : clear implicits.

(** ** Specifications

    The answers so far are summarised in a state [S]. [meets p s Q]: started in [s], whatever the
    environment answers within [allowed], the program only makes requests that pass [check], and
    when it returns [Q] holds of its result and the state reached. *)

Section Logic.
Context {E : Type} {ans : E → Type} {S : Type}.
Context (allowed : S → ∀ e, ans e → Prop) (check : S → E → Prop) (upd : S → ∀ e, ans e → S).

Fixpoint meets {A} (p : program E ans A) (s : S) (Q : A → S → Prop) : Prop :=
  match p with
  | Ret a => Q a s
  | Vis e k => check s e ∧ ∀ x, allowed s e x → meets (k x) (upd s e x) Q
  end.

(** The state after a history, and the histories of a permitted environment. *)
Fixpoint after (s : S) (t : history E ans) : S :=
  match t with
  | [] => s
  | existT e x :: t' => after (upd s e x) t'
  end.

Fixpoint permitted (s : S) (t : history E ans) : Prop :=
  match t with
  | [] => True
  | existT e x :: t' => allowed s e x ∧ permitted (upd s e x) t'
  end.

Lemma after_app s t1 t2 : after s (t1 ++ t2) = after (after s t1) t2.
Proof. revert s; induction t1 as [|[e x] t1 IH]; intros s; simpl; [done|]. apply IH. Qed.

Lemma meets_weaken {A} (p : program E ans A) s (Q Q' : A → S → Prop) :
  meets p s Q → (∀ a s, Q a s → Q' a s) → meets p s Q'.
Proof.
  revert s; induction p as [a|e k IH]; intros s H HQ; simpl in *; [auto|].
  destruct H as [Hc H]. split; [done|]. intros x Hx. eauto.
Qed.

Lemma meets_bind {A B} (p : program E ans A) (f : A → program E ans B) s Q :
  meets p s (λ a s', meets (f a) s' Q) → meets (p ≫= f) s Q.
Proof.
  revert s; induction p as [a|e k IH]; intros s H; simpl in *; [done|].
  destruct H as [Hc H]. split; [done|]. intros x Hx. apply IH. auto.
Qed.

Lemma meets_perform e s Q : check s e → (∀ x, allowed s e x → Q x (upd s e x)) → meets (perform e) s Q.
Proof. simpl. auto. Qed.

Lemma meets_request {A} e (f : ans e → program E ans A) s Q :
  check s e → (∀ x, allowed s e x → meets (f x) (upd s e x) Q) → meets (perform e ≫= f) s Q.
Proof. by split. Qed.

(** Every run of a program that meets its specification made only checked requests, and a run that
    returned satisfies the postcondition. *)
Lemma meets_runs {A} (p : program E ans A) s Q t r :
  meets p s Q → runs p t r → permitted s t →
  (∀ t1 e x t2, t = t1 ++ existT e x :: t2 → check (after s t1) e) ∧ (∀ a, r = Some a → Q a (after s t)).
Proof.
  revert s t; induction p as [a|e k IH]; intros s t Hm Hr Hp; simpl in *.
  - destruct Hr as [-> Hr]. split; [by intros [|]|]. intros a' ->. by destruct Hr as [[= ->]|].
  - destruct Hm as [Hc Hm]. destruct Hr as [[-> ->]|(x & t' & -> & Hr)].
    + split; [by intros [|]|done].
    + destruct Hp as [Hx Hp]. destruct (IH x (upd s e x) t' (Hm x Hx) Hr Hp) as [H1 H2]. split; [|done].
      intros [|y t1] e' x' t2 Ht.
      * apply (f_equal (λ l, match l with existT e _ :: _ => e | [] => e end)) in Ht. simpl in *. by subst e'.
      * pose proof (f_equal (λ l, match l with y :: _ => y | [] => y end) Ht) as Hy. apply (f_equal tail) in Ht.
        simpl in Hy, Ht. rewrite <- Hy. simpl. eauto.
Qed.
End Logic.

(** ** Running a program against an environment *)

Section Play.
Context {E : Type} {ans : E → Type} {S : Type} (upd : S → ∀ e, ans e → S) (env : S → ∀ e, option (ans e)).

Fixpoint play {A} (p : program E ans A) (s : S) : history E ans * option A :=
  match p with
  | Ret a => ([], Some a)
  | Vis e k =>
    match env s e with
    | None => ([], None)
    | Some x => let '(t, r) := play (k x) (upd s e x) in (existT e x :: t, r)
    end
  end.

Lemma play_runs {A} (p : program E ans A) s : runs p (play p s).1 (play p s).2.
Proof.
  revert s; induction p as [a|e k IH]; intros s; simpl; [auto|]. destruct (env s e) as [x|]; simpl; [|auto].
  specialize (IH x (upd s e x)). destruct (play (k x) (upd s e x)) as [t r]. simpl in *. right. eauto.
Qed.

Lemma play_permitted {A} (allowed : S → ∀ e, ans e → Prop) (p : program E ans A) s :
  (∀ s e x, env s e = Some x → allowed s e x) → permitted allowed upd s (play p s).1.
Proof.
  intros He. revert s; induction p as [a|e k IH]; intros s; simpl; [done|]. destruct (env s e) as [x|] eqn:Ex; simpl; [|done].
  specialize (IH x (upd s e x)). destruct (play (k x) (upd s e x)) as [t r]. simpl in *. auto.
Qed.
End Play.

(** ** Bounds on the number of requests *)

Section Bounds.
Context {E : Type} {ans : E → Type}.

Fixpoint bounded {A} (n : nat) (p : program E ans A) {struct p} : Prop :=
  match p with
  | Ret _ => True
  | Vis e k => match n with O => False | S m => ∀ x, bounded m (k x) end
  end.

Lemma bounded_mono {A} n m (p : program E ans A) : (n ≤ m)%nat → bounded n p → bounded m p.
Proof.
  revert n m; induction p as [a|e k IH]; intros n m Hle H; simpl in *; [done|].
  destruct n as [|n]; [done|]. destruct m as [|m]; [lia|]. intros x. apply (IH x n); [lia|apply H].
Qed.

Lemma bounded_bind {A B} n m (p : program E ans A) (f : A → program E ans B) :
  bounded n p → (∀ a, bounded m (f a)) → bounded (n + m) (p ≫= f).
Proof.
  intros Hp Hf. revert n Hp; induction p as [a|e k IH]; intros n Hp; simpl in *.
  - apply (bounded_mono m); [lia|apply Hf].
  - destruct n as [|n]; [done|]. simpl. intros x. apply IH, Hp.
Qed.

Lemma bounded_runs {A} n (p : program E ans A) t r : bounded n p → runs p t r → (length t ≤ n)%nat.
Proof.
  revert n t; induction p as [a|e k IH]; intros n t Hb Hr; simpl in *.
  - destruct Hr as [-> _]. simpl. lia.
  - destruct n as [|n]; [done|]. destruct Hr as [[-> _]|(x & t' & -> & Hr)]; simpl; [lia|].
    specialize (IH x n t' (Hb x) Hr). lia.
Qed.
End Bounds.

(** Where every checked request has a permitted answer, every permitted run goes on to a result. *)
Lemma meets_completes {E : Type} {ans : E → Type} {S A : Type} (allowed : S → ∀ e, ans e → Prop) (check : S → E → Prop)
  (upd : S → ∀ e, ans e → S) (p : program E ans A) s Q t :
  (∀ s e, check s e → ∃ x, allowed s e x) → meets allowed check upd p s Q → runs p t None → permitted allowed upd s t →
  ∃ t' a, runs p (t ++ t') (Some a) ∧ permitted allowed upd s (t ++ t').
Proof.
  intros Hans. revert s t; induction p as [a|e k IH]; intros s t Hm Hr Hp; simpl in *.
  - destruct Hr as [-> _]. exists [], a. simpl. auto.
  - destruct Hm as [Hc Hm]. destruct Hr as [[-> _]|(x & t' & -> & Hr)].
    + destruct (Hans s e Hc) as [x Hx]. destruct (IH x (upd s e x) [] (Hm x Hx) (runs_stop _) I) as (t' & a & H1 & H2).
      exists (existT e x :: t'), a. simpl. split; [right; eauto|done].
    + destruct Hp as [Hx Hp]. destruct (IH x _ t' (Hm x Hx) Hr Hp) as (t2 & a & H1 & H2).
      exists t2, a. simpl. split; [right; eauto|done].
Qed.

(** ** Specifications of histories

    The state may be the history itself, with no assumption about the answers: then what is checked of
    a request is a statement about everything that was requested and answered before it. *)

Section Histories.
Context {E : Type} {ans : E → Type} {A : Type}.

Definition anything (t : history E ans) (e : E) (x : ans e) : Prop := True.
Definition record (t : history E ans) (e : E) (x : ans e) : history E ans := t ++ [existT e x].

Lemma after_record s t : after record s t = s ++ t.
Proof. revert s; induction t as [|[e x] t IH]; intros s; simpl; [by rewrite app_nil_r|]. rewrite IH. unfold record. by rewrite <- app_assoc. Qed.

Lemma permitted_anything s t : permitted anything record s t.
Proof. revert s; induction t as [|[e x] t IH]; intros s; simpl; [done|]. split; [done|apply IH]. Qed.

Lemma history_runs (check : history E ans → E → Prop) (p : program E ans A) Q t r :
  meets anything check record p [] Q → runs p t r →
  (∀ t1 e x t2, t = t1 ++ existT e x :: t2 → check t1 e) ∧ (∀ a, r = Some a → Q a t).
Proof.
  intros Hm Hr. destruct (meets_runs _ _ _ _ _ _ _ _ Hm Hr (permitted_anything [] t)) as [H1 H2]. split.
  - intros t1 e x t2 Et. specialize (H1 t1 e x t2 Et). by rewrite after_record in H1.
  - intros a Ha. specialize (H2 a Ha). by rewrite after_record in H2.
Qed.

Lemma history_completes (check : history E ans → E → Prop) (p : program E ans A) Q t r :
  (∀ t e, check t e → Inhabited (ans e)) → meets anything check record p [] Q → runs p t r →
  ∃ t' a, runs p (t ++ t') (Some a).
Proof.
  intros Hans Hm Hr. destruct r as [a|]; [exists [], a; by rewrite app_nil_r|].
  destruct (meets_completes anything check record p [] Q t) as (t' & a & H & _); eauto using permitted_anything.
  intros s e He. destruct (Hans s e He) as [x]. by exists x.
Qed.
End Histories.

(** ** Programs that make the same requests

    Equality up to the continuations, which are compared answer by answer. *)

Section Equivalence.
Context {E : Type} {ans : E → Type}.

Inductive prog_eq {A} : program E ans A → program E ans A → Prop :=
| prog_eq_ret a : prog_eq (Ret a) (Ret a)
| prog_eq_vis e k k' : (∀ x, prog_eq (k x) (k' x)) → prog_eq (Vis e k) (Vis e k').

#[export] Instance prog_equiv {A} : Equiv (program E ans A) := prog_eq.

#[export] Instance prog_eq_equivalence {A} : Equivalence (≡@{program E ans A}).
Proof.
  split.
  - intros p. induction p as [a|e k IH]; constructor; exact IH.
  - intros p q H. induction H as [a|e k k' _ IH]; constructor; exact IH.
  - intros p q r H. revert r. induction H as [a|e k k' _ IH]; intros r Hr; [exact Hr|].
    remember (Vis e k') as q eqn:Eq. destruct Hr as [b|e2 k2 k3 Hk]; [discriminate|].
    revert k3 Hk. refine (match Eq in _ = y return match y with Vis e k' => ∀ k, (∀ x r, prog_eq (k' x) r → prog_eq (k x) r) → _ | Ret _ => True end with eq_refl => _ end k IH).
    intros k0 H0 k3 Hk. constructor. intros x. by apply H0.
Qed.

#[export] Instance prog_bind_proper {A B} (f : A → program E ans B) : Proper ((≡) ==> (≡)) (λ p : program E ans A, p ≫= f).
Proof. intros p q H. induction H as [a|e k k' _ IH]; [reflexivity|]. constructor. exact IH. Qed.

Lemma prog_bind_ext {A B} (f g : A → program E ans B) (p : program E ans A) : (∀ a, f a ≡ g a) → (p ≫= f) ≡ (p ≫= g).
Proof. intros H. induction p as [a|e k IH]; [apply H|]. constructor. exact IH. Qed.

Lemma prog_bind_assoc {A B C} (f : A → program E ans B) (g : B → program E ans C) (p : program E ans A) :
  ((p ≫= f) ≫= g) ≡ (p ≫= λ a, f a ≫= g).
Proof. induction p as [a|e k IH]; [reflexivity|]. constructor. exact IH. Qed.

Lemma prog_bind_ret {A} (p : program E ans A) : (p ≫= λ a, Ret a) ≡ p.
Proof. induction p as [a|e k IH]; [reflexivity|]. constructor. exact IH. Qed.

(** Equivalent programs have the same runs. *)
Lemma prog_eq_runs {A} (p q : program E ans A) t r : p ≡ q → runs p t r → runs q t r.
Proof.
  intros H. revert t. induction H as [a|e k k' _ IH]; intros t; [done|]. intros [Hn|(x & t' & -> & Hr)]; [by left|]. right. eauto.
Qed.
End Equivalence.
