(* ===== verification/Azure.v ===== *)
(** * The Azure SDK

    What the adapters see of a failed request. *)

From S2P Require Import Prelude.

(** An SDK error as the code tells them apart: an HTTP status, a context that ended, anything else. *)
Inductive azure_error : Type :=
| AzStatus (status : Z)
| AzCanceled
| AzDeadlineExceeded
| AzOther.
