(* ===== verification/Effects.v ===== *)
(** * Effectful code

    The distribution worker talks to a clock, two Blob containers, a mail provider and an audit
    log. Its code is modelled as programs over those effects: a tree of requests with one
    continuation per answer (Program). This file holds the requests and answers, and the interfaces
    [BlobStore], [ReceiptStore] and [Mailer] of worker.go. *)

From S2P Require Import Prelude Utf8 GoStrings GoTime Program Azure Contracts Receipt.

(** ** Data of worker.go *)

(** [MailOutcome], a Go string type. *)
Definition MailAccepted : gostring := lit "ACCEPTED".
Definition MailSimulated : gostring := lit "SIMULATED".
Definition MailRetryable : gostring := lit "RETRYABLE".
Definition MailPermanent : gostring := lit "PERMANENT_FAILURE".
Definition MailUnknown : gostring := lit "UNKNOWN".

Record MailResult : Type := mkMailResult {
  mr_Outcome : gostring; mr_HTTPStatus : Z; mr_RequestID : gostring; mr_ReasonCode : gostring; mr_RetryAfter : Z }.

Record Notification : Type := mkNotification {
  n_OperationID : gostring; n_ReleaseID : gostring; n_ReleaseVersion : gostring; n_RecipientID : gostring;
  n_FirstName : gostring; n_LastName : gostring; n_Email : gostring; n_ApplicationURL : gostring }.

Record AuditEvent : Type := mkAuditEvent {
  ae_EventName : gostring; ae_OccurredAt : gostring; ae_OperationID : gostring; ae_ReleaseID : gostring;
  ae_ReleaseVersion : gostring; ae_RecipientID : gostring; ae_HMACKeyVersion : gostring;
  ae_QueueMessageID : gostring; ae_Provider : gostring; ae_ReceiptStatus : gostring;
  ae_ReceiptStateVersion : Z; ae_AttemptCount : Z; ae_ProviderHTTPStatus : Z; ae_ReasonCode : gostring }.

Record StoredReceipt : Type := mkStored { st_Receipt : Receipt; st_ETag : gostring }.

(** ** Requests to the storage service *)

(** Preconditions of an upload. *)
Inductive condition : Type :=
| IfNoneMatchStar
| IfMatch (etag : gostring).

(** The response of a receipt download. Metadata is listed in the order a Go map range visits it. *)
Record receipt_response : Type := mkReceiptResponse {
  rr_Body : Reader; rr_ContentLength : option Z; rr_ETag : option gostring;
  rr_Metadata : list (gostring * option gostring) }.

(** The response of a versioned Blob download. *)
Record blob_response : Type := mkBlobResponse {
  br_Body : option Reader; br_ContentLength : option Z; br_ResponseVersion : option gostring }.

Inductive blob_answer : Type :=
| BlobURLError
| BlobError (e : azure_error)
| BlobResponse (r : blob_response).

Inductive event : Type :=
| EClock
| EDownloadReceipt (path : gostring)
| EUploadReceipt (path body contentType : gostring) (metadata : list (gostring * gostring)) (cond : condition)
| EDownloadBlob (container name version : gostring)
| ESend (n : Notification)
| EAudit (a : AuditEvent)
(** A Go run-time panic: there is no answer. *)
| EPanic.

Definition answer (e : event) : Type :=
  match e with
  | EClock => Time
  | EDownloadReceipt _ => result azure_error receipt_response
  | EUploadReceipt _ _ _ _ _ => result azure_error unit
  | EDownloadBlob _ _ _ => blob_answer
  | ESend _ => MailResult
  | EAudit _ => unit
  | EPanic => Empty_set
  end.

(** ** Programs over these requests *)

Abbreviation prog := (program event answer).
Abbreviation trace := (history event answer).

Definition trigger (e : event) : prog (answer e) := perform e.

Definition panic {A} : prog A := Vis EPanic (λ x : answer EPanic, match x with end).

(** ** Interfaces of worker.go *)

Class BlobStore : Type := {
  ReadSmall : BlobReference → Z → prog (result error gostring);
  Verify : BlobReference → prog (result error unit);
  Open : BlobReference → prog (result error Reader) }.

(** [Get] answers [None] when the receipt does not exist. *)
Class ReceiptStore : Type := {
  Get : gostring → prog (result error (option StoredReceipt));
  Create : gostring → Receipt → prog (result error StoredReceipt);
  Replace : gostring → gostring → Receipt → prog (result error StoredReceipt) }.

Class Mailer : Type := { Send : Notification → prog MailResult }.
