(* ===== verification/Worker.v ===== *)
(** * internal/distribution/worker.go

    The worker: it validates a queue message and everything it references, then drives the receipt
    state machine of each recipient around the mail effect. Programs are written against the
    interfaces [BlobStore], [ReceiptStore] and [Mailer]. *)

From S2P Require Import Prelude Utf8 GoStrings Regex GoTime StrictJson Sha256 Contracts Receipt Program Azure Effects.

(** ** Options and results *)

(** [Disposition], a Go string type. *)
Definition Complete : gostring := lit "COMPLETE".
Definition Abandon : gostring := lit "ABANDON".
Definition DeadLetter : gostring := lit "DEAD_LETTER".

Record ProcessResult : Type := mkProcessResult {
  p_Disposition : gostring; p_ReasonCode : gostring; p_ProcessedCount : Z; p_SkippedCount : Z; p_RetryAfter : Z }.

(** A result with a disposition, a reason and a delay. *)
Definition result_of (disposition reason : gostring) (retryAfter : Z) : ProcessResult :=
  mkProcessResult disposition reason 0 0 retryAfter.

(** [WorkerOptions]; the interface fields are arguments of the programs, here only whether they are
    set. *)
Record WorkerOptions : Type := mkOptions {
  wo_Blobs : bool; wo_Receipts : bool; wo_Mailer : bool; wo_Auditor : bool;
  wo_HMACKey : gostring; wo_HMACKeyVersion : gostring; wo_Provider : gostring; wo_Clock : bool;
  wo_MaxAttempts : Z; wo_ClaimTimeout : Z }.

(** [NewWorker]; [None] is its panic. *)
Definition NewWorker (o : WorkerOptions) : option WorkerOptions :=
  if negb (wo_Blobs o) || negb (wo_Receipts o) || negb (wo_Mailer o) ||
     (len (wo_HMACKey o) <? 32) || (64 <? len (wo_HMACKey o)) ||
     negb (match_string versionLabelPattern (wo_HMACKeyVersion o)) ||
     (negb (wo_Provider o =s lit "stub") && negb (wo_Provider o =s lit "sendgrid")) ||
     negb (wo_Clock o) || (wo_MaxAttempts o <? 1) || (5 <? wo_MaxAttempts o) || (wo_ClaimTimeout o <=? 0)
  then None else Some o.

(** ** Delays *)

Definition boundedDelay (value : Z) : Z :=
  if value <? Second then Second else if 300 * Second <? value then 300 * Second else value.

(** [1 << n] on a 64-bit [int]. *)
Definition shl1 (n : Z) : Z := if 64 <=? n then 0 else wrap64 (2 ^ n).

(** [retryDelay]; [None] is the panic of slicing a recipient identifier shorter than eight bytes. *)
Definition retryDelay (r : Receipt) (result : MailResult) : option Z :=
  let exponential := wrap64 (Second * shl1 (Z.max (wrap64 (AttemptCount r - 1)) 0)) in
  let base := Z.max (mr_RetryAfter result) exponential in
  let base := if base <? Second then Second else base in
  let base := if 300 * Second <? base then 300 * Second else base in
  let jitterRange := Z.min (Z.max (Z.quot base 4) Second) (10 * Second) in
  let jitterSlots := Z.quot jitterRange Second + 1 in
  if len (RecipientID r) <? 8 then None else
  let jitterSeed := fold_left (λ seed c, Z.land (wrap64 (seed * 33 + code c)) (2 ^ 31 - 1)) (take 8 (RecipientID r)) 0 in
  Some (boundedDelay (wrap64 (base + Z.rem jitterSeed jitterSlots * Second))).

Definition activeDelay (o : WorkerOptions) (r : Receipt) (now : Time) : Z :=
  let anchor := if Status r =s ReceiptSendStarted then SendStartedAt r else ClaimedAt r in
  match anchor with
  | None => Second
  | Some text =>
    match parseTime text with
    | Err _ => Second
    | Ok started => boundedDelay (wrap64 (wo_ClaimTimeout o - time_sub now started))
    end
  end.

(** ** Recording a mail result *)

Definition updatedOrZero (r : result error Receipt) : Receipt :=
  match r with Ok r => r | Err _ => zeroReceipt end.

Definition nonempty_or (s fallback : gostring) : gostring := if s =s [] then fallback else s.

Definition applyMailResult (r : Receipt) (result : MailResult) (now : Time) :
  option (Receipt * gostring * gostring * Z) :=
  if mr_Outcome result =s MailAccepted then
    Some (updatedOrZero (Accept r now (mr_HTTPStatus result) (mr_RequestID result)), Complete, [], 0)
  else if mr_Outcome result =s MailSimulated then
    Some (updatedOrZero (Simulate r now (mr_HTTPStatus result) (mr_RequestID result)), Complete, [], 0)
  else if mr_Outcome result =s MailRetryable then
    delay ← retryDelay r result;
    let reason := nonempty_or (mr_ReasonCode result) (lit "PROVIDER_RETRYABLE") in
    Some (updatedOrZero (Retry r now (mr_HTTPStatus result) reason (time_add now delay)), Abandon, reason, delay)
  else if mr_Outcome result =s MailPermanent then
    let reason := nonempty_or (mr_ReasonCode result) (lit "PROVIDER_REJECTED") in
    Some (updatedOrZero (Fail r now (mr_HTTPStatus result) reason), DeadLetter, reason, 0)
  else
    let reason := nonempty_or (mr_ReasonCode result) (lit "PROVIDER_OUTCOME_UNKNOWN") in
    Some (updatedOrZero (MarkUnknown r now reason), DeadLetter, reason, 0).

(** ** Matching documents *)

Definition manifestMatchesMessage (manifest : PublishedManifest) (message : QueueMessage) : bool :=
  (pm_OperationID manifest =s qm_OperationID message) && (pm_ReleaseID manifest =s qm_ReleaseID message) &&
  (pm_ReleaseVersion manifest =s qm_ReleaseVersion message) &&
  (pm_SourceCommitSHA manifest =s qm_SourceCommitSHA message).

Definition receiptMatches (r : Receipt) (message : QueueMessage) (recipientID : gostring) : bool :=
  (OperationID r =s qm_OperationID message) && (ReleaseID r =s qm_ReleaseID message) &&
  (ReleaseVersion r =s qm_ReleaseVersion message) && (RecipientID r =s recipientID) &&
  (QueueMessageID r =s qm_MessageID message) && negb (HMACKeyVersion r =s []).

Definition receiptReason (r : Receipt) (fallback : gostring) : gostring :=
  match ReasonCode r with Some c => c | None => fallback end.

(** ** Rows of a batch *)

(** [bufio.ScanLines] drops one carriage return at the end of a line. *)
Definition dropCR (line : gostring) : gostring :=
  match rev line with
  | c :: t => if code c =? 13 then rev t else line
  | [] => []
  end.

Definition newline : ascii := byte 10.

(** The lines a [bufio.Scanner] with a buffer of 1024 bytes delivers, and whether it ends without an
    error: a line with its newline fits the buffer, a last line without one is shorter than it, and
    the lines before a read error are delivered like the last ones before the end of file. *)
Fixpoint scan_lines (fuel : nat) (data : gostring) (err : option error) : list gostring * bool :=
  match fuel with
  | O => ([], false)
  | S f =>
    match data with
    | [] => ([], bool_decide (err = None))
    | _ =>
      match cut_byte newline data with
      | (line, Some rest) =>
        if len line + 1 <=? 1024 then
          let '(rows, ok) := scan_lines f rest err in (dropCR line :: rows, ok)
        else ([], false)
      | (line, None) =>
        if len line <? 1024 then ([dropCR line], bool_decide (err = None)) else ([], false)
      end
    end
  end.

Definition scanner (r : Reader) : list gostring * bool := scan_lines (S (length (rd_data r))) (rd_data r) (rd_err r).

(** The last byte the reader delivered, zero when there is none. *)
Definition last_byte (r : Reader) : ascii := List.last (rd_data r) (byte 0).

Section Rows.
Context {S : Type}.

(** The loop of [scanRecipientRows]: [process] threads a state and may stop with an error. *)
Fixpoint scan_loop (process : S → Recipient → prog (S * option error)) (rows : list gostring) (count : Z) (s : S) :
  prog (S * (Z + error)) :=
  match rows with
  | [] => Ret (s, inl count)
  | raw :: rows' =>
    if len raw =? 0 then Ret (s, inr ErrContract)
    else match ParseRecipient raw with
    | Err e => Ret (s, inr e)
    | Ok recipient =>
      '(s, err) ← process s recipient;
      match err with
      | Some e => Ret (s, inr e)
      | None => scan_loop process rows' (count + 1) s
      end
    end
  end.

Definition scanRecipientRows (reader : Reader) (process : S → Recipient → prog (S * option error)) (s : S) :
  prog (S * option error) :=
  let '(rows, ok) := scanner reader in
  '(s, r) ← scan_loop process rows 0 s;
  match r with
  | inr e => Ret (s, Some e)
  | inl count =>
    if negb ok || (count =? 0) || negb (Ascii.eqb (last_byte reader) newline) then Ret (s, Some ErrContract)
    else Ret (s, None)
  end.
End Rows.

(** ** The worker *)

Section Worker.
Context `{Blobs : BlobStore} `{Receipts : ReceiptStore} `{Mail : Mailer}.
Variable o : WorkerOptions.

(** [audit]; without an auditor the event is discarded. *)
Definition audit (eventName : gostring) (r : Receipt) : prog unit :=
  let reason := match ReasonCode r with Some c => c | None => [] end in
  let httpStatus := match ProviderHTTPStatus r with Some s => s | None => 0 end in
  if wo_Auditor o then
    trigger (EAudit (mkAuditEvent eventName (UpdatedAt r) (OperationID r) (ReleaseID r) (ReleaseVersion r)
      (RecipientID r) (HMACKeyVersion r) (QueueMessageID r) (Provider r) (Status r) (StateVersion r)
      (AttemptCount r) httpStatus reason))
  else Ret tt.

(** The identifier of a recipient and the path of its receipt. *)
Definition recipient_id (email : gostring) : gostring := hex_encode (hmac_sha256 (wo_HMACKey o) email).
Definition receipt_path (releaseID operationID recipientID : gostring) : gostring :=
  releaseID ++ lit "/" ++ operationID ++ lit "/" ++ wo_HMACKeyVersion o ++ lit "/" ++ recipientID ++ lit ".json".

Definition abandon (reason : gostring) : option ProcessResult := Some (result_of Abandon reason Second).
Definition dead_letter (reason : gostring) : option ProcessResult := Some (result_of DeadLetter reason 0).

(** The end of [processRecipient], from [StartSend] on: lines 324 to 352. *)
Definition send_and_record (message : QueueMessage) (recipient : Recipient) (recipientID path : gostring)
  (now : Time) (stored : StoredReceipt) : prog (option ProcessResult) :=
  match StartSend (st_Receipt stored) now with
  | Err _ => Ret (abandon (lit "RECEIPT_CONFLICT"))
  | Ok started =>
    r ← Replace path (st_ETag stored) started;
    match r with
    | Err _ => Ret (abandon (lit "RECEIPT_CONFLICT"))
    | Ok stored =>
      _ ← audit (lit "dar.notification.send_started") (st_Receipt stored);
      mailResult ← Send (mkNotification (qm_OperationID message) (qm_ReleaseID message) (qm_ReleaseVersion message)
        recipientID (rc_FirstName recipient) (rc_LastName recipient) (rc_Email recipient)
        (qm_ApplicationURL message));
      match applyMailResult (st_Receipt stored) mailResult now with
      | None => panic
      | Some (updated, disposition, reason, retryAfter) =>
        if Status updated =s [] then Ret (dead_letter (lit "PROVIDER_PROTOCOL_UNKNOWN"))
        else
          r ← Replace path (st_ETag stored) updated;
          match r with
          | Err _ => Ret (dead_letter (lit "RECEIPT_COMMIT_UNKNOWN"))
          | Ok stored =>
            let eventName :=
              if Status (st_Receipt stored) =s ReceiptRetryable
              then lit "dar.notification.retry_scheduled" else lit "dar.notification.terminal" in
            _ ← audit eventName (st_Receipt stored);
            Ret (Some (result_of disposition reason retryAfter))
          end
      end
    end
  end.

(** The case of a RETRYABLE receipt: lines 272 to 302. *)
Definition retry_receipt (message : QueueMessage) (recipient : Recipient) (recipientID path : gostring)
  (now : Time) (stored : StoredReceipt) : prog (option ProcessResult) :=
  let receipt := st_Receipt stored in
  if wo_MaxAttempts o <=? AttemptCount receipt then
    match Exhaust receipt now with
    | Err _ => Ret (dead_letter (lit "RECEIPT_CONFLICT"))
    | Ok exhausted =>
      r ← Replace path (st_ETag stored) exhausted;
      match r with
      | Err _ => Ret (abandon (lit "RECEIPT_CONFLICT"))
      | Ok stored =>
        _ ← audit (lit "dar.notification.terminal") (st_Receipt stored);
        Ret (dead_letter (lit "RETRY_BUDGET_EXHAUSTED"))
      end
    end
  else
    let reclaim :=
      match Reclaim receipt now (wo_MaxAttempts o) with
      | Err _ => Ret (abandon (lit "RECEIPT_CONFLICT"))
      | Ok reclaimed =>
        r ← Replace path (st_ETag stored) reclaimed;
        match r with
        | Err _ => Ret (abandon (lit "RECEIPT_CONFLICT"))
        | Ok stored => send_and_record message recipient recipientID path now stored
        end
      end in
    match NextAttemptAt receipt with
    | None => reclaim
    | Some text =>
      match parseTime text with
      | Err _ => Ret (dead_letter (lit "RECEIPT_CONFLICT"))
      | Ok next =>
        if time_before now next
        then Ret (Some (result_of Abandon (lit "RETRY_NOT_DUE") (boundedDelay (time_sub next now))))
        else reclaim
      end
    end.

(** The case of a CLAIMED or SEND_STARTED receipt this delivery does not own: lines 305 to 318. *)
Definition recover_receipt (message : QueueMessage) (recipient : Recipient) (recipientID path : gostring)
  (now : Time) (stored : StoredReceipt) : prog (option ProcessResult) :=
  match RecoverStale (st_Receipt stored) now (wo_ClaimTimeout o) (wo_MaxAttempts o) with
  | Err _ => Ret (Some (result_of Abandon (lit "ACTIVE_RECEIPT") (activeDelay o (st_Receipt stored) now)))
  | Ok recovered =>
    r ← Replace path (st_ETag stored) recovered;
    match r with
    | Err _ => Ret (abandon (lit "RECEIPT_CONFLICT"))
    | Ok stored =>
      if Status (st_Receipt stored) =s ReceiptUnknown then
        _ ← audit (lit "dar.notification.terminal") (st_Receipt stored);
        Ret (dead_letter (receiptReason (st_Receipt stored) (lit "STALE_SEND_OUTCOME")))
      else send_and_record message recipient recipientID path now stored
    end
  end.

(** The switch on the stored status: lines 264 to 322. *)
Definition dispatch_receipt (message : QueueMessage) (recipient : Recipient) (recipientID path : gostring)
  (now : Time) (stored : StoredReceipt) (ownedClaim : bool) : prog (option ProcessResult) :=
  let status := Status (st_Receipt stored) in
  if negb (receiptMatches (st_Receipt stored) message recipientID) then
    Ret (dead_letter (lit "RECEIPT_CONFLICT"))
  else if (status =s ReceiptAccepted) || (status =s ReceiptSimulated) then Ret None
  else if (status =s ReceiptFailed) || (status =s ReceiptUnknown) then
    Ret (dead_letter (receiptReason (st_Receipt stored) (lit "TERMINAL_NOTIFICATION_FAILURE")))
  else if status =s ReceiptRetryable then retry_receipt message recipient recipientID path now stored
  else if (status =s ReceiptClaimed) || (status =s ReceiptSendStarted) then
    if ownedClaim then send_and_record message recipient recipientID path now stored
    else recover_receipt message recipient recipientID path now stored
  else Ret (dead_letter (lit "RECEIPT_CONFLICT")).

(** [processRecipient]; [None] is its nil result: the recipient was notified before. *)
Definition processRecipient (message : QueueMessage) (recipient : Recipient) : prog (option ProcessResult) :=
  clock ← trigger EClock;
  let now := time_utc clock in
  let recipientID := recipient_id (rc_Email recipient) in
  let path := receipt_path (qm_ReleaseID message) (qm_OperationID message) recipientID in
  got ← Get path;
  match got with
  | Err _ => Ret (abandon (lit "RECEIPT_UNAVAILABLE"))
  | Ok (Some stored) => dispatch_receipt message recipient recipientID path now stored false
  | Ok None =>
    match ClaimReceipt (mkIntent (qm_OperationID message) (qm_ReleaseID message) (qm_ReleaseVersion message)
            recipientID (wo_HMACKeyVersion o) (wo_Provider o) (qm_MessageID message)) now with
    | Err _ => Ret (dead_letter (lit "RECEIPT_CONFLICT"))
    | Ok claimed =>
      created ← Create path claimed;
      match created with
      | Ok stored => dispatch_receipt message recipient recipientID path now stored true
      | Err ErrReceiptConflict =>
        got ← Get path;
        match got with
        | Ok (Some stored) => dispatch_receipt message recipient recipientID path now stored false
        | _ => Ret (abandon (lit "RECEIPT_CONFLICT"))
        end
      | Err _ => Ret (abandon (lit "RECEIPT_UNAVAILABLE"))
      end
    end
  end.

(** [validateBatch]. *)
Definition validateBatch (reference : BlobReference) (expectedCount : Z) : prog (result error unit) :=
  opened ← Open reference;
  match opened with
  | Err e => Ret (Err e)
  | Ok reader =>
    '(count, err) ← scanRecipientRows reader (λ count _, Ret (count + 1, None)) 0;
    if bool_decide (err ≠ None) || negb (count =? expectedCount) then Ret (Err ErrContract) else Ret (Ok tt)
  end.

(** The errors after which a delivery is retried. *)
Definition transient (e : error) : bool :=
  match e with ErrDependency | ErrCanceled | ErrDeadlineExceeded => true | _ => false end.

Definition blob_failure (e : error) : ProcessResult :=
  if transient e then result_of Abandon (lit "BLOB_UNAVAILABLE") Second
  else result_of DeadLetter (lit "REFERENCED_BLOB_INVALID") 0.

(** The callback of the second scan: lines 187 to 201. *)
Definition process_row (message : QueueMessage) (result : ProcessResult) (recipient : Recipient) :
  prog (ProcessResult * option error) :=
  r ← processRecipient message recipient;
  match r with
  | None =>
    Ret (mkProcessResult (p_Disposition result) (p_ReasonCode result) (p_ProcessedCount result)
           (p_SkippedCount result + 1) (p_RetryAfter result), None)
  | Some recipientResult =>
    let processed := p_ProcessedCount result + 1 in
    if negb (p_Disposition recipientResult =s Complete) then
      Ret (mkProcessResult (p_Disposition recipientResult) (p_ReasonCode recipientResult) processed
             (p_SkippedCount result) (p_RetryAfter recipientResult), Some errStopBatch)
    else
      Ret (mkProcessResult (p_Disposition result) (p_ReasonCode result) processed (p_SkippedCount result)
             (p_RetryAfter result), None)
  end.

(** The part of [Process] after the batch was validated: lines 181 to 208. *)
Definition process_batch (message : QueueMessage) : prog ProcessResult :=
  opened ← Open (Reference (qm_RecipientBatch message));
  match opened with
  | Err _ => Ret (result_of Abandon (lit "BLOB_UNAVAILABLE") Second)
  | Ok reader =>
    '(result, err) ← scanRecipientRows reader (process_row message) (result_of Complete [] 0);
    match err with
    | Some errStopBatch => Ret result
    | Some _ => Ret (result_of DeadLetter (lit "REFERENCED_BLOB_INVALID") 0)
    | None => Ret result
    end
  end.

(** [Process]. *)
Definition Process (brokerMessageID body : gostring) : prog ProcessResult :=
  match ParseQueueMessage body brokerMessageID with
  | Err _ => Ret (result_of DeadLetter (lit "MESSAGE_INVALID") 0)
  | Ok message =>
    manifestBody ← ReadSmall (qm_Manifest message) maxManifestBytes;
    match manifestBody with
    | Err e => Ret (blob_failure e)
    | Ok manifestBody =>
      match ParsePublishedManifest manifestBody with
      | Err _ => Ret (result_of DeadLetter (lit "REFERENCED_BLOB_INVALID") 0)
      | Ok manifest =>
        if negb (manifestMatchesMessage manifest message)
        then Ret (result_of DeadLetter (lit "REFERENCED_BLOB_INVALID") 0)
        else
          let batchReference := Reference (qm_RecipientBatch message) in
          verified ← Verify batchReference;
          match verified with
          | Err e => Ret (blob_failure e)
          | Ok _ =>
            validated ← validateBatch batchReference (bt_RecipientCount (qm_RecipientBatch message));
            match validated with
            | Err _ => Ret (result_of DeadLetter (lit "REFERENCED_BLOB_INVALID") 0)
            | Ok _ => process_batch message
            end
          end
      end
    end
  end.
End Worker.

(** ** Retry delays *)

(** The jitter seed stays a non-negative 31-bit number, and the jitter below eleven seconds. *)
Lemma jitter_range seed slots : 0 ≤ seed → 1 < slots ≤ 11 → 0 ≤ Z.rem seed slots < 11.
Proof. intros Hs Hl. pose proof (Z.rem_bound_pos seed slots Hs ltac:(lia)). lia. Qed.

Lemma seed_nonneg s : ∀ seed, 0 ≤ seed → 0 ≤ fold_left (λ seed c, Z.land (wrap64 (seed * 33 + code c)) (2 ^ 31 - 1)) s seed.
Proof.
  induction s as [|c s IH]; intros seed Hs; cbn [fold_left]; [done|]. apply IH, Z.land_nonneg. lia.
Qed.

(** The delay before a retry is between one second and five minutes, and not shorter than what
    the provider asked for, up to that limit. *)
Lemma retryDelay_bounds r result :
  int64_range (mr_RetryAfter result) → 8 ≤ len (RecipientID r) →
  ∃ delay, retryDelay r result = Some delay ∧ Second ≤ delay ≤ 300 * Second ∧
           Z.min (mr_RetryAfter result) (300 * Second) ≤ delay.
Proof.
  intros Hra Hlen. unfold retryDelay. rewrite (proj2 (Z.ltb_ge _ _) Hlen).
  cbv beta zeta. set (exponential := wrap64 (Second * shl1 (Z.max (wrap64 (AttemptCount r - 1)) 0))).
  set (b0 := Z.max (mr_RetryAfter result) exponential).
  set (b1 := if b0 <? Second then Second else b0). set (base := if 300 * Second <? b1 then 300 * Second else b1).
  assert (Hb : Second ≤ base ≤ 300 * Second ∧ Z.min (mr_RetryAfter result) (300 * Second) ≤ base).
  { unfold base, b1, b0, Second. destruct (Z.ltb_spec (Z.max (mr_RetryAfter result) exponential) 1000000000);
      destruct (Z.ltb_spec (300 * 1000000000) 1000000000); try lia;
      destruct (Z.ltb_spec (300 * 1000000000) (Z.max (mr_RetryAfter result) exponential)); lia. }
  assert (Hslots : 1 < Z.quot (Z.min (Z.max (Z.quot base 4) Second) (10 * Second)) Second + 1 ≤ 11).
  { unfold Second in *. set (m := Z.min _ _). assert (1000000000 ≤ m ≤ 10 * 1000000000) by lia.
    rewrite Z.quot_div_nonneg by lia. pose proof (Z.div_le_mono 1000000000 m 1000000000 ltac:(lia) ltac:(lia)).
    pose proof (Z.div_le_mono m (10 * 1000000000) 1000000000 ltac:(lia) ltac:(lia)).
    rewrite Z.div_same in * by lia. rewrite Z.div_mul in * by lia. lia. }
  eexists. split; [reflexivity|]. set (jitter := Z.rem _ _).
  assert (Hj : 0 ≤ jitter < 11) by (apply jitter_range; [by apply seed_nonneg|done]).
  unfold Second in *. rewrite wrap64_small by (unfold int64_range; lia). unfold boundedDelay, Second.
  destruct (Z.ltb_spec (base + jitter * 1000000000) 1000000000); [lia|].
  destruct (Z.ltb_spec (300 * 1000000000) (base + jitter * 1000000000)); lia.
Qed.
