(* ===== verification/AzureStorage.v ===== *)
(** * internal/distribution/azure_storage.go

    The Azure implementations of the worker's [BlobStore] and [ReceiptStore] interfaces, over raw
    storage requests. *)

From S2P Require Import Prelude Utf8 GoStrings Regex StrictJson Sha256 Contracts Receipt Program Azure Effects.

(** [azureStatus]: zero for an error that is not an HTTP response. *)
Definition azureStatus (e : azure_error) : Z := match e with AzStatus s => s | _ => 0 end.

Definition sanitizeAzureError (e : azure_error) : error :=
  match e with
  | AzCanceled => ErrCanceled
  | AzDeadlineExceeded => ErrDeadlineExceeded
  | _ =>
    let status := azureStatus e in
    if (status =? 400) || (status =? 404) || (status =? 409) || (status =? 412) then ErrContract else ErrDependency
  end.

(** ** Blob containers *)

(** [validContainer] of config.go. *)
Definition validContainer (value : gostring) : bool :=
  match_string containerPattern value && negb (contains (lit "--") value).

(** [NewAzureBlobStore]: the set of containers that may be read. *)
Definition NewAzureBlobStore (serviceClient : bool) (allowedContainers : list gostring) :
  result error (list gostring) :=
  if negb serviceClient || (len allowedContainers =? 0) then Err ErrContract
  else if forallb validContainer allowedContainers then Ok allowedContainers else Err ErrContract.

Section AzureBlobStore.
Variable allowed : list gostring.

(** [download]: the response body of one exact version, of the length the reference names. *)
Definition download (r : BlobReference) : prog (result error Reader) :=
  if negb (blob_valid r) then Ret (Err ErrContract)
  else if negb (existsb (str_eqb (br_Container r)) allowed) then Ret (Err ErrContract)
  else
    response ← trigger (EDownloadBlob (br_Container r) (br_Name r) (br_VersionID r));
    match response with
    | BlobURLError => Ret (Err ErrContract)
    | BlobError e => Ret (Err (sanitizeAzureError e))
    | BlobResponse response =>
      match br_Body response, br_ContentLength response, br_ResponseVersion response with
      | Some body, Some n, Some version =>
        if negb (n =? br_Size r) || negb (version =s br_VersionID r) then Ret (Err ErrContract) else Ret (Ok body)
      | _, _, _ => Ret (Err ErrContract)
      end
    end.

Definition azure_ReadSmall (r : BlobReference) (maximum : Z) : prog (result error gostring) :=
  if negb (blob_valid r) || (maximum <? br_Size r) || (maximum <? 1) then Ret (Err ErrContract)
  else
    response ← download r;
    match response with
    | Err e => Ret (Err e)
    | Ok body =>
      match readBounded (Some body) maximum with
      | Err _ => Ret (Err ErrContract)
      | Ok content => if Matches r content then Ret (Ok content) else Ret (Err ErrContract)
      end
    end.

(** [Verify]: at most [Size + 1] bytes are hashed. *)
Definition azure_Verify (r : BlobReference) : prog (result error unit) :=
  response ← download r;
  match response with
  | Err e => Ret (Err e)
  | Ok body =>
    let limit := wrap64 (br_Size r + 1) in
    let content := take (Z.to_nat limit) (rd_data body) in
    let failed := bool_decide (rd_err body ≠ None) && (len (rd_data body) <? limit) in
    if failed || negb (len content =? br_Size r) || negb (sha256_hex content =s br_SHA256 r)
    then Ret (Err ErrContract) else Ret (Ok tt)
  end.

Definition azure_Open (r : BlobReference) : prog (result error Reader) := download r.
End AzureBlobStore.

Definition azure_blob_store (allowed : list gostring) : BlobStore := {|
  ReadSmall := azure_ReadSmall allowed;
  Verify := azure_Verify allowed;
  Open := azure_Open allowed |}.

(** ** Receipts *)

Fixpoint find_metadata (metadata : list (gostring * option gostring)) : option gostring :=
  match metadata with
  | [] => None
  | (name, candidate) :: rest => if equal_fold name (lit "sha256") then candidate else find_metadata rest
  end.

Definition metadataDigestMatches (metadata : list (gostring * option gostring)) (body : gostring) : bool :=
  match find_metadata metadata with
  | None => false
  | Some value => value =s sha256_hex body
  end.

Definition azure_Get (path : gostring) : prog (result error (option StoredReceipt)) :=
  if negb (validBlobName path) then Ret (Err ErrReceiptConflict)
  else
    response ← trigger (EDownloadReceipt path);
    match response with
    | Err e => if azureStatus e =? 404 then Ret (Ok None) else Ret (Err (sanitizeAzureError e))
    | Ok response =>
      match readBounded (Some (rr_Body response)) (32 * 1024), rr_ContentLength response, rr_ETag response with
      | Ok body, Some n, Some etag =>
        if negb (len body =? n) || negb (metadataDigestMatches (rr_Metadata response) body)
        then Ret (Err ErrReceiptConflict)
        else match ParseReceipt body with
             | Err e => Ret (Err e)
             | Ok receipt => Ret (Ok (Some (mkStored receipt etag)))
             end
      | _, _, _ => Ret (Err ErrReceiptConflict)
      end
    end.

Definition put (path : gostring) (receipt : Receipt) (cond : condition) : prog (result error StoredReceipt) :=
  if negb (validBlobName path) then Ret (Err ErrReceiptConflict)
  else match MarshalReceipt receipt with
  | Err e => Ret (Err e)
  | Ok body =>
    uploaded ← trigger (EUploadReceipt path body (lit "application/json") [(lit "sha256", sha256_hex body)] cond);
    match uploaded with
    | Err e =>
      let status := azureStatus e in
      if (status =? 409) || (status =? 412) then Ret (Err ErrReceiptConflict) else Ret (Err (sanitizeAzureError e))
    | Ok _ =>
      got ← azure_Get path;
      match got with
      | Ok (Some stored) =>
        if StateVersion (st_Receipt stored) =? StateVersion receipt then Ret (Ok stored)
        else Ret (Err ErrReceiptConflict)
      | _ => Ret (Err ErrReceiptConflict)
      end
    end
  end.

Definition azure_Create (path : gostring) (receipt : Receipt) : prog (result error StoredReceipt) :=
  put path receipt IfNoneMatchStar.

Definition azure_Replace (path etag : gostring) (receipt : Receipt) : prog (result error StoredReceipt) :=
  if etag =s [] then Ret (Err ErrReceiptConflict) else put path receipt (IfMatch etag).

(** [NewAzureReceiptStore] of a container client, here whether it is set. *)
Definition NewAzureReceiptStore (containerClient : bool) : result error unit :=
  if negb containerClient then Err ErrContract else Ok tt.

#[export] Instance azure_receipt_store : ReceiptStore := {|
  Get := azure_Get;
  Create := azure_Create;
  Replace := azure_Replace |}.

(** The mailer as one request; what it answers is the subject of Mail. *)
#[export] Instance event_mailer : Mailer := {| Send n := trigger (ESend n) |}.
