(* ===== verification/Protocol.v ===== *)
(** * The notification protocol under concurrency

    Any number of deliveries run [Process] at the same time against one receipt container; each may
    stop anywhere, requests may fail before or after they took effect, and storage answers may be
    cut short. This file models that system as interleaved steps, gives programs a weakest
    precondition over it, and proves what the receipts promise: the number of mails per recipient
    is bounded, a mail is only sent under its own committed SEND_STARTED, and a delivery that
    completes leaves a success receipt for every recipient of a verified batch. *)

From S2P Require Import Prelude Utf8 GoStrings Regex GoTime Json StrictJson Sha256 Contracts Receipt Program Azure Effects Worker AzureStorage.

(** ** The state a stored document stands for *)

Definition status_of (s : gostring) : option status :=
  if s =s ReceiptClaimed then Some Claimed
  else if s =s ReceiptSendStarted then Some SendStarted
  else if s =s ReceiptRetryable then Some Retryable
  else if s =s ReceiptAccepted then Some Accepted
  else if s =s ReceiptSimulated then Some Simulated
  else if s =s ReceiptFailed then Some Failed
  else if s =s ReceiptUnknown then Some Unknown
  else None.

Definition doc_state (raw : gostring) : option astate :=
  r ← (decode_struct raw (len raw) : option Receipt);
  s ← status_of (Status r);
  Some (mkAstate s (AttemptCount r) (StateVersion r)).

Lemma status_of_name s : status_of (status_name s) = Some s.
Proof. by destruct s. Qed.

(** The integers of a receipt fit their width. *)
Definition receipt_ints (r : Receipt) : Prop :=
  int64_range (AttemptCount r) ∧ int64_range (StateVersion r) ∧ opt_int (ProviderHTTPStatus r).

Lemma has_kind_receipt r : has_kind (to_gval r) kind_of ↔ receipt_ints r.
Proof. unfold receipt_ints, opt_int. cbn. destruct (ProviderHTTPStatus r); tauto. Qed.

Lemma doc_state_marshal r :
  validate r = true → receipt_ints r → ∃ st, abstracts r st ∧ doc_state (marshal_struct r) = Some st.
Proof.
  intros Hv Hi. destruct (validate_abstracts r Hv) as (st & Ha & _). exists st. split; [done|].
  unfold doc_state, decode_struct, marshal_struct.
  rewrite Decode_marshal; [|by apply has_kind_receipt|apply struct_kind_ok|apply struct_depth|done].
  destruct Ha as (Hs & Hn & Hver). cbn [mbind option_bind]. cbn [gval_sanitize to_gval receipt_struct map of_gval].
  cbn [mbind option_bind Status AttemptCount StateVersion]. rewrite Hs, sanitize_valid by (by destruct (a_status st)).
  rewrite status_of_name. cbn [mbind option_bind]. rewrite Hn, Hver. by destruct st.
Qed.

Lemma doc_state_parse raw r :
  ParseReceipt raw = Ok r → ∃ st, abstracts r st ∧ doc_state raw = Some st.
Proof.
  intros ([Hk _] & Hv & ->)%ParseReceipt_valid. apply doc_state_marshal; [done|]. by apply has_kind_receipt.
Qed.

Lemma abstracts_inj r a b : abstracts r a → abstracts r b → a = b.
Proof.
  intros (E1 & E2 & E3) (F1 & F2 & F3). destruct a, b; simpl in *.
  rewrite E1 in F1. apply status_name_inj in F1 as ->. congruence.
Qed.

(** A transition of a stored receipt, as documents. *)
Lemma transition_docs raw r op r' :
  ParseReceipt raw = Ok r → apply_op r op = Ok r' →
  ∃ st st', abstracts r st ∧ doc_state raw = Some st ∧ abstracts r' st' ∧ doc_state (marshal_struct r') = Some st' ∧
            astep st st' ∧ validate r' = true ∧ MarshalReceipt r' = Ok (marshal_struct r') ∧ a_version st' = StateVersion r'.
Proof.
  intros Hp Ho. destruct (doc_state_parse raw r Hp) as (st0 & Ha0 & Hd0).
  destruct (ParseReceipt_valid _ _ Hp) as (Hok & Hv & _).
  destruct (apply_op_moves r op r' Ho Hv) as (s & s' & n' & Hm & Hstep & _).
  destruct (moves_identity _ _ _ _ _ Hm) as [_ Hv'].
  destruct (moves_step _ _ _ _ _ Hm Hok Hv Hstep) as (st & st' & Ha & Ha' & Hst).
  rewrite (abstracts_inj _ _ _ Ha0 Ha) in *.
  assert (Hi : receipt_ints r').
  { destruct Hok as [Hk _]. apply has_kind_receipt in Hk as (_ & _ & Hh).
    pose proof (validate_spec r' Hv') as (_ & _ & _ & _ & Hn & _).
    destruct Hm as [(cl & nx & h & rq & rs & se & tm & up & -> & Hhh) _]. cbn [assign AttemptCount] in Hn.
    split; [unfold int64_range; cbn [assign AttemptCount]; lia|]. split; [apply wrap64_range|by apply Hhh]. }
  destruct (doc_state_marshal r' Hv' Hi) as (st1 & Ha1 & Hd1).
  rewrite (abstracts_inj _ _ _ Ha1 Ha') in *.
  exists st, st'. unfold MarshalReceipt. rewrite Hv'. split_and!; try done. by destruct Ha' as (? & ? & ?).
Qed.

(** ** Worlds *)

(** One successful conditional write. *)
Record commit : Type := mkCommit { c_path : gostring; c_etag : gostring; c_body : gostring }.

(** A right to send one mail: the receipt's path and the attempt it was started for. Tokens are
    bookkeeping: no step depends on them. *)
Abbreviation token := (option (gostring * Z)).

(** The receipt container with its history and the mails sent, newest first. *)
Record world : Type := mkWorld { w_log : list commit; w_mails : list (Notification * token) }.

Definition entries (w : world) (p : gostring) : list commit := List.filter (λ c, c_path c =s p) (w_log w).
Definition latest (w : world) (p : gostring) : option commit := head (entries w p).
Definition add_commit (w : world) (c : commit) : world := mkWorld (c :: w_log w) (w_mails w).
Definition add_mail (w : world) (n : Notification) (tok : token) : world := mkWorld (w_log w) ((n, tok) :: w_mails w).

Definition cond_holds (w : world) (p : gostring) (cond : condition) : Prop :=
  match cond with
  | IfNoneMatchStar => entries w p = []
  | IfMatch etag => ∃ c, latest w p = Some c ∧ c_etag c = etag
  end.

(** The token a successful write of a document gives. *)
Definition grant (p body : gostring) (tok : token) : token :=
  match doc_state body with
  | Some st => if decide (a_status st = SendStarted) then Some (p, a_attempts st) else tok
  | None => tok
  end.

(** Later worlds: receipts and mails are only added. *)
Definition ext (w w' : world) : Prop :=
  (∃ l, w_log w' = l ++ w_log w) ∧ (∃ m, w_mails w' = m ++ w_mails w).

Lemma ext_refl w : ext w w.
Proof. by split; exists []. Qed.

Lemma ext_trans w1 w2 w3 : ext w1 w2 → ext w2 w3 → ext w1 w3.
Proof.
  intros [[l1 H1] [m1 H2]] [[l2 H3] [m2 H4]]. split; [exists (l2 ++ l1)|exists (m2 ++ m1)];
    by rewrite <- app_assoc, <- ?H1, <- ?H2.
Qed.

Lemma ext_add_commit w c : ext w (add_commit w c).
Proof. split; [by exists [c]|by exists []]. Qed.

Lemma ext_add_mail w n tok : ext w (add_mail w n tok).
Proof. split; [by exists []|by exists [(n, tok)]]. Qed.

Lemma entries_ext w w' p c : ext w w' → c ∈ entries w p → c ∈ entries w' p.
Proof.
  intros [[l Hl] _]. unfold entries. rewrite Hl, List.filter_app, elem_of_app. auto.
Qed.

Lemma mails_ext w w' m : ext w w' → m ∈ w_mails w → m ∈ w_mails w'.
Proof. intros [_ [l Hl]]. rewrite Hl, elem_of_app. auto. Qed.

#[export] Hint Resolve ext_refl ext_add_commit ext_add_mail entries_ext mails_ext : go.

Lemma entries_add_commit w c p :
  entries (add_commit w c) p = if c_path c =s p then c :: entries w p else entries w p.
Proof. unfold entries. simpl. by destruct (c_path c =s p). Qed.

(** ** The history of one receipt *)

Section History.
Variable maxAttempts : Z.

(** Newest first: a claim, then steps of the receipt machine within the attempt limit. *)
Fixpoint chain (l : list commit) : Prop :=
  match l with
  | [] => True
  | c :: l' =>
    match l' with
    | [] => doc_state (c_body c) = Some (mkAstate Claimed 1 1)
    | c' :: _ =>
      ∃ st st', doc_state (c_body c') = Some st ∧ doc_state (c_body c) = Some st' ∧ astep st st' ∧
                a_attempts st' ≤ maxAttempts
    end ∧ chain l'
  end.

(** [st'] was the state before [st]. *)
Definition before (st' st : astate) : Prop :=
  a_version st' < a_version st ∧ a_attempts st' ≤ a_attempts st ∧
  (a_status st' = SendStarted → a_status st = SendStarted ∨ a_status st = Claimed →
   a_attempts st' < a_attempts st).

Lemma astep_before st1 st : astep st1 st → before st1 st.
Proof.
  unfold before. destruct 1; simpl; split_and!; try lia; intros Hs [Hs'|Hs']; subst; done || lia.
Qed.

Lemma before_astep st' st1 st : before st' st1 → astep st1 st → before st' st.
Proof.
  unfold before. intros (H1 & H2 & H3). destruct 1; simpl in *; split_and!; try lia;
    intros Hs [Hs'|Hs']; subst; try done; specialize (H3 Hs); naive_solver lia.
Qed.

Lemma chain_before c l st c' st' :
  chain (c :: l) → doc_state (c_body c) = Some st → c' ∈ l → doc_state (c_body c') = Some st' → before st' st.
Proof.
  revert c st. induction l as [|c1 l IH]; intros c st Hc Hst Hin Hst'; [set_solver|].
  destruct Hc as [(st1 & st2 & E1 & E2 & Hstep & _) Hc1]. simplify_eq.
  apply elem_of_cons in Hin as [->|Hin]; [simplify_eq; by apply astep_before|].
  eapply before_astep; [|done]. eapply IH; eauto.
Qed.

Lemma chain_state l c :
  1 ≤ maxAttempts → chain l → c ∈ l →
  ∃ st, doc_state (c_body c) = Some st ∧ a_attempts st ≤ maxAttempts ∧ 1 ≤ a_attempts st.
Proof.
  intros Hmax. revert c. induction l as [|c1 l IH]; intros c Hc Hin; [set_solver|].
  destruct Hc as [Hc Hl]. apply elem_of_cons in Hin as [->|Hin]; [|by apply IH].
  destruct l as [|c2 l]; [eexists; split; [done|]; simpl; lia|].
  destruct Hc as (st & st' & E1 & E2 & Hstep & Hm). exists st'. split; [done|]. split; [done|].
  destruct (IH c2 Hl ltac:(set_solver)) as (st0 & E0 & _ & H0). simplify_eq.
  apply astep_before in Hstep as (_ & ? & _). lia.
Qed.

(** The version of a document determines it. *)
Lemma chain_version l c c' st st' :
  chain l → c ∈ l → c' ∈ l → doc_state (c_body c) = Some st → doc_state (c_body c') = Some st' →
  a_version st = a_version st' → c = c'.
Proof.
  induction l as [|c1 l IH]; intros Hc Hin Hin' Hst Hst' Hv; [set_solver|].
  apply elem_of_cons in Hin as [->|Hin], Hin' as [->|Hin']; [done| | |destruct Hc; auto].
  - destruct (chain_before _ _ _ _ _ Hc Hst Hin' Hst'). lia.
  - destruct (chain_before _ _ _ _ _ Hc Hst' Hin Hst). lia.
Qed.
End History.

(** ** The recipients of a batch *)

Fixpoint parse_rows (rows : list gostring) : option (list Recipient) :=
  match rows with
  | [] => Some []
  | raw :: rows' =>
    if len raw =? 0 then None
    else match ParseRecipient raw with
         | Ok r => rs ← parse_rows rows'; Some (r :: rs)
         | Err _ => None
         end
  end.

(** The recipients of a batch's content, when every row is acceptable. *)
Definition batch_recipients (content : gostring) : option (list Recipient) :=
  let '(rows, ok) := scanner (mkReader content None) in
  rs ← parse_rows rows;
  if ok && negb (len rs =? 0) && Ascii.eqb (last_byte (mkReader content None)) newline then Some rs else None.

(** ** Rows of a stream that was cut short *)

Lemma dropCR_app line : ∃ t, line = dropCR line ++ t ∧ (length t ≤ 1)%nat.
Proof.
  unfold dropCR. destruct (rev line) as [|c t] eqn:E.
  - exists []. apply (f_equal (@rev ascii)) in E. rewrite rev_involutive in E. subst. simpl. auto.
  - destruct (code c =? 13); [|exists []; rewrite app_nil_r; simpl; auto].
    exists [c]. apply (f_equal (@rev ascii)) in E. rewrite rev_involutive in E. simpl in *. auto.
Qed.

(** A row that parses and is a prefix of a line that parses is that line's row. *)
Lemma row_prefix line rest r r0 :
  ParseRecipient (dropCR line) = Ok r → ParseRecipient (dropCR (line ++ rest)) = Ok r0 → r = r0.
Proof.
  intros H1 H2. destruct rest as [|b rest]; [rewrite app_nil_r in H2; congruence|].
  pose proof H1 as P1. pose proof H2 as P2. unfold ParseRecipient in P1, P2.
  apply parse_exact in P1 as (E1 & _ & [Hk1 _] & _), P2 as (E2 & _ & [Hk2 _] & _).
  destruct (dropCR_app line) as (t1 & Ht1 & Hl1), (dropCR_app (line ++ b :: rest)) as (t2 & Ht2 & Hl2).
  assert (Hp : ∃ t, dropCR (line ++ b :: rest) = dropCR line ++ t).
  { destruct (prefix_weak_total (dropCR line) (dropCR (line ++ b :: rest)) (line ++ b :: rest)) as [[t Ht]|[t Ht]].
    - exists (t1 ++ b :: rest). rewrite Ht1 at 1. by rewrite <- app_assoc.
    - by exists t2.
    - eauto.
    - assert (t = []) as ->.
      { apply (f_equal length) in Ht, Ht1, Ht2. rewrite !length_app in *. simpl in *. destruct t; [done|simpl in *; lia]. }
      exists []. by rewrite app_nil_r in *. }
  destruct Hp as [t Ht]. rewrite E1, E2 in Ht.
  assert (t = []) as -> by (eapply (marshal_struct_prefix _ r r0); [reflexivity|done|done|done]).
  rewrite app_nil_r in Ht. rewrite E1 in H1. rewrite E2, Ht in H2. congruence.
Qed.

Lemma cut_byte_app_some c s t before after :
  cut_byte c s = (before, Some after) → cut_byte c (s ++ t) = (before, Some (after ++ t)).
Proof.
  intros H. apply cut_byte_spec in H as [Hb ->]. rewrite <- app_assoc. simpl. by apply cut_byte_app.
Qed.

Lemma cut_byte_app_free c s t :
  c ∉ s → cut_byte c (s ++ t) = (s ++ fst (cut_byte c t), snd (cut_byte c t)).
Proof.
  induction s as [|a s IH]; intros H; simpl; [by destruct (cut_byte c t)|].
  rewrite (proj2 (Ascii.eqb_neq a c)) by set_solver. by rewrite IH by set_solver.
Qed.

Lemma parse_rows_first row rows rs :
  parse_rows (row :: rows) = Some rs → ∃ r, ParseRecipient row = Ok r ∧ r ∈ rs.
Proof.
  simpl. destruct (len row =? 0); [done|]. destruct (ParseRecipient row) as [r|]; [|done].
  destruct (parse_rows rows); [|done]. simpl. intros [= <-]. exists r. split; [done|set_solver].
Qed.

Lemma scan_rows_prefix f1 f2 data rest err rs :
  (length data < f1)%nat → (length (data ++ rest) < f2)%nat →
  parse_rows (fst (scan_lines f2 (data ++ rest) None)) = Some rs → snd (scan_lines f2 (data ++ rest) None) = true →
  ∀ raw r, raw ∈ fst (scan_lines f1 data err) → ParseRecipient raw = Ok r → r ∈ rs.
Proof.
  revert f2 data rs. induction f1 as [|f1 IH]; intros f2 data rs Hf1 Hf2 Hrs Hok raw r Hin Hp; [lia|].
  destruct f2 as [|f2]; [lia|]. cbn [scan_lines] in *. destruct data as [|a data]; [set_solver|].
  destruct (cut_byte newline (a :: data)) as [line [after|]] eqn:Ec.
  - pose proof (cut_byte_spec _ _ _ _ Ec) as Hsp. simpl in Hsp.
    change ((a :: data) ++ rest) with (a :: (data ++ rest)) in *.
    pose proof (cut_byte_app_some _ _ rest _ _ Ec) as Ec2. change ((a :: data) ++ rest) with (a :: (data ++ rest)) in Ec2.
    rewrite Ec2 in *. destruct (len line + 1 <=? 1024); [|set_solver].
    destruct (scan_lines f2 (after ++ rest) None) as [rows2 ok2] eqn:E2.
    destruct (scan_lines f1 after err) as [rows1 ok1] eqn:E1.
    assert (Hlen : (length after < length (a :: data))%nat).
    { destruct Hsp as [_ Hsp]. rewrite Hsp. rewrite length_app. simpl. lia. }
    simpl in Hrs, Hok, Hin. destruct (len (dropCR line) =? 0); [done|].
    destruct (ParseRecipient (dropCR line)) as [r0|] eqn:Er0; [|done].
    destruct (parse_rows rows2) as [rs2|] eqn:Ers2; [|done]. simpl in Hrs. injection Hrs as <-.
    apply elem_of_cons in Hin as [->|Hin]; [rewrite Er0 in Hp; injection Hp as ->; set_solver|].
    right. eapply (IH f2 after rs2); [simpl in *; lia| | | | |exact Hp].
    + simpl in Hf2, Hlen. rewrite length_app in Hf2 |- *. lia.
    + by rewrite E2.
    + by rewrite E2.
    + by rewrite E1.
  - destruct (len line <? 1024); [|set_solver]. simpl in Hin. assert (raw = dropCR line) as -> by set_solver.
    apply cut_byte_spec in Ec as [Hfree Hline]. rewrite app_nil_r in Hline. subst line.
    cbn [app] in Hrs, Hok. rewrite app_comm_cons, (cut_byte_app_free _ _ rest Hfree) in Hrs, Hok.
    destruct (cut_byte newline rest) as [u after]. cbn [fst snd] in *.
    assert (Hfirst : ∃ r0, ParseRecipient (dropCR ((a :: data) ++ u)) = Ok r0 ∧ r0 ∈ rs).
    { destruct after as [after|].
      - destruct (len _ + 1 <=? 1024); [|done]. destruct (scan_lines f2 after None) as [rows2 ok2].
        by apply parse_rows_first in Hrs.
      - destruct (len _ <? 1024); [|done]. by apply parse_rows_first in Hrs. }
    destruct Hfirst as (r0 & Er0 & Hr0). by rewrite (row_prefix (a :: data) u r r0 Hp Er0).
Qed.

(** A scan without an error read to the end of the file. *)
Lemma scan_lines_ok f data err : snd (scan_lines f data err) = true → err = None.
Proof.
  revert data; induction f as [|f IH]; intros data; cbn [scan_lines]; [done|].
  destruct data as [|a data]; cbn [snd]; [by rewrite bool_decide_eq_true|].
  destruct (cut_byte newline (a :: data)) as [line [after|]].
  - destruct (_ <=? _); [|done]. specialize (IH after). by destruct (scan_lines f after err).
  - destruct (_ <? _); [|done]. cbn [snd]. by rewrite bool_decide_eq_true.
Qed.

Lemma scanner_ok body rows : scanner body = (rows, true) → rd_err body = None.
Proof. unfold scanner. intros H. eapply scan_lines_ok. by rewrite H. Qed.

Section System.
(** The configuration of the workers, and the content of the immutable Blob versions. *)
Variable o : WorkerOptions.
Variable allowed : list gostring.
Variable blobs : gostring → gostring → gostring → option gostring.

Definition blob_content (r : BlobReference) : option gostring := blobs (br_Container r) (br_Name r) (br_VersionID r).

Definition notification_path (n : Notification) : gostring :=
  receipt_path o (n_ReleaseID n) (n_OperationID n) (n_RecipientID n).

Definition notification_for (m : QueueMessage) (r : Recipient) : Notification :=
  mkNotification (qm_OperationID m) (qm_ReleaseID m) (qm_ReleaseVersion m) (recipient_id o (rc_Email r))
    (rc_FirstName r) (rc_LastName r) (rc_Email r) (qm_ApplicationURL m).

(** A message whose manifest and batch were found as the message's digests say. *)
Definition verified (m : QueueMessage) (rs : list Recipient) : Prop :=
  (∃ id body, ParseQueueMessage body id = Ok m) ∧
  (∃ content manifest, blob_content (qm_Manifest m) = Some content ∧ Matches (qm_Manifest m) content = true ∧
     ParsePublishedManifest content = Ok manifest ∧ manifestMatchesMessage manifest m = true) ∧
  (∃ content, blob_content (Reference (qm_RecipientBatch m)) = Some content ∧
     Matches (Reference (qm_RecipientBatch m)) content = true ∧ batch_recipients content = Some rs ∧
     len rs = bt_RecipientCount (qm_RecipientBatch m)).

(** A mail that a verified message asks for. *)
Definition authorised (n : Notification) : Prop :=
  ∃ m rs r, verified m rs ∧ r ∈ rs ∧ n = notification_for m r.

(** ** Effects of requests *)

(** What the environment may do when a program makes a request in a world: the possible answers,
    the world and the token afterwards. Reads fail at will, also with "not found"; what they
    deliver before an end of file is what is stored. A write takes effect only when its condition
    holds, under a new ETag, and then may still be reported as failed. *)
Definition effect (e : event) (w : world) (tok : token) : answer e → world → token → Prop :=
  match e return answer e → world → token → Prop with
  | EDownloadReceipt p => λ ans w' tok', w' = w ∧ tok' = tok ∧
    match ans with
    | Err _ => True
    | Ok r => rd_err (rr_Body r) = None →
      ∃ c, latest w p = Some c ∧ rd_data (rr_Body r) = c_body c ∧ ∀ etag, rr_ETag r = Some etag → etag = c_etag c
    end
  | EUploadReceipt p body _ _ cond => λ ans w' tok',
    (is_ok ans = false ∧ w' = w ∧ tok' = tok) ∨
    (∃ etag, cond_holds w p cond ∧ etag ∉ map c_etag (entries w p) ∧ w' = add_commit w (mkCommit p etag body) ∧
             tok' = if is_ok ans then grant p body tok else tok)
  | EDownloadBlob container name version => λ ans w' tok', w' = w ∧ tok' = tok ∧
    match ans with
    | BlobResponse r => ∀ body, br_Body r = Some body →
      ∃ content, blobs container name version = Some content ∧
        (rd_err body = None → rd_data body = content) ∧ ∃ rest, content = rd_data body ++ rest
    | _ => True
    end
  | ESend n => λ _ w' tok', w' = add_mail w n tok ∧ tok' = None
  | _ => λ _ w' tok', w' = w ∧ tok' = tok
  end.

(** A write that respects the protocol. *)
Definition upload_ok (w : world) (p body : gostring) (cond : condition) : Prop :=
  ∃ st', doc_state body = Some st' ∧ a_attempts st' ≤ wo_MaxAttempts o ∧
  match cond with
  | IfNoneMatchStar => st' = mkAstate Claimed 1 1
  | IfMatch etag => ∃ c st, c ∈ entries w p ∧ c_etag c = etag ∧ doc_state (c_body c) = Some st ∧ astep st st' ∧
      (a_status st = SendStarted → a_status st' ≠ Unknown → ∃ n, (n, Some (p, a_attempts st)) ∈ w_mails w)
  end.

(** What a program owes before a request. *)
Definition obligation (e : event) (w : world) (tok : token) : Prop :=
  match e with
  | EUploadReceipt p body _ _ cond => upload_ok w p body cond
  | ESend n => authorised n ∧ ∃ a, tok = Some (notification_path n, a)
  | EPanic => False
  | _ => True
  end.

(** The invariant of worlds. *)
Definition winv (w : world) : Prop :=
  (∀ p, chain (wo_MaxAttempts o) (entries w p) ∧ NoDup (map c_etag (entries w p))) ∧
  Forall (λ m, authorised (fst m)) (w_mails w).

(** Weakest preconditions: the world may move on before every request. *)
Fixpoint wp {A} (w : world) (tok : token) (p : prog A) (Q : world → token → A → Prop) : Prop :=
  match p with
  | Ret a => Q w tok a
  | Vis e k =>
    ∀ w', ext w w' → winv w' →
    obligation e w' tok ∧
    ∀ ans w'' tok'', effect e w' tok ans w'' tok'' → winv w'' → wp w'' tok'' (k ans) Q
  end.

Lemma wp_bind {A B} (p : prog A) (f : A → prog B) w tok Q :
  wp w tok p (λ w' tok' a, wp w' tok' (f a) Q) → wp w tok (p ≫= f) Q.
Proof.
  revert w tok; induction p as [a|e k IH]; intros w tok H; [exact H|].
  intros w' He Hi. destruct (H w' He Hi) as [Ho Hk]. split; [done|]. intros ans w'' tok'' Heff Hi'. by apply IH, Hk.
Qed.

Lemma wp_mono {A} (p : prog A) w tok (Q Q' : world → token → A → Prop) :
  (∀ w' tok' a, Q w' tok' a → Q' w' tok' a) → wp w tok p Q → wp w tok p Q'.
Proof.
  intros HQ. revert w tok; induction p as [a|e k IH]; intros w tok H; [by apply HQ|].
  intros w' He Hi. destruct (H w' He Hi) as [Ho Hk]. split; [done|]. intros. by apply IH, Hk.
Qed.

Lemma effect_ext e w tok ans w' tok' : effect e w tok ans w' tok' → ext w w'.
Proof.
  destruct e; simpl; intros H; try (destruct H as [-> _]; auto with go).
  destruct H as [(_ & -> & _)|(etag & _ & _ & -> & _)]; auto with go.
Qed.

(** The world only moves forward while a program runs. *)
Lemma wp_strong {A} (p : prog A) w tok Q :
  winv w → wp w tok p Q → wp w tok p (λ w' tok' a, ext w w' ∧ winv w' ∧ Q w' tok' a).
Proof.
  revert w tok; induction p as [a|e k IH]; intros w tok Hi H; [simpl; auto using ext_refl|].
  intros w' He Hi'. destruct (H w' He Hi') as [Ho Hk]. split; [done|]. intros ans w'' tok'' Heff Hi''.
  eapply wp_mono; [|by apply IH, Hk]. simpl. intros w3 tok3 a (He3 & Hi3 & HQ).
  split_and!; [|done|done]. eauto using ext_trans, effect_ext.
Qed.

(** A program can start later. *)
Lemma wp_ext {A} (p : prog A) w w0 tok Q :
  ext w w0 → (∀ w1 w2 tok a, ext w1 w2 → Q w1 tok a → Q w2 tok a) → wp w tok p Q → wp w0 tok p Q.
Proof.
  intros He HQ H. destruct p as [a|e k]; [by eapply HQ|].
  intros w' He' Hi. apply H; [by eapply ext_trans|done].
Qed.

(** One request without an obligation that leaves the world alone. *)
Lemma wp_trigger e w tok Q :
  (∀ w', ext w w' → winv w' → obligation e w' tok) →
  (∀ ans w' w'' tok'', ext w w' → winv w' → winv w'' → effect e w' tok ans w'' tok'' → Q w'' tok'' ans) →
  wp w tok (trigger e) Q.
Proof. intros Ho Hk w' He Hi. split; [by apply Ho|]. intros ans w'' tok'' Heff Hi''. by eapply (Hk ans w'). Qed.

(** ** Receipt storage *)

(** A receipt read at a path: a committed document with its ETag. *)
Definition stored_at (w : world) (p : gostring) (s : StoredReceipt) : Prop :=
  ∃ c, c ∈ entries w p ∧ c_etag c = st_ETag s ∧ ParseReceipt (c_body c) = Ok (st_Receipt s).

Definition got (w : world) (p : gostring) (r : result error (option StoredReceipt)) : Prop :=
  match r with Ok (Some s) => stored_at w p s | _ => True end.

Lemma stored_at_ext w w' p s : ext w w' → stored_at w p s → stored_at w' p s.
Proof. intros He (c & Hc & H). exists c. eauto with go. Qed.

Lemma latest_elem w p c : latest w p = Some c → c ∈ entries w p.
Proof. unfold latest. destruct (entries w p); simpl; [done|]. intros [= ->]. set_solver. Qed.

Lemma wp_get w tok p Q :
  winv w → (∀ w' r, ext w w' → winv w' → got w' p r → Q w' tok r) → wp w tok (azure_Get p) Q.
Proof.
  intros Hi HQ. unfold azure_Get. destruct (negb (validBlobName p)); [by apply HQ; auto with go|].
  apply wp_bind, wp_trigger; [done|]. intros ans w' w'' tok'' He Hi' _ (-> & -> & Heff).
  destruct ans as [r|e]; [|by destruct (azureStatus e =? 404); apply HQ].
  destruct (readBounded (Some (rr_Body r)) (32 * 1024)) as [body|] eqn:Hb; [|by apply HQ].
  destruct (rr_ContentLength r); [|by apply HQ]. destruct (rr_ETag r) as [etag|] eqn:Het; [|by apply HQ].
  destruct (_ || _); [by apply HQ|]. destruct (ParseReceipt body) as [receipt|] eqn:Hp; [|by apply HQ].
  apply HQ; [done|done|]. apply readBounded_ok in Hb as (_ & _ & Herr & ->).
  destruct (Heff Herr) as (c & Hc & Hd & He'). exists c. rewrite <- Hd.
  split_and!; [by apply latest_elem|simpl; symmetry; by apply He'|done].
Qed.

Lemma upload_ok_ext w w' p body cond : ext w w' → upload_ok w p body cond → upload_ok w' p body cond.
Proof.
  intros He (st' & Hd & Hm & H). exists st'. split; [done|]. split; [done|]. destruct cond; [done|].
  destruct H as (c & st & Hc & Het & Hst & Hs & Hn). exists c, st. split_and!; eauto with go.
  intros H1 H2. destruct (Hn H1 H2) as [n Hin]. eauto with go.
Qed.

(** The document [put] wrote is the one it read back. *)
Definition put_post (w : world) (tok tok' : token) (p : gostring) (r : Receipt) (res : result error StoredReceipt) : Prop :=
  match res with
  | Err _ => True
  | Ok s => stored_at w p s ∧ tok' = grant p (marshal_struct r) tok ∧
            ∀ st, abstracts r st → abstracts (st_Receipt s) st
  end.

Lemma wp_put w tok p r cond Q :
  winv w → MarshalReceipt r = Ok (marshal_struct r) →
  (∃ st, abstracts r st ∧ doc_state (marshal_struct r) = Some st) →
  upload_ok w p (marshal_struct r) cond →
  (∀ w' tok' res, ext w w' → winv w' → put_post w' tok tok' p r res → Q w' tok' res) →
  wp w tok (put p r cond) Q.
Proof.
  intros Hi Hm (st & Ha & Hd) Hu HQ. unfold put.
  destruct (negb (validBlobName p)); [by apply HQ; auto with go|]. rewrite Hm.
  apply wp_bind, wp_trigger; [intros; by eapply upload_ok_ext|].
  intros ans w' w'' tok'' He Hi' Hi'' Heff. pose proof (effect_ext _ _ _ _ _ _ Heff) as He2.
  destruct ans as [u|e]; [|destruct (_ || _); apply HQ; eauto using ext_trans; done].
  destruct Heff as [(? & _)|(etag & _ & _ & -> & ->)]; [done|].
  apply wp_bind, wp_get; [done|]. intros w3 res He3 Hi3 Hg.
  destruct res as [[s|]|e]; [|by apply HQ; eauto using ext_trans..].
  destruct (Z.eqb_spec (StateVersion (st_Receipt s)) (StateVersion r)) as [Hv|]; [|by apply HQ; eauto using ext_trans].
  apply HQ; [by eauto using ext_trans|done|]. split; [done|]. split; [done|]. intros st0 Hst0.
  rewrite (abstracts_inj _ _ _ Hst0 Ha). destruct Hg as (c & Hc & _ & Hpc).
  destruct (doc_state_parse _ _ Hpc) as (st1 & Ha1 & Hd1).
  assert (E : c = mkCommit p etag (marshal_struct r)).
  { eapply (chain_version (wo_MaxAttempts o) (entries w3 p)); [apply Hi3|done| |done|exact Hd|].
    - eapply entries_ext; [done|]. rewrite entries_add_commit. simpl. rewrite str_eqb_refl. set_solver.
    - destruct Ha1 as (_ & _ & <-), Ha as (_ & _ & <-). done. }
  subst c. simpl in *. simplify_eq. done.
Qed.

(** The attempt count of a stored receipt is within the worker's limit. *)
Lemma stored_state w p s :
  1 ≤ wo_MaxAttempts o → winv w → stored_at w p s →
  ∃ c st, c ∈ entries w p ∧ c_etag c = st_ETag s ∧ ParseReceipt (c_body c) = Ok (st_Receipt s) ∧
          abstracts (st_Receipt s) st ∧ doc_state (c_body c) = Some st ∧ a_attempts st ≤ wo_MaxAttempts o.
Proof.
  intros Hmax Hi (c & Hc & He & Hp). destruct (doc_state_parse _ _ Hp) as (st & Ha & Hd).
  destruct (chain_state _ _ _ Hmax (proj1 (proj1 Hi p)) Hc) as (st0 & Hd0 & Hm & _). simplify_eq.
  by exists c, st.
Qed.

(** A compare-and-swap that performs an operation on a stored receipt. *)
Lemma wp_replace w tok p s op r' Q :
  1 ≤ wo_MaxAttempts o → winv w → stored_at w p s → apply_op (st_Receipt s) op = Ok r' →
  (∀ st st', abstracts (st_Receipt s) st → abstracts r' st' → astep st st' →
     (a_attempts st ≤ wo_MaxAttempts o → a_attempts st' ≤ wo_MaxAttempts o) ∧
     (a_status st = SendStarted → a_status st' ≠ Unknown → ∃ n, (n, Some (p, a_attempts st)) ∈ w_mails w)) →
  (∀ w' tok' res, ext w w' → winv w' →
     (∀ s', res = Ok s' → stored_at w' p s' ∧ ∃ st', abstracts r' st' ∧ abstracts (st_Receipt s') st' ∧
        tok' = if decide (a_status st' = SendStarted) then Some (p, a_attempts st') else tok) →
     Q w' tok' res) →
  wp w tok (azure_Replace p (st_ETag s) r') Q.
Proof.
  intros Hmax Hi Hs Ho Hob HQ. destruct (stored_state w p s Hmax Hi Hs) as (c & st0 & Hc & He & Hp & Ha0 & Hd0 & Hm0).
  destruct (transition_docs _ _ _ _ Hp Ho) as (st & st' & Ha & Hd & Ha' & Hd' & Hstep & Hv & Hmr & Hver).
  rewrite (abstracts_inj _ _ _ Ha0 Ha) in *. destruct (Hob st st' Ha Ha' Hstep) as [Hatt Hsent].
  unfold azure_Replace. destruct (st_ETag s =s []); [by apply HQ; auto using ext_refl|].
  apply wp_put; [done|done|by exists st'| |].
  - exists st'. split; [done|]. split; [by apply Hatt|]. exists c, st. by split_and!.
  - intros w' tok' res He' Hi' Hpost. apply HQ; [done|done|]. intros s' ->. destruct Hpost as (Hst & Htok & Hab).
    split; [done|]. exists st'. split; [done|]. split; [by apply Hab|]. subst tok'. unfold grant. by rewrite Hd'.
Qed.

Lemma wp_audit name r w tok Q : winv w → (∀ w', ext w w' → winv w' → Q w' tok tt) → wp w tok (audit o name r) Q.
Proof.
  intros Hi HQ. unfold audit. destruct (wo_Auditor o); [|by apply HQ; auto using ext_refl].
  apply wp_trigger; [done|]. intros [] w' w'' tok'' He Hi' _ [-> ->]. by apply HQ.
Qed.

(** ** Mail results *)

Lemma retryDelay_total r mr : match_string digestPattern (RecipientID r) = true → retryDelay r mr ≠ None.
Proof.
  intros [Hl _]%match_string_count. unfold retryDelay. rewrite (proj2 (Z.ltb_ge _ _)) by (unfold len; lia). done.
Qed.

Lemma updatedOrZero_nonempty (x : result error Receipt) : Status (updatedOrZero x) ≠ [] → ∃ r, x = Ok r.
Proof. destruct x; simpl; [eauto|done]. Qed.

#[local] Ltac record_result H Hu :=
  injection H as <- <- <- <-; let r' := fresh "r'" in
  destruct (updatedOrZero_nonempty _ Hu) as [r' Eop]; rewrite Eop in *; simpl in *.

(** A recorded result is one of the receipt's operations after a send; only acceptance and
    simulation complete. *)
Lemma applyMailResult_op r mr now u d reason delay :
  applyMailResult r mr now = Some (u, d, reason, delay) → Status u ≠ [] →
  (∃ op, apply_op r op = Ok u) ∧ Status r = ReceiptSendStarted ∧
  (d = Complete → Status u = ReceiptAccepted ∨ Status u = ReceiptSimulated).
Proof.
  unfold applyMailResult. intros H Hu.
  assert (Hmv : ∀ s s' n op, moves r u s s' n → s = SendStarted → apply_op r op = Ok u →
    (d = Complete → s' = Accepted ∨ s' = Simulated) →
    (∃ op, apply_op r op = Ok u) ∧ Status r = ReceiptSendStarted ∧
    (d = Complete → Status u = ReceiptAccepted ∨ Status u = ReceiptSimulated)).
  { intros s s' n op [(? & ? & ? & ? & ? & ? & ? & ? & -> & _) [Hs _]] -> Hop Hd.
    split; [by exists op|]. split; [done|]. intros [-> | ->]%Hd; auto. }
  case_if_in H; [|case_if_in H; [|case_if_in H; [|case_if_in H]]].
  - record_result H Hu. pose proof Eop as Efin. unfold Accept in Efin. case_if_in Efin; [done|]. breflect.
    eapply (Hmv _ Accepted _ (OAccept _ _ _)); [|done|exact Eop|auto].
    eapply (finish_moves r _ Accepted); [|exact Efin]. unfold int64_range; lia.
  - record_result H Hu. pose proof Eop as Efin. unfold Simulate in Efin. case_if_in Efin; [done|]. breflect.
    eapply (Hmv _ Simulated _ (OSimulate _ _ _)); [|done|exact Eop|auto].
    eapply (finish_moves r _ Simulated); [|exact Efin]. unfold int64_range; lia.
  - destruct (retryDelay r mr); [|done]. simpl in H. record_result H Hu.
    eapply (Hmv _ Retryable _ (ORetry _ _ _ _)); [by eapply Retry_moves|done|exact Eop|done].
  - record_result H Hu. pose proof Eop as Efin. unfold Fail in Efin. case_if_in Efin; [done|]. breflect.
    eapply (Hmv _ Failed _ (OFail _ _ _)); [|done|exact Eop|done].
    eapply (finish_moves r _ Failed); [|exact Efin]. unfold int64_range; lia.
  - record_result H Hu. pose proof Eop as Efin. unfold MarkUnknown in Efin. case_if_in Efin; [done|].
    eapply (Hmv _ Unknown _ (OMarkUnknown _ _)); [|done|exact Eop|done].
    eapply (finish_moves r _ Unknown); [|exact Efin]. unfold int64_range; lia.
Qed.

(** ** Counting mails *)

(** The attempts under which mails were sent. *)
Definition sent (w : world) : list (gostring * Z) := omap snd (w_mails w).

(** The mails of one receipt. *)
Definition mails_at (w : world) (p : gostring) : list (Notification * token) :=
  List.filter (λ m, notification_path (fst m) =s p) (w_mails w).

Lemma mails_at_attempts w p :
  Forall (λ m, ∃ a, snd m = Some (notification_path (fst m), a)) (w_mails w) →
  NoDup (sent w) →
  ∃ l, len l = len (mails_at w p) ∧ NoDup l ∧ ∀ a, a ∈ l → (p, a) ∈ sent w.
Proof.
  unfold sent, mails_at. intros Hm. induction Hm as [|[n tok] ms [a Ha] Hm IH]; simpl in *; intros Hnd.
  { exists []. split; [done|]. split; [constructor|set_solver]. }
  subst tok. simpl in Hnd. apply NoDup_cons in Hnd as [Hn Hnd]. destruct (IH Hnd) as (l & Hl & Hnl & Hin).
  destruct (notification_path n =s p) eqn:Ep; [|exists l; split; [done|]; split; [done|set_solver]].
  apply str_eqb_eq in Ep as <-. exists (a :: l). rewrite !len_cons, Hl. split; [done|].
  split; [|set_solver]. constructor; [|done]. intros Hal. by apply Hn, Hin.
Qed.

(** ** One recipient *)

Hypothesis Hmax : 1 ≤ wo_MaxAttempts o.

Definition path_for (m : QueueMessage) (x : Recipient) : gostring :=
  receipt_path o (qm_ReleaseID m) (qm_OperationID m) (recipient_id o (rc_Email x)).

(** A success receipt of the recipient was committed. *)
Definition notified (w : world) (m : QueueMessage) (x : Recipient) : Prop :=
  ∃ c st, c ∈ entries w (path_for m x) ∧ doc_state (c_body c) = Some st ∧
          (a_status st = Accepted ∨ a_status st = Simulated).

Lemma notified_ext w w' m x : ext w w' → notified w m x → notified w' m x.
Proof. intros He (c & st & Hc & H). exists c, st. eauto with go. Qed.

(** A recipient that was skipped or completed is notified. *)
Definition recipient_post (m : QueueMessage) (x : Recipient) (w : world) (tok : token) (res : option ProcessResult) : Prop :=
  match res with
  | None => notified w m x
  | Some pr => p_Disposition pr = Complete → notified w m x
  end.

Lemma stored_notified w m x s st :
  winv w → stored_at w (path_for m x) s → abstracts (st_Receipt s) st → a_status st = Accepted ∨ a_status st = Simulated →
  notified w m x.
Proof.
  intros Hi Hs Ha Hst. destruct (stored_state _ _ _ Hmax Hi Hs) as (c & st0 & Hc & _ & _ & Ha0 & Hd & _).
  rewrite (abstracts_inj _ _ _ Ha Ha0) in *. by exists c, st0.
Qed.

Lemma stored_valid w p s : stored_at w p s → validate (st_Receipt s) = true.
Proof. intros (c & _ & _ & Hp). by apply ParseReceipt_valid in Hp as (_ & ? & _). Qed.

Lemma moves_states r r' s s' n st st' :
  moves r r' s s' n → abstracts r st → abstracts r' st' → a_status st = s ∧ a_status st' = s' ∧ a_attempts st' = n.
Proof.
  intros [(? & ? & ? & ? & ? & ? & ? & ? & -> & _) [Hs _]] (H1 & _ & _) (H2 & H3 & _).
  rewrite Hs in H1. apply status_name_inj in H1. cbn in H2, H3. apply status_name_inj in H2. auto.
Qed.

Section Recipient.
Variables (m : QueueMessage) (rs : list Recipient) (x : Recipient).
Hypothesis (Hver : verified m rs) (Hx : x ∈ rs).

Lemma wp_record w tok now s n a mr st :
  winv w → stored_at w (path_for m x) s → abstracts (st_Receipt s) st → a_attempts st = a →
  (n, Some (path_for m x, a)) ∈ w_mails w →
  wp w tok
    match applyMailResult (st_Receipt s) mr now with
    | None => panic
    | Some (updated, disposition, reason, retryAfter) =>
      if Status updated =s [] then Ret (dead_letter (lit "PROVIDER_PROTOCOL_UNKNOWN"))
      else
        r ← azure_Replace (path_for m x) (st_ETag s) updated;
        match r with
        | Err _ => Ret (dead_letter (lit "RECEIPT_COMMIT_UNKNOWN"))
        | Ok stored =>
          let eventName :=
            if Status (st_Receipt stored) =s ReceiptRetryable
            then lit "dar.notification.retry_scheduled" else lit "dar.notification.terminal" in
          _ ← audit o eventName (st_Receipt stored);
          Ret (Some (result_of disposition reason retryAfter))
        end
    end (recipient_post m x).
Proof.
  intros Hi Hs Ha Hn Hin. destruct (applyMailResult (st_Receipt s) mr now) as [[[[u d] reason] delay]|] eqn:E.
  2:{ exfalso. pose proof (stored_valid _ _ _ Hs) as (_ & _ & Hr & _)%validate_spec.
      unfold applyMailResult in E. repeat case_if_in E; try done.
      destruct (retryDelay (st_Receipt s) mr) eqn:Ed; [done|]. by eapply retryDelay_total. }
  destruct (Status u =s []) eqn:Eu; [done|]. apply str_eqb_neq in Eu.
  destruct (applyMailResult_op _ _ _ _ _ _ _ E Eu) as ((op & Hop) & Hss & Hd).
  apply wp_bind. eapply wp_replace; [done|done|done|exact Hop| |].
  - intros st0 st' Ha0 Ha' Hstep. rewrite (abstracts_inj _ _ _ Ha0 Ha) in *.
    assert (Hst : a_status st = SendStarted).
    { destruct Ha as (Hst & _). rewrite Hss in Hst. by apply (status_name_inj SendStarted) in Hst. }
    split; [inversion Hstep; subst; done|]. intros _ _. exists n. by rewrite Hn.
  - intros w' tok' res He' Hi' Hpost. destruct res as [s'|]; [|done].
    destruct (Hpost s' eq_refl) as (Hs' & st' & Hu' & Hs'' & _).
    apply wp_bind, wp_audit; [done|]. intros w2 He2 Hi2. simpl. intros ->.
    eapply stored_notified; [done|by eapply stored_at_ext|done|].
    destruct Hu' as (Hu' & _). destruct (Hd eq_refl) as [Hsu|Hsu]; rewrite Hu' in Hsu.
    + left. by apply (status_name_inj _ Accepted).
    + right. by apply (status_name_inj _ Simulated).
Qed.

Lemma wp_send_and_record w tok now s :
  winv w → stored_at w (path_for m x) s →
  wp w tok (send_and_record o m x (recipient_id o (rc_Email x)) (path_for m x) now s) (recipient_post m x).
Proof.
  intros Hi Hs. unfold send_and_record. destruct (StartSend (st_Receipt s) now) as [r'|] eqn:E; [|done].
  pose proof (StartSend_moves _ _ _ E) as Hm.
  apply wp_bind. eapply (wp_replace _ _ _ _ (OStartSend now)); [done|done|done|exact E| |].
  - intros st st' Ha Ha' Hstep. destruct (moves_states _ _ _ _ _ _ _ Hm Ha Ha') as (H1 & H2 & H3).
    split; [|by rewrite H1]. destruct Ha as (_ & Ha & _). rewrite H3, Ha. done.
  - intros w' tok' res He' Hi' Hpost. destruct res as [s'|]; [|done].
    destruct (Hpost s' eq_refl) as (Hs' & st' & Hu' & Hs'' & ->).
    destruct (stored_state _ _ _ Hmax Hi Hs) as (_ & st & _ & _ & _ & Ha & _).
    destruct (moves_states _ _ _ _ _ _ _ Hm Ha Hu') as (H1 & H2 & H3). rewrite decide_True by done.
    apply wp_bind, wp_audit; [done|]. intros w2 He2 Hi2.
    apply wp_bind, wp_trigger; [intros; split; [by exists m, rs, x|by eexists]|].
    intros mr w3 w4 tok4 He3 Hi3 Hi4 [-> ->]. eapply (wp_record _ _ _ _ _ (a_attempts st') _ st'); [done| |done|done|].
    + eauto using stored_at_ext, ext_trans with go.
    + simpl. left.
Qed.

Lemma wp_retry_receipt w tok now s :
  winv w → stored_at w (path_for m x) s →
  wp w tok (retry_receipt o m x (recipient_id o (rc_Email x)) (path_for m x) now s) (recipient_post m x).
Proof.
  intros Hi Hs. unfold retry_receipt. destruct (Z.leb_spec (wo_MaxAttempts o) (AttemptCount (st_Receipt s))) as [Hl|Hl].
  - destruct (Exhaust (st_Receipt s) now) as [r'|] eqn:E; [|done]. pose proof (Exhaust_moves _ _ _ E) as Hm.
    apply wp_bind. eapply (wp_replace _ _ _ _ (OExhaust now)); [done|done|done|exact E| |].
    + intros st st' Ha Ha' Hstep. destruct (moves_states _ _ _ _ _ _ _ Hm Ha Ha') as (H1 & H2 & H3).
      split; [|by rewrite H1]. destruct Ha as (_ & Ha & _). by rewrite H3, Ha.
    + intros w' tok' res He' Hi' _. destruct res as [s'|]; [|done]. by apply wp_bind, wp_audit.
  - assert (Hre : wp w tok
      match Reclaim (st_Receipt s) now (wo_MaxAttempts o) with
      | Err _ => Ret (abandon (lit "RECEIPT_CONFLICT"))
      | Ok reclaimed =>
        r ← azure_Replace (path_for m x) (st_ETag s) reclaimed;
        match r with
        | Err _ => Ret (abandon (lit "RECEIPT_CONFLICT"))
        | Ok stored => send_and_record o m x (recipient_id o (rc_Email x)) (path_for m x) now stored
        end
      end (recipient_post m x)).
    { destruct (Reclaim (st_Receipt s) now (wo_MaxAttempts o)) as [r'|] eqn:E; [|done].
      destruct (Reclaim_moves _ _ _ _ E) as [Hm Hlt].
      apply wp_bind. eapply (wp_replace _ _ _ _ (OReclaim now (wo_MaxAttempts o))); [done|done|done|exact E| |].
      - intros st st' Ha Ha' Hstep. destruct (moves_states _ _ _ _ _ _ _ Hm Ha Ha') as (H1 & H2 & H3).
        split; [|by rewrite H1]. rewrite H3. intros _.
        destruct (attempts_succ _ _ _ _ Hm (stored_valid _ _ _ Hs)) as [-> _]. lia.
      - intros w' tok' res He' Hi' Hpost. destruct res as [s'|]; [|done].
        apply wp_send_and_record; [done|]. by apply (Hpost s'). }
    destruct (NextAttemptAt (st_Receipt s)); [|done]. destruct (parseTime _); [|done].
    by destruct (time_before _ _).
Qed.

Lemma wp_recover_receipt w tok now s :
  winv w → stored_at w (path_for m x) s →
  wp w tok (recover_receipt o m x (recipient_id o (rc_Email x)) (path_for m x) now s) (recipient_post m x).
Proof.
  intros Hi Hs. unfold recover_receipt.
  destruct (RecoverStale (st_Receipt s) now (wo_ClaimTimeout o) (wo_MaxAttempts o)) as [r'|] eqn:E; [|done].
  apply wp_bind.
  eapply (wp_replace _ _ _ _ (ORecoverStale now (wo_ClaimTimeout o) (wo_MaxAttempts o))); [done|done|done|exact E| |].
  - intros st st' Ha Ha' Hstep. destruct (RecoverStale_moves _ _ _ _ _ E) as [[Hm Hlt]|Hm].
    + destruct (moves_states _ _ _ _ _ _ _ Hm Ha Ha') as (H1 & H2 & H3). split; [|by rewrite H1].
      rewrite H3. intros _. destruct (attempts_succ _ _ _ _ Hm (stored_valid _ _ _ Hs)) as [-> _]. lia.
    + destruct (moves_states _ _ _ _ _ _ _ Hm Ha Ha') as (H1 & H2 & H3). split; [|by rewrite H2].
      destruct Ha as (_ & Ha & _). by rewrite H3, Ha.
  - intros w' tok' res He' Hi' Hpost. destruct res as [s'|]; [|done].
    destruct (Status (st_Receipt s') =s ReceiptUnknown); [by apply wp_bind, wp_audit|].
    apply wp_send_and_record; [done|]. by apply (Hpost s').
Qed.

Lemma wp_dispatch w tok now s owned :
  winv w → stored_at w (path_for m x) s →
  wp w tok (dispatch_receipt o m x (recipient_id o (rc_Email x)) (path_for m x) now s owned) (recipient_post m x).
Proof.
  intros Hi Hs. unfold dispatch_receipt.
  destruct (negb _); [done|]. cbv zeta. set (status := Status (st_Receipt s)) in *.
  destruct ((status =s ReceiptAccepted) || (status =s ReceiptSimulated)) eqn:E1.
  - destruct (stored_state _ _ _ Hmax Hi Hs) as (_ & st & _ & _ & _ & Ha & _). simpl.
    eapply stored_notified; [done..|]. destruct Ha as (Ha & _). subst status. rewrite Ha in E1.
    by destruct (a_status st); auto.
  - destruct ((status =s ReceiptFailed) || (status =s ReceiptUnknown)); [done|].
    destruct (status =s ReceiptRetryable); [by apply wp_retry_receipt|].
    destruct ((status =s ReceiptClaimed) || (status =s ReceiptSendStarted)); [|done].
    destruct owned; [by apply wp_send_and_record|by apply wp_recover_receipt].
Qed.

Lemma claim_intent_ok id now r :
  ClaimReceipt id now = Ok r → receipt_ints r ∧ abstracts r (mkAstate Claimed 1 1).
Proof.
  unfold ClaimReceipt. intros H. case_if_in H; [done|]. apply validated_ok in H as [-> _].
  unfold receipt_ints, int64_range. simpl. split; [lia|done].
Qed.

Lemma wp_processRecipient w tok : winv w → wp w tok (processRecipient o m x) (recipient_post m x).
Proof.
  intros Hi. unfold processRecipient. apply wp_bind, wp_trigger; [done|].
  intros clock w' w'' tok'' He Hi' _ [-> ->]. apply wp_bind, wp_get; [done|]. intros w1 res He1 Hi1 Hg.
  fold (path_for m x) in *. destruct res as [[s|]|e]; [by apply wp_dispatch| |done].
  destruct (ClaimReceipt _ _) as [r|] eqn:E; [|done]. apply wp_bind.
  destruct (claim_intent_ok _ _ _ E) as [Hints Habs]. destruct (ClaimReceipt_ok _ _ _ E) as (Hv & _).
  destruct (doc_state_marshal r Hv Hints) as (st & Ha & Hd). rewrite (abstracts_inj _ _ _ Ha Habs) in *.
  apply wp_put; [done|unfold MarshalReceipt; by rewrite Hv|eauto|eexists; split; [done|]; split; [simpl; lia|done]|].
  intros w2 tok2 res He2 Hi2 Hpost. destruct res as [s|e].
  - apply wp_dispatch; [done|]. by destruct Hpost.
  - destruct e; try done. apply wp_bind, wp_get; [done|]. intros w3 res He3 Hi3 Hg3.
    destruct res as [[s|]|e]; [by apply wp_dispatch|done|done].
Qed.
End Recipient.

(** ** Immutable Blobs *)

(** A stream delivers the content of its Blob, or a prefix of it before an error. *)
Definition streamed (r : BlobReference) (body : Reader) : Prop :=
  blob_valid r = true ∧
  ∃ content, blob_content r = Some content ∧ (rd_err body = None → rd_data body = content) ∧
             ∃ rest, content = rd_data body ++ rest.

Lemma wp_download w tok r Q :
  winv w → (∀ w' res, ext w w' → winv w' → (∀ body, res = Ok body → streamed r body) → Q w' tok res) →
  wp w tok (download allowed r) Q.
Proof.
  intros Hi HQ. unfold download. destruct (negb (blob_valid r)) eqn:Hv; [by apply HQ; auto using ext_refl|].
  destruct (negb (existsb _ _)); [by apply HQ; auto using ext_refl|].
  apply wp_bind, wp_trigger; [done|]. intros ans w' w'' tok'' He Hi' _ (-> & -> & Heff).
  destruct ans as [|e|resp]; [by apply HQ..|]. destruct (br_Body resp) as [body|] eqn:Hb; [|by apply HQ].
  destruct (br_ContentLength resp); [|by apply HQ]. destruct (br_ResponseVersion resp); [|by apply HQ].
  destruct (_ || _); apply HQ; try done. intros b [= <-]. split; [by apply negb_false_iff|]. by apply Heff.
Qed.

Lemma wp_ReadSmall w tok r maximum Q :
  winv w →
  (∀ w' res, ext w w' → winv w' →
     (∀ content, res = Ok content → blob_content r = Some content ∧ Matches r content = true) → Q w' tok res) →
  wp w tok (azure_ReadSmall allowed r maximum) Q.
Proof.
  intros Hi HQ. unfold azure_ReadSmall. destruct (_ || _); [by apply HQ; auto using ext_refl|].
  apply wp_bind, wp_download; [done|]. intros w' res He Hi' Hs. destruct res as [body|]; [|by apply HQ].
  destruct (readBounded (Some body) maximum) as [content|] eqn:Hb; [|by apply HQ].
  destruct (Matches r content) eqn:Hm; apply HQ; try done. intros c [= <-].
  apply readBounded_ok in Hb as (_ & _ & Herr & ->).
  destruct (Hs body eq_refl) as (_ & content & Hc & Heq & _). specialize (Heq Herr). by subst content.
Qed.

Lemma wp_Verify w tok r Q :
  winv w →
  (∀ w' res, ext w w' → winv w' →
     (res = Ok tt → ∃ content, blob_content r = Some content ∧ Matches r content = true) → Q w' tok res) →
  wp w tok (azure_Verify allowed r) Q.
Proof.
  intros Hi HQ. unfold azure_Verify. apply wp_bind, wp_download; [done|]. intros w' res He Hi' Hs.
  destruct res as [body|]; [|by apply HQ]. cbv zeta. destruct (_ || _) eqn:E; apply HQ; try done. intros _.
  destruct (Hs body eq_refl) as (Hv & content & Hc & Heq & _). exists content. split; [done|].
  unfold blob_valid, maxArtifactBytes in Hv. breflect. destruct E as [[Hf Hl] Hsha]. destruct Hv as [[_ Hv1] Hv2].
  assert (Hw : wrap64 (br_Size r + 1) = br_Size r + 1) by (apply wrap64_small; unfold int64_range; lia).
  rewrite Hw in *.
  assert (Hlen : len (rd_data body) = br_Size r).
  { unfold len in Hl |- *. rewrite length_take in Hl. lia. }
  assert (Ht : take (Z.to_nat (br_Size r + 1)) (rd_data body) = rd_data body)
    by (apply take_ge; unfold len in Hlen; lia).
  rewrite Ht in *. destruct (rd_err body) as [e|] eqn:Herr.
  - exfalso. destruct Hf as [Hf|Hf]; [by destruct Hf|lia].
  - rewrite <- (Heq eq_refl). unfold Matches. breflect. auto.
Qed.

(** Counting the rows of a batch decides whether it is acceptable. *)
Lemma scan_count rows n c :
  scan_loop (λ count (_ : Recipient), Ret (count + 1, None)) rows n c =
  match parse_rows rows with
  | Some rs => Ret (c + len rs, inl (n + len rs))
  | None => scan_loop (λ count (_ : Recipient), Ret (count + 1, None)) rows n c
  end ∧ (parse_rows rows = None → ∃ c' e, scan_loop (λ count (_ : Recipient), Ret (count + 1, None)) rows n c = Ret (c', inr e)).
Proof.
  revert n c; induction rows as [|row rows IH]; intros n c; simpl.
  { split; [by rewrite len_nil, !Z.add_0_r|done]. }
  destruct (len row =? 0); [eauto|]. destruct (ParseRecipient row) as [r|e]; [|eauto].
  simpl. destruct (IH (n + 1) (c + 1)) as [IH1 IH2]. destruct (parse_rows rows) as [rs|]; simpl.
  - rewrite IH1, len_cons. split; [|done]. do 2 f_equal; [lia|f_equal; lia].
  - split; [done|]. intros _. by apply IH2.
Qed.

Lemma wp_validateBatch w tok r count Q :
  winv w →
  (∀ w' res, ext w w' → winv w' →
     (res = Ok tt → ∃ content rs, blob_content r = Some content ∧ batch_recipients content = Some rs ∧ len rs = count) →
     Q w' tok res) →
  wp w tok (@validateBatch (azure_blob_store allowed) r count) Q.
Proof.
  intros Hi HQ. unfold validateBatch. apply wp_bind, wp_download; [done|]. intros w' res He Hi' Hs.
  destruct res as [body|]; [|by apply HQ]. apply wp_bind. unfold scanRecipientRows.
  destruct (scanner body) as [rows ok] eqn:Esc. apply wp_bind.
  destruct (scan_count rows 0 0) as [H1 H2]. destruct (parse_rows rows) as [rs|] eqn:Er.
  2:{ destruct (H2 eq_refl) as (c' & e & ->). simpl. by apply HQ. }
  rewrite H1, !Z.add_0_l. simpl. destruct (_ || _) eqn:Eend; simpl; [by apply HQ|].
  destruct (Z.eqb_spec (len rs) count) as [Hc|]; simpl; [|by apply HQ].
  apply HQ; [done|done|]. intros _. breflect. destruct Eend as [[-> Hn] Hlast].
  destruct (Hs body eq_refl) as (_ & content & Hcont & Heq & _).
  assert (Herr : rd_err body = None) by (by apply scanner_ok in Esc).
  exists content, rs. split; [done|]. split; [|done]. unfold batch_recipients.
  rewrite <- (Heq Herr). destruct body as [data err]. simpl in *. subst err. rewrite Esc. simpl. rewrite Er. simpl.
  rewrite (proj2 (Z.eqb_neq _ _)), Hlast, Ascii.eqb_refl by lia. done.
Qed.

(** ** Batches *)

Lemma ParseRecipient_error raw e : ParseRecipient raw = Err e → e = ErrContract.
Proof.
  unfold ParseRecipient. destruct (decode_struct raw 1024); [|by intros [= <-]].
  destruct (_ || _); [by intros [= <-]|done].
Qed.

Definition rows_post (m : QueueMessage) (rows : list gostring) (s : ProcessResult) (w : world) (tok : token)
  (res : ProcessResult * (Z + error)) : Prop :=
  match snd res with
  | inl _ => p_Disposition (fst res) = p_Disposition s ∧ ∃ rs, parse_rows rows = Some rs ∧ Forall (notified w m) rs
  | inr errStopBatch => p_Disposition (fst res) ≠ Complete
  | inr _ => True
  end.

Lemma wp_process_rows m rs rows n s w tok :
  winv w → verified m rs → (∀ raw r, raw ∈ rows → ParseRecipient raw = Ok r → r ∈ rs) →
  wp w tok (scan_loop (@process_row azure_receipt_store event_mailer o m) rows n s) (rows_post m rows s).
Proof.
  intros Hi Hv. revert n s w tok Hi. induction rows as [|raw rows IH]; intros n s w tok Hi Hrows.
  { split; [done|]. by exists []. }
  cbn [scan_loop]. destruct (len raw =? 0) eqn:El; [done|]. destruct (ParseRecipient raw) as [x|e] eqn:Ex.
  2:{ apply ParseRecipient_error in Ex as ->. done. }
  apply wp_bind. unfold process_row. apply wp_bind.
  eapply wp_mono; [|apply wp_strong, (wp_processRecipient m rs); [done|done|apply (Hrows raw); [set_solver|done]|done]].
  simpl. intros w1 tok1 res (He1 & Hi1 & Hres).
  assert (Hnext : ∀ s1, p_Disposition s1 = p_Disposition s → notified w1 m x →
    wp w1 tok1 (scan_loop (@process_row azure_receipt_store event_mailer o m) rows (n + 1) s1)
      (rows_post m (raw :: rows) s)).
  { intros s1 Hs1 Hx. eapply wp_mono; [|apply wp_strong, IH; [done|done|]]; [|set_solver].
    simpl. intros w2 tok2 [s2 r2] (He2 & Hi2 & H2). unfold rows_post in *. simpl in *.
    destruct r2 as [c|e]; [|done]. destruct H2 as (Hs2 & rs2 & Hp2 & Hf2). split; [congruence|].
    rewrite El, Ex, Hp2. simpl. eexists. split; [done|]. constructor; [by eapply notified_ext|done]. }
  destruct res as [pr|]; [|by apply Hnext].
  destruct (p_Disposition pr =s Complete) eqn:Ed; simpl in *.
  - apply str_eqb_eq in Ed. by apply Hnext; [|apply Hres].
  - apply str_eqb_neq in Ed. done.
Qed.

Definition complete_post (m : QueueMessage) (rs : list Recipient) (w : world) (res : ProcessResult) : Prop :=
  p_Disposition res = Complete → Forall (notified w m) rs.

Lemma wp_process_batch m rs w tok :
  winv w → verified m rs →
  wp w tok (@process_batch (azure_blob_store allowed) azure_receipt_store event_mailer o m)
    (λ w' _ res, complete_post m rs w' res).
Proof.
  intros Hi Hv. unfold process_batch. apply wp_bind, wp_download; [done|]. intros w' res He Hi' Hs.
  destruct res as [body|]; [|done]. apply wp_bind. unfold scanRecipientRows.
  destruct (scanner body) as [rows ok] eqn:Esc. apply wp_bind.
  destruct (Hs body eq_refl) as (_ & content & Hcont & Heq & rest & Hrest).
  destruct Hv as (Hv1 & Hv2 & content' & Hc' & Hm' & Hbr & Hcount). rewrite Hcont in Hc'. injection Hc' as <-.
  pose proof Hbr as Hbr0. unfold batch_recipients in Hbr.
  destruct (scanner (mkReader content None)) as [crows cok] eqn:Ec.
  destruct (parse_rows crows) as [rs0|] eqn:Ep; [|done]. simpl in Hbr.
  destruct (cok && _ && _) eqn:Eok; [|done]. injection Hbr as ->. breflect.
  eapply wp_mono; [|eapply (wp_process_rows m rs); [done| |]].
  - intros w1 tok1 [s1 r1] Hp. unfold rows_post in Hp. simpl in Hp.
    destruct r1 as [c|e]; simpl.
    + destruct (_ || _) eqn:Eend; simpl; [done|]. intros _. destruct Hp as (_ & rs1 & Hp1 & Hf). breflect.
      destruct Eend as [[-> _] _]. pose proof (Heq (scanner_ok _ _ Esc)) as Hd.
      clear rest Hrest. destruct body as [data err]. simpl in *. apply scanner_ok in Esc as Herr. simpl in Herr. subst.
      rewrite Esc in Ec. injection Ec as <- <-. by simplify_eq.
    + destruct e; simpl; intros Hc; first [by destruct Hp|discriminate Hc].
  - split_and!; [done|done|]. by exists content.
  - intros raw r Hin Hpr. unfold scanner in Esc, Ec. cbn [rd_data rd_err] in Ec.
    eapply (scan_rows_prefix (S (length (rd_data body))) (S (length content)) (rd_data body) rest (rd_err body));
      [lia| | | |by rewrite Esc|done]; rewrite <- Hrest; [lia|by rewrite Ec|rewrite Ec; simpl; tauto].
Qed.

(** What a delivery promises when it completes. *)
Definition process_post (brokerMessageID body : gostring) (w : world) (tok : token) (res : ProcessResult) : Prop :=
  p_Disposition res = Complete →
  ∃ m rs, ParseQueueMessage body brokerMessageID = Ok m ∧ verified m rs ∧ Forall (notified w m) rs.

Definition worker_process (brokerMessageID body : gostring) : prog ProcessResult :=
  @Process (azure_blob_store allowed) azure_receipt_store event_mailer o brokerMessageID body.

Lemma wp_Process w tok id body : winv w → wp w tok (worker_process id body) (process_post id body).
Proof.
  intros Hi. unfold worker_process, Process.
  destruct (ParseQueueMessage body id) as [m|] eqn:Em; [|done].
  apply wp_bind, wp_ReadSmall; [done|]. intros w1 res He1 Hi1 Hmani.
  destruct res as [content|e]; [|by destruct e].
  destruct (ParsePublishedManifest content) as [manifest|] eqn:Epm; [|done].
  destruct (manifestMatchesMessage manifest m) eqn:Emm; [|done]. cbn [negb].
  apply wp_bind, wp_Verify; [done|]. intros w2 res He2 Hi2 Hver. destruct res as [[]|e]; [|by destruct e].
  apply wp_bind, wp_validateBatch; [done|]. intros w3 res He3 Hi3 Hval. destruct res as [[]|e]; [|done].
  destruct (Hmani content eq_refl) as [Hc1 Hc2]. destruct (Hver eq_refl) as (bc & Hb1 & Hb2).
  destruct (Hval eq_refl) as (bc' & rs & Hb1' & Hb3 & Hb4). rewrite Hb1 in Hb1'. injection Hb1' as <-.
  assert (Hverified : verified m rs).
  { split; [by exists id, body|]. split; [by exists content, manifest|]. by exists bc. }
  eapply wp_mono; [|by apply (wp_process_batch m rs)]. intros w4 tok4 res Hpost Hcomplete.
  exists m, rs. auto.
Qed.

(** ** The system *)

(** A delivery being processed: the broker's message, its token and what is left of its program. *)
Record thread : Type := mkThread { th_id : gostring; th_body : gostring; th_token : token; th_prog : prog ProcessResult }.
Record system : Type := mkSystem { s_world : world; s_threads : list thread }.

(** Deliveries start at any time with any message, make one request at a time, and may stop. *)
Inductive step : system → system → Prop :=
| step_deliver w ths id body :
    step (mkSystem w ths) (mkSystem w (mkThread id body None (worker_process id body) :: ths))
| step_request w ths1 id body tok e k ths2 ans w' tok' :
    effect e w tok ans w' tok' →
    step (mkSystem w (ths1 ++ mkThread id body tok (Vis e k) :: ths2))
         (mkSystem w' (ths1 ++ mkThread id body tok' (k ans) :: ths2))
| step_stop w ths1 th ths2 :
    step (mkSystem w (ths1 ++ th :: ths2)) (mkSystem w (ths1 ++ ths2)).

Definition initial : system := mkSystem (mkWorld [] []) [].
Definition reachable (s : system) : Prop := rtc step initial s.

Definition tokens (ths : list thread) : list (gostring * Z) := omap th_token ths.

(** The newest receipt at a path allows the mail of attempt [a] to be under way. *)
Definition pending (w : world) (p : gostring) (a : Z) : Prop :=
  ∃ c st, latest w p = Some c ∧ doc_state (c_body c) = Some st ∧ a_attempts st = a ∧
          (a_status st = SendStarted ∨ a_status st = Unknown).

Definition started (w : world) (p : gostring) (a : Z) : Prop :=
  ∃ c st, c ∈ entries w p ∧ doc_state (c_body c) = Some st ∧ a_status st = SendStarted ∧ a_attempts st = a.

Record inv (s : system) : Prop := mkInv {
  inv_world : winv (s_world s);
  inv_threads : Forall (λ th, wp (s_world s) (th_token th) (th_prog th) (process_post (th_id th) (th_body th))) (s_threads s);
  inv_nodup : NoDup (tokens (s_threads s) ++ sent (s_world s));
  inv_started : ∀ p a, (p, a) ∈ tokens (s_threads s) ++ sent (s_world s) → started (s_world s) p a;
  inv_pending : ∀ p a, (p, a) ∈ tokens (s_threads s) → pending (s_world s) p a;
  inv_mails : Forall (λ m, ∃ a, snd m = Some (notification_path (fst m), a)) (w_mails (s_world s)) }.

Lemma started_ext w w' p a : ext w w' → started w p a → started w' p a.
Proof. intros He (c & st & Hc & H). exists c, st. eauto with go. Qed.

(** *** Commits preserve the history of every path *)

(** The condition of a write selects the newest document, the one its program knows. *)
Lemma upload_latest w p body etag c st' :
  winv w → upload_ok w p body (IfMatch etag) → latest w p = Some c → c_etag c = etag → doc_state body = Some st' →
  ∃ st, doc_state (c_body c) = Some st ∧ astep st st' ∧ a_attempts st' ≤ wo_MaxAttempts o ∧
        (a_status st = SendStarted → a_status st' ≠ Unknown → ∃ n, (n, Some (p, a_attempts st)) ∈ w_mails w).
Proof.
  intros Hi (st0 & Hd & Hm & c0 & st & Hc0 & He0 & Hd0 & Hs & Hsent) Hl He Hd'. simplify_eq.
  assert (c0 = c) as ->; [|by exists st].
  destruct (proj1 Hi p) as [_ Hnd]. pose proof (latest_elem _ _ _ Hl) as Hc.
  apply (NoDup_map_inj c_etag (entries w p)); [done|done|done|congruence].
Qed.

Lemma winv_commit w p etag body cond :
  winv w → upload_ok w p body cond → cond_holds w p cond → etag ∉ map c_etag (entries w p) →
  winv (add_commit w (mkCommit p etag body)).
Proof.
  intros Hi Hu Hcond Hfresh. pose proof Hi as [Hw Hm]. split; [|done]. intros p'. rewrite entries_add_commit. simpl.
  destruct (p =s p') eqn:Ep; [|apply Hw]. apply str_eqb_eq in Ep as <-. destruct (Hw p) as [Hch Hnd].
  split; [|simpl; constructor; [done|done]]. split; [|done].
  destruct cond as [|e]; simpl in Hcond.
  - rewrite Hcond. destruct Hu as (st' & Hd & _ & ->). done.
  - destruct Hcond as (c & Hl & He). unfold latest in Hl.
    assert (Hd : ∃ st', doc_state body = Some st') by (destruct Hu as (st' & ? & _); eauto). destruct Hd as [st' Hd].
    pose proof (upload_latest w p body e c st' Hi Hu) as Hul.
    destruct (entries w p) as [|c1 l] eqn:Een; [done|]. simpl in Hl. injection Hl as ->.
    destruct Hul as (st & Hst & Hs & Hma & _); [unfold latest; by rewrite Een|done|done|].
    by exists st, st'.
Qed.

Lemma winv_effect e w tok ans w' tok' : winv w → obligation e w tok → effect e w tok ans w' tok' → winv w'.
Proof.
  intros Hi Ho He. destruct e; simpl in *; try (by destruct He as [-> _]).
  - destruct He as [(_ & -> & _)|(etag & Hc & Hf & -> & _)]; [done|]. by eapply winv_commit.
  - destruct He as [-> _], Hi as [Hw Hm], Ho as [Ha _]. split; [done|]. by constructor.
Qed.

(** *** A commit keeps other deliveries' rights to send *)

Lemma latest_add_commit w c p : latest (add_commit w c) p = if c_path c =s p then Some c else latest w p.
Proof. unfold latest. rewrite entries_add_commit. by destruct (c_path c =s p). Qed.

Lemma pending_commit w p etag body cond p' a :
  winv w → upload_ok w p body cond → cond_holds w p cond → pending w p' a → (p', a) ∉ sent w →
  pending (add_commit w (mkCommit p etag body)) p' a.
Proof.
  intros Hi Hu Hcond (c & st & Hl & Hd & Ha & Hst) Hns. unfold pending. rewrite latest_add_commit. simpl.
  destruct (p =s p') eqn:Ep; [|by exists c, st]. apply str_eqb_eq in Ep as <-.
  destruct cond as [|e]; simpl in Hcond; [unfold latest in Hl; by rewrite Hcond in Hl|].
  destruct Hcond as (c' & Hl' & He). rewrite Hl in Hl'. injection Hl' as <-.
  assert (Hd' : ∃ st', doc_state body = Some st') by (destruct Hu as (st' & ? & _); eauto). destruct Hd' as [st' Hd'].
  destruct (upload_latest w p body e c st' Hi Hu Hl He Hd') as (st0 & Hd0 & Hs & _ & Hsent). simplify_eq.
  eexists _, st'. split; [done|]. split; [done|].
  destruct (decide (a_status st' = Unknown)) as [Hun|Hun].
  - split; [|auto]. destruct Hst as [Hst|Hst]; inversion Hs; subst; simpl in *; done || lia.
  - exfalso. destruct Hst as [Hst|Hst]; [|by inversion Hs; subst].
    destruct (Hsent Hst Hun) as [n Hin]. apply Hns. unfold sent. apply list_elem_of_omap. by exists (n, Some (p, a_attempts st)).
Qed.

(** A newly started send is not one that was started before. *)
Lemma started_fresh w p etag body cond st :
  winv w → upload_ok w p body cond → cond_holds w p cond → etag ∉ map c_etag (entries w p) →
  doc_state body = Some st → a_status st = SendStarted → ¬ started w p (a_attempts st).
Proof.
  intros Hi Hu Hcond Hf Hd Hs (c & st0 & Hc & Hd0 & Hs0 & Ha0).
  destruct (proj1 (winv_commit _ _ _ _ _ Hi Hu Hcond Hf) p) as [Hch _]. rewrite entries_add_commit in Hch. simpl in Hch.
  rewrite str_eqb_refl in Hch. destruct (chain_before _ _ _ _ _ _ Hch Hd Hc Hd0) as (_ & _ & Hlt). specialize (Hlt Hs0 (or_introl Hs)). lia.
Qed.

Lemma tokens_middle ths1 th ths2 :
  tokens (ths1 ++ th :: ths2) = tokens ths1 ++ option_list (th_token th) ++ tokens ths2.
Proof. unfold tokens. rewrite omap_app. simpl. by destruct (th_token th). Qed.

(** *** Preservation *)

(** Rights to send and mails after a request. *)
Record token_inv (ts : list (gostring * Z)) (w : world) : Prop := mkTokenInv {
  ti_nodup : NoDup (ts ++ sent w);
  ti_started : ∀ p a, (p, a) ∈ ts ++ sent w → started w p a;
  ti_pending : ∀ p a, (p, a) ∈ ts → pending w p a;
  ti_mails : Forall (λ m, ∃ a, snd m = Some (notification_path (fst m), a)) (w_mails w) }.

Lemma token_inv_sub ts ts' w : token_inv ts w → ts' `sublist_of` ts → token_inv ts' w.
Proof.
  intros [H1 H2 H3 H4] Hsub. split; [| | |done].
  - eapply sublist_NoDup; [exact H1|]. by apply sublist_app.
  - intros p a. rewrite elem_of_app. intros Hin. apply H2. rewrite elem_of_app.
    destruct Hin as [Hin|Hin]; [left|by right]. by eapply elem_of_sublist.
  - intros p a Hin. apply H3. by eapply elem_of_sublist.
Qed.

Lemma token_inv_commit ts w p etag body cond :
  winv w → upload_ok w p body cond → cond_holds w p cond → token_inv ts w →
  token_inv ts (add_commit w (mkCommit p etag body)).
Proof.
  intros Hi Hu Hcond [H1 H2 H3 H4]. split; [done| | |done].
  - intros p' a Hin. eapply started_ext; [apply ext_add_commit|by apply H2].
  - intros p' a Hin. eapply pending_commit; eauto. intros Hs. apply NoDup_app in H1 as (_ & Hdis & _).
    by apply (Hdis (p', a)).
Qed.

Lemma token_inv_effect e w ts1 tok ts2 ans w' tok' :
  winv w → obligation e w tok → effect e w tok ans w' tok' →
  token_inv (ts1 ++ option_list tok ++ ts2) w → token_inv (ts1 ++ option_list tok' ++ ts2) w'.
Proof.
  intros Hi Ho He Ht.
  assert (Hdrop : token_inv (ts1 ++ ts2) w).
  { eapply token_inv_sub; [exact Ht|]. apply sublist_app; [done|]. by apply sublist_inserts_l. }
  destruct e; simpl in *; try (by destruct He as [-> ->]); try (by destruct He as (-> & -> & _)).
  - destruct He as [(_ & -> & ->)|(etag & Hcond & Hf & -> & ->)]; [done|].
    assert (Hsame : token_inv (ts1 ++ option_list tok ++ ts2) (add_commit w (mkCommit path etag body)))
      by (by eapply token_inv_commit).
    destruct (is_ok ans); [|done]. unfold grant. destruct (doc_state body) as [st|] eqn:Hd; [|done].
    destruct (decide (a_status st = SendStarted)) as [Hs|]; [|done]. simpl.
    assert (Hnew : (path, a_attempts st) ∉ (ts1 ++ ts2) ++ sent w).
    { intros Hin. eapply started_fresh; eauto. by apply Hdrop. }
    pose proof (token_inv_commit _ _ _ etag _ _ Hi Ho Hcond Hdrop) as [H1 H2 H3 H4].
    assert (Hst : started (add_commit w (mkCommit path etag body)) path (a_attempts st)).
    { eexists (mkCommit path etag body), st. rewrite entries_add_commit. simpl. rewrite str_eqb_refl. set_solver. }
    split; [| | |done].
    + rewrite <- app_assoc. simpl. rewrite <- Permutation_middle, app_assoc. by constructor.
    + intros p a Hin. assert (Hc : (p, a) = (path, a_attempts st) ∨ (p, a) ∈ (ts1 ++ ts2) ++ sent w) by set_solver.
      destruct Hc as [[= -> ->]|Hc]; [done|by apply H2].
    + intros p a Hin. assert (Hc : (p, a) = (path, a_attempts st) ∨ (p, a) ∈ ts1 ++ ts2) by set_solver.
      destruct Hc as [[= -> ->]|Hc]; [|by apply H3]. eexists _, st. rewrite latest_add_commit. simpl.
      rewrite str_eqb_refl. split; [done|]. auto.
  - destruct He as [-> ->], Ho as (_ & a & ->). simpl in *. destruct Ht as [H1 H2 H3 H4]. split.
    + unfold sent in *. simpl in *. rewrite <- app_assoc in H1. simpl in H1.
      rewrite <- Permutation_middle in H1. rewrite <- Permutation_middle, <- app_assoc. done.
    + intros p a' Hin. eapply started_ext; [apply ext_add_mail|]. apply H2. unfold sent in *. simpl in *. set_solver.
    + intros p a' Hin. apply H3. set_solver.
    + constructor; [by exists a|done].
Qed.

Lemma process_post_ext id body w1 w2 tok res : ext w1 w2 → process_post id body w1 tok res → process_post id body w2 tok res.
Proof.
  intros He H Hc. destruct (H Hc) as (m & rs & Hp & Hv & Hf). exists m, rs. split; [done|]. split; [done|].
  eapply Forall_impl; [exact Hf|]. intros x. by apply notified_ext.
Qed.

Lemma inv_of_tokens w ths :
  winv w → Forall (λ th, wp w (th_token th) (th_prog th) (process_post (th_id th) (th_body th))) ths →
  token_inv (tokens ths) w → inv (mkSystem w ths).
Proof. intros Hw Ht [H1 H2 H3 H4]. by split. Qed.

Lemma inv_tokens s : inv s → token_inv (tokens (s_threads s)) (s_world s).
Proof. intros [_ _ H1 H2 H3 H4]. by split. Qed.

Lemma inv_step s s' : inv s → step s s' → inv s'.
Proof.
  intros Hinv Hstep. pose proof (inv_tokens s Hinv) as Htok. pose proof (inv_world s Hinv) as Hw.
  pose proof (inv_threads s Hinv) as Hths.
  destruct Hstep as [w ths id body|w ths1 id body tok e k ths2 ans w' tok' Heff|w ths1 th ths2]; simpl in *.
  - apply inv_of_tokens; [done| |done]. constructor; [by apply wp_Process|done].
  - apply Forall_app in Hths as [Hths1 [Hth Hths2]%Forall_cons].
    destruct (Hth w (ext_refl w) Hw) as [Hob Hk]. simpl in Hob, Hk.
    pose proof (winv_effect _ _ _ _ _ _ Hw Hob Heff) as Hw'.
    assert (Hmono : ∀ l, Forall (λ th, wp w (th_token th) (th_prog th) (process_post (th_id th) (th_body th))) l →
                         Forall (λ th, wp w' (th_token th) (th_prog th) (process_post (th_id th) (th_body th))) l).
    { intros l Hl. eapply Forall_impl; [exact Hl|]. intros th. apply wp_ext; [by eapply effect_ext|].
      intros. by eapply process_post_ext. }
    apply inv_of_tokens; [done| |].
    + apply Forall_app. split; [by apply Hmono|]. constructor; [by apply Hk|by apply Hmono].
    + rewrite tokens_middle in Htok |- *. cbn [th_token] in *. exact (token_inv_effect _ _ _ _ _ _ _ _ Hw Hob Heff Htok).
  - apply Forall_app in Hths as [Hths1 [Hth Hths2]%Forall_cons].
    apply inv_of_tokens; [done|by apply Forall_app|]. eapply token_inv_sub; [exact Htok|].
    rewrite tokens_middle. unfold tokens. rewrite omap_app. apply sublist_app; [done|]. by apply sublist_inserts_l.
Qed.

Lemma inv_initial : inv initial.
Proof.
  apply inv_of_tokens; [|constructor|].
  - split; [|constructor]. intros p. split; [done|constructor].
  - split; [constructor| | |constructor]; simpl; set_solver.
Qed.

Lemma inv_reachable s : reachable s → inv s.
Proof.
  unfold reachable. intros H. generalize inv_initial. induction H as [s|s1 s2 s3 Hs _ IH]; [done|].
  intros Hi. apply IH. by eapply inv_step.
Qed.

End System.
