(* ===== verification/Guarantees.v ===== *)
(** * What the distribution system guarantees

    The statements about the concurrent system of Protocol that the rest of the development leads
    to, for every configuration [NewWorker] accepts, every interleaving, every crash and every
    storage failure; and an honest environment that runs a delivery to completion, which shows that
    they speak about executions that exist. *)

From S2P Require Import Prelude Utf8 GoStrings Regex GoTime Json StrictJson Sha256 Url Contracts Receipt Program Azure Effects Worker AzureStorage Protocol.

Lemma NewWorker_spec o o' :
  NewWorker o = Some o' →
  o' = o ∧ 1 ≤ wo_MaxAttempts o ≤ 5 ∧ 32 ≤ len (wo_HMACKey o) ≤ 64 ∧
  match_string versionLabelPattern (wo_HMACKeyVersion o) = true ∧ 0 < wo_ClaimTimeout o.
Proof.
  unfold NewWorker. intros H. case_if_in H; [done|]. injection H as <-. breflect. split_hyps.
  split_and!; try done; lia.
Qed.

Section Guarantees.
Context (o : WorkerOptions) (allowed : list gostring) (blobs : gostring → gostring → gostring → option gostring).

(** C1: For every receipt, and so for every recipient of every operation, the deliveries together
    send at most [MaxAttempts] mails (at most five), whatever the interleaving, the crashes and the
    failures. *)
Theorem mails_bounded s p :
  NewWorker o = Some o → reachable o allowed blobs s →
  len (mails_at o (s_world s) p) ≤ wo_MaxAttempts o ≤ 5.
Proof.
  intros (_ & Hmax & _)%NewWorker_spec Hr. split; [|lia].
  pose proof (inv_reachable o allowed blobs ltac:(lia) s Hr) as [Hw _ Hnd Hst _ Hm].
  apply NoDup_app in Hnd as (_ & _ & Hnd). destruct (mails_at_attempts o blobs _ p Hm Hnd) as (l & <- & Hl & Hin).
  apply nodup_range; [lia|done|]. intros a Ha. apply Hin in Ha.
  destruct (Hst p a) as (c & st & Hc & Hd & _ & <-); [set_solver|].
  destruct (chain_state (wo_MaxAttempts o) _ _ ltac:(lia) (proj1 (proj1 Hw p)) Hc) as (st0 & Hd0 & ? & ?). simplify_eq. lia.
Qed.

(** C2: When a mail is sent, the newest receipt at its path is SEND_STARTED, or UNKNOWN after a
    stale send was given up, for an attempt under which no mail was sent before. In particular no
    mail is sent before SEND_STARTED is durable, and none after ACCEPTED, SIMULATED, FAILED or
    RETRYABLE is, until the next SEND_STARTED. *)
Theorem mail_only_when_started s s' n tok :
  NewWorker o = Some o → reachable o allowed blobs s → step o allowed blobs s s' →
  w_mails (s_world s') = (n, tok) :: w_mails (s_world s) →
  ∃ a, pending (s_world s) (notification_path o n) a ∧
       ∀ n' tok', (n', tok') ∈ w_mails (s_world s) → tok' ≠ Some (notification_path o n, a).
Proof.
  intros (_ & Hmax & _)%NewWorker_spec Hr Hstep Hmail.
  pose proof (inv_reachable o allowed blobs ltac:(lia) s Hr) as Hinv.
  destruct Hstep as [w ths id body|w ths1 id body tk e k ths2 ans w' tok' Heff|w ths1 th ths2]; simpl in *;
    try (apply (f_equal length) in Hmail; simpl in Hmail; lia).
  destruct Hinv as [Hw Hths Hnd _ Hpend _]. simpl in *.
  apply Forall_app in Hths as [_ [Hth _]%Forall_cons]. destruct (Hth w (ext_refl w) Hw) as [Hob _]. simpl in Hob.
  destruct e; simpl in Heff, Hob;
    try (destruct Heff as [-> _]; apply (f_equal length) in Hmail; simpl in Hmail; lia);
    [destruct Heff as [(_ & -> & _)|(? & _ & _ & -> & _)]; apply (f_equal length) in Hmail; simpl in Hmail; lia|].
  destruct Heff as [-> _]. simpl in Hmail. injection Hmail as -> ->. destruct Hob as [_ [a ->]].
  exists a. rewrite tokens_middle in Hnd, Hpend. simpl in *. split; [apply Hpend; set_solver|].
  intros n' tok'' Hin ->. apply NoDup_app in Hnd as (_ & Hdis & _).
  apply (Hdis (notification_path o n, a)); [set_solver|]. apply list_elem_of_omap. by eexists.
Qed.

(** C4: Every mail ever sent goes to a recipient of a batch whose content has the digest, size and
    row count its queue message names, under a manifest with the digest the message names that
    agrees with it on operation, release, version and commit. *)
Theorem mails_authorised s n tok :
  NewWorker o = Some o → reachable o allowed blobs s → (n, tok) ∈ w_mails (s_world s) → authorised o blobs n.
Proof.
  intros (_ & Hmax & _)%NewWorker_spec Hr Hin.
  pose proof (inv_reachable o allowed blobs ltac:(lia) s Hr) as [[_ Hw] _ _ _ _ _].
  rewrite Forall_forall in Hw. by apply (Hw _ Hin).
Qed.

Lemma delivery_notified s th res :
  NewWorker o = Some o → reachable o allowed blobs s → th ∈ s_threads s → th_prog th = Ret res →
  p_Disposition res = Complete →
  ∃ m rs, ParseQueueMessage (th_body th) (th_id th) = Ok m ∧ verified blobs m rs ∧
          Forall (notified o (s_world s) m) rs.
Proof.
  intros (_ & Hmax & _)%NewWorker_spec Hr Hin Hp Hc.
  pose proof (inv_reachable o allowed blobs ltac:(lia) s Hr) as [_ Hths _ _ _ _].
  rewrite Forall_forall in Hths. specialize (Hths _ Hin). rewrite Hp in Hths. by apply Hths.
Qed.

(** C3: A delivery that returns COMPLETE had a valid message and a verified batch, and for every
    recipient of the batch a receipt with status ACCEPTED or SIMULATED is committed. *)
Theorem complete_means_notified s th res :
  NewWorker o = Some o → reachable o allowed blobs s → th ∈ s_threads s → th_prog th = Ret res →
  p_Disposition res = Complete →
  ∃ m rs, ParseQueueMessage (th_body th) (th_id th) = Ok m ∧ verified blobs m rs ∧
          Forall (notified o (s_world s) m) rs.
Proof. apply delivery_notified. Qed.

(** C5: The stored history of a receipt is a run of the receipt machine: it starts with a claim,
    each document is one step after the previous one, and the attempt count stays within
    [MaxAttempts]; a document is never written over one its writer did not see. *)
Theorem history_is_run s p :
  NewWorker o = Some o → reachable o allowed blobs s → chain (wo_MaxAttempts o) (entries (s_world s) p).
Proof.
  intros (_ & Hmax & _)%NewWorker_spec Hr.
  pose proof (inv_reachable o allowed blobs ltac:(lia) s Hr) as [[Hw _] _ _ _ _ _]. apply Hw.
Qed.
End Guarantees.

(** ** An honest environment

    Requests are answered from the store, the mail provider accepts every mail in stub mode, and
    the clock stands still. *)

Section Honest.
Context (o : WorkerOptions) (allowed : list gostring) (blobs : gostring → gostring → gostring → option gostring).
Variable clock : Time.

Definition cond_holdsb (w : world) (p : gostring) (cond : condition) : bool :=
  match cond, latest w p with
  | IfNoneMatchStar, None => true
  | IfMatch etag, Some c => c_etag c =s etag
  | _, _ => false
  end.

Definition honest_etag (w : world) (p : gostring) : gostring := lit "etag-" ++ itoa (len (entries w p)).

Definition honest (e : event) (w : world) (tok : token) : option (answer e * world * token) :=
  match e return option (answer e * world * token) with
  | EClock => Some (clock, w, tok)
  | EDownloadReceipt p =>
    Some (match latest w p with
          | None => Err (AzStatus 404)
          | Some c => Ok (mkReceiptResponse (mkReader (c_body c) None) (Some (len (c_body c))) (Some (c_etag c))
                            [(lit "sha256", Some (sha256_hex (c_body c)))])
          end, w, tok)
  | EUploadReceipt p body _ _ cond =>
    let etag := honest_etag w p in
    if cond_holdsb w p cond && negb (existsb (str_eqb etag) (map c_etag (entries w p)))
    then Some (Ok tt, add_commit w (mkCommit p etag body), grant p body tok)
    else Some (Err (AzStatus 412), w, tok)
  | EDownloadBlob container name version =>
    Some (match blobs container name version with
          | None => BlobError (AzStatus 404)
          | Some content => BlobResponse (mkBlobResponse (Some (mkReader content None)) (Some (len content)) (Some version))
          end, w, tok)
  | ESend n => Some (mkMailResult MailSimulated 200 (lit "stub-1") [] 0, add_mail w n tok, None)
  | EAudit _ => Some (tt, w, tok)
  | EPanic => None
  end.

Fixpoint run_honest (fuel : nat) (w : world) (tok : token) (p : prog ProcessResult) : world * token * prog ProcessResult :=
  match fuel, p with
  | S f, Vis e k =>
    match honest e w tok with
    | Some (ans, w', tok') => run_honest f w' tok' (k ans)
    | None => (w, tok, p)
    end
  | _, _ => (w, tok, p)
  end.

Lemma cond_holdsb_spec w p cond : cond_holdsb w p cond = true → cond_holds w p cond.
Proof.
  unfold cond_holdsb, cond_holds, latest. destruct cond, (entries w p) as [|c l]; simpl; try done.
  intros H%str_eqb_eq. eauto.
Qed.

Lemma honest_effect e w tok ans w' tok' :
  honest e w tok = Some (ans, w', tok') → effect blobs e w tok ans w' tok'.
Proof.
  destruct e; cbn [honest effect]; cbv zeta; try (by intros [= <- <- <-]).
  - intros [= <- <- <-]. split; [done|]. split; [done|]. destruct (latest w path) as [c|] eqn:El; [|done].
    intros _. exists c. split; [done|]. split; [done|]. by intros etag [= <-].
  - destruct (cond_holdsb w path cond) eqn:Ec; cbn [andb]; [|intros [= <- <- <-]; by left].
    rewrite existsb_str_eqb. destruct (decide (honest_etag w path ∈ map c_etag (entries w path))) as [Hin|Hin].
    + rewrite bool_decide_eq_true_2 by done. intros [= <- <- <-]. by left.
    + rewrite bool_decide_eq_false_2 by done. intros [= <- <- <-]. right.
      exists (honest_etag w path). split; [by apply cond_holdsb_spec|]. done.
  - intros [= <- <- <-]. split; [done|]. split; [done|]. destruct (blobs container name version); [|done].
    intros body [= <-]. eexists. split; [done|]. split; [done|]. exists []. by rewrite app_nil_r.
Qed.

Lemma run_honest_steps fuel id body w tok p w' tok' p' :
  run_honest fuel w tok p = (w', tok', p') →
  rtc (step o allowed blobs) (mkSystem w [mkThread id body tok p]) (mkSystem w' [mkThread id body tok' p']).
Proof.
  revert w tok p; induction fuel as [|f IH]; intros w tok p; simpl; [by intros [= <- <- <-]|].
  destruct p as [a|e k]; [by intros [= <- <- <-]|].
  destruct (honest e w tok) as [[[ans w1] tok1]|] eqn:Eh; [|by intros [= <- <- <-]].
  intros H. eapply rtc_l; [|by apply IH]. apply (step_request o allowed blobs w []). by apply honest_effect.
Qed.

(** A delivery run by the honest environment is an execution of the system. *)
Lemma run_honest_reachable fuel id body w tok p :
  run_honest fuel (mkWorld [] []) None (worker_process o allowed id body) = (w, tok, p) →
  reachable o allowed blobs (mkSystem w [mkThread id body tok p]).
Proof. intros H. eapply rtc_l; [apply step_deliver|]. by eapply run_honest_steps. Qed.
End Honest.

Module Delivery.
Definition options : WorkerOptions :=
  mkOptions true true true true (repeat_byte "k"%char 32) (lit "k1") (lit "stub") true 5 (300 * Second).
Definition containers : list gostring := [lit "releases"; lit "batches"].
Definition version : gostring := lit "2026-01-02T03:04:05Z".

Definition dar : BlobReference := mkBlobReference (lit "releases") (lit "release-1/app.dar") Samples.digest 1024 version.
Definition manifest : PublishedManifest :=
  mkPublishedManifest dar (lit "app.dar") Samples.operation (lit "2026-01-02T03:04:05Z") (lit "release-1")
    (lit "1.2.3") (lit "org/repo") (lit "1.0") (repeat_byte "b"%char 40).
Definition manifest_content : gostring := Eval vm_compute in marshal_struct manifest.
Definition batch_content : gostring := Eval vm_compute in marshal_struct Samples.recipient ++ [newline].

Definition manifest_ref : BlobReference := Eval vm_compute in
  mkBlobReference (lit "releases") (lit "release-1/manifest.json") (sha256_hex manifest_content)
    (len manifest_content) version.
Definition batch_ref : BatchReference := Eval vm_compute in
  mkBatchReference 2 1 (lit "batches") (lit "release-1/batch-1.jsonl") 1 (sha256_hex batch_content)
    (len batch_content) version.
Definition message : QueueMessage :=
  mkQueueMessage (lit "https://d.example.internal/v1/releases/1.2.3/download/app.dar")
    (lit "2026-01-02T03:04:05Z") manifest_ref (Samples.operation ++ lit ":1") Samples.operation batch_ref
    (lit "release-1") (lit "1.2.3") (lit "1.0") (repeat_byte "b"%char 40).
Definition id : gostring := Samples.operation ++ lit ":1".
Definition body : gostring := Eval vm_compute in marshal_struct message.

Definition blobs (container name v : gostring) : option gostring :=
  if (container =s lit "releases") && (name =s lit "release-1/manifest.json") && (v =s version) then Some manifest_content
  else if (container =s lit "batches") && (name =s lit "release-1/batch-1.jsonl") && (v =s version) then Some batch_content
  else None.

(** The delivery after [fuel] requests. *)
Definition after (fuel : nat) : world * token * prog ProcessResult :=
  run_honest blobs ReceiptSamples.now fuel (mkWorld [] []) None (worker_process options containers id body).
Definition world_after (fuel : nat) : world := fst (fst (after fuel)).
Definition system_after (fuel : nat) : system :=
  mkSystem (world_after fuel) [mkThread id body (snd (fst (after fuel))) (snd (after fuel))].
End Delivery.

Lemma delivery_reachable fuel : reachable Delivery.options Delivery.containers Delivery.blobs (Delivery.system_after fuel).
Proof.
  unfold Delivery.system_after, Delivery.world_after. destruct (Delivery.after fuel) as [[w tok] p] eqn:E. by eapply run_honest_reachable.
Qed.

Lemma run_honest_S blobs clock fuel w tok p :
  run_honest blobs clock (S fuel) w tok p =
  let '(w1, tok1, p1) := run_honest blobs clock fuel w tok p in run_honest blobs clock 1 w1 tok1 p1.
Proof.
  revert w tok p; induction fuel as [|f IH]; intros w tok p; [done|].
  destruct p as [a|e k]; [done|]. cbn [run_honest] in *.
  destruct (honest blobs clock e w tok) as [[[ans w1] tok1]|] eqn:Eh; [apply IH|]. cbn [run_honest]. by rewrite Eh.
Qed.

(** One more request of the sample delivery is one step of the system. *)
Lemma delivery_step fuel :
  match snd (Delivery.after fuel) with
  | Vis e _ => match e with EPanic => False | _ => True end
  | Ret _ => False
  end →
  step Delivery.options Delivery.containers Delivery.blobs (Delivery.system_after fuel) (Delivery.system_after (S fuel)).
Proof.
  unfold Delivery.system_after, Delivery.world_after, Delivery.after. rewrite run_honest_S.
  destruct (run_honest _ _ fuel _ _ _) as [[w tok] p]. simpl. destruct p as [a|e k]; [done|]. intros He.
  cbn [run_honest]. destruct (honest Delivery.blobs ReceiptSamples.now e w tok) as [[[ans w1] tok1]|] eqn:Eh.
  - apply (step_request _ _ _ w []). eapply honest_effect, Eh.
  - exfalso. destruct e; try done; cbn [honest] in Eh; cbv zeta in Eh; by destruct (_ && _).
Qed.

Definition sample_notification : Notification :=
  notification_for Delivery.options Delivery.message Samples.recipient.
Definition sample_path : gostring := notification_path Delivery.options sample_notification.

Definition delivered : ProcessResult := mkProcessResult Complete [] 1 0 0.
Definition next_event (p : prog ProcessResult) : option event := match p with Vis e _ => Some e | Ret _ => None end.

Definition world_12 : world := Eval vm_compute in Delivery.world_after 12.
Definition world_40 : world := Eval vm_compute in Delivery.world_after 40.

(** The sample delivery completes with one mail and three committed receipts. *)
Lemma delivery_completes : Delivery.after 40 = (world_40, None, Ret delivered).
Proof. vm_compute. reflexivity. Qed.

Lemma world_40_mails : w_mails world_40 = [(sample_notification, Some (sample_path, 1))].
Proof. vm_compute. reflexivity. Qed.

(** After eleven requests the mail is the next one. *)
Lemma delivery_sends : next_event (snd (Delivery.after 11)) = Some (ESend sample_notification).
Proof. vm_compute. reflexivity. Qed.

Lemma world_11_mails : Delivery.world_after 11 = mkWorld (w_log world_12) [].
Proof. vm_compute. reflexivity. Qed.

Lemma world_12_mails : Delivery.world_after 12 = mkWorld (w_log world_12) [(sample_notification, Some (sample_path, 1))].
Proof. vm_compute. reflexivity. Qed.

(** ** The guarantees on the sample delivery *)

Lemma mails_bounded_witness :
  len (mails_at Delivery.options (s_world (Delivery.system_after 40)) sample_path) = 1 ∧
  len (mails_at Delivery.options (s_world (Delivery.system_after 40)) sample_path) ≤ 5 ≤ 5.
Proof.
  split; [|exact (mails_bounded Delivery.options Delivery.containers Delivery.blobs _ _ eq_refl (delivery_reachable 40))].
  unfold mails_at, Delivery.system_after, Delivery.world_after. rewrite delivery_completes. cbn [fst snd s_world]. rewrite world_40_mails.
  cbn [List.filter fst]. unfold sample_path. by rewrite str_eqb_refl.
Defined.

Lemma mail_only_when_started_witness :
  ∃ a, pending (s_world (Delivery.system_after 11)) sample_path a ∧
       ∀ n' tok', (n', tok') ∈ w_mails (s_world (Delivery.system_after 11)) → tok' ≠ Some (sample_path, a).
Proof.
  refine (mail_only_when_started Delivery.options Delivery.containers Delivery.blobs _ (Delivery.system_after 12)
    sample_notification (Some (sample_path, 1)) eq_refl (delivery_reachable 11) (delivery_step 11 _) _).
  - pose proof delivery_sends as Hn. destruct (snd (Delivery.after 11)) as [|e]; [done|].
    cbn [next_event] in Hn. by injection Hn as ->.
  - unfold Delivery.system_after. cbn [s_world].
    rewrite world_12_mails, world_11_mails. reflexivity.
Defined.

Lemma mails_authorised_witness : authorised Delivery.options Delivery.blobs sample_notification.
Proof.
  refine (mails_authorised Delivery.options Delivery.containers Delivery.blobs (Delivery.system_after 40) _
    (Some (sample_path, 1)) eq_refl (delivery_reachable 40) _).
  unfold Delivery.system_after, Delivery.world_after. rewrite delivery_completes. cbn [fst snd s_world]. rewrite world_40_mails. constructor.
Defined.

Lemma complete_means_notified_witness :
  ∃ m rs, ParseQueueMessage Delivery.body Delivery.id = Ok m ∧ verified Delivery.blobs m rs ∧
          Forall (notified Delivery.options (s_world (Delivery.system_after 40)) m) rs.
Proof.
  refine (complete_means_notified Delivery.options Delivery.containers Delivery.blobs (Delivery.system_after 40)
    (mkThread Delivery.id Delivery.body None (Ret delivered)) delivered eq_refl (delivery_reachable 40) _ eq_refl eq_refl).
  unfold Delivery.system_after, Delivery.world_after. rewrite delivery_completes. constructor.
Defined.

Lemma history_is_run_witness :
  chain 5 (entries (s_world (Delivery.system_after 40)) sample_path).
Proof.
  exact (history_is_run Delivery.options Delivery.containers Delivery.blobs _ _ eq_refl (delivery_reachable 40)).
Defined.

(** ** Three reads of a batch

    The batch is read to verify it, to count its rows and to notify its recipients. A read that storage
    cannot answer gives the message back for another delivery, except the second one: then the
    message is dead. Reads are numbered from zero, the manifest first; the one with the number
    [failing] is answered with status 503. *)
Definition batch_reads (failing : nat) (reads : nat) (e : event) : option (answer e) :=
  match e return option (answer e) with
  | EClock => Some ReceiptSamples.now
  | EAudit _ => Some tt
  | EDownloadBlob container name version =>
    if Nat.eqb reads failing then Some (BlobError (AzStatus 503))
    else (λ content, BlobResponse (mkBlobResponse (Some (mkReader content None)) (Some (len content)) (Some version))) <$>
      Delivery.blobs container name version
  | _ => None
  end.
Definition count_reads (reads : nat) (e : event) (_ : answer e) : nat :=
  match e with EDownloadBlob _ _ _ => S reads | _ => reads end.
Definition delivery_failing (failing : nat) : option ProcessResult :=
  snd (play count_reads (batch_reads failing) (worker_process Delivery.options Delivery.containers Delivery.id Delivery.body) 0%nat).

Lemma transient_open_dead_letters :
  delivery_failing 1 = Some (result_of Abandon (lit "BLOB_UNAVAILABLE") Second) ∧
  delivery_failing 2 = Some (result_of DeadLetter (lit "REFERENCED_BLOB_INVALID") 0) ∧
  delivery_failing 3 = Some (result_of Abandon (lit "BLOB_UNAVAILABLE") Second).
Proof. vm_compute. done. Qed.
