(* ===== verification/NoPanic.v ===== *)
(** * Deliveries do not panic

    [Process] slices the recipient identifier of the receipt it has just written and read back. This
    file shows that no answer of storage, of the mail provider or of the clock makes that slice
    panic: storage may answer anything, a receipt that is used has passed [ParseReceipt]. Nothing is
    assumed of the environment. *)

From S2P Require Import Prelude Utf8 GoStrings Regex GoTime Json StrictJson Sha256 Url Contracts Receipt Program Azure Effects Worker AzureStorage Protocol Guarantees.

(** [calm p Q]: whatever is answered, [p] makes no request that is a panic, and its result satisfies [Q]. *)
Definition calm {A} (p : prog A) (Q : A → Prop) : Prop :=
  meets (S := unit) (λ _ _ _, True) (λ _ e, e ≠ EPanic) (λ s _ _, s) p tt (λ a _, Q a).

Lemma calm_ret {A} (a : A) (Q : A → Prop) : Q a → calm (Ret a) Q.
Proof. done. Qed.

Lemma calm_bind {A B} (p : prog A) (f : A → prog B) (P : A → Prop) (Q : B → Prop) :
  calm p P → (∀ a, P a → calm (f a) Q) → calm (p ≫= f) Q.
Proof. intros Hp Hf. apply meets_bind. eapply meets_weaken; [exact Hp|]. intros a [] Ha. by apply Hf. Qed.

Lemma calm_weaken {A} (p : prog A) (P Q : A → Prop) : calm p P → (∀ a, P a → Q a) → calm p Q.
Proof. intros Hp H. eapply meets_weaken; [exact Hp|]. intros a []. apply H. Qed.

Lemma calm_request {B} e (f : answer e → prog B) (Q : B → Prop) :
  e ≠ EPanic → (∀ x, calm (f x) Q) → calm (trigger e ≫= f) Q.
Proof. intros He Hf. apply meets_request; [done|]. intros x _. apply Hf. Qed.

Lemma calm_trigger e : e ≠ EPanic → calm (trigger e) (λ _, True).
Proof. by split. Qed.

(** Walks through the branches of a program whose requests are not panics. *)
Ltac calm_walk := repeat first [ exact I | apply calm_request; [done|intros ?] | case_match ].

(** ** The adapters *)

(** A receipt that storage handed out. *)
Definition parsed (r : result error StoredReceipt) : Prop :=
  ∀ stored, r = Ok stored → match_string digestPattern (RecipientID (st_Receipt stored)) = true.

Lemma ParseReceipt_recipient raw r : ParseReceipt raw = Ok r → match_string digestPattern (RecipientID r) = true.
Proof. intros (_ & Hv & _)%ParseReceipt_valid. apply validate_spec in Hv. apply Hv. Qed.

Lemma calm_Get path : calm (azure_Get path) (λ r, ∀ stored, r = Ok (Some stored) → parsed (Ok stored)).
Proof.
  unfold azure_Get. case_match; [apply calm_ret; done|]. apply calm_request; [done|]. intros [response|e].
  2: { case_match; apply calm_ret; done. }
  repeat case_match; apply calm_ret; try done. intros stored [= <-] stored' [= <-]. by eapply ParseReceipt_recipient.
Qed.

Lemma calm_put path receipt cond : calm (put path receipt cond) parsed.
Proof.
  unfold put. case_match; [apply calm_ret; done|]. case_match; [|apply calm_ret; done]. apply calm_request; [done|]. intros [u|e].
  2: { cbv zeta. case_match; apply calm_ret; done. }
  eapply calm_bind; [apply calm_Get|]. intros [[stored|]|e] Hs; [|apply calm_ret; done..].
  case_match; apply calm_ret; [by apply Hs|done].
Qed.

Lemma calm_Create path receipt : calm (Create path receipt) parsed.
Proof. apply calm_put. Qed.

Lemma calm_Replace path etag receipt : calm (Replace path etag receipt) parsed.
Proof. cbn [Replace azure_receipt_store]. unfold azure_Replace. case_match; [apply calm_ret; done|apply calm_put]. Qed.

Section Deliveries.
Context (o : WorkerOptions) (allowed : list gostring).
#[local] Existing Instance azure_receipt_store.
#[local] Existing Instance event_mailer.

Lemma calm_download r : calm (download allowed r) (λ _, True).
Proof. unfold download. calm_walk. Qed.

Lemma calm_audit name r : calm (audit o name r) (λ _, True).
Proof. unfold audit. case_match; [by apply calm_trigger|exact I]. Qed.

(** ** One recipient *)

Lemma calm_send_and_record message recipient recipientID path now stored :
  calm (send_and_record o message recipient recipientID path now stored) (λ _, True).
Proof.
  unfold send_and_record. case_match; [|exact I]. eapply calm_bind; [apply calm_Replace|]. intros [stored'|e] Hs; [|exact I].
  eapply calm_bind; [apply calm_audit|]. intros _ _. apply calm_request; [done|]. intros mail.
  destruct (applyMailResult (st_Receipt stored') mail now) as [[[[updated disposition] reason] retryAfter]|] eqn:E.
  - case_match; [exact I|]. eapply calm_bind; [apply calm_Replace|]. intros [stored''|e] _; [|exact I].
    eapply calm_bind; [apply calm_audit|]. intros _ _. exact I.
  - exfalso. unfold applyMailResult in E. repeat (case_if_in E; [try discriminate E|]); [|discriminate E].
    destruct (retryDelay (st_Receipt stored') mail) eqn:Ed; [discriminate E|]. by apply (retryDelay_total (st_Receipt stored') mail (Hs _ eq_refl)).
Qed.

Lemma calm_retry_receipt message recipient recipientID path now stored :
  calm (retry_receipt o message recipient recipientID path now stored) (λ _, True).
Proof.
  unfold retry_receipt. case_match.
  - case_match; [|exact I]. eapply calm_bind; [apply calm_Replace|]. intros [s|e] _; [|exact I].
    eapply calm_bind; [apply calm_audit|]. intros _ _. exact I.
  - assert (Hr : calm (match Reclaim (st_Receipt stored) now (wo_MaxAttempts o) with
      | Err _ => Ret (abandon (lit "RECEIPT_CONFLICT"))
      | Ok reclaimed =>
        r ← Replace path (st_ETag stored) reclaimed;
        match r with
        | Err _ => Ret (abandon (lit "RECEIPT_CONFLICT"))
        | Ok stored => send_and_record o message recipient recipientID path now stored
        end
      end) (λ _, True)).
    { case_match; [|exact I]. eapply calm_bind; [apply calm_Replace|]. intros [s|e] _; [apply calm_send_and_record|exact I]. }
    destruct (NextAttemptAt _) as [text|]; [|exact Hr]. destruct (parseTime text); [|exact I]. destruct (time_before _ _); [exact I|exact Hr].
Qed.

Lemma calm_recover_receipt message recipient recipientID path now stored :
  calm (recover_receipt o message recipient recipientID path now stored) (λ _, True).
Proof.
  unfold recover_receipt. case_match; [|exact I]. eapply calm_bind; [apply calm_Replace|]. intros [s|e] _; [|exact I].
  case_match; [|apply calm_send_and_record]. eapply calm_bind; [apply calm_audit|]. intros _ _. exact I.
Qed.

Lemma calm_dispatch_receipt message recipient recipientID path now stored owned :
  calm (dispatch_receipt o message recipient recipientID path now stored owned) (λ _, True).
Proof.
  unfold dispatch_receipt. cbv zeta. case_match; [exact I|]. case_match; [exact I|]. case_match; [exact I|].
  case_match; [apply calm_retry_receipt|]. case_match; [|exact I]. destruct owned; [apply calm_send_and_record|apply calm_recover_receipt].
Qed.

Lemma calm_processRecipient message recipient : calm (processRecipient o message recipient) (λ _, True).
Proof.
  unfold processRecipient. apply calm_request; [done|]. intros clock. eapply calm_bind; [apply calm_Get|].
  intros [[stored|]|e] _; [apply calm_dispatch_receipt| |exact I]. case_match; [|exact I].
  eapply calm_bind; [apply calm_Create|]. intros [stored|[]] _; try exact I; [apply calm_dispatch_receipt|].
  eapply calm_bind; [apply calm_Get|]. intros [[stored|]|e] _; [apply calm_dispatch_receipt|exact I..].
Qed.

(** ** Rows and messages *)

Lemma calm_scan_loop {S} (process : S → Recipient → prog (S * option error)) rows count s :
  (∀ s r, calm (process s r) (λ _, True)) → calm (scan_loop process rows count s) (λ _, True).
Proof.
  intros Hp. revert count s. induction rows as [|raw rows IH]; intros count s; cbn [scan_loop]; [exact I|].
  case_match; [exact I|]. case_match; [|exact I]. eapply calm_bind; [apply Hp|]. intros [s' [e|]] _; [exact I|apply IH].
Qed.

Lemma calm_scanRecipientRows {S} reader (process : S → Recipient → prog (S * option error)) s :
  (∀ s r, calm (process s r) (λ _, True)) → calm (scanRecipientRows reader process s) (λ _, True).
Proof.
  intros Hp. unfold scanRecipientRows. case_match. eapply calm_bind; [by apply calm_scan_loop|]. intros [s' [n|e]] _; [|exact I].
  case_match; exact I.
Qed.

Lemma calm_process_row message result recipient : calm (process_row o message result recipient) (λ _, True).
Proof.
  unfold process_row. eapply calm_bind; [apply calm_processRecipient|]. intros [r|] _; [|exact I]. cbv zeta. case_match; exact I.
Qed.

Lemma calm_Process id body : calm (worker_process o allowed id body) (λ _, True).
Proof.
  unfold worker_process, Process. case_match; [|exact I].
  eapply (calm_bind _ _ (λ _, True)).
  { cbn [ReadSmall azure_blob_store]. unfold azure_ReadSmall. case_match; [exact I|]. eapply calm_bind; [apply calm_download|].
    intros [b|e] _; [|exact I]. repeat case_match; exact I. }
  intros [manifestBody|e] _; [|exact I]. case_match; [|exact I]. case_match; [exact I|]. cbv zeta.
  eapply (calm_bind _ _ (λ _, True)).
  { cbn [Verify azure_blob_store]. unfold azure_Verify. eapply calm_bind; [apply calm_download|].
    intros [b|e] _; [|exact I]. cbv zeta. case_match; exact I. }
  intros [u|e] _; [|exact I]. eapply (calm_bind _ _ (λ _, True)).
  { unfold validateBatch. eapply calm_bind; [apply calm_download|]. intros [reader|e] _; [|exact I].
    eapply calm_bind; [apply calm_scanRecipientRows; done|]. intros [n err] _. case_match; exact I. }
  intros [v|e] _; [|exact I]. unfold process_batch. eapply calm_bind; [apply calm_download|]. intros [reader|e] _; [|exact I].
  eapply calm_bind; [apply calm_scanRecipientRows, calm_process_row|]. intros [r [[]|]] _; exact I.
Qed.

(** Every request but a panic has an answer. *)
Lemma answered (s : unit) e : e ≠ EPanic → ∃ x : answer e, True.
Proof.
  destruct e; intros He; try done;
    first [by exists (mkTime 0 true)|by exists (Err AzOther)|by exists BlobURLError|by exists (mkMailResult [] 0 [] [] 0)|by exists tt].
Qed.

End Deliveries.

