(* ===== verification/GoHttp.v ===== *)
(** * net/http

    The header map of a request or a response. *)

From stdpp Require Import strings.
From S2P Require Import Prelude Utf8 GoStrings.

(** [http.Header]: a map from canonical names to values. *)
Abbreviation Header := (gmap gostring (list gostring)).

(** [validHeaderFieldByte]: the token characters of RFC 9110. *)
Definition validHeaderFieldByte (c : ascii) : bool :=
  between 97 122 c || between 65 90 c || is_digit c || contains_byte c (lit "!#$%&'*+-.^_`|~").

Definition upper_byte (c : ascii) : ascii := if between 97 122 c then byte (code c - 32) else c.

Fixpoint canonical_from (upper : bool) (s : gostring) : gostring :=
  match s with
  | [] => []
  | c :: t => (if upper then upper_byte c else lower_byte c) :: canonical_from (Ascii.eqb c "-"%char) t
  end.

(** [CanonicalHeaderKey]: a name that is not a token is left as it is. *)
Definition CanonicalHeaderKey (name : gostring) : gostring :=
  if forallb validHeaderFieldByte name then canonical_from true name else name.

(** [Header.Values], [Header.Set]. *)
Definition header_values (h : Header) (name : gostring) : list gostring := default [] (h !! CanonicalHeaderKey name).
Definition header_set (name value : gostring) (h : Header) : Header := <[CanonicalHeaderKey name := [value]]> h.

(** [strings.ToUpper], exact on ASCII and on the two other code points whose upper case is ASCII
    (U+0131 and the long s). Every other code point beyond ASCII is left as it is, where Go maps it
    to some code point beyond ASCII; the callers only look for an ASCII prefix. *)
Definition upper_rune (r : rune) : gostring :=
  match r with
  | RBad _ => runeErrorBytes
  | RValid cp raw =>
    if (97 <=? cp) && (cp <=? 122) then [byte (cp - 32)]
    else if cp =? 0x131 then [byte 0x49]
    else if cp =? 0x17F then [byte 0x53]
    else raw
  end.
Definition to_upper (s : gostring) : gostring := flat_map upper_rune (runes s).

Lemma header_values_set_eq h name value : header_values (header_set name value h) name = [value].
Proof. unfold header_values, header_set. by rewrite lookup_insert_eq. Qed.

Lemma header_values_set_ne h n1 n2 value :
  CanonicalHeaderKey n1 ≠ CanonicalHeaderKey n2 → header_values (header_set n1 value h) n2 = header_values h n2.
Proof. intros. unfold header_values, header_set. by rewrite lookup_insert_ne. Qed.

Example canonical_key_1 : CanonicalHeaderKey (lit "X-MS-CLIENT-PRINCIPAL-ID") = lit "X-Ms-Client-Principal-Id" ∧
  CanonicalHeaderKey (lit "ETag") = lit "Etag" ∧ CanonicalHeaderKey (lit "x y") = lit "x y".
Proof. by vm_compute. Qed.
