(* ===== verification/Config.v ===== *)
(** * internal/config/config.go

    The fail-closed runtime policy of the download service: [ParseEnvironment] builds a [Config]
    from the environment or refuses it. *)

From stdpp Require Import strings.
From S2P Require Import Prelude Utf8 GoStrings Regex Json StrictJson Url.

(** ** Names and limits *)

Definition TrustedIdentityModeEnv : gostring := lit "DAR_DOWNLOAD_TRUSTED_IDENTITY_MODE".
Definition OIDCIssuerEnv : gostring := lit "DAR_DOWNLOAD_OIDC_ISSUER".
Definition OIDCProviderNameEnv : gostring := lit "DAR_DOWNLOAD_OIDC_PROVIDER_NAME".
Definition AzureContainerAppsTenantIDEnv : gostring := lit "DAR_DOWNLOAD_AZURE_CONTAINER_APPS_TENANT_ID".
Definition StorageAccountNameEnv : gostring := lit "DAR_DOWNLOAD_STORAGE_ACCOUNT_NAME".
Definition StorageContainerEnv : gostring := lit "DAR_DOWNLOAD_STORAGE_CONTAINER".
Definition ManagedIdentityClientIDEnv : gostring := lit "DAR_DOWNLOAD_MANAGED_IDENTITY_CLIENT_ID".
Definition PortEnv : gostring := lit "DAR_DOWNLOAD_PORT".
Definition obsoleteReleasesJSONEnv : gostring := lit "DAR_DOWNLOAD_RELEASES_JSON".
Definition azureContainerAppsIssuerPrefix : gostring := lit "https://login.microsoftonline.com/".
Definition azureContainerAppsIssuerSuffix : gostring := lit "/v2.0".
Definition azureContainerAppsEntraIDP : gostring := lit "aad".

Definition DefaultPort : Z := 8000.
Definition MaxOIDCIssuerBytes : Z := 2048.
Definition MaxOIDCProviderNameBytes : Z := 32.
Definition MaxOIDCSubjectBytes : Z := 255.
Definition MaxObjectSize : Z := 256 * 1024 * 1024.
Definition MaxStorageSegment : Z := 4 * 1024 * 1024.

Import Class_.
Definition uuidPattern : re :=
  RSeq [RCount hex 8 8; RLit "-"; RCount hex 4 4; RLit "-"; RCount hex 4 4; RLit "-"; RCount hex 4 4; RLit "-";
        RCount hex 12 12].
Definition oidcProviderNamePattern : re := RPlus (RClass alnum).
Definition storageAccountPattern : re := RCount lower_digit 3 24.
Definition containerPattern : re :=
  RSeq [RClass lower_digit; RCount (plus lower_digit (lit "-")) 1 61; RClass lower_digit].

(** [TrustedIdentityMode], a Go string type. *)
Definition TrustedIdentityModeOIDCHeaders : gostring := lit "oidc_headers".
Definition TrustedIdentityModeAzureContainerApps : gostring := lit "azure_container_apps".
Definition TrustedIdentityModeAzureContainerAppsOIDC : gostring := lit "azure_container_apps_oidc".

Inductive config_error : Type := ErrInvalid.

Record Config : Type := mkConfig {
  c_TrustedIdentityMode : gostring; c_OIDCIssuer : gostring; c_OIDCProviderName : gostring;
  c_AzureContainerAppsTenantID : gostring; c_StorageAccountName : gostring; c_StorageContainer : gostring;
  c_ManagedIdentityClientID : gostring; c_Port : Z }.

(** ** Validation *)

Definition validControlFree (value : gostring) : bool := forallb (λ r, negb (is_control (rune_cp r))) (runes value).

Definition validBoundedText (value : gostring) (maximumBytes : Z) : bool :=
  negb (value =s []) && (len value <=? maximumBytes) && utf8_valid value && validControlFree value.

Definition validContainerName (value : gostring) : bool :=
  if negb (match_string containerPattern value) then false else negb (contains (lit "--") value).

Definition IsCanonicalUUID (value : gostring) : bool := match_string uuidPattern value.

Definition IsAzureContainerAppsIssuer (value tenantID : gostring) : bool :=
  IsCanonicalUUID tenantID && (value =s azureContainerAppsIssuerPrefix ++ tenantID ++ azureContainerAppsIssuerSuffix).

(** [IsValidOIDCIssuer]. A fragment that is not empty decodes to a [Fragment] that is not empty, so
    the code's test of [RawFragment] never decides. *)
Definition IsValidOIDCIssuer (value : gostring) : bool :=
  if negb (validBoundedText value MaxOIDCIssuerBytes) then false
  else match url_parse value with
  | None => false
  | Some parsed =>
    if negb (u_scheme parsed =s lit "https") || (u_host parsed =s []) || (Hostname parsed =s []) ||
       bool_decide (u_user parsed ≠ None) || negb (u_opaque parsed =s []) || negb (u_raw_query parsed =s []) ||
       u_force_query parsed || negb (u_fragment parsed =s []) || negb (url_string parsed =s value)
    then false
    else validControlFree (u_path parsed)
  end.

Definition IsValidOIDCSubject (value : gostring) : bool := validBoundedText value MaxOIDCSubjectBytes.

Definition IsValidOIDCProviderName (value : gostring) : bool :=
  (1 <=? len value) && (len value <=? MaxOIDCProviderNameBytes) && match_string oidcProviderNamePattern value &&
  negb (equal_fold value azureContainerAppsEntraIDP).

(** ** The environment *)

Abbreviation environment := (gmap gostring gostring).

(** Reading a Go map: the zero value for a missing key. *)
Definition env_get (env : environment) (name : gostring) : gostring := default [] (env !! name).

Definition is_set (env : environment) (name : gostring) : bool := bool_decide (env !! name ≠ None).

Definition required : list gostring :=
  [OIDCIssuerEnv; StorageAccountNameEnv; StorageContainerEnv; ManagedIdentityClientIDEnv].

(** The switch on the mode: lines 158 to 173. *)
Definition mode_accepted (env : environment) (mode : gostring) : bool :=
  let azureTenantID := env_get env AzureContainerAppsTenantIDEnv in
  let azureTenantPresent := is_set env AzureContainerAppsTenantIDEnv in
  let oidcProviderName := env_get env OIDCProviderNameEnv in
  let oidcProviderPresent := is_set env OIDCProviderNameEnv in
  if mode =s TrustedIdentityModeOIDCHeaders then negb (negb (azureTenantID =s []) || oidcProviderPresent)
  else if mode =s TrustedIdentityModeAzureContainerApps then
    negb (oidcProviderPresent || negb (IsAzureContainerAppsIssuer (env_get env OIDCIssuerEnv) azureTenantID))
  else if mode =s TrustedIdentityModeAzureContainerAppsOIDC then
    negb (azureTenantPresent || negb oidcProviderPresent || negb (IsValidOIDCProviderName oidcProviderName))
  else false.

(** The port: lines 175 to 182. *)
Definition parsePort (env : environment) : result config_error Z :=
  match env !! PortEnv with
  | None => Ok DefaultPort
  | Some rawPort =>
    match parse_int rawPort with
    | None => Err ErrInvalid
    | Some parsed => if (parsed <? 1) || (65535 <? parsed) then Err ErrInvalid else Ok parsed
    end
  end.

Definition ParseEnvironment (env : environment) : result config_error Config :=
  if is_set env obsoleteReleasesJSONEnv then Err ErrInvalid
  else if existsb (λ name, trim_space (env_get env name) =s []) required then Err ErrInvalid
  else if negb (IsValidOIDCIssuer (env_get env OIDCIssuerEnv)) ||
          negb (IsCanonicalUUID (env_get env ManagedIdentityClientIDEnv)) ||
          negb (match_string storageAccountPattern (env_get env StorageAccountNameEnv)) ||
          negb (validContainerName (env_get env StorageContainerEnv))
  then Err ErrInvalid
  else
    let mode := env_get env TrustedIdentityModeEnv in
    let mode := if mode =s [] then TrustedIdentityModeOIDCHeaders else mode in
    if negb (mode_accepted env mode) then Err ErrInvalid
    else match parsePort env with
    | Err e => Err e
    | Ok port =>
      Ok (mkConfig mode (env_get env OIDCIssuerEnv) (env_get env OIDCProviderNameEnv)
            (env_get env AzureContainerAppsTenantIDEnv) (env_get env StorageAccountNameEnv)
            (env_get env StorageContainerEnv) (env_get env ManagedIdentityClientIDEnv) port)
    end.

(** [LoadEnvironment], over [os.LookupEnv]. *)
Definition LoadEnvironment (lookupEnv : gostring → option gostring) : result config_error Config :=
  let read env name := match lookupEnv name with Some value => <[name := value]> env | None => env end in
  ParseEnvironment
    (fold_left read
       [TrustedIdentityModeEnv; OIDCIssuerEnv; OIDCProviderNameEnv; AzureContainerAppsTenantIDEnv;
        StorageAccountNameEnv; StorageContainerEnv; ManagedIdentityClientIDEnv; obsoleteReleasesJSONEnv; PortEnv] ∅).

(** ** What an accepted policy is *)

Definition account_name (s : gostring) : Prop := 3 ≤ len s ≤ 24 ∧ forallb lower_digit s = true.

(** The naming rules of Azure containers. *)
Definition container_name (s : gostring) : Prop :=
  3 ≤ len s ≤ 63 ∧ (∃ a t b, s = a :: t ++ [b] ∧ lower_digit a = true ∧ lower_digit b = true) ∧
  forallb (plus lower_digit (lit "-")) s = true ∧ contains (lit "--") s = false.

(** The identity boundaries: each mode has exactly the parameters it uses. *)
Inductive boundary (issuer : gostring) : gostring → gostring → gostring → Prop :=
| boundary_headers : boundary issuer TrustedIdentityModeOIDCHeaders [] []
| boundary_entra tenant :
    IsCanonicalUUID tenant = true →
    issuer = azureContainerAppsIssuerPrefix ++ tenant ++ azureContainerAppsIssuerSuffix →
    boundary issuer TrustedIdentityModeAzureContainerApps tenant []
| boundary_provider provider :
    IsValidOIDCProviderName provider = true →
    boundary issuer TrustedIdentityModeAzureContainerAppsOIDC [] provider.

Record config_wf (c : Config) : Prop := {
  wf_issuer : IsValidOIDCIssuer (c_OIDCIssuer c) = true;
  wf_client : IsCanonicalUUID (c_ManagedIdentityClientID c) = true;
  wf_account : account_name (c_StorageAccountName c);
  wf_container : container_name (c_StorageContainer c);
  wf_boundary : boundary (c_OIDCIssuer c) (c_TrustedIdentityMode c) (c_AzureContainerAppsTenantID c) (c_OIDCProviderName c);
  wf_port : 1 ≤ c_Port c ≤ 65535 }.

(** An environment that asks for a configuration. *)
Record describes (env : environment) (c : Config) : Prop := {
  d_obsolete : env !! obsoleteReleasesJSONEnv = None;
  d_issuer : env !! OIDCIssuerEnv = Some (c_OIDCIssuer c);
  d_account : env !! StorageAccountNameEnv = Some (c_StorageAccountName c);
  d_container : env !! StorageContainerEnv = Some (c_StorageContainer c);
  d_client : env !! ManagedIdentityClientIDEnv = Some (c_ManagedIdentityClientID c);
  d_mode : env_get env TrustedIdentityModeEnv = c_TrustedIdentityMode c ∨
           (env_get env TrustedIdentityModeEnv = [] ∧ c_TrustedIdentityMode c = TrustedIdentityModeOIDCHeaders);
  d_tenant : env_get env AzureContainerAppsTenantIDEnv = c_AzureContainerAppsTenantID c ∧
             (c_TrustedIdentityMode c = TrustedIdentityModeAzureContainerAppsOIDC →
              env !! AzureContainerAppsTenantIDEnv = None);
  d_provider : if c_TrustedIdentityMode c =s TrustedIdentityModeAzureContainerAppsOIDC
               then env !! OIDCProviderNameEnv = Some (c_OIDCProviderName c)
               else env !! OIDCProviderNameEnv = None;
  d_port : match env !! PortEnv with
           | None => c_Port c = DefaultPort
           | Some raw => parse_int raw = Some (c_Port c)
           end }.

(** ** Lemmas *)

Lemma drop_while_snoc {A} (f : A → bool) l r : f r = false → ∃ l', drop_while f (l ++ [r]) = l' ++ [r].
Proof.
  intros Hr. induction l as [|a l [l' IH]]; simpl; [rewrite Hr; by exists []|].
  destruct (f a); [by exists l'|by exists (a :: l)].
Qed.

(** A text that starts with a visible ASCII character is not blank. *)
Lemma trim_space_visible c t : is_ascii c = true → is_space (code c) = false → trim_space (c :: t) ≠ [].
Proof.
  intros Ha Hs. unfold trim_space, trim_both. rewrite runes_ascii by done. cbn [drop_while rune_cp].
  rewrite Hs. cbn [rev]. destruct (drop_while_snoc (λ r, is_space (rune_cp r)) (rev (runes t)) (RValid (code c) [c])) as [l ->]; [done|].
  rewrite rev_app_distr. done.
Qed.

Lemma pattern_visible r s :
  re_chars (λ c, is_ascii c && negb (is_space (code c))) r = true → (1 ≤ re_minlen r)%nat → match_string r s = true →
  trim_space s ≠ [].
Proof.
  intros Hr Hl Hm. pose proof (match_string_chars _ _ _ Hr Hm) as Hc.
  destruct s as [|c t]; [by pose proof (match_string_nonempty r [] Hl Hm)|]. simpl in Hc. breflect.
  destruct Hc as [[??] _]. by apply trim_space_visible.
Qed.

Lemma issuer_visible s : IsValidOIDCIssuer s = true → trim_space s ≠ [].
Proof.
  unfold IsValidOIDCIssuer. intros H. case_if_in H; [done|]. destruct (url_parse s) as [u|]; [|done].
  case_if_in H; [done|]. breflect. destruct E0 as [[[[[[[[E0 _] _] _] _] _] _] _] <-]. unfold url_string. rewrite E0.
  by apply trim_space_visible.
Qed.

Lemma storageAccount_spec s : match_string storageAccountPattern s = true ↔ account_name s.
Proof.
  unfold storageAccountPattern, account_name, len. rewrite match_string_count. split; intros [? ?]; split; done || lia.
Qed.

Lemma matches_ends p q lo hi s :
  matches (RSeq [RClass p; RCount q lo hi; RClass p]) s ↔
  ∃ a t b, s = a :: t ++ [b] ∧ p a = true ∧ p b = true ∧ (lo ≤ length t ≤ hi)%nat ∧ forallb q t = true.
Proof.
  unfold RSeq. cbn [fold_right]. rewrite !matches_cat. setoid_rewrite matches_cat. setoid_rewrite matches_cat.
  setoid_rewrite matches_class. setoid_rewrite matches_count. setoid_rewrite matches_eps. setoid_rewrite forallb_Forall.
  split.
  - intros (u & v & -> & (a & -> & Ha) & t & v' & -> & [Hl Ht] & w & e & -> & (b & -> & Hb) & ->).
    exists a, t, b. by rewrite app_nil_r.
  - intros (a & t & b & -> & Ha & Hb & Hl & Ht). exists [a], (t ++ [b]). split; [done|]. split; [by exists a|].
    exists t, [b]. split; [done|]. split; [done|]. exists [b], []. split; [done|]. split; [by exists b|done].
Qed.

Lemma validContainerName_spec s : validContainerName s = true ↔ container_name s.
Proof.
  assert (Hplus : ∀ c, lower_digit c = true → plus lower_digit (lit "-") c = true).
  { intros c H. unfold plus. by rewrite H. }
  unfold validContainerName, container_name, containerPattern. destruct (match_string _ s) eqn:E; cbn [negb].
  - apply match_string_spec, matches_ends in E as (a & t & b & -> & Ha & Hb & Hl & Ht). rewrite negb_true_iff.
    assert (Hlen : 3 ≤ len (a :: t ++ [b]) ≤ 63) by (rewrite len_cons, len_app; unfold len; simpl; lia).
    assert (Hch : forallb (plus lower_digit (lit "-")) (a :: t ++ [b]) = true).
    { cbn [forallb]. rewrite forallb_app, Ht. cbn [forallb andb]. by rewrite !Hplus. }
    split; [|tauto]. intros Hc. split; [done|]. split; [|done]. by exists a, t, b.
  - split; [done|]. intros (Hl & (a & t & b & -> & Ha & Hb) & Hc & _). exfalso. apply not_true_iff_false in E. apply E.
    apply match_string_spec, matches_ends. exists a, t, b. rewrite len_cons, len_app in Hl. unfold len in Hl. simpl in Hl.
    cbn [forallb] in Hc. rewrite forallb_app in Hc. breflect. split_and!; try tauto; lia.
Qed.

Lemma env_get_Some env name v : v ≠ [] → env_get env name = v ↔ env !! name = Some v.
Proof. unfold env_get. intros Hv. destruct (env !! name) eqn:E; simpl; naive_solver. Qed.

Lemma is_set_spec env name : is_set env name = negb (bool_decide (env !! name = None)).
Proof. unfold is_set. by destruct (env !! name). Qed.

(** The modes are different strings. *)
Lemma modes_differ :
  (TrustedIdentityModeAzureContainerApps =s TrustedIdentityModeOIDCHeaders) = false ∧
  (TrustedIdentityModeAzureContainerAppsOIDC =s TrustedIdentityModeOIDCHeaders) = false ∧
  (TrustedIdentityModeAzureContainerAppsOIDC =s TrustedIdentityModeAzureContainerApps) = false ∧
  (TrustedIdentityModeOIDCHeaders =s TrustedIdentityModeAzureContainerAppsOIDC) = false ∧
  (TrustedIdentityModeAzureContainerApps =s TrustedIdentityModeAzureContainerAppsOIDC) = false.
Proof. by vm_compute. Qed.

(** The parameters the mode asks for, as the environment gives them. *)
Definition mode_parameters (env : environment) (mode : gostring) : Prop :=
  boundary (env_get env OIDCIssuerEnv) mode (env_get env AzureContainerAppsTenantIDEnv) (env_get env OIDCProviderNameEnv) ∧
  (mode = TrustedIdentityModeAzureContainerAppsOIDC → env !! AzureContainerAppsTenantIDEnv = None) ∧
  (if mode =s TrustedIdentityModeAzureContainerAppsOIDC
   then env !! OIDCProviderNameEnv = Some (env_get env OIDCProviderNameEnv) else env !! OIDCProviderNameEnv = None).

Lemma mode_accepted_spec env mode : mode_accepted env mode = true ↔ mode_parameters env mode.
Proof.
  destruct modes_differ as (D1 & D2 & D3 & D4 & D5).
  unfold mode_accepted, mode_parameters. rewrite !is_set_spec. split.
  - intros H. case_if_in H; [|case_if_in H; [|case_if_in H; [|done]]];
      (match goal with E : (mode =s _) = true |- _ => apply str_eqb_eq in E as -> end);
      breflect; rewrite ?D4, ?D5, ?str_eqb_refl.
    + destruct H as [Ht Hp]. unfold env_get in *. rewrite Ht, Hp. split_and!; [constructor|by intros [=]|done].
    + destruct H as [Hp Hi]. unfold IsAzureContainerAppsIssuer in Hi. breflect. destruct Hi as [Hu Hi]. unfold env_get in *.
      rewrite Hp. split_and!; [by constructor|by intros [=]|done].
    + destruct H as [[Ht Hp] Hn]. unfold env_get in *. rewrite Ht in *. simpl.
      split_and!; [by constructor|done|]. destruct (env !! OIDCProviderNameEnv); done.
  - intros (Hb & Ht & Hp). inversion Hb as [E1 E2 E3|tenant Hu Hi E1 E2 E3|provider Hv E1 E2 E3]; subst mode;
      rewrite ?D1, ?D2, ?D3, ?D4, ?D5, ?str_eqb_refl in *; cbv beta iota.
    + rewrite Hp. done.
    + unfold IsAzureContainerAppsIssuer. rewrite Hp, Hu, Hi, str_eqb_refl. done.
    + rewrite (Ht eq_refl), Hp. cbn [negb orb bool_decide]. rewrite Hv. done.
Qed.

Lemma parsePort_spec env port :
  parsePort env = Ok port ↔
  1 ≤ port ≤ 65535 ∧
  match env !! PortEnv with None => port = DefaultPort | Some raw => parse_int raw = Some port end.
Proof.
  unfold parsePort, DefaultPort. destruct (env !! PortEnv) as [raw|].
  - destruct (parse_int raw) as [p|]; [|naive_solver]. destruct ((p <? 1) || (65535 <? p)) eqn:E; breflect.
    + split; [done|]. intros [? [= ->]]. lia.
    + split; [intros [= <-]; split; [lia|done]|]. by intros [_ [= ->]].
  - split; [intros [= <-]; split; [lia|done]|]. by intros [_ ->].
Qed.

(** The required values are never blank once they are valid. *)
Lemma required_visible env :
  IsValidOIDCIssuer (env_get env OIDCIssuerEnv) = true → IsCanonicalUUID (env_get env ManagedIdentityClientIDEnv) = true →
  match_string storageAccountPattern (env_get env StorageAccountNameEnv) = true →
  validContainerName (env_get env StorageContainerEnv) = true →
  existsb (λ name, trim_space (env_get env name) =s []) required = false.
Proof.
  intros Hi Hu Ha Hc. cbn [existsb required]. unfold validContainerName in Hc. case_if_in Hc; [done|]. breflect.
  split_and!; [by apply issuer_visible| | | |done]; (eapply pattern_visible; [| |eassumption]; [vm_compute; done|vm_compute; lia]).
Qed.

Lemma ParseEnvironment_spec env c : ParseEnvironment env = Ok c ↔ config_wf c ∧ describes env c.
Proof.
  unfold ParseEnvironment. split.
  - intros H. case_if_in H; [done|]. case_if_in H; [done|]. case_if_in H; [done|]. case_if_in H; [done|].
    destruct (parsePort env) as [port|] eqn:Hp; [|done]. injection H as <-. rewrite is_set_spec in E. breflect.
    destruct E1 as [[[Hi Hu] Ha] Hc]. rename E2 into Hm. apply mode_accepted_spec in Hm as (Hb & Ht & Hpr). apply parsePort_spec in Hp as [Hr Hport].
    assert (Hne : ∀ n, trim_space (env_get env n) ≠ [] → env !! n = Some (env_get env n)).
    { intros n Hn. apply env_get_Some; [|done]. intros E'. by rewrite E' in Hn. }
    cbn [existsb required] in E0. breflect. destruct E0 as (V1 & V2 & V3 & V4 & _).
    split; constructor; cbn [c_OIDCIssuer c_StorageAccountName c_StorageContainer c_ManagedIdentityClientID
      c_TrustedIdentityMode c_AzureContainerAppsTenantID c_OIDCProviderName c_Port]; auto.
    + by apply storageAccount_spec.
    + by apply validContainerName_spec.
    + destruct (env_get env TrustedIdentityModeEnv =s []) eqn:Em; breflect; auto.
  - intros [[Hi Hu Ha%storageAccount_spec Hc%validContainerName_spec Hb Hp] [Do Di Da Dc Dl Dm [Dt Dt'] Dp Dport]].
    assert (Hget : ∀ n v, env !! n = Some v → env_get env n = v) by (unfold env_get; by intros n v ->).
    apply Hget in Di, Da, Dc, Dl. rewrite required_visible by congruence. rewrite is_set_spec, Do, Di, Da, Dc, Dl, Hi, Hu, Ha, Hc.
    cbn [negb orb bool_decide].
    assert (Hmode : (if env_get env TrustedIdentityModeEnv =s [] then TrustedIdentityModeOIDCHeaders
                     else env_get env TrustedIdentityModeEnv) = c_TrustedIdentityMode c).
    { destruct Dm as [Dm|[Dm ->]]; rewrite Dm; [|done]. by destruct Hb. }
    rewrite Hmode. assert (Hprov : env_get env OIDCProviderNameEnv = c_OIDCProviderName c).
    { destruct modes_differ as (_ & _ & _ & D4 & D5). unfold env_get.
      destruct Hb; rewrite ?D4, ?D5, ?str_eqb_refl in Dp; rewrite Dp; done. }
    rewrite (proj2 (mode_accepted_spec env (c_TrustedIdentityMode c))).
    2: { unfold mode_parameters. rewrite Di, Dt, Hprov. split_and!; done. }
    rewrite (proj2 (parsePort_spec env (c_Port c))) by done. cbn [negb]. rewrite Dt, Hprov. by destruct c.
Qed.

(** C26: [ParseEnvironment] accepts exactly the environments that describe a well-formed
    configuration, and returns it: a valid HTTPS issuer, a canonical client identifier, storage
    names within Azure's rules, a port, and exactly the parameters of one identity boundary. *)
Theorem ParseEnvironment_exact env c : ParseEnvironment env = Ok c ↔ config_wf c ∧ describes env c.
Proof. apply ParseEnvironment_spec. Qed.

(** ** A configuration per identity boundary *)

Module ConfigSamples.
Definition base : environment :=
  <[OIDCIssuerEnv := lit "https://login.example.com/tenant"]>
  (<[StorageAccountNameEnv := lit "darstore"]>
  (<[StorageContainerEnv := lit "dar-releases"]>
  (<[ManagedIdentityClientIDEnv := lit "11111111-2222-3333-4444-555555555555"]> ∅))).

Definition sample : Config :=
  mkConfig TrustedIdentityModeOIDCHeaders (lit "https://login.example.com/tenant") [] [] (lit "darstore")
    (lit "dar-releases") (lit "11111111-2222-3333-4444-555555555555") 8000.

Lemma sample_accepted : ParseEnvironment base = Ok sample.
Proof. vm_compute. reflexivity. Qed.

Lemma sample_wf : config_wf sample.
Proof. exact (proj1 (proj1 (ParseEnvironment_spec _ _) sample_accepted)). Qed.

(** A port with a sign and leading zeros, as [strconv.Atoi] reads it. *)
Example port_forms :
  ParseEnvironment (<[PortEnv := lit "+0443"]> base) =
    Ok (mkConfig TrustedIdentityModeOIDCHeaders (lit "https://login.example.com/tenant") [] [] (lit "darstore")
          (lit "dar-releases") (lit "11111111-2222-3333-4444-555555555555") 443) ∧
  ParseEnvironment (<[PortEnv := lit "65536"]> base) = Err ErrInvalid ∧
  ParseEnvironment (<[obsoleteReleasesJSONEnv := []]> base) = Err ErrInvalid ∧
  ParseEnvironment (<[OIDCProviderNameEnv := []]> base) = Err ErrInvalid.
Proof. by vm_compute. Qed.
End ConfigSamples.
