(* ===== verification/Base64.v ===== *)
(** * encoding/base64

    The standard alphabet with padding: [StdEncoding.EncodeToString] and the strict decoder
    [StdEncoding.Strict().DecodeString]. Theorem: the decoder inverts the encoder. *)

From S2P Require Import Prelude Utf8 GoStrings.

#[local] Ltac Zify.zify_post_hook ::= Z.div_mod_to_equations.

Definition pad : ascii := "="%char.

(** The digit of a value below 64. *)
Definition b64_digit (n : Z) : ascii :=
  if n <? 26 then byte (65 + n) else if n <? 52 then byte (71 + n) else if n <? 62 then byte (n - 4)
  else if n =? 62 then "+"%char else "/"%char.

Definition b64_value (c : ascii) : option Z :=
  if between 65 90 c then Some (code c - 65)
  else if between 97 122 c then Some (code c - 71)
  else if is_digit c then Some (code c + 4)
  else if Ascii.eqb c "+"%char then Some 62
  else if Ascii.eqb c "/"%char then Some 63
  else None.

Fixpoint base64_encode (s : gostring) : gostring :=
  match s with
  | [] => []
  | [x] => let v := code x * 16 in [b64_digit (v / 64); b64_digit (v `mod` 64); pad; pad]
  | [x; y] =>
    let v := (code x * 256 + code y) * 4 in
    [b64_digit (v / 4096); b64_digit ((v / 64) `mod` 64); b64_digit (v `mod` 64); pad]
  | x :: y :: z :: t =>
    let v := (code x * 256 + code y) * 256 + code z in
    b64_digit (v / 262144) :: b64_digit ((v / 4096) `mod` 64) :: b64_digit ((v / 64) `mod` 64) :: b64_digit (v `mod` 64) ::
    base64_encode t
  end.

(** The quanta of four digits; only the last one may be padded, and its unused bits are zero. *)
Fixpoint b64_quanta (s : gostring) : option gostring :=
  match s with
  | [] => Some []
  | a :: b :: c :: d :: t =>
    va ← b64_value a; vb ← b64_value b;
    match t with
    | [] =>
      if Ascii.eqb d pad then
        if Ascii.eqb c pad then
          if vb `mod` 16 =? 0 then Some [byte (va * 4 + vb / 16)] else None
        else
          vc ← b64_value c;
          if vc `mod` 4 =? 0 then
            let v := (va * 64 + vb) * 16 + vc / 4 in Some [byte (v / 256); byte v]
          else None
      else
        vc ← b64_value c; vd ← b64_value d;
        let v := ((va * 64 + vb) * 64 + vc) * 64 + vd in Some [byte (v / 65536); byte (v / 256); byte v]
    | _ =>
      vc ← b64_value c; vd ← b64_value d;
      let v := ((va * 64 + vb) * 64 + vc) * 64 + vd in
      rest ← b64_quanta t;
      Some (byte (v / 65536) :: byte (v / 256) :: byte v :: rest)
    end
  | _ => None
  end.

(** The decoder skips carriage returns and newlines. *)
Definition base64_decode (s : gostring) : option gostring :=
  b64_quanta (List.filter (λ c, negb ((code c =? 10) || (code c =? 13))) s).

(** ** The decoder inverts the encoder *)

Lemma b64_digit_ok n : 0 ≤ n < 64 →
  b64_value (b64_digit n) = Some n ∧ Ascii.eqb (b64_digit n) pad = false ∧ code (b64_digit n) ≠ 10 ∧ code (b64_digit n) ≠ 13.
Proof.
  intros Hn. assert (H : forallb (λ n, bool_decide (b64_value (b64_digit n) = Some n) && negb (Ascii.eqb (b64_digit n) pad) &&
    negb (code (b64_digit n) =? 10) && negb (code (b64_digit n) =? 13)) (seqZ 0 64) = true) by (vm_compute; reflexivity).
  rewrite forallb_Forall, Forall_forall in H. specialize (H n). rewrite elem_of_seqZ in H. specialize (H ltac:(lia)).
  breflect. tauto.
Qed.

Lemma code_mod_byte v x : v `mod` 256 = code x → byte v = x.
Proof. intros E. apply code_inj. by rewrite code_byte. Qed.

(** Lists in steps of three. *)
Lemma list_ind3 {A} (P : list A → Prop) :
  P [] → (∀ x, P [x]) → (∀ x y, P [x; y]) → (∀ x y z t, P t → P (x :: y :: z :: t)) → ∀ l, P l.
Proof. intros H0 H1 H2 H3. fix IH 1. intros [|x [|y [|z t]]]; [done..|]. apply H3, IH. Qed.

(** Read back the digits of the goal. *)
Ltac b64_digits :=
  repeat match goal with
  | |- context [b64_value (b64_digit ?n)] => rewrite (proj1 (b64_digit_ok n ltac:(lia)))
  | |- context [Ascii.eqb (b64_digit ?n) pad] => rewrite (proj1 (proj2 (b64_digit_ok n ltac:(lia))))
  end; cbn [mbind option_bind]; rewrite ?Ascii.eqb_refl.

Lemma b64_quanta_encode s : b64_quanta (base64_encode s) = Some s.
Proof.
  induction s as [|x|x y|x y z t IH] using list_ind3; cbn [base64_encode b64_quanta]; [done| | |];
    pose proof (code_range x).
  - b64_digits. rewrite (proj2 (Z.eqb_eq _ 0)) by lia. do 2 f_equal. apply code_mod_byte. lia.
  - pose proof (code_range y). assert (∃ v, v = (code x * 256 + code y) * 4) as [v Hv] by eauto. rewrite <- Hv. b64_digits.
    rewrite (proj2 (Z.eqb_eq _ 0)) by lia.
    replace ((v / 4096 * 64 + (v / 64) `mod` 64) * 16 + (v `mod` 64) / 4) with (v / 4) by lia.
    rewrite (code_mod_byte (v / 4) y), (code_mod_byte (v / 4 / 256) x) by lia. done.
  - pose proof (code_range y). pose proof (code_range z).
    assert (∃ v, v = (code x * 256 + code y) * 256 + code z) as [v Hv] by eauto. rewrite <- Hv. b64_digits.
    replace (((v / 262144 * 64 + (v / 4096) `mod` 64) * 64 + (v / 64) `mod` 64) * 64 + v `mod` 64) with v by lia.
    rewrite (code_mod_byte v z), (code_mod_byte (v / 256) y), (code_mod_byte (v / 65536) x) by lia.
    rewrite IH. by destruct (base64_encode t) eqn:Et; [destruct t as [|? [|? [|??]]]|].
Qed.

Lemma base64_encode_plain s : List.filter (λ c, negb ((code c =? 10) || (code c =? 13))) (base64_encode s) = base64_encode s.
Proof.
  assert (Hd : ∀ n, 0 ≤ n < 64 → negb ((code (b64_digit n) =? 10) || (code (b64_digit n) =? 13)) = true).
  { intros n Hn. destruct (b64_digit_ok n Hn) as (_ & _ & H1 & H2). breflect. tauto. }
  induction s as [|x|x y|x y z t IH] using list_ind3; cbn [base64_encode List.filter]; [done| | |];
    pose proof (code_range x); try pose proof (code_range y); try pose proof (code_range z);
    rewrite !Hd by lia; rewrite ?IH; done.
Qed.

Lemma base64_decode_encode s : base64_decode (base64_encode s) = Some s.
Proof. unfold base64_decode. rewrite base64_encode_plain. apply b64_quanta_encode. Qed.

Example base64_1 : base64_encode (lit "Many hands") = lit "TWFueSBoYW5kcw==" ∧
  base64_decode (lit "TWFueSBoYW5kcx==") = None ∧ base64_decode (lit "TWFueSBoYW5kcw") = None ∧
  base64_decode (lit "TWFu=SBo") = None.
Proof. by vm_compute. Qed.
