(* ===== verification/Auth.v ===== *)
(** * internal/auth

    Identity evidence from the configured trusted boundary: private-ingress headers (oidc.go), the
    Container Apps principal of Entra ID (azure_container_apps.go) and that of one custom provider
    (azure_container_apps_oidc.go). *)

From stdpp Require Import strings.
From S2P Require Import Prelude Utf8 GoStrings Regex Json StrictJson Base64 GoHttp Config.

(** ** Data *)

Definition IssuerHeader : gostring := lit "X-DAR-OIDC-Issuer".
Definition SubjectHeader : gostring := lit "X-DAR-OIDC-Subject".

Record Identity : Type := mkIdentity { i_Issuer : gostring; i_Subject : gostring }.

Record BoundaryPolicy : Type := mkPolicy {
  bp_ExpectedIssuer : gostring; bp_Mode : gostring; bp_ExpectedAzureTenantID : gostring;
  bp_ExpectedOIDCProviderName : gostring }.

Definition containerAppsPrincipalHeader : gostring := lit "X-MS-CLIENT-PRINCIPAL".
Definition containerAppsPrincipalIDHeader : gostring := lit "X-MS-CLIENT-PRINCIPAL-ID".
Definition containerAppsPrincipalIDPHeader : gostring := lit "X-MS-CLIENT-PRINCIPAL-IDP".
Definition containerAppsPrincipalHeaderPrefix : gostring := lit "X-MS-CLIENT-PRINCIPAL".
Definition azureAuthenticationType : gostring := lit "aad".
Definition maxContainerAppsPrincipalHeaderBytes : Z := 16 * 1024.
Definition maxContainerAppsPrincipalClaims : Z := 64.
Definition maxContainerAppsClaimTypeBytes : Z := 512.
Definition maxContainerAppsClaimValueBytes : Z := 4096.
Definition mappedAzureObjectIDClaim : gostring := lit "http://schemas.microsoft.com/identity/claims/objectidentifier".
Definition mappedAzureTenantIDClaim : gostring := lit "http://schemas.microsoft.com/identity/claims/tenantid".
Definition standardAzureObjectIDClaim : gostring := lit "oid".
Definition standardAzureTenantIDClaim : gostring := lit "tid".

Record containerAppsClaim : Type := mkClaim { cl_Type : gostring; cl_Value : gostring }.

Record containerAppsPrincipal : Type := mkPrincipal {
  pr_AuthenticationType : gostring; pr_Claims : list containerAppsClaim; pr_NameType : gostring; pr_RoleType : gostring }.

Definition claim_kind : kind := KStruct [(lit "typ", KString); (lit "val", KString)].
Definition principal_kind : kind :=
  KStruct [(lit "auth_typ", KString); (lit "claims", KSlice claim_kind); (lit "name_typ", KString);
           (lit "role_typ", KString)].

Definition claim_of (v : gval) : option containerAppsClaim :=
  match v with GStruct [GStr t; GStr c] => Some (mkClaim t c) | _ => None end.
Definition principal_of (v : gval) : option containerAppsPrincipal :=
  match v with
  | GStruct [GStr a; GSlice claims _; GStr n; GStr r] => cs ← mapM claim_of claims; Some (mkPrincipal a cs n r)
  | _ => None
  end.

(** [strictjson.Decode] into a [containerAppsPrincipal]. *)
Definition decode_principal (raw : gostring) : option containerAppsPrincipal :=
  v ← Decode raw maxContainerAppsPrincipalHeaderBytes principal_kind; principal_of v.

(** ** Private-ingress headers *)

Definition hasGenericOIDCIdentityHeaders (headers : Header) : bool :=
  negb (len (header_values headers IssuerHeader) =? 0) || negb (len (header_values headers SubjectHeader) =? 0).

Definition authenticateOIDCHeaders (headers : Header) (expectedIssuer : gostring) : option Identity :=
  if negb (IsValidOIDCIssuer expectedIssuer) then None
  else match header_values headers IssuerHeader, header_values headers SubjectHeader with
  | [issuer], [subject] =>
    if negb (IsValidOIDCIssuer issuer) || negb (issuer =s expectedIssuer) || negb (IsValidOIDCSubject subject) then None
    else Some (mkIdentity issuer subject)
  | _, _ => None
  end.

(** ** The Container Apps principal *)

Definition decodeCanonicalContainerAppsPrincipal (encodedPrincipal : gostring) : option gostring :=
  match base64_decode encodedPrincipal with
  | None => None
  | Some decodedPrincipal =>
    if negb (base64_encode decodedPrincipal =s encodedPrincipal) then None else Some decodedPrincipal
  end.

(** [json.Unmarshal]'s parse of a whole text. *)
Definition json_unmarshal (raw : gostring) : option json :=
  '(j, rest) ← decode_next raw; if ensureEOF rest then Some j else None.

(** A document decoded into a [map[string]json.RawMessage]: the last of several equal keys stays.
    A raw message is the text of a value, which parses to the value. *)
Definition raw_fields (j : json) : option (gmap gostring json) :=
  match j with
  | JObj ms => Some (fold_left (λ m kv, <[fst kv := snd kv]> m) ms ∅)
  | JNull => Some ∅
  | _ => None
  end.

Definition hasExactJSONFields (fields : gmap gostring json) (names : list gostring) : bool :=
  if negb (Z.of_nat (size fields) =? len names) then false
  else forallb (λ name, bool_decide (fields !! name ≠ None)) names.

Definition hasExactContainerAppsPrincipalSchema (raw : gostring) : bool :=
  match j ← json_unmarshal raw; raw_fields j with
  | None => false
  | Some principalFields =>
    if negb (hasExactJSONFields principalFields [lit "auth_typ"; lit "claims"; lit "name_typ"; lit "role_typ"]) then false
    else
      let claims := match principalFields !! lit "claims" with
        | Some (JArr l) => mapM raw_fields l
        | Some JNull => Some []
        | _ => None
        end in
      match claims with
      | None => false
      | Some claims => forallb (λ claimFields, hasExactJSONFields claimFields [lit "typ"; lit "val"]) claims
      end
  end.

(** Any header that announces a platform principal. *)
Definition hasAzureContainerAppsIdentityHeaders (headers : Header) : bool :=
  existsb (λ kv, has_prefix containerAppsPrincipalHeaderPrefix (to_upper (fst kv))) (map_to_list headers).

Definition validContainerAppsClaimText (value : gostring) (maximumBytes : Z) : bool :=
  if (value =s []) || (maximumBytes <? len value) || negb (utf8_valid value) then false
  else forallb (λ r, negb (is_control (rune_cp r))) (runes value).

Definition valid_claim (claim : containerAppsClaim) : bool :=
  validContainerAppsClaimText (cl_Type claim) maxContainerAppsClaimTypeBytes &&
  validContainerAppsClaimText (cl_Value claim) maxContainerAppsClaimValueBytes.

Definition is_tenant_claim (claim : containerAppsClaim) : bool :=
  (cl_Type claim =s standardAzureTenantIDClaim) || (cl_Type claim =s mappedAzureTenantIDClaim).
Definition is_object_claim (claim : containerAppsClaim) : bool :=
  (cl_Type claim =s standardAzureObjectIDClaim) || (cl_Type claim =s mappedAzureObjectIDClaim).

(** The variables of the loop over the claims. *)
Record claim_state : Type := mkClaimState { tenantID : gostring; objectID : gostring; tenantClaims : Z; objectClaims : Z }.

(** The loop of [authenticateAzureContainerApps]: lines 86 to 99. *)
Fixpoint claims_loop (claims : list containerAppsClaim) (s : claim_state) : option claim_state :=
  match claims with
  | [] => Some s
  | claim :: claims' =>
    if negb (valid_claim claim) then None
    else claims_loop claims'
      (if is_tenant_claim claim then mkClaimState (cl_Value claim) (objectID s) (tenantClaims s + 1) (objectClaims s)
       else if is_object_claim claim then mkClaimState (tenantID s) (cl_Value claim) (tenantClaims s) (objectClaims s + 1)
       else s)
  end.

Definition authenticateAzureContainerApps (headers : Header) (expectedIssuer expectedTenantID : gostring) : option Identity :=
  if negb (IsAzureContainerAppsIssuer expectedIssuer expectedTenantID) then None
  else match header_values headers containerAppsPrincipalHeader, header_values headers containerAppsPrincipalIDHeader with
  | [encodedPrincipal], [principalID] =>
    let idpValues := header_values headers containerAppsPrincipalIDPHeader in
    if (1 <? len idpValues) || match idpValues with [idp] => negb (idp =s azureAuthenticationType) | _ => false end then None
    else if negb (IsCanonicalUUID principalID) then None
    else if (encodedPrincipal =s []) || (maxContainerAppsPrincipalHeaderBytes <? len encodedPrincipal) then None
    else match decodeCanonicalContainerAppsPrincipal encodedPrincipal with
    | None => None
    | Some decodedPrincipal =>
      if negb (hasExactContainerAppsPrincipalSchema decodedPrincipal) then None
      else match decode_principal decodedPrincipal with
      | None => None
      | Some principal =>
        if negb (pr_AuthenticationType principal =s azureAuthenticationType) ||
           (len (pr_Claims principal) <? 1) || (maxContainerAppsPrincipalClaims <? len (pr_Claims principal)) then None
        else match claims_loop (pr_Claims principal) (mkClaimState [] [] 0 0) with
        | None => None
        | Some s =>
          if negb (tenantClaims s =? 1) || negb (objectClaims s =? 1) ||
             negb (IsCanonicalUUID (tenantID s)) || negb (tenantID s =s expectedTenantID) ||
             negb (IsCanonicalUUID (objectID s)) || negb (objectID s =s principalID) then None
          else Some (mkIdentity expectedIssuer principalID)
        end
      end
    end
  | _, _ => None
  end.

(** ** A custom provider's principal *)

Record customContainerAppsEvidence : Type := mkEvidence {
  ev_encodedPrincipal : gostring; ev_principalID : gostring; ev_identityProvider : gostring }.

Definition readCustomContainerAppsEvidence (headers : Header) : option customContainerAppsEvidence :=
  match header_values headers containerAppsPrincipalHeader, header_values headers containerAppsPrincipalIDHeader,
        header_values headers containerAppsPrincipalIDPHeader with
  | [principal], [principalID], [idp] => Some (mkEvidence principal principalID idp)
  | _, _, _ => None
  end.

Definition validContainerAppsClaims (claims : list containerAppsClaim) : bool := forallb valid_claim claims.

Definition validCustomContainerAppsPrincipal (encodedPrincipal expectedProviderName : gostring) : bool :=
  if (encodedPrincipal =s []) || (maxContainerAppsPrincipalHeaderBytes <? len encodedPrincipal) then false
  else match decodeCanonicalContainerAppsPrincipal encodedPrincipal with
  | None => false
  | Some decodedPrincipal =>
    if negb (hasExactContainerAppsPrincipalSchema decodedPrincipal) then false
    else match decode_principal decodedPrincipal with
    | None => false
    | Some principal =>
      if negb (pr_AuthenticationType principal =s expectedProviderName) ||
         (len (pr_Claims principal) <? 1) || (maxContainerAppsPrincipalClaims <? len (pr_Claims principal)) then false
      else validContainerAppsClaims (pr_Claims principal)
    end
  end.

Definition authenticateAzureContainerAppsOIDC (headers : Header) (expectedIssuer expectedProviderName : gostring) :
  option Identity :=
  if negb (IsValidOIDCIssuer expectedIssuer) || negb (IsValidOIDCProviderName expectedProviderName) then None
  else match readCustomContainerAppsEvidence headers with
  | None => None
  | Some evidence =>
    if negb (ev_identityProvider evidence =s expectedProviderName) ||
       negb (IsValidOIDCSubject (ev_principalID evidence)) ||
       negb (validCustomContainerAppsPrincipal (ev_encodedPrincipal evidence) expectedProviderName) then None
    else Some (mkIdentity expectedIssuer (ev_principalID evidence))
  end.

(** ** [Authenticate] *)

Definition Authenticate (headers : Header) (policy : BoundaryPolicy) : option Identity :=
  if bp_Mode policy =s TrustedIdentityModeOIDCHeaders then
    if negb (bp_ExpectedAzureTenantID policy =s []) || negb (bp_ExpectedOIDCProviderName policy =s []) ||
       hasAzureContainerAppsIdentityHeaders headers then None
    else authenticateOIDCHeaders headers (bp_ExpectedIssuer policy)
  else if bp_Mode policy =s TrustedIdentityModeAzureContainerApps then
    if negb (bp_ExpectedOIDCProviderName policy =s []) || hasGenericOIDCIdentityHeaders headers then None
    else authenticateAzureContainerApps headers (bp_ExpectedIssuer policy) (bp_ExpectedAzureTenantID policy)
  else if bp_Mode policy =s TrustedIdentityModeAzureContainerAppsOIDC then
    if negb (bp_ExpectedAzureTenantID policy =s []) || hasGenericOIDCIdentityHeaders headers then None
    else authenticateAzureContainerAppsOIDC headers (bp_ExpectedIssuer policy) (bp_ExpectedOIDCProviderName policy)
  else None.

(** ** What counts as evidence *)

(** The policy the handler derives from a configuration: handler.go, lines 62 to 67. *)
Definition policy_of (c : Config) : BoundaryPolicy :=
  mkPolicy (c_OIDCIssuer c) (c_TrustedIdentityMode c) (c_AzureContainerAppsTenantID c) (c_OIDCProviderName c).

(** A header value that carries a principal: the canonical encoding of a document with exactly the
    expected fields and between one and 64 valid claims. *)
Definition carries (encoded : gostring) (p : containerAppsPrincipal) : Prop :=
  encoded ≠ [] ∧ len encoded ≤ maxContainerAppsPrincipalHeaderBytes ∧
  (∃ raw, encoded = base64_encode raw ∧ hasExactContainerAppsPrincipalSchema raw = true ∧ decode_principal raw = Some p) ∧
  1 ≤ len (pr_Claims p) ≤ maxContainerAppsPrincipalClaims ∧ Forall (λ c, valid_claim c = true) (pr_Claims p).

Definition no_generic_headers (h : Header) : Prop :=
  header_values h IssuerHeader = [] ∧ header_values h SubjectHeader = [].
Definition no_platform_headers (h : Header) : Prop :=
  ∀ name values, h !! name = Some values → has_prefix containerAppsPrincipalHeaderPrefix (to_upper name) = false.

(** The boundary of a configuration vouches for a subject. *)
Inductive vouched (c : Config) (h : Header) (subject : gostring) : Prop :=
| vouched_headers :
    c_TrustedIdentityMode c = TrustedIdentityModeOIDCHeaders → no_platform_headers h →
    header_values h IssuerHeader = [c_OIDCIssuer c] → header_values h SubjectHeader = [subject] →
    IsValidOIDCSubject subject = true → vouched c h subject
| vouched_entra encoded p tenant object :
    c_TrustedIdentityMode c = TrustedIdentityModeAzureContainerApps → no_generic_headers h →
    header_values h containerAppsPrincipalHeader = [encoded] → header_values h containerAppsPrincipalIDHeader = [subject] →
    header_values h containerAppsPrincipalIDPHeader ∈ [[]; [azureAuthenticationType]] →
    IsCanonicalUUID subject = true → carries encoded p → pr_AuthenticationType p = azureAuthenticationType →
    List.filter is_tenant_claim (pr_Claims p) = [tenant] → cl_Value tenant = c_AzureContainerAppsTenantID c →
    List.filter is_object_claim (pr_Claims p) = [object] → cl_Value object = subject → vouched c h subject
| vouched_provider encoded p :
    c_TrustedIdentityMode c = TrustedIdentityModeAzureContainerAppsOIDC → no_generic_headers h →
    header_values h containerAppsPrincipalHeader = [encoded] → header_values h containerAppsPrincipalIDHeader = [subject] →
    header_values h containerAppsPrincipalIDPHeader = [c_OIDCProviderName c] →
    IsValidOIDCSubject subject = true → carries encoded p → pr_AuthenticationType p = c_OIDCProviderName c →
    vouched c h subject.

(** ** Lemmas *)

Lemma generic_headers_spec h : hasGenericOIDCIdentityHeaders h = false ↔ no_generic_headers h.
Proof.
  unfold hasGenericOIDCIdentityHeaders, no_generic_headers. breflect.
  split; intros [H1 H2]; [split; by apply len_0_nil|by rewrite H1, H2].
Qed.

Lemma platform_headers_spec h : hasAzureContainerAppsIdentityHeaders h = false ↔ no_platform_headers h.
Proof.
  unfold hasAzureContainerAppsIdentityHeaders, no_platform_headers. split.
  - intros H name values Hn. apply elem_of_map_to_list, list_elem_of_In in Hn.
    apply not_true_iff_false. intros Hp. apply not_true_iff_false in H. apply H, existsb_exists. by eexists.
  - intros H. apply not_true_iff_false. intros ([name values] & Hin & Hp)%existsb_exists. apply list_elem_of_In, elem_of_map_to_list in Hin.
    cbn [fst] in Hp. by rewrite (H _ _ Hin) in Hp.
Qed.

(** The canonical decoder accepts exactly the encoder's output. *)
Lemma decodeCanonical_spec encoded raw :
  decodeCanonicalContainerAppsPrincipal encoded = Some raw ↔ encoded = base64_encode raw.
Proof.
  unfold decodeCanonicalContainerAppsPrincipal. split.
  - intros H. destruct (base64_decode encoded); [|done]. case_if_in H; [done|]. breflect. by simplify_eq.
  - intros ->. rewrite base64_decode_encode, str_eqb_refl. done.
Qed.

Lemma object_not_tenant claim : is_object_claim claim = true → is_tenant_claim claim = false.
Proof. unfold is_object_claim, is_tenant_claim. intros H. breflect. destruct H as [-> | ->]; split; vm_compute; done. Qed.

(** The loop counts the tenant and object claims and keeps the last value of each. *)
Lemma claims_loop_spec claims s s' :
  claims_loop claims s = Some s' ↔
  Forall (λ c, valid_claim c = true) claims ∧
  s' = mkClaimState (List.last (map cl_Value (List.filter is_tenant_claim claims)) (tenantID s))
                    (List.last (map cl_Value (List.filter is_object_claim claims)) (objectID s))
                    (tenantClaims s + len (List.filter is_tenant_claim claims))
                    (objectClaims s + len (List.filter is_object_claim claims)).
Proof.
  revert s; induction claims as [|c claims IH]; intros s; cbn [claims_loop List.filter].
  - rewrite !len_nil, !Z.add_0_r. split; [intros [= <-]; split; [constructor|by destruct s]|intros [_ ->]; by destruct s].
  - rewrite Forall_cons. destruct (valid_claim c) eqn:Hv; cbn [negb]; [|naive_solver]. rewrite IH.
    assert (Hl : ∀ (x : gostring) l d, List.last (x :: l) d = List.last l x).
    { intros x l. revert x. induction l as [|y l IHl]; intros x d; [done|]. change (List.last (x :: y :: l) d) with (List.last (y :: l) d).
      by rewrite !IHl. }
    destruct (is_tenant_claim c) eqn:Ht.
    + assert (is_object_claim c = false) as ->.
      { apply not_true_iff_false. intros Ho%object_not_tenant. congruence. }
      cbn [map tenantID objectID tenantClaims objectClaims]. rewrite Hl, len_cons.
      replace (tenantClaims s + 1 + len (List.filter is_tenant_claim claims)) with
        (tenantClaims s + (len (List.filter is_tenant_claim claims) + 1)) by lia. tauto.
    + destruct (is_object_claim c); [|tauto]. cbn [map tenantID objectID tenantClaims objectClaims]. rewrite Hl, len_cons.
      replace (objectClaims s + 1 + len (List.filter is_object_claim claims)) with
        (objectClaims s + (len (List.filter is_object_claim claims) + 1)) by lia. tauto.
Qed.

Lemma len_1 {A} (l : list A) : len l = 1 ↔ ∃ x, l = [x].
Proof.
  split; [|by intros [x ->]]. destruct l as [|x [|y l]]; [done|by exists x|].
  rewrite !len_cons. pose proof (len_nonneg l). lia.
Qed.

Lemma two_singletons {A B C} (l : list A) (k : list B) (f : A → B → option C) r :
  match l, k with [x], [y] => f x y | _, _ => None end = Some r ↔ ∃ x y, l = [x] ∧ k = [y] ∧ f x y = Some r.
Proof. destruct l as [|x [|??]], k as [|y [|??]]; naive_solver. Qed.

Lemma idp_ok idps :
  (1 <? len idps) || match idps with [idp] => negb (idp =s azureAuthenticationType) | _ => false end = false ↔
  idps ∈ [[]; [azureAuthenticationType]].
Proof.
  rewrite elem_of_cons, list_elem_of_singleton. destruct idps as [|idp [|x l]].
  - split; [auto|done].
  - change (1 <? len [idp]) with false. cbn [orb]. breflect. split; [intros ->; auto|]. by intros [?|[= ->]].
  - rewrite orb_false_r. rewrite !len_cons. pose proof (len_nonneg l). breflect. split; [lia|]. by intros [?|?].
Qed.

Lemma headers_spec h issuer id :
  IsValidOIDCIssuer issuer = true →
  (authenticateOIDCHeaders h issuer = Some id ↔
   ∃ subject, header_values h IssuerHeader = [issuer] ∧ header_values h SubjectHeader = [subject] ∧
              IsValidOIDCSubject subject = true ∧ id = mkIdentity issuer subject).
Proof.
  intros Hi. unfold authenticateOIDCHeaders. rewrite Hi. cbn [negb].
  rewrite (two_singletons _ _ (λ issuer' subject, if negb (IsValidOIDCIssuer issuer') || negb (issuer' =s issuer) ||
    negb (IsValidOIDCSubject subject) then None else Some (mkIdentity issuer' subject))). split.
  - intros (i & s & -> & -> & H). case_if_in H; [done|]. breflect. destruct E as [[_ ->] ?]. injection H as <-. by exists s.
  - intros (s & -> & -> & Hs & ->). exists issuer, s. by rewrite Hi, Hs, str_eqb_refl.
Qed.

Lemma header_size_spec encoded :
  (encoded =s []) || (maxContainerAppsPrincipalHeaderBytes <? len encoded) = false ↔
  encoded ≠ [] ∧ len encoded ≤ maxContainerAppsPrincipalHeaderBytes.
Proof. by breflect. Qed.

Lemma entra_spec h issuer tenantID id :
  IsAzureContainerAppsIssuer issuer tenantID = true →
  (authenticateAzureContainerApps h issuer tenantID = Some id ↔
   ∃ subject encoded p tenant object,
     header_values h containerAppsPrincipalHeader = [encoded] ∧ header_values h containerAppsPrincipalIDHeader = [subject] ∧
     header_values h containerAppsPrincipalIDPHeader ∈ [[]; [azureAuthenticationType]] ∧
     IsCanonicalUUID subject = true ∧ carries encoded p ∧ pr_AuthenticationType p = azureAuthenticationType ∧
     List.filter is_tenant_claim (pr_Claims p) = [tenant] ∧ cl_Value tenant = tenantID ∧
     List.filter is_object_claim (pr_Claims p) = [object] ∧ cl_Value object = subject ∧ id = mkIdentity issuer subject).
Proof.
  intros Hi. unfold authenticateAzureContainerApps. rewrite Hi. cbn [negb]. split.
  - intros H. destruct (header_values h containerAppsPrincipalHeader) as [|encoded [|??]]; [done| |done].
    destruct (header_values h containerAppsPrincipalIDHeader) as [|subject [|??]]; [done| |done].
    case_if_in H; [done|]. apply idp_ok in E. case_if_in H; [done|]. apply negb_false_iff in E0. case_if_in H; [done|].
    apply header_size_spec in E1 as [E1 E2].
    destruct (decodeCanonicalContainerAppsPrincipal encoded) as [raw|] eqn:Hc; [|done]. apply decodeCanonical_spec in Hc.
    case_if_in H; [done|]. apply negb_false_iff in E3. destruct (decode_principal raw) as [p|] eqn:Hd; [|done].
    case_if_in H; [done|]. destruct (claims_loop _ _) as [s|] eqn:Hl; [|done]. apply claims_loop_spec in Hl as [Hv ->].
    cbn [tenantClaims objectClaims Auth.tenantID objectID] in H. rewrite !Z.add_0_l in H. case_if_in H; [done|]. injection H as <-.
    breflect. destruct E5 as [[[[[[tenant Ht]%len_1 [object Ho]%len_1] Hut] Hvt] Huo] Hvo]. rewrite Ht, Ho in *. simpl in Hvt, Hvo.
    destruct E4 as [[Ea El1] El2]. exists subject, encoded, p, tenant, object.
    split_and!; try done. split_and!; try done. by exists raw.
  - intros (subject & encoded & p & tenant & object & -> & -> & Hidp & Hu & (Hne & Hle & (raw & Hraw & Hs & Hd) & [Hl1 Hl2] & Hv) & Ha & Ht & Hvt & Ho & Hvo & ->).
    rewrite (proj2 (idp_ok _) Hidp), Hu, (proj2 (header_size_spec encoded)) by done.
    rewrite (proj2 (decodeCanonical_spec encoded raw) Hraw), Hs, Hd, Ha, str_eqb_refl. cbn [negb orb].
    rewrite (proj2 (Z.ltb_ge _ _) Hl1), (proj2 (Z.ltb_ge _ _) Hl2). cbn [orb].
    rewrite (proj2 (claims_loop_spec _ _ _) (conj Hv eq_refl)). cbn [tenantClaims objectClaims Auth.tenantID objectID].
    rewrite Ht, Ho. cbn [map List.last]. rewrite Hvt, Hvo, Hu, !str_eqb_refl.
    unfold IsAzureContainerAppsIssuer in Hi. breflect. destruct Hi as [-> _]. done.
Qed.

Lemma provider_principal_spec encoded provider :
  validCustomContainerAppsPrincipal encoded provider = true ↔ ∃ p, carries encoded p ∧ pr_AuthenticationType p = provider.
Proof.
  unfold validCustomContainerAppsPrincipal, carries. split.
  - intros H. case_if_in H; [done|]. apply header_size_spec in E as [E1 E2].
    destruct (decodeCanonicalContainerAppsPrincipal encoded) as [raw|] eqn:Hc; [|done]. apply decodeCanonical_spec in Hc.
    case_if_in H; [done|]. apply negb_false_iff in E. destruct (decode_principal raw) as [p|] eqn:Hd; [|done].
    case_if_in H; [done|]. unfold validContainerAppsClaims in H. apply forallb_Forall in H. breflect. destruct E0 as [[Ea El1] El2].
    exists p. split_and!; try done. by exists raw.
  - intros (p & (Hne & Hle & (raw & Hraw & Hs & Hd) & [Hl1 Hl2] & Hv) & <-). rewrite (proj2 (header_size_spec encoded)) by done.
    rewrite (proj2 (decodeCanonical_spec encoded raw) Hraw), Hs, Hd, str_eqb_refl. cbn [negb orb].
    rewrite (proj2 (Z.ltb_ge _ _) Hl1), (proj2 (Z.ltb_ge _ _) Hl2). cbn [orb]. by apply forallb_Forall.
Qed.

Lemma provider_spec h issuer provider id :
  IsValidOIDCIssuer issuer = true → IsValidOIDCProviderName provider = true →
  (authenticateAzureContainerAppsOIDC h issuer provider = Some id ↔
   ∃ subject encoded p,
     header_values h containerAppsPrincipalHeader = [encoded] ∧ header_values h containerAppsPrincipalIDHeader = [subject] ∧
     header_values h containerAppsPrincipalIDPHeader = [provider] ∧ IsValidOIDCSubject subject = true ∧
     carries encoded p ∧ pr_AuthenticationType p = provider ∧ id = mkIdentity issuer subject).
Proof.
  intros Hi Hp. unfold authenticateAzureContainerAppsOIDC, readCustomContainerAppsEvidence. rewrite Hi, Hp. cbn [negb orb]. split.
  - intros H. destruct (header_values h containerAppsPrincipalHeader) as [|encoded [|??]]; [done| |done].
    destruct (header_values h containerAppsPrincipalIDHeader) as [|subject [|??]]; [done| |done].
    destruct (header_values h containerAppsPrincipalIDPHeader) as [|idp [|??]]; [done| |done]. cbv beta iota in H.
    case_if_in H; [done|]. cbn [ev_encodedPrincipal ev_principalID ev_identityProvider] in *. breflect.
    destruct E as [[-> Hs] (p & Hc & Ha)%provider_principal_spec]. injection H as <-. by exists subject, encoded, p.
  - intros (subject & encoded & p & -> & -> & -> & Hs & Hc & Ha & ->). cbn [ev_encodedPrincipal ev_principalID ev_identityProvider].
    rewrite str_eqb_refl, Hs, (proj2 (provider_principal_spec encoded provider)) by eauto. done.
Qed.

(** C25: With the policy of an accepted configuration, [Authenticate] returns an identity exactly
    when the configured boundary vouches for its subject under the configured issuer; evidence of
    another boundary, mixed or repeated headers and non-canonical principals authenticate nobody. *)
Theorem Authenticate_exact c h id :
  config_wf c →
  (Authenticate h (policy_of c) = Some id ↔ ∃ subject, id = mkIdentity (c_OIDCIssuer c) subject ∧ vouched c h subject).
Proof.
  intros [Hi _ _ _ Hb _]. pose proof modes_differ as (D1 & D2 & D3 & _ & _).
  pose proof modes_differ as (N1%str_eqb_neq & N2%str_eqb_neq & N3%str_eqb_neq & _ & _).
  unfold Authenticate, policy_of. cbn [bp_Mode bp_ExpectedAzureTenantID bp_ExpectedOIDCProviderName bp_ExpectedIssuer].
  inversion Hb as [E1 E2 E3|tenant Hu Hiss E1 E2 E3|provider Hv E1 E2 E3]; rewrite ?D1, ?D2, ?D3, ?str_eqb_refl; cbn [negb orb].
  - destruct (hasAzureContainerAppsIdentityHeaders h) eqn:Hh.
    + split; [done|]. intros (s & -> & [_ H%platform_headers_spec|? ? ? ? E|? ? E]); congruence.
    + rewrite headers_spec by done. apply platform_headers_spec in Hh. split.
      * intros (s & H1 & H2 & H3 & ->). exists s. split; [done|]. by constructor.
      * intros (s & -> & [|? ? ? ? E|? ? E]); [by exists s|congruence..].
  - assert (Ha : IsAzureContainerAppsIssuer (c_OIDCIssuer c) (c_AzureContainerAppsTenantID c) = true).
    { unfold IsAzureContainerAppsIssuer. by rewrite Hu, Hiss, str_eqb_refl. }
    destruct (hasGenericOIDCIdentityHeaders h) eqn:Hh.
    + split; [done|]. intros (s & -> & [E|? ? ? ? E H%generic_headers_spec|? ? E H%generic_headers_spec]); congruence.
    + rewrite entra_spec by done. apply generic_headers_spec in Hh. split.
      * intros (s & encoded & p & t & ob & H). exists s. split; [apply H|]. eapply (vouched_entra _ _ _ encoded p t ob); tauto || congruence.
      * intros (s & -> & [E|encoded p t ob E|? ? E]); [congruence| |congruence]. exists s, encoded, p, t, ob. by split_and!.
  - destruct (hasGenericOIDCIdentityHeaders h) eqn:Hh.
    + split; [done|]. intros (s & -> & [E|? ? ? ? E H%generic_headers_spec|? ? E H%generic_headers_spec]); congruence.
    + rewrite provider_spec by done. apply generic_headers_spec in Hh. split.
      * intros (s & encoded & p & H). exists s. split; [apply H|]. eapply (vouched_provider _ _ _ encoded p); try tauto; intuition congruence.
      * intros (s & -> & [E|? ? ? ? E|encoded p E]); [congruence..|]. exists s, encoded, p. split_and!; congruence || done.
Qed.

(** ** Witnesses *)

Module AuthSamples.
Definition ingress (issuer subject : gostring) : Header :=
  header_set IssuerHeader issuer (header_set SubjectHeader subject ∅).

Definition quoted (s : gostring) : gostring := quote :: s ++ [quote].
Definition claim (t v : gostring) : gostring := lit "{" ++ quoted (lit "typ") ++ lit ":" ++ quoted t ++ lit "," ++
  quoted (lit "val") ++ lit ":" ++ quoted v ++ lit "}".
Definition tenant : gostring := lit "11111111-2222-3333-4444-555555555555".
Definition user : gostring := lit "aaaaaaaa-bbbb-cccc-dddd-eeeeeeeeeeee".
Definition principal (claims : gostring) : gostring :=
  lit "{" ++ quoted (lit "auth_typ") ++ lit ":" ++ quoted (lit "aad") ++ lit "," ++ quoted (lit "claims") ++ lit ":[" ++
  claims ++ lit "]," ++ quoted (lit "name_typ") ++ lit ":" ++ quoted [] ++ lit "," ++ quoted (lit "role_typ") ++ lit ":" ++
  quoted [] ++ lit "}".
Definition platform (claims : gostring) : Header :=
  header_set containerAppsPrincipalHeader (base64_encode (principal claims))
    (header_set containerAppsPrincipalIDHeader user ∅).
Definition entra_policy : BoundaryPolicy :=
  mkPolicy (azureContainerAppsIssuerPrefix ++ tenant ++ azureContainerAppsIssuerSuffix)
    TrustedIdentityModeAzureContainerApps tenant [].

(** A principal with one tenant and one object claim is accepted, a second object claim is not. *)
Example entra_1 :
  Authenticate (platform (claim (lit "tid") tenant ++ lit "," ++ claim (lit "oid") user)) entra_policy =
    Some (mkIdentity (bp_ExpectedIssuer entra_policy) user) ∧
  Authenticate (platform (claim (lit "tid") tenant ++ lit "," ++ claim (lit "oid") user ++ lit "," ++
    claim mappedAzureObjectIDClaim user)) entra_policy = None.
Proof. by vm_compute. Qed.
End AuthSamples.

Example Authenticate_exact_witness :
  config_wf ConfigSamples.sample ∧
  (Authenticate (AuthSamples.ingress (lit "https://login.example.com/tenant") (lit "alice")) (policy_of ConfigSamples.sample) =
     Some (mkIdentity (lit "https://login.example.com/tenant") (lit "alice")) ↔
   ∃ subject, mkIdentity (lit "https://login.example.com/tenant") (lit "alice") =
                mkIdentity (c_OIDCIssuer ConfigSamples.sample) subject ∧
              vouched ConfigSamples.sample (AuthSamples.ingress (lit "https://login.example.com/tenant") (lit "alice")) subject).
Proof. split; [exact ConfigSamples.sample_wf|]. apply Authenticate_exact, ConfigSamples.sample_wf. Defined.
