(* ===== verification/HttpEffects.v ===== *)
(** * Effects of the download service

    Requests the download handler and its storage adapter make of their environment, and the
    [Store] interface of internal/blob/azure.go between the two. *)

From S2P Require Import Prelude Utf8 GoStrings GoTime Program Azure GoHttp.

(** [blob.Snapshot]. *)
Record Snapshot : Type := mkSnapshot { sn_Size : Z; sn_ETag : gostring }.

(** The errors of the package and of the contexts it passes on. *)
Inductive blob_error : Type :=
| ErrNotFound
| ErrChanged
| ErrUnavailable
| CtxCanceled
| CtxDeadlineExceeded.
#[export] Instance blob_error_eq_dec : EqDecision blob_error.
Proof. solve_decision. Defined.

(** The bytes a response body delivers before its end or its first read error. *)
Abbreviation Body := gostring.

(** The parts of the SDK's responses the adapter reads. *)
Record properties_response : Type := mkProperties { gp_ContentLength : option Z; gp_ETag : option gostring }.
Record stream_response : Type := mkStream {
  ds_Body : option Body; ds_ContentLength : option Z; ds_ETag : option gostring }.

(** Arguments of the structured logger. *)
Inductive attr : Type := AString (s : gostring) | AInt (z : Z).

Inductive hevent : Type :=
(** [request.Context().Err() != nil] *)
| HContext
(** [rand.Read] of sixteen bytes *)
| HRandom
| HClock
| HLog (message : gostring) (args : list (gostring * attr))
| HGetProperties (name : gostring)
| HDownload (name : gostring) (offset count : Z) (ifMatch : gostring)
(** [Close] of a response body; the answer is whether it failed *)
| HClose
| HWriteHeader (status : Z) (headers : Header)
(** a write to the client; the answer is how many bytes were accepted *)
| HWrite (data : gostring)
(** a Go run-time panic *)
| HPanic
(** a loop that has used up its fuel and goes on: there is no answer *)
| HDiverge.

Definition hanswer (e : hevent) : Type :=
  match e with
  | HContext => bool
  | HRandom => option gostring
  | HClock => Time
  | HLog _ _ => unit
  | HGetProperties _ => result azure_error properties_response
  | HDownload _ _ _ _ => result azure_error stream_response
  | HClose => bool
  | HWriteHeader _ _ => unit
  | HWrite _ => nat
  | HPanic | HDiverge => Empty_set
  end.

Abbreviation hprog := (program hevent hanswer).

Definition request (e : hevent) : hprog (hanswer e) := perform e.

(** [blob.Store]. *)
Class Store : Type := {
  Stat : gostring → hprog (result blob_error Snapshot);
  OpenRange : gostring → Z → Z → gostring → hprog (result blob_error Body) }.
