(* ===== verification/Range.v ===== *)
(** * internal/download/range.go

    The supported byte-range contract: [Select] turns the Range and If-Range headers of a request
    into the interval of the object to deliver. *)

From S2P Require Import Prelude Utf8 GoStrings.

Definition maxValidatorBytes : Z := 128.

Inductive range_error : Type := ErrInvalidRange.

Record ByteRange : Type := mkByteRange { b_Start : Z; b_End : Z }.

Record Selection : Type := mkSelection {
  s_Offset : Z; s_Length : Z; s_Partial : bool; s_Range : option ByteRange }.

Definition parseDecimal (value : gostring) : result range_error Z :=
  match parse_uint 63 value with
  | None => Err ErrInvalidRange
  | Some parsed => Ok parsed
  end.

(** A double quote. *)
Definition quote : ascii := byte 34.

(** [isStrongETag]: the loop visits the bytes between the first and the last one. *)
Definition isStrongETag (value : gostring) : bool :=
  match value with
  | first :: ((_ :: _) as rest) =>
    if negb (Ascii.eqb first quote) || negb (Ascii.eqb (List.last value first) quote) || has_prefix (lit "W/") value
    then false
    else forallb (λ c, negb (Ascii.eqb c quote || (code c <? 0x21) || (code c =? 0x7f))) (removelast rest)
  | _ => false
  end.

Definition ifRangePermits (values : list gostring) (currentETag : gostring) : bool :=
  match values with
  | [] => true
  | value :: others =>
    if negb (len values =? 1) || (maxValidatorBytes <? len value) || negb (isStrongETag value) then false
    else value =s currentETag
  end.

(** [parseRange]. [strings.SplitN] finds the separator [strings.Count] has found. *)
Definition parseRange (header : gostring) (size : Z) : result range_error ByteRange :=
  if (len header =? 0) || (maxValidatorBytes <? len header) || (size <=? 0) ||
     negb (has_prefix (lit "bytes=") header) || contains (lit ",") header
  then Err ErrInvalidRange
  else
    let specification := trim_prefix (lit "bytes=") header in
    if negb (count_byte "-"%char specification =? 1) then Err ErrInvalidRange
    else match cut_byte "-"%char specification with
    | (_, None) => Err ErrInvalidRange
    | (part0, Some part1) =>
      if (part0 =s []) && (part1 =s []) then Err ErrInvalidRange
      else if part0 =s [] then
        match parseDecimal part1 with
        | Err _ => Err ErrInvalidRange
        | Ok suffix =>
          if suffix <=? 0 then Err ErrInvalidRange
          else
            let start := wrap64 (size - suffix) in
            let start := if start <? 0 then 0 else start in
            Ok (mkByteRange start (wrap64 (size - 1)))
        end
      else
        match parseDecimal part0 with
        | Err _ => Err ErrInvalidRange
        | Ok start =>
          if size <=? start then Err ErrInvalidRange
          else if part1 =s [] then Ok (mkByteRange start (wrap64 (size - 1)))
          else match parseDecimal part1 with
          | Err _ => Err ErrInvalidRange
          | Ok last =>
            if last <? start then Err ErrInvalidRange
            else Ok (mkByteRange start (if size <=? last then wrap64 (size - 1) else last))
          end
        end
    end.

Definition Select (rangeValues ifRangeValues : list gostring) (size : Z) (currentETag : gostring) :
  result range_error Selection :=
  let full := mkSelection 0 size false None in
  if size <? 0 then Err ErrInvalidRange
  else match rangeValues with
  | [] => Ok full
  | header :: _ =>
    if negb (len rangeValues =? 1) then Err ErrInvalidRange
    else if negb (ifRangePermits ifRangeValues currentETag) then Ok full
    else match parseRange header size with
    | Err e => Err e
    | Ok interval =>
      Ok (mkSelection (b_Start interval) (wrap64 (wrap64 (b_End interval - b_Start interval) + 1)) true (Some interval))
    end
  end.

(** ** What a range header denotes

    The byte-range grammar of RFC 9110 with one range, and its meaning on an object of [size]
    bytes. Numbers are any non-empty strings of digits below [2^63]. *)

Definition decimal (s : gostring) (v : Z) : Prop :=
  s ≠ [] ∧ forallb is_digit s = true ∧ v = dec_value s ∧ v < 2 ^ 63.

Inductive denotes (size : Z) : gostring → ByteRange → Prop :=
| denotes_from_to s t first last :
    decimal s first → decimal t last → first ≤ last → first < size →
    denotes size (lit "bytes=" ++ s ++ "-"%char :: t) (mkByteRange first (Z.min last (size - 1)))
| denotes_from s first :
    decimal s first → first < size →
    denotes size (lit "bytes=" ++ s ++ ["-"%char]) (mkByteRange first (size - 1))
| denotes_suffix t n :
    decimal t n → 0 < n →
    denotes size (lit "bytes=" ++ "-"%char :: t) (mkByteRange (Z.max 0 (size - n)) (size - 1)).

(** ** Lemmas *)

Lemma parseDecimal_spec s v : parseDecimal s = Ok v ↔ decimal s v.
Proof.
  unfold parseDecimal, parse_uint, decimal. destruct s as [|a s]; [naive_solver|].
  destruct (forallb is_digit (a :: s)) eqn:Hd; cbn [andb]; [|naive_solver].
  destruct (dec_value (a :: s) <? 2 ^ 63) eqn:Hv; breflect; split; [intros [= <-]|intros (_&_&->&_)|done|intros (_&_&->&?)];
    [done|done|lia].
Qed.

Lemma decimal_range s v : decimal s v → 0 ≤ v < 2 ^ 63.
Proof. intros (_ & H & -> & ?). pose proof (dec_value_bounds s H). lia. Qed.

Lemma decimal_nonempty s v : decimal s v → (s =s []) = false.
Proof. intros [? _]. by apply str_eqb_neq. Qed.

(** Neither separator of the grammar is a digit. *)
Lemma digits_free c s : is_digit c = false → forallb is_digit s = true → c ∉ s.
Proof. rewrite forallb_Forall, Forall_forall. intros Hc H Hin. specialize (H _ Hin). congruence. Qed.

Lemma decimal_free c s v : is_digit c = false → decimal s v → c ∉ s.
Proof. intros Hc (_ & ? & _). by apply digits_free. Qed.

Lemma contains_one c s : contains [c] s = contains_byte c s.
Proof.
  induction s as [|a s IH]; simpl; [done|]. rewrite IH. by rewrite andb_true_r.
Qed.

Lemma count_byte_free c s : c ∉ s → count_byte c s = 0.
Proof.
  unfold count_byte. induction s as [|a s IH]; [done|]. intros H. simpl.
  destruct (Ascii.eqb c a) eqn:E; breflect; [subst; set_solver|]. apply IH. set_solver.
Qed.

Lemma count_byte_app c s t : count_byte c (s ++ t) = count_byte c s + count_byte c t.
Proof. unfold count_byte. by rewrite List.filter_app, len_app. Qed.

Lemma count_byte_cons c t : count_byte c (c :: t) = count_byte c t + 1.
Proof. unfold count_byte. cbn [List.filter]. rewrite Ascii.eqb_refl. apply len_cons. Qed.

(** The separators of a header with two decimal (or empty) parts. *)
Lemma parts_shape s t :
  forallb is_digit s = true → forallb is_digit t = true →
  contains (lit ",") (lit "bytes=" ++ s ++ "-"%char :: t) = false ∧
  count_byte "-"%char (s ++ "-"%char :: t) = 1 ∧
  cut_byte "-"%char (s ++ "-"%char :: t) = (s, Some t).
Proof.
  intros Hs Ht. split_and!.
  - change (lit ",") with [","%char]. rewrite contains_one. apply contains_byte_false.
    rewrite !elem_of_app, elem_of_cons. intros [H|[H|[H|H]]]; [|by eapply digits_free in Hs|done|by eapply digits_free in Ht].
    revert H. by apply contains_byte_false.
  - rewrite count_byte_app, count_byte_cons, !count_byte_free by (by apply digits_free). done.
  - apply cut_byte_app. by apply digits_free.
Qed.

Lemma cut_inj s t s' t' :
  s ++ "-"%char :: t = s' ++ "-"%char :: t' → "-"%char ∉ s → "-"%char ∉ s' → s = s' ∧ t = t'.
Proof.
  intros E Hs Hs'. apply (f_equal (cut_byte "-"%char)) in E. rewrite !cut_byte_app in E by done. naive_solver.
Qed.

Lemma parseRange_complete header size r :
  0 < size < 2 ^ 63 → len header ≤ 128 → denotes size header r → parseRange header size = Ok r.
Proof.
  intros Hsize Hlen Hd. unfold parseRange, maxValidatorBytes.
  assert (∃ s t, header = lit "bytes=" ++ s ++ "-"%char :: t ∧ forallb is_digit s = true ∧ forallb is_digit t = true)
    as (s0 & t0 & Hh & Hs0 & Ht0).
  { destruct Hd as [s t ?? (_&?&_) (_&?&_)|s ? (_&?&_)|t ? (_&?&_)]; [by exists s, t|by exists s, []|by exists [], t]. }
  destruct (parts_shape s0 t0 Hs0 Ht0) as (Hc & Hn & Hcut).
  rewrite Hh in *. rewrite has_prefix_app, Hc, trim_prefix_app, Hn, Hcut. cbn [negb orb].
  rewrite (proj2 (Z.ltb_ge _ _) Hlen), (proj2 (Z.leb_gt size 0) ltac:(lia)), (proj2 (Z.eqb_neq _ _)) by
    (rewrite len_app; pose proof (len_nonneg (s0 ++ "-"%char :: t0)); change (len (lit "bytes=")) with 6; lia).
  cbn [orb Z.eqb negb Pos.eqb].
  inversion Hd as [s t a b Ha Hb Hab Hlt E|s a Ha Hlt E|t n Ht Hn0 E]; subst r.
  - destruct (cut_inj s t s0 t0) as [-> ->]; [done..|by eapply decimal_free|by apply digits_free|].
    rewrite (decimal_nonempty _ _ Ha), (decimal_nonempty _ _ Hb), (proj2 (parseDecimal_spec _ _) Ha).
    cbn [andb]. rewrite (proj2 (Z.leb_gt size a) Hlt), (proj2 (parseDecimal_spec _ _) Hb), (proj2 (Z.ltb_ge b a) Hab).
    do 2 f_equal. rewrite wrap64_small by (unfold int64_range; lia). destruct (size <=? b) eqn:E'; breflect; lia.
  - destruct (cut_inj s [] s0 t0) as [-> <-]; [done..|by eapply decimal_free|by apply digits_free|].
    rewrite (decimal_nonempty _ _ Ha), (proj2 (parseDecimal_spec _ _) Ha). cbn [andb].
    rewrite (proj2 (Z.leb_gt size a) Hlt), wrap64_small by (unfold int64_range; lia). done.
  - destruct (cut_inj [] t s0 t0) as [<- ->]; [done|set_solver|by apply digits_free|].
    rewrite (decimal_nonempty _ _ Ht), (proj2 (parseDecimal_spec _ _) Ht). cbn [andb str_eqb].
    rewrite (proj2 (Z.leb_gt n 0) Hn0). pose proof (decimal_range _ _ Ht).
    rewrite !wrap64_small by (unfold int64_range; lia). do 2 f_equal. destruct (size - n <? 0) eqn:E'; breflect; lia.
Qed.

Lemma parseRange_sound header size r :
  size < 2 ^ 63 → parseRange header size = Ok r → 0 < size ∧ len header ≤ 128 ∧ denotes size header r.
Proof.
  intros Hsize. unfold parseRange, maxValidatorBytes. intros H.
  case_if_in H; [done|]. breflect. destruct E as [[[[_ Hlen] Hpos] Hpre] _].
  apply has_prefix_spec in Hpre as [spec ->]. rewrite trim_prefix_app in H.
  case_if_in H; [done|]. destruct (cut_byte "-" spec) as [s [t|]] eqn:Hcut; [|done].
  apply cut_byte_spec in Hcut as [_ ->]. split; [done|]. split; [done|].
  case_if_in H; [done|]. case_if_in H.
  - apply str_eqb_eq in E1 as ->. destruct (parseDecimal t) as [n|] eqn:Ht; [|done]. apply parseDecimal_spec in Ht.
    case_if_in H; [done|]. breflect. injection H as <-. pose proof (decimal_range _ _ Ht).
    rewrite !wrap64_small by (unfold int64_range; lia).
    replace (if size - n <? 0 then 0 else size - n) with (Z.max 0 (size - n)) by (destruct (_ <? _) eqn:E'; breflect; lia).
    by apply denotes_suffix.
  - destruct (parseDecimal s) as [a|] eqn:Ha; [|done]. apply parseDecimal_spec in Ha. case_if_in H; [done|]. breflect.
    case_if_in H.
    + apply str_eqb_eq in E3 as ->. injection H as <-. rewrite wrap64_small by (unfold int64_range; lia). by apply denotes_from.
    + destruct (parseDecimal t) as [b|] eqn:Hb; [|done]. apply parseDecimal_spec in Hb. case_if_in H; [done|]. breflect.
      injection H as <-. rewrite wrap64_small by (unfold int64_range; lia).
      replace (if size <=? b then size - 1 else b) with (Z.min b (size - 1)) by (destruct (_ <=? _) eqn:E'; breflect; lia).
      by apply denotes_from_to.
Qed.

(** A strong entity tag of at most 128 bytes: quoted, without quotes, controls or spaces inside. *)
Definition strong_etag (etag : gostring) : Prop :=
  len etag ≤ 128 ∧
  ∃ inner, etag = quote :: inner ++ [quote] ∧
    Forall (λ c, c ≠ quote ∧ 0x21 ≤ code c ∧ code c ≠ 0x7f) inner.

Lemma removelast_snoc {A} (l : list A) x : removelast (l ++ [x]) = l.
Proof. rewrite removelast_app by done. apply app_nil_r. Qed.

Lemma isStrongETag_spec etag : isStrongETag etag = true ↔
  ∃ inner, etag = quote :: inner ++ [quote] ∧ Forall (λ c, c ≠ quote ∧ 0x21 ≤ code c ∧ code c ≠ 0x7f) inner.
Proof.
  assert (Hf : ∀ inner, forallb (λ c, negb (Ascii.eqb c quote || (code c <? 0x21) || (code c =? 0x7f))) inner = true ↔
                        Forall (λ c, c ≠ quote ∧ 0x21 ≤ code c ∧ code c ≠ 0x7f) inner).
  { intros inner. rewrite forallb_Forall. apply Forall_iff. intros c. breflect. tauto. }
  unfold isStrongETag. split.
  - destruct etag as [|a [|b rest]]; [done..|]. intros H. cbv beta iota in H. case_if_in H; [done|]. breflect. destruct E as [[-> Hl] _].
    destruct (exists_last (l := b :: rest)) as (inner & z & E); [done|]. rewrite E in *.
    rewrite app_comm_cons, last_last in Hl. subst z. rewrite removelast_snoc in H. exists inner. by rewrite <- Hf.
  - intros (inner & -> & Hin). destruct (inner ++ [quote]) as [|b rest] eqn:E; [by destruct inner|]. rewrite <- E.
    rewrite app_comm_cons, last_last, Ascii.eqb_refl. cbn [negb orb]. rewrite removelast_snoc. simpl. by apply Hf.
Qed.

(** When If-Range lets a Range header take effect. *)
Definition permits (values : list gostring) (currentETag : gostring) : Prop :=
  values = [] ∨ (values = [currentETag] ∧ strong_etag currentETag).

Lemma ifRangePermits_spec values etag : ifRangePermits values etag = true ↔ permits values etag.
Proof.
  unfold ifRangePermits, permits, strong_etag, maxValidatorBytes. destruct values as [|v [|? ?]]; [naive_solver| |].
  - destruct (isStrongETag v) eqn:E; cbn [negb orb].
    + apply isStrongETag_spec in E. rewrite orb_false_r. change (negb (len [v] =? 1)) with false. cbn [orb].
      destruct (128 <? len v) eqn:El; breflect.
      * split; [done|]. intros [?|[[= ->] [? _]]]; [done|lia].
      * split; [intros <-; by right|]. by intros [?|[[= ->] _]].
    + rewrite orb_true_r. split; [done|]. intros [?|[[= ->] [_ Hs]]]; [done|].
      apply isStrongETag_spec in Hs. congruence.
  - rewrite (proj2 (Z.eqb_neq _ 1)) by (rewrite !len_cons; match goal with |- context [len ?l] => pose proof (len_nonneg l) end; lia).
    cbn [negb orb]. split; [done|]. by intros [?|[? _]].
Qed.

(** What is delivered for a request: the whole object, or the interval its only Range header
    denotes, when If-Range permits it. *)
Inductive selects (rangeValues ifRangeValues : list gostring) (size : Z) (etag : gostring) : Selection → Prop :=
| selects_full :
    0 ≤ size → rangeValues = [] ∨ (len rangeValues = 1 ∧ ¬ permits ifRangeValues etag) →
    selects rangeValues ifRangeValues size etag (mkSelection 0 size false None)
| selects_part header r :
    rangeValues = [header] → permits ifRangeValues etag → 0 < size → len header ≤ 128 → denotes size header r →
    selects rangeValues ifRangeValues size etag (mkSelection (b_Start r) (b_End r - b_Start r + 1) true (Some r)).

Lemma denotes_within size header r : 0 < size → denotes size header r → 0 ≤ b_Start r ≤ b_End r ∧ b_End r < size.
Proof.
  intros Hs [s t a b Ha%decimal_range Hb ??|s a Ha%decimal_range ?|t n Hn%decimal_range ?]; simpl; lia.
Qed.

(** ** Theorems *)

(** [parseRange] accepts exactly the single byte ranges of the grammar that are satisfiable on
    the object, in headers of at most 128 bytes, and returns the interval they denote; every other
    header is refused. *)
Lemma parseRange_exact header size r :
  int64_range size →
  (parseRange header size = Ok r ↔ 0 < size ∧ len header ≤ 128 ∧ denotes size header r).
Proof.
  intros Hsize. unfold int64_range in Hsize. split; [apply parseRange_sound; lia|].
  intros (? & ? & ?). apply parseRange_complete; [lia|done..].
Qed.

Lemma Select_spec rangeValues ifRangeValues size etag sel :
  int64_range size →
  (Select rangeValues ifRangeValues size etag = Ok sel ↔ selects rangeValues ifRangeValues size etag sel).
Proof.
  intros Hsize. unfold int64_range in Hsize. unfold Select. destruct (size <? 0) eqn:E0; breflect.
  { split; [done|]. intros []; lia. }
  destruct rangeValues as [|h rest].
  { split; [intros [= <-]; constructor; auto|]. intros [|]; naive_solver. }
  destruct (len (h :: rest) =? 1) eqn:E1; breflect; cbn [negb].
  2: { split; [done|]. intros [? [?|[? _]]|? ? [= -> ->]]; [done|done|]. by rewrite len_cons in E1. }
  assert (rest = []) as -> by (apply len_0_nil; rewrite len_cons in E1; lia).
  destruct (ifRangePermits ifRangeValues etag) eqn:Ep; cbn [negb].
  - apply ifRangePermits_spec in Ep. destruct (parseRange h size) as [r|e] eqn:Er.
    + apply parseRange_sound in Er as (Hpos & Hl & Hd); [|lia]. pose proof (denotes_within _ _ _ Hpos Hd).
      rewrite !wrap64_small by (rewrite ?wrap64_small; unfold int64_range; lia).
      split; [intros [= <-]; by eapply selects_part|].
      intros [? [?|[_ ?]]|h' r' [= <-] _ _ _ Hd']; [done|done|].
      apply parseRange_complete in Hd; [|lia..]. apply parseRange_complete in Hd'; [|lia..]. congruence.
    + split; [done|]. intros [? [?|[_ ?]]|h' r' [= <-] _ ? ? Hd']; [done|done|].
      apply parseRange_complete in Hd'; [|lia..]. congruence.
  - assert (¬ permits ifRangeValues etag) by (rewrite <- ifRangePermits_spec; congruence).
    split; [intros [= <-]; constructor; auto|]. by intros [|].
Qed.

(** C27: [Select] delivers the whole object or the part a permitted, well-formed and satisfiable
    Range header denotes, and refuses every other request. *)
Theorem Select_exact rangeValues ifRangeValues size etag sel :
  int64_range size →
  (Select rangeValues ifRangeValues size etag = Ok sel ↔ selects rangeValues ifRangeValues size etag sel).
Proof. apply Select_spec. Qed.

Lemma Select_interval rangeValues ifRangeValues size etag sel :
  int64_range size → Select rangeValues ifRangeValues size etag = Ok sel →
  0 ≤ s_Offset sel ∧ 0 ≤ s_Length sel ∧ s_Offset sel + s_Length sel ≤ size ∧
  match s_Range sel with
  | None => s_Partial sel = false ∧ s_Offset sel = 0 ∧ s_Length sel = size
  | Some r => s_Partial sel = true ∧ 1 ≤ s_Length sel ∧ r = mkByteRange (s_Offset sel) (s_Offset sel + s_Length sel - 1)
  end.
Proof.
  intros Hsize. rewrite Select_spec by done. intros [? _|h r _ _ Hpos _ Hd]; simpl; [lia|].
  pose proof (denotes_within _ _ _ Hpos Hd). split_and!; [lia..|done|lia|]. destruct r; simpl. f_equal. lia.
Qed.

(** A selected interval lies within the object; a partial one is not empty and its [ByteRange]
    is the interval; a full one is the whole object. *)
Theorem Select_within rangeValues ifRangeValues size etag sel :
  int64_range size → Select rangeValues ifRangeValues size etag = Ok sel →
  0 ≤ s_Offset sel ∧ 0 ≤ s_Length sel ∧ s_Offset sel + s_Length sel ≤ size ∧
  match s_Range sel with
  | None => s_Partial sel = false ∧ s_Offset sel = 0 ∧ s_Length sel = size
  | Some r => s_Partial sel = true ∧ 1 ≤ s_Length sel ∧ r = mkByteRange (s_Offset sel) (s_Offset sel + s_Length sel - 1)
  end.
Proof. apply Select_interval. Qed.

(** ** Witnesses *)

Example Select_exact_witness :
  int64_range 1000 ∧
  (Select [lit "bytes=-10"] [] 1000 [] = Ok (mkSelection 990 10 true (Some (mkByteRange 990 999))) ↔
   selects [lit "bytes=-10"] [] 1000 [] (mkSelection 990 10 true (Some (mkByteRange 990 999)))).
Proof. split; [unfold int64_range; lia|]. apply Select_exact. unfold int64_range. lia. Defined.

Example Select_within_witness :
  ∃ sel, Select [lit "bytes=5-"] [] 1000 [] = Ok sel ∧ s_Offset sel + s_Length sel ≤ 1000.
Proof.
  exists (mkSelection 5 995 true (Some (mkByteRange 5 999))).
  assert (E : Select [lit "bytes=5-"] [] 1000 [] = Ok (mkSelection 5 995 true (Some (mkByteRange 5 999)))) by reflexivity.
  split; [exact E|]. exact (proj1 (proj2 (proj2 (Select_within _ _ 1000 _ _ ltac:(unfold int64_range; lia) E)))).
Defined.

(** If-Range with another validator falls back to the whole object, a malformed range does not. *)
Example Select_if_range :
  Select [lit "bytes=0-1"] [quote :: lit "old" ++ [quote]] 10 (quote :: lit "new" ++ [quote]) =
    Ok (mkSelection 0 10 false None) ∧
  Select [lit "bytes=0-1,3-4"] [] 10 [] = Err ErrInvalidRange ∧ Select [lit "bytes=10-"] [] 10 [] = Err ErrInvalidRange.
Proof. by vm_compute. Qed.
