(* ===== verification/Blob.v ===== *)
(** * internal/blob/azure.go

    The read-only Azure Blob boundary of the download service. *)

From S2P Require Import Prelude Utf8 GoStrings Regex Json Url GoHttp Program Azure Config HttpEffects Range.

Definition StorageAudience : gostring := lit "https://storage.azure.com/".

(** [validStrongETag]: the loop visits the bytes between the first and the last one. *)
Definition validStrongETag (value : gostring) : bool :=
  match value with
  | first :: ((_ :: _) as rest) =>
    if (128 <? len value) || negb (Ascii.eqb first quote) || negb (Ascii.eqb (List.last value first) quote) then false
    else forallb (λ c, negb (Ascii.eqb c quote || (code c <? 0x21) || (code c =? 0x7f))) (removelast rest)
  | _ => false
  end.

Definition translateError (e : azure_error) : blob_error :=
  match e with
  | AzCanceled => CtxCanceled
  | AzDeadlineExceeded => CtxDeadlineExceeded
  | AzStatus status => if status =? 404 then ErrNotFound else if status =? 412 then ErrChanged else ErrUnavailable
  | AzOther => ErrUnavailable
  end.

(** [newAzureStore], over the two SDK constructors. *)
Definition newAzureStore {Credential Client : Type} (credential : gostring → option Credential)
  (container : gostring → Credential → gostring → option Client) (cfg : Config) : result blob_error Client :=
  match credential (c_ManagedIdentityClientID cfg) with
  | None => Err ErrUnavailable
  | Some cred =>
    let containerURL := lit "https://" ++ c_StorageAccountName cfg ++ lit ".blob.core.windows.net/" ++ c_StorageContainer cfg in
    match container containerURL cred StorageAudience with
    | None => Err ErrUnavailable
    | Some client => Ok client
    end
  end.

Definition azure_Stat (blobName : gostring) : hprog (result blob_error Snapshot) :=
  response ← request (HGetProperties blobName);
  match response with
  | Err e => Ret (Err (translateError e))
  | Ok response =>
    match gp_ContentLength response, gp_ETag response with
    | Some n, Some etag =>
      if n <? 0 then Ret (Err ErrUnavailable)
      else if negb (validStrongETag etag) then Ret (Err ErrUnavailable)
      else Ret (Ok (mkSnapshot n etag))
    | _, _ => Ret (Err ErrUnavailable)
    end
  end.

(** The response of a conditional read is the one asked for. *)
Definition response_matches (response : stream_response) (length : Z) (etag : gostring) : bool :=
  match ds_ContentLength response, ds_ETag response with
  | Some n, Some e => (n =? length) && (e =s etag)
  | _, _ => false
  end.

Definition azure_OpenRange (blobName : gostring) (offset length : Z) (etag : gostring) : hprog (result blob_error Body) :=
  if (offset <? 0) || (MaxObjectSize <? offset) || (length <? 1) || (MaxStorageSegment <? length) ||
     negb (validStrongETag etag) then Ret (Err ErrUnavailable)
  else
    response ← request (HDownload blobName offset length etag);
    match response with
    | Err e => Ret (Err (translateError e))
    | Ok response =>
      match ds_Body response with
      | None => Ret (Err ErrUnavailable)
      | Some body =>
        if response_matches response length etag then Ret (Ok body)
        else _ ← request HClose; Ret (Err ErrUnavailable)
      end
    end.

#[export] Instance azure_store : Store := {| Stat := azure_Stat; OpenRange := azure_OpenRange |}.

(** ** Theorems *)

(** With an accepted configuration the adapter is bound to the configured client identity and to
    a URL whose host is the configured account under [blob.core.windows.net] and whose path is the
    configured container: no account or container name can redirect it. *)
Theorem container_url_exact {Credential Client : Type} (credential : gostring → option Credential)
  (container : gostring → Credential → gostring → option Client) cfg client :
  config_wf cfg → newAzureStore credential container cfg = Ok client →
  ∃ cred url,
    credential (c_ManagedIdentityClientID cfg) = Some cred ∧ container url cred StorageAudience = Some client ∧
    url_parse url = Some (mkURL (lit "https") [] None (c_StorageAccountName cfg ++ lit ".blob.core.windows.net")
                            ("/"%char :: c_StorageContainer cfg) [] false [] []).
Proof.
  intros Hwf H. unfold newAzureStore in H. destruct (credential _) as [cred|]; [|done].
  match type of H with context [container ?u _ _] => set (url := u) in H end.
  destruct (container url cred StorageAudience) as [cl|] eqn:Hc; [|done]. injection H as <-. exists cred, url.
  split_and!; [done..|]. destruct Hwf as [_ _ [_ Ha] (_ & _ & Hk & _) _ _].
  assert (Hplain : ∀ s, forallb (Class_.plus Class_.lower_digit (lit "-")) s = true → forallb url_plain s = true).
  { intros s. rewrite !forallb_forall. intros Hs c Hin. specialize (Hs c Hin). revert Hs. apply implb_true_iff.
    apply (ascii_forall (λ c, implb (Class_.plus Class_.lower_digit (lit "-") c) (url_plain c))). vm_compute. reflexivity. }
  assert (Ha' : forallb (Class_.plus Class_.lower_digit (lit "-")) (c_StorageAccountName cfg) = true).
  { revert Ha. rewrite !forallb_forall. intros Ha c Hin. unfold Class_.plus. by rewrite Ha. }
  rewrite <- url_parse_plain; [|by rewrite forallb_app, (Hplain _ Ha')|by apply Hplain].
  unfold url. by rewrite <- app_assoc.
Qed.

Lemma validStrongETag_spec value : validStrongETag value = true ↔ strong_etag value.
Proof.
  unfold strong_etag. rewrite <- isStrongETag_spec. unfold validStrongETag, isStrongETag.
  destruct value as [|a [|b rest]]; [naive_solver..|].
  destruct (128 <? len (a :: b :: rest)) eqn:El; breflect; cbn [orb].
  { split; [done|]. intros [? _]. lia. }
  destruct (Ascii.eqb a quote) eqn:Ea; cbn [negb orb]; [|naive_solver].
  apply Ascii.eqb_eq in Ea as ->. change (has_prefix (lit "W/") (quote :: b :: rest)) with false. rewrite orb_false_r. tauto.
Qed.

(** The entity tags the adapter accepts are exactly the strong ones of at most 128 bytes, the
    ones [download.Select] compares If-Range with. *)
Lemma validStrongETag_exact value : validStrongETag value = true ↔ strong_etag value.
Proof. apply validStrongETag_spec. Qed.

Lemma closed_run rest r :
  runs (_ ← request HClose; Ret (Err ErrUnavailable) : hprog (result blob_error Body)) rest (Some r) →
  ∃ failed, rest = [existT HClose failed] ∧ r = Err ErrUnavailable.
Proof. intros [[_ [=]]|(failed & t & -> & -> & [[= ->]|[=]])]. by exists failed. Qed.

(** What a read that ended did: nothing when its arguments are out of bounds, otherwise one request
    and, for a body that is not the one asked for, its closing. *)
Definition range_outcome (blobName : gostring) (offset length : Z) (etag : gostring) (t : history hevent hanswer)
  (r : result blob_error Body) : Prop :=
  (t = [] ∧ r = Err ErrUnavailable) ∨
  (0 ≤ offset ≤ MaxObjectSize ∧ 1 ≤ length ≤ MaxStorageSegment ∧ strong_etag etag ∧
   ∃ x rest, t = existT (HDownload blobName offset length etag) x :: rest ∧
     match x, r with
     | Ok (mkStream (Some body) (Some n) (Some e)), Ok body' => n = length ∧ e = etag ∧ body' = body ∧ rest = []
     | Ok (mkStream (Some _) _ _), Err ErrUnavailable => ∃ failed, rest = [existT HClose failed]
     | Ok (mkStream None _ _), Err ErrUnavailable => rest = []
     | Err e, Err e' => e' = translateError e ∧ rest = []
     | _, _ => False
     end).

(** The adapter reads within its bounds and hands out a body only when the response has the
    length and the entity tag that were asked for; a body it does not hand out is closed. *)
Theorem OpenRange_exact blobName offset length etag t r :
  runs (azure_OpenRange blobName offset length etag) t (Some r) → range_outcome blobName offset length etag t r.
Proof.
  unfold azure_OpenRange, range_outcome. intros H. case_if_in H.
  { destruct H as [-> [[= ->]|?]]; [by left|done]. }
  right. breflect. destruct E as [[[[? ?] ?] ?] Hv%validStrongETag_spec]. split_and!; try done. clear Hv.
  destruct H as [[_ [=]]|(x & rest & -> & H)]. exists x, rest. split; [done|].
  destruct x as [[[body|] n e]|e]; simpl in H.
  - unfold response_matches in H. simpl in H. destruct n as [n|], e as [e|]; try (by apply closed_run in H as (? & -> & ->); eauto).
    case_if_in H; [|by apply closed_run in H as (? & -> & ->); eauto].
    breflect. destruct E as [-> ->], H as [-> [[= ->]|?]]; done.
  - by destruct H as [-> [[= ->]|?]].
  - by destruct H as [-> [[= ->]|?]].
Qed.

(** ** Witnesses *)

Example container_url_exact_witness :
  ∃ cred url, (λ id : gostring, Some id) (c_ManagedIdentityClientID ConfigSamples.sample) = Some cred ∧
    (λ (u : gostring) (_ : gostring) (_ : gostring), Some u) url cred StorageAudience =
      Some (lit "https://darstore.blob.core.windows.net/dar-releases") ∧
    url_parse url = Some (mkURL (lit "https") [] None (c_StorageAccountName ConfigSamples.sample ++ lit ".blob.core.windows.net")
                            ("/"%char :: c_StorageContainer ConfigSamples.sample) [] false [] []).
Proof.
  apply (container_url_exact (λ id, Some id) (λ u _ _, Some u) ConfigSamples.sample
           (lit "https://darstore.blob.core.windows.net/dar-releases") ConfigSamples.sample_wf). reflexivity.
Defined.

Module BlobSamples.
Definition tag : gostring := quote :: lit "0x8DC" ++ [quote].
Definition answer : hanswer (HDownload (lit "1.0/app.dar") 4 3 tag) := Ok (mkStream (Some (lit "abc")) (Some 3) (Some tag)).
Definition read : history hevent hanswer := [existT (HDownload (lit "1.0/app.dar") 4 3 tag) answer].
End BlobSamples.

Example OpenRange_exact_witness :
  runs (azure_OpenRange (lit "1.0/app.dar") 4 3 BlobSamples.tag) BlobSamples.read (Some (Ok (lit "abc"))) ∧
  range_outcome (lit "1.0/app.dar") 4 3 BlobSamples.tag BlobSamples.read (Ok (lit "abc")).
Proof.
  assert (H : runs (azure_OpenRange (lit "1.0/app.dar") 4 3 BlobSamples.tag) BlobSamples.read (Some (Ok (lit "abc")))).
  { right. exists BlobSamples.answer, []. split; [reflexivity|]. split; [reflexivity|]. left. reflexivity. }
  split; [exact H|]. apply OpenRange_exact. exact H.
Defined.
