(* ===== verification/HttpApi.v ===== *)
(** * internal/httpapi/handler.go

    The HTTP surface of the download service: the anonymous health route and the authenticated
    download route, which selects one object by its path and streams it in bounded segments. The
    handler is written against the [Store] interface. *)

From S2P Require Import Prelude Utf8 GoStrings GoTime Regex Json Url GoHttp Program Config Auth HttpEffects Range.

Definition maxVersionBytes : Z := 96.
Definition maxFileNameBytes : Z := 128.

(** The parts of [http.Request] the handler reads. *)
Record Request : Type := mkRequest {
  rq_Method : gostring; rq_URL : option URL; rq_RequestURI : gostring; rq_Header : Header }.

Record downloadTarget : Type := mkTarget { t_blobName : gostring; t_fileName : gostring; t_version : gostring }.

Record selectedDownload : Type := mkSelected {
  sd_target : downloadTarget; sd_snapshot : Snapshot; sd_selection : Selection }.

Record streamResult : Type := mkStreamResult { r_outcome : gostring; r_bytes : Z }.

Definition STREAM_COMPLETED : gostring := lit "STREAM_COMPLETED".
Definition STREAM_ABANDONED : gostring := lit "STREAM_ABANDONED".
Definition STREAM_FAILED : gostring := lit "STREAM_FAILED".
Definition STORAGE_UNAVAILABLE : gostring := lit "STORAGE_UNAVAILABLE".

(** ** Request paths *)

Definition segment_char (c : ascii) : bool :=
  negb (((code c <? 65) || (90 <? code c)) && ((code c <? 97) || (122 <? code c)) && ((code c <? 48) || (57 <? code c)) &&
        negb (Ascii.eqb c "."%char) && negb (Ascii.eqb c "_"%char) && negb (Ascii.eqb c "-"%char)).

Definition validDownloadSegment (value : gostring) (maximumBytes : Z) : bool :=
  if (value =s []) || (maximumBytes <? len value) || (trim_byte "."%char value =s []) then false
  else forallb segment_char value.

Definition downloadTargetFromRequest (request : Request) : option downloadTarget :=
  match rq_URL request with
  | None => None
  | Some url =>
    if negb (u_opaque url =s []) || negb (u_raw_path url =s []) || negb (u_raw_query url =s []) || u_force_query url ||
       contains (lit "%") (rq_RequestURI request) then None
    else match split_on "/"%char (u_path url) with
    | [p0; p1; p2; version; p4; file] =>
      if negb (p0 =s []) || negb (p1 =s lit "v1") || negb (p2 =s lit "releases") || negb (p4 =s lit "download") ||
         negb (validDownloadSegment version maxVersionBytes) || negb (validDownloadSegment file maxFileNameBytes)
      then None
      else Some (mkTarget (version ++ lit "/" ++ file) file version)
    | _ => None
    end
  end.

(** ** Response headers *)

Definition setDownloadHeaders (headers : Header) (selected : selectedDownload) : Header :=
  let selection := sd_selection selected in
  let headers := header_set (lit "Accept-Ranges") (lit "bytes") headers in
  let headers := header_set (lit "Cache-Control") (lit "private, no-store") headers in
  let headers := header_set (lit "Content-Disposition")
    (lit "attachment; filename=" ++ quote :: t_fileName (sd_target selected) ++ [quote]) headers in
  let headers := header_set (lit "Content-Length") (itoa (s_Length selection)) headers in
  let headers := header_set (lit "Content-Type") (lit "application/octet-stream") headers in
  let headers := header_set (lit "ETag") (sn_ETag (sd_snapshot selected)) headers in
  match s_Range selection with
  | Some r =>
    if s_Partial selection then
      header_set (lit "Content-Range")
        (lit "bytes " ++ itoa (b_Start r) ++ lit "-" ++ itoa (b_End r) ++ lit "/" ++ itoa (sn_Size (sd_snapshot selected))) headers
    else headers
  | None => headers
  end.

Definition setSecurityHeaders (headers : Header) : Header :=
  let headers := header_set (lit "Content-Security-Policy") (lit "default-src 'none'; frame-ancestors 'none'; sandbox") headers in
  let headers := header_set (lit "Cross-Origin-Resource-Policy") (lit "same-origin") headers in
  let headers := header_set (lit "Permissions-Policy") (lit "camera=(), geolocation=(), microphone=()") headers in
  let headers := header_set (lit "Referrer-Policy") (lit "no-referrer") headers in
  let headers := header_set (lit "Strict-Transport-Security") (lit "max-age=31536000; includeSubDomains") headers in
  let headers := header_set (lit "X-Content-Type-Options") (lit "nosniff") headers in
  header_set (lit "X-Frame-Options") (lit "DENY") headers.

(** The headers of a JSON answer of some length. *)
Definition json_headers (length : Z) (headers : Header) : Header :=
  header_set (lit "Content-Type") (lit "application/json")
    (header_set (lit "Content-Length") (itoa length) (header_set (lit "Cache-Control") (lit "no-store") headers)).

Definition quoted (s : gostring) : gostring := quote :: s ++ [quote].

Definition health_body : gostring :=
  lit "{" ++ quoted (lit "service") ++ lit ":" ++ quoted (lit "dar-download") ++ lit "," ++ quoted (lit "status") ++ lit ":" ++
  quoted (lit "ok") ++ lit "}".
Definition error_body (code : gostring) : gostring := lit "{" ++ quoted (lit "error") ++ lit ":" ++ quoted code ++ lit "}".

(** Handlers return the header map as it is when they return: a response that was not started is
    sent with it. *)
Definition writeHealth (headers : Header) : hprog Header :=
  let headers := json_headers (len health_body) headers in
  _ ← request (HWriteHeader 200 headers);
  _ ← request (HWrite health_body);
  Ret headers.

Definition writeJSON (headers : Header) (status : Z) (code : gostring) : hprog Header :=
  let body := error_body code in
  let headers := json_headers (len body) headers in
  _ ← request (HWriteHeader status headers);
  _ ← request (HWrite body);
  Ret headers.

(** ** Streaming *)

Section Handler.
Context `{Storage : Store}.
Variable cfg : Config.

Definition logStreamFailure : hprog unit :=
  request (HLog (lit "download stream terminated") [(lit "event", AString (lit "stream_failure"))]).

(** [writeStorageError] writes nothing when a context ended. *)
Definition writeStorageError (headers : Header) (err : blob_error) : hprog Header :=
  ended ← (if bool_decide (err = CtxCanceled) || bool_decide (err = CtxDeadlineExceeded) then Ret true else request HContext);
  if (ended : bool) then Ret headers
  else if bool_decide (err = ErrNotFound) then writeJSON headers 404 (lit "release_not_found")
  else writeJSON headers 502 (lit "storage_unavailable").

(** [io.CopyN]: the bytes the writer accepted of the first [length] of the body; any shortage is an
    error. *)
Definition copyN (body : Body) (length : Z) : hprog Z :=
  let offered := take (Z.to_nat length) body in
  match offered with
  | [] => Ret 0
  | _ => n ← request (HWrite offered); Ret (Z.min (Z.of_nat n) (len offered))
  end.

Definition copySegment (body : Body) (length : Z) : hprog (Z * bool) :=
  written ← copyN body length;
  closeFailed ← request HClose;
  if negb (written =? length) || closeFailed then _ ← logStreamFailure; Ret (written, false)
  else Ret (written, true).

Definition streamFailureOutcome : hprog gostring :=
  ended ← request HContext;
  Ret (if (ended : bool) then STREAM_ABANDONED else STREAM_FAILED).

(** The loop of [stream]; a loop that runs out of fuel does not end. *)
Fixpoint stream_loop (fuel : nat) (blobName etag : gostring) (offset remaining totalWritten : Z) : hprog streamResult :=
  match fuel with
  | O => Vis HDiverge (λ x : hanswer HDiverge, match x with end)
  | S fuel =>
    if 0 <? remaining then
      ended ← request HContext;
      if (ended : bool) then Ret (mkStreamResult STREAM_ABANDONED totalWritten)
      else
        let length := Z.min remaining MaxStorageSegment in
        opened ← OpenRange blobName offset length etag;
        match opened with
        | Err _ => _ ← logStreamFailure; Ret (mkStreamResult STREAM_FAILED totalWritten)
        | Ok body =>
          '(written, copied) ← copySegment body length;
          let totalWritten := wrap64 (totalWritten + written) in
          if negb copied then outcome ← streamFailureOutcome; Ret (mkStreamResult outcome totalWritten)
          else stream_loop fuel blobName etag (wrap64 (offset + length)) (wrap64 (remaining - length)) totalWritten
        end
    else Ret (mkStreamResult STREAM_COMPLETED totalWritten)
  end.

(** Enough for every segment of what remains, and the last test. *)
Definition stream_fuel (remaining : Z) : nat := Z.to_nat (remaining / MaxStorageSegment) + 2.

Definition stream (headers : Header) (selected : selectedDownload) : hprog (Header * streamResult) :=
  let selection := sd_selection selected in
  let blobName := t_blobName (sd_target selected) in
  let etag := sn_ETag (sd_snapshot selected) in
  if s_Length selection =? 0 then
    let headers := setDownloadHeaders headers selected in
    _ ← request (HWriteHeader 200 headers);
    Ret (headers, mkStreamResult STREAM_COMPLETED 0)
  else
    let firstLength := Z.min (s_Length selection) MaxStorageSegment in
    opened ← OpenRange blobName (s_Offset selection) firstLength etag;
    match opened with
    | Err e => headers ← writeStorageError headers e; Ret (headers, mkStreamResult STORAGE_UNAVAILABLE 0)
    | Ok body =>
      let headers := setDownloadHeaders headers selected in
      _ ← request (HWriteHeader (if s_Partial selection then 206 else 200) headers);
      '(written, copied) ← copySegment body firstLength;
      if negb copied then outcome ← streamFailureOutcome; Ret (headers, mkStreamResult outcome written)
      else
        let remaining := wrap64 (s_Length selection - firstLength) in
        r ← stream_loop (stream_fuel remaining) blobName etag (wrap64 (s_Offset selection + firstLength)) remaining written;
        Ret (headers, r)
    end.

(** ** [ServeHTTP] *)

Definition newSessionID : hprog (option gostring) :=
  random ← request HRandom;
  Ret (match (random : option gostring) with Some bytes => Some (hex_encode bytes) | None => None end).

Definition log_download (message event sessionID subject : gostring) (target : downloadTarget)
  (rest : list (gostring * attr)) : hprog unit :=
  now ← request HClock;
  request (HLog message
    ([(lit "schema_version", AString (lit "1.0")); (lit "event", AString event);
      (lit "occurred_at", AString (formatTimeNano (time_utc now))); (lit "session_id", AString sessionID);
      (lit "subject", AString subject); (lit "version", AString (t_version target));
      (lit "file_name", AString (t_fileName target))] ++ rest)).

(** The part of [ServeHTTP] that reads storage, for an authenticated caller: lines 78 to 128. *)
Definition serve_object (headers : Header) (req : Request) (target : downloadTarget) (identity : Identity)
  (sessionID : gostring) : hprog Header :=
  stat ← Stat (t_blobName target);
  match stat with
  | Err e => writeStorageError headers e
  | Ok snapshot =>
    if MaxObjectSize <? sn_Size snapshot then writeJSON headers 413 (lit "release_too_large")
    else match Select (header_values (rq_Header req) (lit "Range")) (header_values (rq_Header req) (lit "If-Range"))
                      (sn_Size snapshot) (sn_ETag snapshot) with
    | Err _ =>
      let headers := header_set (lit "Accept-Ranges") (lit "bytes") headers in
      let headers := header_set (lit "Content-Range") (lit "bytes */" ++ itoa (sn_Size snapshot)) headers in
      writeJSON headers 416 (lit "invalid_range")
    | Ok selection =>
      _ ← log_download (lit "download started") (lit "dar.download.started") sessionID (i_Subject identity) target
            [(lit "requested_bytes", AInt (s_Length selection))];
      '(headers, streamed) ← stream headers (mkSelected target snapshot selection);
      _ ← log_download (lit "download terminal") (lit "dar.download." ++ to_lower (r_outcome streamed)) sessionID
            (i_Subject identity) target
            [(lit "streamed_bytes", AInt (r_bytes streamed)); (lit "outcome", AString (r_outcome streamed))];
      Ret headers
    end
  end.

Definition ServeHTTP (req : Request) : hprog Header :=
  let headers := setSecurityHeaders ∅ in
  if negb (rq_Method req =s lit "GET") then
    writeJSON (header_set (lit "Allow") (lit "GET") headers) 405 (lit "method_not_allowed")
  else match rq_URL req with
  | None => Vis HPanic (λ x : hanswer HPanic, match x with end)
  | Some url =>
    if u_path url =s lit "/healthz" then writeHealth headers
    else match downloadTargetFromRequest req with
    | None => writeJSON headers 404 (lit "release_not_found")
    | Some target =>
      match Authenticate (rq_Header req) (policy_of cfg) with
      | None => writeJSON headers 401 (lit "authentication_required")
      | Some identity =>
        sessionID ← newSessionID;
        match sessionID with
        | None => writeJSON headers 500 (lit "audit_unavailable")
        | Some sessionID => serve_object headers req target identity sessionID
        end
      end
    end
  end.
End Handler.

(** ** Which requests name an object *)

(** A path segment: at most [n] letters, digits, dots, underscores and hyphens, not all dots. *)
Definition safe_segment (s : gostring) (n : Z) : Prop :=
  len s ≤ n ∧ Forall (λ c, is_alnum c = true ∨ c ∈ lit "._-") s ∧ Exists (λ c, c ≠ "."%char) s.

Lemma segment_char_spec c : segment_char c = true ↔ is_alnum c = true ∨ c ∈ lit "._-".
Proof.
  transitivity (is_alnum c || contains_byte c (lit "._-") = true).
  - assert (H : ∀ c, Bool.eqb (segment_char c) (is_alnum c || contains_byte c (lit "._-")) = true).
    { apply ascii_forall. vm_compute. reflexivity. }
    by rewrite (proj1 (Bool.eqb_true_iff _ _) (H c)).
  - rewrite orb_true_iff. unfold contains_byte. rewrite existsb_exists. setoid_rewrite <- list_elem_of_In.
    setoid_rewrite Ascii.eqb_eq. naive_solver.
Qed.

Lemma drop_while_nil {A} (f : A → bool) l : drop_while f l = [] ↔ Forall (λ a, f a = true) l.
Proof.
  induction l as [|a l IH]; simpl; [split; [constructor|done]|]. rewrite Forall_cons. destruct (f a); [rewrite IH; tauto|naive_solver].
Qed.

Lemma drop_while_suffix {A} (f : A → bool) l : ∃ k, l = k ++ drop_while f l ∧ Forall (λ a, f a = true) k.
Proof.
  induction l as [|a l (k & IH & Hk)]; simpl; [by exists []|]. destruct (f a) eqn:E; [|by exists []].
  exists (a :: k). split; [by f_equal/=|]. by constructor.
Qed.

Lemma Forall_rev_iff {A} (P : A → Prop) l : Forall P (rev l) ↔ Forall P l.
Proof. split; intros H; [rewrite <- (rev_involutive l)|]; by apply List.Forall_rev. Qed.

Lemma trim_byte_nil c s : trim_byte c s = [] ↔ Forall (λ a, a = c) s.
Proof.
  unfold trim_byte, trim_both. transitivity (drop_while (Ascii.eqb c) (rev (drop_while (Ascii.eqb c) s)) = []).
  { split; [|by intros ->]. intros H. apply (f_equal (@rev ascii)) in H. by rewrite rev_involutive in H. }
  rewrite drop_while_nil, Forall_rev_iff.
  transitivity (Forall (λ a, Ascii.eqb c a = true) s).
  2: { apply Forall_iff. intros a. rewrite Ascii.eqb_eq. naive_solver. }
  destruct (drop_while_suffix (Ascii.eqb c) s) as (k & Hs & Hk). rewrite Hs at 2. rewrite Forall_app. tauto.
Qed.

Lemma validDownloadSegment_spec s n : validDownloadSegment s n = true ↔ safe_segment s n.
Proof.
  unfold validDownloadSegment, safe_segment. destruct (_ || _) eqn:E.
  - split; [done|]. intros (Hl & _ & Hx). exfalso. breflect. destruct E as [[->|E]|E]; [by inversion Hx|lia|].
    apply trim_byte_nil in E. rewrite Exists_exists in Hx. rewrite Forall_forall in E. naive_solver.
  - breflect. destruct E as [[Hne Hl] Ht]. rewrite forallb_Forall.
    assert (Hi : Forall (λ c, segment_char c = true) s ↔ Forall (λ c, is_alnum c = true ∨ c ∈ lit "._-") s)
      by (apply Forall_iff, segment_char_spec).
    rewrite Hi. split; [|tauto]. intros Hc. split_and!; try done. rewrite trim_byte_nil in Ht.
    destruct (Exists_dec (λ c, c ≠ "."%char) s) as [H|H]; [done|]. destruct Ht. rewrite Forall_forall. intros c Hin.
    destruct (decide (c = "."%char)); [done|]. destruct H. apply Exists_exists. eauto.
Qed.

Lemma safe_segment_free s n : safe_segment s n → "/"%char ∉ s.
Proof.
  intros (_ & Hc & _) Hin. rewrite Forall_forall in Hc. destruct (Hc _ Hin) as [H|H]; [done|].
  revert H. by apply contains_byte_false.
Qed.

(** The path of a download. *)
Definition download_path (version file : gostring) : gostring :=
  lit "/v1/releases/" ++ version ++ lit "/download/" ++ file.

Lemma split_download_path version file :
  "/"%char ∉ version → "/"%char ∉ file →
  split_on "/"%char (download_path version file) = [[]; lit "v1"; lit "releases"; version; lit "download"; file].
Proof.
  intros Hv Hf. unfold download_path. change (lit "/v1/releases/" ++ version ++ lit "/download/" ++ file)
    with ([] ++ "/"%char :: lit "v1" ++ "/"%char :: lit "releases" ++ "/"%char :: version ++ "/"%char :: lit "download" ++ "/"%char :: file).
  rewrite split_on_app by set_solver. rewrite split_on_app by (by apply contains_byte_false).
  rewrite split_on_app by (by apply contains_byte_false). rewrite split_on_app by done.
  rewrite split_on_app by (by apply contains_byte_false). by rewrite split_on_free.
Qed.

(** A request names an object exactly when its URL is a plain path
    [/v1/releases/<version>/download/<file>] of two safe segments; the object is then
    [<version>/<file>]. Escapes, queries, extra or dot-only segments name nothing. *)
Theorem downloadTarget_exact request target :
  downloadTargetFromRequest request = Some target ↔
  ∃ url version file,
    rq_URL request = Some url ∧ u_opaque url = [] ∧ u_raw_path url = [] ∧ u_raw_query url = [] ∧ u_force_query url = false ∧
    "%"%char ∉ rq_RequestURI request ∧ u_path url = download_path version file ∧
    safe_segment version 96 ∧ safe_segment file 128 ∧ target = mkTarget (version ++ lit "/" ++ file) file version.
Proof.
  unfold downloadTargetFromRequest. assert (Hpc : contains (lit "%") (rq_RequestURI request) = false ↔ "%"%char ∉ rq_RequestURI request).
  { change (lit "%") with ["%"%char]. rewrite contains_one. apply contains_byte_false. }
  destruct (rq_URL request) as [url|]; [|split; [done|intros (? & ? & ? & [=] & _)]]. split.
  - intros H. case_if_in H; [done|]. breflect. destruct E as [[[[? ?] ?] ?] ?].
    destruct (split_on "/" (u_path url)) as [|p0 [|p1 [|p2 [|v [|p4 [|f [|??]]]]]]] eqn:Es; try done.
    case_if_in H; [done|]. breflect. destruct E as [[[[[-> ->] ->] ->] Hv] Hf]. injection H as <-.
    exists url, v, f. apply validDownloadSegment_spec in Hv, Hf. split_and!; try done; [by apply Hpc|].
    transitivity (join_on "/"%char (split_on "/"%char (u_path url))); [by rewrite join_split|].
    rewrite Es. unfold download_path. simpl. by rewrite app_nil_r.
  - intros (url' & v & f & [= <-] & -> & -> & -> & -> & Hp & -> & Hv & Hf & ->).
    rewrite (proj2 Hpc Hp). cbn [str_eqb negb orb]. rewrite split_download_path by (eapply safe_segment_free; eassumption).
    apply validDownloadSegment_spec in Hv, Hf. change maxVersionBytes with 96. change maxFileNameBytes with 128.
    rewrite Hv, Hf, !str_eqb_refl. done.
Qed.
