(* ===== verification/Download.v ===== *)
(** * The download service

    What every run of the handler does, whatever the storage service, the client and the contexts
    answer: storage is read only for authenticated callers and only at the object their path names,
    reads are bounded and contiguous under one ETag, bodies are closed, one response is sent, the
    audit log says what was streamed, and the bytes sent are those of the selected interval. The
    handler is verified against the laws of its [Store] ([LawfulStore]), which the Azure adapter
    satisfies. *)

From S2P Require Import Prelude Utf8 GoStrings GoTime Regex Json Url Program Azure GoHttp Config Base64 Auth HttpEffects Blob Range HttpApi.

(** ** What is observed of a run *)

Record dstate : Type := mkD {
  (** the responses started, the bytes the client accepted *)
  d_responses : list (Z * Header); d_body : gostring;
  (** the payload reads: object, offset, count and ETag *)
  d_reads : list (gostring * Z * Z * gostring);
  (** the response bodies open *)
  d_open : Z;
  d_logs : list (gostring * list (gostring * attr)) }.

Definition d_start : dstate := mkD [] [] [] 0 [].

Definition observe (s : dstate) (e : hevent) : hanswer e → dstate :=
  match e return hanswer e → dstate with
  | HLog m a => λ _, mkD (d_responses s) (d_body s) (d_reads s) (d_open s) (d_logs s ++ [(m, a)])
  | HDownload n o c etag => λ x,
    mkD (d_responses s) (d_body s) (d_reads s ++ [(n, o, c, etag)])
      (d_open s + match x with Ok (mkStream (Some _) _ _) => 1 | _ => 0 end) (d_logs s)
  | HClose => λ _, mkD (d_responses s) (d_body s) (d_reads s) (d_open s - 1) (d_logs s)
  | HWriteHeader st h => λ _, mkD (d_responses s ++ [(st, h)]) (d_body s) (d_reads s) (d_open s) (d_logs s)
  | HWrite data => λ n, mkD (d_responses s) (d_body s ++ take n data) (d_reads s) (d_open s) (d_logs s)
  | _ => λ _, s
  end.

(** ** Environments *)

(** The bytes of an object from an offset. *)
Definition slice (content : gostring) (offset length : Z) : gostring := take (Z.to_nat length) (drop (Z.to_nat offset) content).

Lemma slice_extend c off length body got count :
  0 ≤ off → 0 ≤ count ≤ length - len body → body `prefix_of` slice c off length →
  got `prefix_of` slice c (off + len body) count → body ++ got `prefix_of` slice c off length.
Proof.
  intros Ho Hc [rest Hb] Hg. rewrite Hb. apply prefix_app. etransitivity; [exact Hg|].
  assert (Hr : rest = drop (List.length body) (slice c off length)) by (rewrite Hb; by rewrite drop_app_length).
  rewrite Hr. unfold slice, len in *. rewrite skipn_firstn_comm, drop_drop.
  replace (Z.to_nat (off + Z.of_nat (List.length body))) with (Z.to_nat off + List.length body)%nat by lia.
  set (l := drop (Z.to_nat off + List.length body) c).
  replace (take (Z.to_nat count) l) with (take (Z.to_nat count) (take (Z.to_nat length - List.length body) l))
    by (rewrite take_take; f_equal; lia).
  apply prefix_take.
Qed.

Section Download.
(** When [honest] holds, the storage service answers from objects: an ETag of an object names its
    content, and a conditional ranged read delivers bytes of that content. *)
Variable honest : Prop.
Variable content : gostring → gostring → gostring.

Definition allowed (s : dstate) (e : hevent) : hanswer e → Prop :=
  match e return hanswer e → Prop with
  | HGetProperties name => λ x,
    ∀ size etag, x = Ok (mkProperties (Some size) (Some etag)) →
    int64_range size ∧ (honest → size = len (content name etag))
  | HDownload name offset count ifMatch => λ x,
    honest → ∀ body n etag, x = Ok (mkStream (Some body) n etag) → body `prefix_of` slice (content name ifMatch) offset count
  | _ => λ _, True
  end.

Variable cfg : Config.
Variable req : Request.

(** The object a request may read: the one its path names, for an authenticated caller. *)
Definition authorised (name : gostring) : Prop :=
  rq_Method req = lit "GET" ∧
  ∃ target identity, downloadTargetFromRequest req = Some target ∧ name = t_blobName target ∧
                     Authenticate (rq_Header req) (policy_of cfg) = Some identity.

(** A payload read that continues the reads so far, after the audit record of the download. *)
Definition next_read (s : dstate) (name : gostring) (offset count : Z) (etag : gostring) : Prop :=
  authorised name ∧ d_open s = 0 ∧ 0 ≤ offset ∧ 1 ≤ count ≤ MaxStorageSegment ∧ offset + count ≤ MaxObjectSize ∧
  len (d_reads s) < 64 ∧ (∃ a, head (d_logs s) = Some (lit "download started", a)) ∧
  match list.last (d_reads s) with
  | None => True
  | Some (name', offset', count', etag') => name' = name ∧ etag' = etag ∧ offset' + count' = offset
  end.

Definition check (s : dstate) (e : hevent) : Prop :=
  match e with
  | HGetProperties name => authorised name ∧ d_reads s = []
  | HDownload name offset count etag => next_read s name offset count etag
  | HClose => d_open s = 1
  | HWriteHeader _ _ => d_responses s = [] ∧ d_body s = []
  | HWrite _ => d_responses s ≠ []
  | HPanic => rq_URL req = None
  | HDiverge => False
  | _ => True
  end.

Abbreviation spec p s Q := (meets allowed check observe p s Q).

(** ** The laws of a [Store] *)

Definition opened (s : dstate) (name : gostring) (offset count : Z) (etag : gostring) (n : Z) : dstate :=
  mkD (d_responses s) (d_body s) (d_reads s ++ [(name, offset, count, etag)]) n (d_logs s).

Class LawfulStore (St : Store) : Prop := {
  Stat_law s name Q :
    authorised name → d_reads s = [] →
    (∀ e, Q (Err e) s) →
    (∀ snapshot, int64_range (sn_Size snapshot) → (honest → sn_Size snapshot = len (content name (sn_ETag snapshot))) →
                 Q (Ok snapshot) s) →
    spec (Stat name) s Q;
  OpenRange_law s name offset count etag Q :
    next_read s name offset count etag →
    (∀ e, Q (Err e) s) → (∀ e, Q (Err e) (opened s name offset count etag 0)) →
    (∀ body, (honest → body `prefix_of` slice (content name etag) offset count) →
             Q (Ok body) (opened s name offset count etag 1)) →
    spec (OpenRange name offset count etag) s Q }.

#[export] Instance azure_lawful : LawfulStore azure_store.
Proof.
  split.
  - intros s name Q Ha Hr He Hok. simpl. split; [done|]. intros [[[n|] [etag|]]|e] Hx; simpl; try apply He.
    destruct (n <? 0); [apply He|]. destruct (validStrongETag etag) eqn:Ev; simpl; [|apply He].
    destruct (Hx n etag eq_refl) as [Hn Hc]. by apply Hok.
  - intros s name offset count etag Q Hn He He' Hok. simpl. unfold azure_OpenRange.
    pose proof Hn as (_ & Ho & _). destruct (_ || _); [apply He|]. simpl. split; [done|].
    assert (Hz : ∀ z, d_open s + z = z) by (intros; lia).
    intros [[[body|] n e]|e] Hx; simpl; rewrite Hz; [|apply He'..].
    destruct (response_matches _ _ _); simpl; [apply Hok; intros Hh; exact (Hx Hh body n e eq_refl)|].
    split; [done|]. intros _ _. apply He'.
Qed.

Context `{Lawful : !LawfulStore St}.

(** ** Small programs *)

Lemma spec_log s m a Q : Q tt (observe s (HLog m a) tt) → spec (request (HLog m a)) s Q.
Proof. intros H. split; [done|]. by intros [] _. Qed.

(** An error answer: one response with a prefix of its body. *)
Lemma spec_writeJSON s headers status code Q :
  d_responses s = [] → d_body s = [] →
  (∀ h body, h = json_headers (len (error_body code)) headers → body `prefix_of` error_body code →
     Q h (mkD [(status, h)] body (d_reads s) (d_open s) (d_logs s))) →
  spec (writeJSON headers status code) s Q.
Proof.
  intros Hr Hb HQ. unfold writeJSON. simpl. split; [done|]. intros [] _. split; [by rewrite Hr|]. intros n _.
  rewrite Hr, Hb. apply HQ; [done|]. apply prefix_take.
Qed.

(** The answers to a storage error: none when a context ended, 404 or 502 otherwise. *)
Definition storage_answer (headers : Header) (s : dstate) (h : Header) (s' : dstate) : Prop :=
  d_reads s' = d_reads s ∧ d_open s' = d_open s ∧ d_logs s' = d_logs s ∧
  ((d_responses s' = [] ∧ d_body s' = [] ∧ h = headers) ∨
   ∃ status code, (status, code) ∈ [(404, lit "release_not_found"); (502, lit "storage_unavailable")] ∧
     h = json_headers (len (error_body code)) headers ∧ d_responses s' = [(status, h)] ∧ d_body s' `prefix_of` error_body code).

Lemma spec_writeStorageError s headers e Q :
  d_responses s = [] → d_body s = [] → (∀ h s', storage_answer headers s h s' → Q h s') →
  spec (writeStorageError headers e) s Q.
Proof.
  intros Hr Hb HQ. unfold writeStorageError. apply meets_bind.
  assert (Hend : ∀ ended : bool, spec (if ended then Ret headers
      else if bool_decide (e = ErrNotFound) then writeJSON headers 404 (lit "release_not_found")
      else writeJSON headers 502 (lit "storage_unavailable")) s Q).
  { intros []; [apply HQ; unfold storage_answer; auto 10|].
    case_bool_decide; apply spec_writeJSON; try done; intros h body -> Hp; apply HQ; (split_and!; [done..|]);
      right; eexists _, _; (split_and!; [|done..]); set_solver. }
  destruct (_ || _); [apply Hend|]. split; [done|]. intros ended _. apply Hend.
Qed.

(** Copying one segment: the client got [written] bytes of it, and the body is closed. *)
Lemma spec_copySegment s body length Q :
  0 ≤ length → d_responses s ≠ [] → d_open s = 1 →
  (∀ got logs copied, got `prefix_of` take (Z.to_nat length) body → (copied = true → len got = length ∧ logs = []) →
     (copied = false → logs = [(lit "download stream terminated", [(lit "event", AString (lit "stream_failure"))])]) →
     Q (len got, copied) (mkD (d_responses s) (d_body s ++ got) (d_reads s) 0 (d_logs s ++ logs))) →
  spec (copySegment body length) s Q.
Proof.
  intros Hl Hr Ho HQ. unfold copySegment. apply meets_bind.
  assert (Hcopy : ∀ got s', got `prefix_of` take (Z.to_nat length) body →
    s' = mkD (d_responses s) (d_body s ++ got) (d_reads s) 1 (d_logs s) →
    spec (closeFailed ← request HClose;
          if negb (len got =? length) || closeFailed then _ ← logStreamFailure; Ret (len got, false) else Ret (len got, true)) s' Q).
  { intros got s' Hg ->. simpl. split; [done|]. intros failed _. destruct (negb _ || failed) eqn:E; simpl.
    - split; [done|]. intros [] _. by apply HQ.
    - breflect. specialize (HQ got [] true). rewrite app_nil_r in HQ. destruct E as [E ->]. by apply HQ. }
  unfold copyN. destruct (take (Z.to_nat length) body) as [|b t] eqn:Et.
  - simpl meets. apply (Hcopy []); [done|]. rewrite app_nil_r. destruct s; simpl in *. by subst.
  - rewrite <- Et in *. apply meets_bind. split; [done|]. intros n _. cbn [meets].
    replace (Z.min (Z.of_nat n) (len (take (Z.to_nat length) body))) with (len (take n (take (Z.to_nat length) body))).
    + apply Hcopy; [apply prefix_take|]. simpl. by rewrite Ho.
    + unfold len. rewrite !length_take. lia.
Qed.

(** ** Streaming one selection *)

Definition outcomes : list gostring := [STREAM_COMPLETED; STREAM_ABANDONED; STREAM_FAILED].
Definition failure_log : gostring * list (gostring * attr) :=
  (lit "download stream terminated", [(lit "event", AString (lit "stream_failure"))]).

Section Stream.
Context (name etag : gostring) (off length : Z) (response : Z * Header) (start : list (gostring * attr)).
Hypothesis (Hauth : authorised name) (Hoff : 0 ≤ off) (Hmax : off + length ≤ MaxObjectSize).

(** What has been sent is a part of the selection, and nothing else. *)
Definition sending (s : dstate) (sent : gostring) : Prop :=
  d_responses s = [response] ∧ d_open s = 0 ∧ d_body s = sent ∧ len sent ≤ length ∧
  (honest → sent `prefix_of` slice (content name etag) off length).

(** The end of a stream. *)
Definition streamed (res : streamResult) (s : dstate) : Prop :=
  sending s (d_body s) ∧ r_bytes res = len (d_body s) ∧ r_outcome res ∈ outcomes ∧
  (r_outcome res = STREAM_COMPLETED → len (d_body s) = length) ∧
  (d_logs s = [(lit "download started", start)] ∨ d_logs s = [(lit "download started", start); failure_log]).

(** Between two segments. *)
Definition between_segments (s : dstate) : Prop :=
  sending s (d_body s) ∧ d_logs s = [(lit "download started", start)] ∧
  (∃ o c, list.last (d_reads s) = Some (name, o, c, etag) ∧ o + c = off + len (d_body s)) ∧
  (len (d_body s) < length → len (d_reads s) * MaxStorageSegment = len (d_body s)).

Lemma spec_failed s Q :
  (∀ res, r_outcome res ∈ outcomes → r_outcome res ≠ STREAM_COMPLETED → r_bytes res = len (d_body s) → Q res s) →
  spec (outcome ← streamFailureOutcome; Ret (mkStreamResult outcome (len (d_body s)))) s Q.
Proof.
  intros HQ. simpl. split; [done|]. intros ended _. apply HQ; [|by destruct ended|done].
  simpl. unfold outcomes. destruct ended; set_solver.
Qed.

(** One segment: whatever is copied of it extends what was sent. *)
Lemma segment_sent s body got count :
  sending s (d_body s) → 0 ≤ count ≤ length - len (d_body s) →
  (honest → body `prefix_of` slice (content name etag) (off + len (d_body s)) count) →
  got `prefix_of` take (Z.to_nat count) body →
  len (d_body s ++ got) ≤ length ∧ len got ≤ count ∧
  (honest → d_body s ++ got `prefix_of` slice (content name etag) off length).
Proof.
  intros (_ & _ & _ & _ & Hp) Hc Hb Hg. rewrite len_app.
  assert (len got ≤ count).
  { apply prefix_length in Hg. rewrite length_take in Hg. unfold len. lia. }
  split; [lia|]. split; [done|]. intros Hh. eapply slice_extend; [done|exact Hc|by apply Hp|].
  etransitivity; [exact Hg|]. etransitivity; [apply prefix_take|]. by apply Hb.
Qed.

Lemma spec_stream_loop fuel s Q :
  between_segments s → length - len (d_body s) ≤ (Z.of_nat fuel - 1) * MaxStorageSegment →
  (∀ res s', streamed res s' → Q res s') →
  spec (stream_loop fuel name etag (off + len (d_body s)) (length - len (d_body s)) (len (d_body s))) s Q.
Proof.
  revert s; induction fuel as [|fuel IH]; intros s (Hs & Hlogs & (o & c & Hlast & Hoc) & Hk) Hf HQ;
    pose proof Hs as (Hr & Hopen & _ & Hle & Hp); pose proof (len_nonneg (d_body s)) as Hnn;
    unfold MaxStorageSegment, MaxObjectSize in *; [lia|].
  cbn [stream_loop]. destruct (0 <? length - len (d_body s)) eqn:Ez; breflect.
  2: { apply HQ. unfold streamed. split_and!; [done|done| |intros _; lia|by left]. unfold outcomes. set_solver. }
  split; [done|]. intros ended _. change (observe s HContext ended) with s. destruct ended.
  { apply HQ. unfold streamed. split_and!; [done|done| |done|by left]. unfold outcomes. set_solver. }
  apply meets_bind.
  assert (Hcount : 1 ≤ Z.min (length - len (d_body s)) MaxStorageSegment ≤ MaxStorageSegment) by (unfold MaxStorageSegment; lia).
  set (count := Z.min (length - len (d_body s)) MaxStorageSegment) in *. assert (Hcl : count ≤ length - len (d_body s)) by lia.
  assert (Hfail : ∀ s', d_responses s' = d_responses s → d_open s' = 0 → d_body s' = d_body s → d_logs s' = d_logs s →
    spec (_ ← logStreamFailure; Ret (mkStreamResult STREAM_FAILED (len (d_body s)))) s' Q).
  { intros s' E1 E2 E3 E4. split; [done|]. intros [] _. apply HQ. unfold streamed, sending. simpl. rewrite E1, E2, E3, E4, Hlogs.
    split_and!; [done..| | |by right]; [unfold outcomes; set_solver|done]. }
  apply OpenRange_law.
  - unfold next_read. rewrite Hlast, Hlogs. split_and!; try done; try (unfold MaxObjectSize, MaxStorageSegment in *; lia).
    by exists start.
  - intros e. by apply Hfail.
  - intros e. by apply Hfail.
  - intros body Hbody. apply meets_bind. apply spec_copySegment; [lia|simpl; by rewrite Hr|done|].
    intros got logs copied Hgot Hc1 Hc0. cbn [opened d_responses d_body d_reads d_logs].
    destruct (segment_sent s body got count Hs ltac:(lia) Hbody Hgot) as (Hl & Hg & Hpre). pose proof (len_nonneg got).
    rewrite wrap64_small by (unfold int64_range; lia). rewrite <- len_app.
    destruct copied; cbn [negb].
    + destruct (Hc1 eq_refl) as [Hgl ->]. rewrite app_nil_r, <- Hgl.
      rewrite !wrap64_small by (unfold int64_range, MaxStorageSegment in *; lia).
      replace (off + len (d_body s) + len got) with (off + len (d_body s ++ got)) by (rewrite len_app; lia).
      replace (length - len (d_body s) - len got) with (length - len (d_body s ++ got)) by (rewrite len_app; lia).
      apply (IH (mkD _ (d_body s ++ got) _ 0 _)); [|cbn [d_body]; rewrite len_app; unfold MaxStorageSegment in *; lia|done].
      unfold between_segments, sending. cbn [d_responses d_body d_reads d_open d_logs]. rewrite len_app.
      split_and!; try done; [by rewrite <- len_app| |].
      * exists (off + len (d_body s)), (len got). rewrite last_snoc. split; [done|lia].
      * intros Hlt. rewrite len_app. change (len [_]) with 1. unfold MaxStorageSegment in *. lia.
    + rewrite (Hc0 eq_refl), Hlogs. apply spec_failed. intros res Ho Hne Hb. apply HQ. unfold streamed, sending. simpl.
      split_and!; try done. by right.
Qed.
End Stream.

(** The arguments of the two audit records of a download. *)
Definition audit_args (event sessionID subject : gostring) (target : downloadTarget) (now : Time)
  (rest : list (gostring * attr)) : list (gostring * attr) :=
  [(lit "schema_version", AString (lit "1.0")); (lit "event", AString event);
   (lit "occurred_at", AString (formatTimeNano (time_utc now))); (lit "session_id", AString sessionID);
   (lit "subject", AString subject); (lit "version", AString (t_version target));
   (lit "file_name", AString (t_fileName target))] ++ rest.

Lemma spec_log_download s message event sessionID subject target rest Q :
  (∀ now, Q tt (observe s (HLog message (audit_args event sessionID subject target now rest)) tt)) →
  spec (log_download message event sessionID subject target rest) s Q.
Proof. intros HQ. split; [done|]. intros now _. split; [done|]. intros [] _. apply HQ. Qed.

(** A selection of an object that may be streamed. *)
Definition streamable (selected : selectedDownload) : Prop :=
  let sel := sd_selection selected in
  0 ≤ s_Offset sel ∧ 0 ≤ s_Length sel ∧ s_Offset sel + s_Length sel ≤ MaxObjectSize ∧ (s_Partial sel = true → s_Length sel ≠ 0).

Definition download_response (headers : Header) (selected : selectedDownload) : Z * Header :=
  (if s_Partial (sd_selection selected) then 206 else 200, setDownloadHeaders headers selected).

(** How [stream] ends: the storage refused the first read, or the selection was streamed. *)
Definition stream_end (headers : Header) (selected : selectedDownload) (start : list (gostring * attr))
  (h : Header) (res : streamResult) (s : dstate) : Prop :=
  (res = mkStreamResult STORAGE_UNAVAILABLE 0 ∧ d_logs s = [(lit "download started", start)] ∧ d_open s = 0 ∧
   ∃ s0, d_responses s0 = [] ∧ d_body s0 = [] ∧ storage_answer headers s0 h s) ∨
  (h = setDownloadHeaders headers selected ∧
   streamed (t_blobName (sd_target selected)) (sn_ETag (sd_snapshot selected)) (s_Offset (sd_selection selected))
     (s_Length (sd_selection selected)) (download_response headers selected) start res s).

Lemma spec_stream headers selected start Q :
  authorised (t_blobName (sd_target selected)) → streamable selected →
  (∀ h res s', stream_end headers selected start h res s' → Q (h, res) s') →
  spec (stream headers selected) (mkD [] [] [] 0 [(lit "download started", start)]) Q.
Proof.
  intros Ha (Ho & Hl & Hm & Hpart) HQ. set (s := mkD [] [] [] 0 _). unfold stream.
  set (sel := sd_selection selected) in *. set (name := t_blobName (sd_target selected)) in *. set (etag := sn_ETag (sd_snapshot selected)).
  destruct (s_Length sel =? 0) eqn:Ez; breflect.
  { split; [done|]. intros [] _. apply HQ. right. split; [done|]. unfold streamed, sending, download_response.
    assert (s_Partial sel = false) as Ep by (destruct (s_Partial sel); [by destruct Hpart|done]).
    simpl. fold sel. rewrite Ep, Ez. split_and!; try done; try (intros; apply prefix_nil); [unfold outcomes; set_solver|by left]. }
  assert (Hcount : 1 ≤ Z.min (s_Length sel) MaxStorageSegment ≤ MaxStorageSegment) by (unfold MaxStorageSegment; lia).
  set (count := Z.min (s_Length sel) MaxStorageSegment) in *. assert (Hcl : count ≤ s_Length sel) by lia.
  assert (Herr : ∀ e s', d_responses s' = [] → d_body s' = [] → d_open s' = 0 → d_logs s' = [(lit "download started", start)] →
    spec (headers ← writeStorageError headers e; Ret (headers, mkStreamResult STORAGE_UNAVAILABLE 0)) s' Q).
  { intros e s' E1 E2 E3 E4. apply meets_bind, spec_writeStorageError; [done..|]. intros h s'' Hs. apply HQ. left.
    pose proof Hs as (_ & H2 & H3 & _). split_and!; [done|congruence..|]. by exists s'. }
  apply meets_bind, OpenRange_law.
  - unfold next_read. split_and!; try done; try (unfold MaxObjectSize, MaxStorageSegment in *; lia). by exists start.
  - intros e. by apply Herr.
  - intros e. by apply Herr.
  - intros body Hbody. split; [done|]. intros [] _. apply meets_bind, spec_copySegment; [lia|done|done|].
    intros got logs copied Hgot Hc1 Hc0. cbn [observe opened d_responses d_body d_reads d_logs app].
    destruct (segment_sent name etag (s_Offset sel) (s_Length sel) (download_response headers selected)
                ltac:(lia) (mkD [download_response headers selected] [] [] 0 []) body got count) as (Hlen & Hg & Hpre);
      [by split_and!; try (intros; apply prefix_nil)|change (0 ≤ count ≤ s_Length sel - 0); lia|
       change (honest → body `prefix_of` slice (content name etag) (s_Offset sel + 0) count); by rewrite Z.add_0_r|done|].
    cbn [d_body app] in Hlen, Hpre. pose proof (len_nonneg got). destruct copied; cbn [negb].
    + destruct (Hc1 eq_refl) as [Hgl ->]. apply meets_bind. rewrite <- Hgl.
      rewrite !wrap64_small by (unfold int64_range, MaxObjectSize in *; lia).
      apply (spec_stream_loop name etag (s_Offset sel) (s_Length sel) (download_response headers selected) start Ha Ho Hm
               (stream_fuel (s_Length sel - len got)) (mkD _ got _ 0 _)).
      * unfold between_segments, sending. cbn [d_responses d_body d_reads d_open d_logs]. split_and!; try done.
        -- by exists (s_Offset sel), (len got).
        -- intros Hlt. change (len (d_reads s ++ [(name, s_Offset sel, len got, etag)])) with 1. subst count; unfold MaxStorageSegment in *. lia.
      * cbn [d_body]. unfold stream_fuel, MaxStorageSegment.
        pose proof (Z.div_pos (s_Length sel - len got) (4 * 1024 * 1024) ltac:(lia) ltac:(lia)).
        pose proof (Z.mul_succ_div_gt (s_Length sel - len got) (4 * 1024 * 1024) ltac:(lia)). lia.
      * intros res s' Hst. apply HQ. right. by split.
    + rewrite (Hc0 eq_refl). split; [done|]. intros ended _. apply HQ. right. split; [done|]. unfold streamed, sending. simpl.
      split_and!; try done; [unfold outcomes; destruct ended; set_solver|by destruct ended|by right].
Qed.

(** ** Serving a request *)

Definition error_answers : list (Z * gostring) :=
  [(405, lit "method_not_allowed"); (404, lit "release_not_found"); (401, lit "authentication_required");
   (500, lit "audit_unavailable"); (502, lit "storage_unavailable"); (413, lit "release_too_large"); (416, lit "invalid_range")].

Definition started_args (session : gostring) (identity : Identity) (target : downloadTarget) (now : Time) (length : Z) :=
  audit_args (lit "dar.download.started") session (i_Subject identity) target now [(lit "requested_bytes", AInt length)].
Definition terminal_args (session : gostring) (identity : Identity) (target : downloadTarget) (now : Time) (res : streamResult) :=
  audit_args (lit "dar.download." ++ to_lower (r_outcome res)) session (i_Subject identity) target now
    [(lit "streamed_bytes", AInt (r_bytes res)); (lit "outcome", AString (r_outcome res))].

(** How a request ends: an error answer, the health answer, no answer (a context ended during the
    look-up), or a download with its two audit records. *)
Inductive served (h : Header) (s : dstate) : Prop :=
| served_error status code headers :
    (status, code) ∈ error_answers → h = json_headers (len (error_body code)) headers →
    d_responses s = [(status, h)] → d_body s `prefix_of` error_body code → d_reads s = [] → d_logs s = [] → d_open s = 0 →
    served h s
| served_health :
    d_responses s = [(200, h)] → d_body s `prefix_of` health_body → d_reads s = [] → d_logs s = [] → d_open s = 0 → served h s
| served_nothing :
    d_responses s = [] → d_body s = [] → d_reads s = [] → d_logs s = [] → d_open s = 0 → served h s
| served_download selected identity session t1 t2 res s' :
    downloadTargetFromRequest req = Some (sd_target selected) →
    Authenticate (rq_Header req) (policy_of cfg) = Some identity →
    sn_Size (sd_snapshot selected) ≤ MaxObjectSize →
    (honest → sn_Size (sd_snapshot selected) =
              len (content (t_blobName (sd_target selected)) (sn_ETag (sd_snapshot selected)))) →
    Select (header_values (rq_Header req) (lit "Range")) (header_values (rq_Header req) (lit "If-Range"))
      (sn_Size (sd_snapshot selected)) (sn_ETag (sd_snapshot selected)) = Ok (sd_selection selected) →
    stream_end (setSecurityHeaders ∅) selected
      (started_args session identity (sd_target selected) t1 (s_Length (sd_selection selected))) h res s' →
    s = observe s' (HLog (lit "download terminal") (terminal_args session identity (sd_target selected) t2 res)) tt →
    served h s.

Lemma spec_error s headers status code :
  s = d_start → (status, code) ∈ error_answers → spec (writeJSON headers status code) s served.
Proof. intros -> Hin. apply spec_writeJSON; [done..|]. intros h body -> Hb. by eapply served_error. Qed.

Lemma spec_serve_object target identity session :
  rq_Method req = lit "GET" → downloadTargetFromRequest req = Some target →
  Authenticate (rq_Header req) (policy_of cfg) = Some identity →
  spec (serve_object (setSecurityHeaders ∅) req target identity session) d_start served.
Proof.
  intros Hm Ht Hi. assert (Ha : authorised (t_blobName target)) by (split; [done|by eexists _, _]).
  unfold serve_object. apply meets_bind, Stat_law; [done|done| |].
  - intros e. apply spec_writeStorageError; [done..|]. intros h s (Hr & Ho & Hl & [(H1 & H2 & ->)|(st & co & Hin & -> & H1 & H2)]).
    + by apply served_nothing.
    + eapply served_error; try done. unfold error_answers. set_solver.
  - intros snap Hrange Hcontent. destruct (MaxObjectSize <? sn_Size snap) eqn:Em; breflect.
    { apply spec_error; [done|]. unfold error_answers. set_solver. }
    destruct (Select _ _ _ _) as [sel|e] eqn:Es.
    2: { apply spec_error; [done|]. unfold error_answers. set_solver. }
    apply meets_bind, spec_log_download. intros t1. apply meets_bind.
    apply (spec_stream _ (mkSelected target snap sel)); [done| |].
    { pose proof Es as Hw. apply Select_interval in Hw as (H1 & H2 & H3 & H4); [|done]. split_and!; try done; simpl; [lia|].
      destruct (s_Range sel); destruct H4; [lia|congruence]. }
    intros h res s Hend. cbn [meets]. apply meets_bind, spec_log_download. intros t2.
    by eapply (served_download _ _ (mkSelected target snap sel)).
Qed.

Lemma spec_ServeHTTP : spec (ServeHTTP cfg req) d_start served.
Proof.
  unfold ServeHTTP. destruct (rq_Method req =s lit "GET") eqn:Hm; cbn [negb].
  2: { apply spec_error; [done|]. unfold error_answers. set_solver. }
  apply str_eqb_eq in Hm. destruct (rq_URL req) as [url|] eqn:Hu.
  2: { split; [done|]. intros []. }
  destruct (u_path url =s lit "/healthz").
  { split; [done|]. intros [] _. split; [done|]. intros n _. apply served_health; try done. apply prefix_take. }
  destruct (downloadTargetFromRequest req) as [target|] eqn:Ht.
  2: { apply spec_error; [done|]. unfold error_answers. set_solver. }
  destruct (Authenticate _ _) as [identity|] eqn:Hi.
  2: { apply spec_error; [done|]. unfold error_answers. set_solver. }
  split; [done|]. intros random _. cbn [meets]. destruct (random : option gostring) as [bytes|]; cbn [meets].
  - by apply spec_serve_object.
  - apply spec_error; [done|]. unfold error_answers. set_solver.
Qed.
End Download.
