(* ===== verification/DownloadGuarantees.v ===== *)
(** * What the download service guarantees

    The statements about every run of [ServeHTTP] over the Azure adapter that Download leads to. *)

From S2P Require Import Prelude Utf8 GoStrings GoTime Regex Json Url Program Azure GoHttp Config Base64 Auth HttpEffects Blob Range HttpApi Download.

(** Histories whose answers have the SDK's types: a content length is an [int64]. *)
Definition typed (t : history hevent hanswer) : Prop := permitted (allowed False (λ _ _, [])) observe d_start t.

(** Histories of a storage service that answers from objects. *)
Definition from_objects (content : gostring → gostring → gostring) (t : history hevent hanswer) : Prop :=
  permitted (allowed True content) observe d_start t.

(** What was observed by the end of a history. *)
Definition observed (t : history hevent hanswer) : dstate := after observe d_start t.

(** The outcome an audit record names, and the bytes it counts. *)
Ltac other_key H := apply (f_equal fst) in H; vm_compute in H; discriminate H.

Lemma outcome_arg session identity target now res o :
  (lit "outcome", AString o) ∈ terminal_args session identity target now res → o = r_outcome res.
Proof.
  unfold terminal_args, audit_args. cbn [app]. rewrite !elem_of_cons.
  intros [H|[H|[H|[H|[H|[H|[H|[H|[H|H]]]]]]]]]; try other_key H; [by injection H|by apply not_elem_of_nil in H].
Qed.

Lemma bytes_arg session identity target now res n :
  (lit "streamed_bytes", AInt n) ∈ terminal_args session identity target now res → n = r_bytes res.
Proof.
  unfold terminal_args, audit_args. cbn [app]. rewrite !elem_of_cons.
  intros [H|[H|[H|[H|[H|[H|[H|[H|[H|H]]]]]]]]]; try other_key H; [by injection H|by apply not_elem_of_nil in H].
Qed.

Lemma slice_full c off length body :
  body `prefix_of` slice c off length → len body = length → body = slice c off length.
Proof.
  intros [rest E] Hl. rewrite E. destruct rest as [|x rest]; [by rewrite app_nil_r|].
  apply (f_equal List.length) in E. rewrite length_app in E. unfold slice in E. rewrite length_take in E. simpl in E.
  unfold len in Hl. lia.
Qed.

Section Guarantees.
Context (cfg : Config) (req : Request).

Lemma checked t r : runs (ServeHTTP cfg req) t r → typed t →
  ∀ t1 e x t2, t = t1 ++ existT e x :: t2 → check cfg req (observed t1) e.
Proof.
  intros Hr Ht. exact (proj1 (meets_runs _ _ _ _ _ _ _ _ (spec_ServeHTTP False (λ _ _, []) cfg req) Hr Ht)).
Qed.

Lemma ends content honest t h :
  runs (ServeHTTP cfg req) t (Some h) → permitted (allowed honest content) observe d_start t →
  served honest content cfg req h (observed t).
Proof.
  intros Hr Ht. exact (proj2 (meets_runs _ _ _ _ _ _ _ _ (spec_ServeHTTP honest content cfg req) Hr Ht) h eq_refl).
Qed.

(** C7: Storage is asked about an object, or read, only on a GET request whose path names exactly
    this object and whose headers authenticate a caller under the configured policy. *)
Theorem storage_after_authentication t r t1 e x t2 name :
  runs (ServeHTTP cfg req) t r → typed t → t = t1 ++ existT e x :: t2 →
  (e = HGetProperties name ∨ ∃ offset count etag, e = HDownload name offset count etag) →
  authorised cfg req name.
Proof.
  intros Hr Ht E He. pose proof (checked t r Hr Ht t1 e x t2 E) as Hc.
  destruct He as [->|(o & c & etag & ->)]; [by destruct Hc|by destruct Hc].
Qed.

(** C9: Every payload read asks for between one byte and 4 MiB within the first 256 MiB, continues
    the previous read of the same object under the same ETag, happens with no other body open and
    after the audit record of the download, and is one of at most 64. *)
Theorem reads_bounded t r t1 name offset count etag x t2 :
  runs (ServeHTTP cfg req) t r → typed t → t = t1 ++ existT (HDownload name offset count etag) x :: t2 →
  next_read cfg req (observed t1) name offset count etag.
Proof. intros Hr Ht E. exact (checked t r Hr Ht t1 _ x t2 E). Qed.

(** The download behind a terminal audit record. *)
Lemma terminal_download honest content h s args :
  served honest content cfg req h s → (lit "download terminal", args) ∈ d_logs s →
  ∃ selected identity session t1 t2 res,
    args = terminal_args session identity (sd_target selected) t2 res ∧
    downloadTargetFromRequest req = Some (sd_target selected) ∧
    Authenticate (rq_Header req) (policy_of cfg) = Some identity ∧
    (honest → sn_Size (sd_snapshot selected) = len (content (t_blobName (sd_target selected)) (sn_ETag (sd_snapshot selected)))) ∧
    Select (header_values (rq_Header req) (lit "Range")) (header_values (rq_Header req) (lit "If-Range"))
      (sn_Size (sd_snapshot selected)) (sn_ETag (sd_snapshot selected)) = Ok (sd_selection selected) ∧
    ∃ s', stream_end honest content (setSecurityHeaders ∅) selected
            (started_args session identity (sd_target selected) t1 (s_Length (sd_selection selected))) h res s' ∧
          d_responses s = d_responses s' ∧ d_body s = d_body s'.
Proof.
  intros [?? ? ??? ? ? Hl|? ? ? Hl|? ? ? Hl|sel id ses t1 t2 res s' Ht Ha Hm Hh Hs He ->] Hin;
    try (rewrite Hl in Hin; by apply not_elem_of_nil in Hin).
  exists sel, id, ses, t1, t2, res. cbn [observe d_logs] in Hin. apply elem_of_app in Hin as [Hin|Hin].
  - exfalso. assert (Hl : d_logs s' = [(lit "download started", started_args ses id (sd_target sel) t1 (s_Length (sd_selection sel)))] ∨
      d_logs s' = [(lit "download started", started_args ses id (sd_target sel) t1 (s_Length (sd_selection sel))); failure_log]).
    { destruct He as [(_ & Hl & _)|(_ & _ & _ & _ & _ & Hl)]; auto. }
    destruct Hl as [Hl|Hl]; rewrite Hl, !elem_of_cons in Hin.
    + destruct Hin as [H|H]; [other_key H|by apply not_elem_of_nil in H].
    + destruct Hin as [H|[H|H]]; [other_key H|other_key H|by apply not_elem_of_nil in H].
  - apply list_elem_of_singleton in Hin. injection Hin as ->. split_and!; try done. by exists s'.
Qed.

(** C8: A completed download sent the selected interval of the object, byte for byte: the length
    announced, the status and Content-Range of the selection, and the content under the ETag the
    look-up returned. *)
Theorem completed_download_exact content t h args :
  runs (ServeHTTP cfg req) t (Some h) → from_objects content t →
  (lit "download terminal", args) ∈ d_logs (observed t) → (lit "outcome", AString STREAM_COMPLETED) ∈ args →
  ∃ selected,
    downloadTargetFromRequest req = Some (sd_target selected) ∧
    Select (header_values (rq_Header req) (lit "Range")) (header_values (rq_Header req) (lit "If-Range"))
      (len (content (t_blobName (sd_target selected)) (sn_ETag (sd_snapshot selected)))) (sn_ETag (sd_snapshot selected)) =
      Ok (sd_selection selected) ∧
    d_responses (observed t) = [download_response (setSecurityHeaders ∅) selected] ∧
    d_body (observed t) = slice (content (t_blobName (sd_target selected)) (sn_ETag (sd_snapshot selected)))
                            (s_Offset (sd_selection selected)) (s_Length (sd_selection selected)) ∧
    len (d_body (observed t)) = s_Length (sd_selection selected).
Proof.
  intros Hr Ht Hin Ho. destruct (terminal_download _ _ _ _ _ (ends content True t h Hr Ht) Hin)
    as (sel & id & ses & t1 & t2 & res & -> & Htgt & _ & Hh & Hs & s' & He & Er & Eb).
  apply outcome_arg in Ho. exists sel. rewrite <- Hh by done. rewrite Er, Eb.
  destruct He as [[-> _]|(_ & (Hsend & _ & _ & Hc & _))]; [discriminate Ho|].
  destruct Hsend as (Hresp & _ & _ & _ & Hp). specialize (Hc (eq_sym Ho)). split_and!; try done.
  apply slice_full; [by apply Hp|done].
Qed.

(** C10: The terminal audit record of a download names the authenticated subject and the object of the
    request. Either storage refused the first read: then it counts zero bytes, and the client was
    sent nothing, or the error answer of storage. Or the selection of the request's Range and
    If-Range headers was streamed under its own headers: then it counts exactly the bytes the client
    accepted, these are the bytes of the object from the selected offset on, and the record says
    completed only when they are all that was selected. *)
Theorem audit_counts_bytes content t h args :
  runs (ServeHTTP cfg req) t (Some h) → from_objects content t → (lit "download terminal", args) ∈ d_logs (observed t) →
  ∃ target snapshot selection identity session now res,
    downloadTargetFromRequest req = Some target ∧ Authenticate (rq_Header req) (policy_of cfg) = Some identity ∧
    Select (header_values (rq_Header req) (lit "Range")) (header_values (rq_Header req) (lit "If-Range"))
      (len (content (t_blobName target) (sn_ETag snapshot))) (sn_ETag snapshot) = Ok selection ∧
    args = terminal_args session identity target now res ∧
    ((res = mkStreamResult STORAGE_UNAVAILABLE 0 ∧
      ((d_responses (observed t) = [] ∧ d_body (observed t) = []) ∨
       ∃ status code headers, (status, code) ∈ [(404, lit "release_not_found"); (502, lit "storage_unavailable")] ∧
         d_responses (observed t) = [(status, headers)] ∧ d_body (observed t) `prefix_of` error_body code)) ∨
     (r_outcome res ∈ outcomes ∧ r_bytes res = len (d_body (observed t)) ∧
      d_responses (observed t) = [download_response (setSecurityHeaders ∅) (mkSelected target snapshot selection)] ∧
      d_body (observed t) `prefix_of` slice (content (t_blobName target) (sn_ETag snapshot)) (s_Offset selection) (s_Length selection) ∧
      (r_outcome res = STREAM_COMPLETED → len (d_body (observed t)) = s_Length selection))).
Proof.
  intros Hr Ht Hin. destruct (terminal_download _ _ _ _ _ (ends content True t h Hr Ht) Hin)
    as ([target snapshot selection] & id & ses & t1 & t2 & res & -> & Htgt & Ha & Hh & Hs & s' & He & Er & Eb).
  cbn [sd_target sd_snapshot sd_selection] in *. rewrite Hh in Hs by done.
  exists target, snapshot, selection, id, ses, t2, res. split_and!; try done. rewrite Er, Eb.
  destruct He as [(-> & _ & _ & s0 & _ & _ & _ & _ & _ & Hans)|(_ & (Hresp & _ & _ & _ & Hp) & Hb & Ho & Hc & _)].
  - left. split; [done|]. destruct Hans as [(H1 & H2 & _)|(st & co & Hin' & _ & H1 & H2)]; [by left|right]. by exists st, co, h.
  - right. split_and!; auto.
Qed.

(** A response is only started when none was. *)
Lemma checked_one_response t :
  (∀ t1 e x t2, t = t1 ++ existT e x :: t2 → check cfg req (observed t1) e) → len (d_responses (observed t)) ≤ 1.
Proof.
  induction t as [|[e x] t IH] using rev_ind; intros Hc; [done|].
  assert (Ht : len (d_responses (observed t)) ≤ 1).
  { apply IH. intros t1 e' x' t2 ->. apply (Hc t1 e' x' (t2 ++ [existT e x])). by rewrite <- app_assoc. }
  specialize (Hc t e x [] eq_refl). unfold observed in *. rewrite after_app. destruct e; cbn; try done.
  destruct Hc as [-> _]. done.
Qed.

Lemma served_closed honest content h s : served honest content cfg req h s → d_open s = 0.
Proof. intros [| | |sel id ses t1 t2 res s' _ _ _ _ _ [(_ & _ & Ho & _)|(_ & (_ & Ho & _) & _)] ->]; done. Qed.

(** C11: Whatever happens, at most one response is started, and every response body the storage
    service handed out is closed when the handler returns. *)
Theorem one_response t r :
  runs (ServeHTTP cfg req) t r → typed t →
  len (d_responses (observed t)) ≤ 1 ∧ (r ≠ None → d_open (observed t) = 0).
Proof.
  intros Hr Ht. split; [exact (checked_one_response t (checked t r Hr Ht))|]. intros Hne. destruct r as [h|]; [|done].
  exact (served_closed _ _ _ _ (ends _ _ t h Hr Ht)).
Qed.

(** Every request but a panic has an answer of its type. *)
Lemma answerable s e : check cfg req s e → rq_URL req ≠ None → ∃ x, allowed False (λ _ _, []) s e x.
Proof.
  intros Hc Hu. destruct e; simpl in *; [by exists true|by exists None|by exists (mkTime 0 true)|by exists tt|by exists (Err AzOther)
    |by exists (Err AzOther)|by exists true|by exists tt|by exists 0%nat|done|done].
Qed.
End Guarantees.

(** ** Bounds on the requests of the handler *)

Lemma bounded_writeJSON headers status code : bounded 2 (writeJSON headers status code).
Proof. done. Qed.

Lemma bounded_writeStorageError headers e : bounded 3 (writeStorageError headers e).
Proof.
  unfold writeStorageError. apply (bounded_bind 1 2).
  { by destruct (bool_decide (e = CtxCanceled) || bool_decide (e = CtxDeadlineExceeded)). }
  intros []; [done|]. by destruct (bool_decide _).
Qed.

Lemma bounded_copySegment body n : bounded 3 (copySegment body n).
Proof.
  unfold copySegment, copyN. apply (bounded_bind 1 2); [by destruct (take _ _)|].
  intros w failed. simpl in failed. simpl. destruct (w =? n), failed; simpl; done.
Qed.

Lemma bounded_OpenRange name offset count etag : bounded 2 (OpenRange name offset count etag).
Proof.
  simpl. unfold azure_OpenRange. destruct (_ || _); [done|]. intros [[[body|] n e]|e]; simpl; try done.
  by destruct (response_matches _ _ _).
Qed.

Lemma bounded_stream_loop fuel name etag offset remaining total :
  bounded (7 * fuel + 1) (stream_loop fuel name etag offset remaining total).
Proof.
  revert offset remaining total; induction fuel as [|fuel IH]; intros offset remaining total; [intros []|].
  cbn [stream_loop]. destruct (0 <? remaining); [|done].
  replace (7 * S fuel + 1)%nat with (S (2 + (3 + (1 + (7 * fuel + 1)))))%nat by lia. intros ended. destruct ended; [done|].
  apply bounded_bind; [apply bounded_OpenRange|]. intros [body|e]; [|done].
  apply bounded_bind; [apply bounded_copySegment|]. intros [written copied]. destruct copied; cbn [negb].
  - apply (bounded_mono (7 * fuel + 1)); [lia|apply IH].
  - done.
Qed.

Lemma bounded_stream headers selected :
  0 ≤ s_Length (sd_selection selected) ≤ MaxObjectSize → bounded 480 (stream headers selected).
Proof.
  intros Hl. unfold stream. destruct (_ =? 0); [done|]. apply (bounded_bind 2 478); [apply bounded_OpenRange|].
  intros [body|e]; [|apply (bounded_mono (3 + 0)); [lia|]; apply bounded_bind; [apply bounded_writeStorageError|done]].
  intros []. apply (bounded_bind 3 474); [apply bounded_copySegment|]. intros [written copied]. destruct copied; cbn [negb]; [|done].
  set (n := wrap64 _). assert (Hn : (stream_fuel n ≤ 66)%nat).
  { unfold stream_fuel, n, MaxStorageSegment, MaxObjectSize in *. rewrite wrap64_small by (unfold int64_range; lia).
    assert ((s_Length (sd_selection selected) - Z.min (s_Length (sd_selection selected)) (4 * 1024 * 1024)) / (4 * 1024 * 1024) ≤ 64);
      [|lia]. apply Z.div_le_upper_bound; lia. }
  apply (bounded_mono (7 * stream_fuel n + 1 + 0)); [lia|]. apply bounded_bind; [apply bounded_stream_loop|done].
Qed.

Lemma bounded_serve_object headers req target identity session :
  bounded 490 (serve_object headers req target identity session).
Proof.
  unfold serve_object. apply (bounded_bind 1 489).
  { simpl. unfold azure_Stat. intros [[[n|] [etag|]]|e]; simpl; try done. destruct (n <? 0); [done|]. by destruct (validStrongETag etag). }
  intros [snap|e]; [|apply (bounded_mono 3); [lia|apply bounded_writeStorageError]].
  destruct (MaxObjectSize <? sn_Size snap) eqn:Em; [done|]. destruct (Select _ _ _ _) as [sel|] eqn:Es; [|done].
  apply (bounded_bind 2 487); [done|]. intros []. apply (bounded_bind 480 7).
  - apply bounded_stream. cbn [sd_selection]. breflect. assert (Hpos : 0 ≤ sn_Size snap).
    { unfold Select in Es. destruct (sn_Size snap <? 0) eqn:E; [done|]. by breflect. }
    apply Select_interval in Es; [unfold MaxObjectSize in *; lia|]. unfold int64_range, MaxObjectSize in *. lia.
  - intros [h res]; done.
Qed.

Lemma bounded_ServeHTTP cfg req : bounded 500 (ServeHTTP cfg req).
Proof.
  unfold ServeHTTP. destruct (negb _); [done|]. destruct (rq_URL req); [|by intros []]. destruct (_ =s _); [done|].
  destruct (downloadTargetFromRequest req); [|done]. destruct (Authenticate _ _); [|done].
  apply (bounded_bind 1 499); [done|]. intros [session|]; [|done]. apply (bounded_mono 490); [lia|apply bounded_serve_object].
Qed.

(** C12: The handler terminates: for a request with a URL, as net/http makes them, and whatever is answered
    as long as sizes are 64-bit integers, it makes at most 500 requests of its environment, and no history
    is a dead end: the streaming loop never uses up its fuel, which would be a request without an
    answer, and every history goes on to a result within those 500 requests. *)
Theorem ServeHTTP_terminates cfg req t r :
  rq_URL req ≠ None → runs (ServeHTTP cfg req) t r → typed t →
  len t ≤ 500 ∧
  ∃ t' h, runs (ServeHTTP cfg req) (t ++ t') (Some h) ∧ typed (t ++ t') ∧ len (t ++ t') ≤ 500.
Proof.
  intros Hu Hr Ht. assert (Hb : ∀ t r, runs (ServeHTTP cfg req) t r → len t ≤ 500).
  { intros t' r' Hr'. pose proof (bounded_runs _ _ _ _ (bounded_ServeHTTP cfg req) Hr'). unfold len. lia. }
  split; [by eapply Hb|]. destruct r as [h|].
  { exists [], h. rewrite app_nil_r. eauto. }
  destruct (meets_completes _ _ _ _ _ _ t (λ s e Hc, answerable cfg req s e Hc Hu) (spec_ServeHTTP False (λ _ _, []) cfg req) Hr Ht)
    as (t' & h & H & Hp). exists t', h. eauto.
Qed.

(** C28: A storage look-up that fails with a deadline leaves the request without an answer even when
    the request's own context never ended, where other storage failures answer 502. *)
Theorem deadline_leaves_no_answer cfg req target identity bytes :
  rq_Method req = lit "GET" → downloadTargetFromRequest req = Some target →
  Authenticate (rq_Header req) (policy_of cfg) = Some identity →
  let t : history hevent hanswer :=
    [existT HRandom (Some bytes); existT (HGetProperties (t_blobName target)) (Err AzDeadlineExceeded)] in
  runs (ServeHTTP cfg req) t (Some (setSecurityHeaders ∅)) ∧ d_responses (observed t) = [].
Proof.
  intros Hm Ht Ha t. split; [|done]. unfold ServeHTTP. rewrite Hm, str_eqb_refl, Ht, Ha. cbn [negb].
  destruct (rq_URL req) as [url|] eqn:Hu.
  2: { unfold downloadTargetFromRequest in Ht. by rewrite Hu in Ht. }
  destruct (u_path url =s lit "/healthz") eqn:Hp.
  { exfalso. apply str_eqb_eq in Hp. unfold downloadTargetFromRequest in Ht. rewrite Hu, Hp in Ht. case_if_in Ht; done. }
  right. exists (Some bytes), [existT (HGetProperties (t_blobName target)) (Err AzDeadlineExceeded)]. split; [done|].
  right. exists (Err AzDeadlineExceeded), []. split; [done|]. simpl. split; [done|]. by left.
Qed.

(** ** A run *)

Module DownloadSamples.
Import AuthSamples BlobSamples.

Definition object : gostring := lit "hello dar".

(** A storage service with one object, a client that takes every byte, contexts that do not end. *)
Definition env (_ : dstate) (e : hevent) : option (hanswer e) :=
  match e return option (hanswer e) with
  | HContext => Some false
  | HRandom => Some (Some (replicate 16 "r"%char))
  | HClock => Some (mkTime 0 true)
  | HLog _ _ => Some tt
  | HGetProperties _ => Some (Ok (mkProperties (Some 9) (Some tag)))
  | HDownload _ offset count etag => Some (Ok (mkStream (Some (slice object offset count)) (Some count) (Some etag)))
  | HClose => Some false
  | HWriteHeader _ _ => Some tt
  | HWrite data => Some (length data)
  | HPanic | HDiverge => None
  end.

Definition contents (_ _ : gostring) : gostring := object.

Lemma env_honest honest s e x : env s e = Some x → allowed honest contents s e x.
Proof.
  destruct e; simpl; intros H; try done.
  - injection H as <-. intros size etag [= <- <-]. by vm_compute.
  - injection H as <-. intros _ body n e [= <- _ _]. done.
Qed.

Lemma env_typed s e x : env s e = Some x → allowed False (λ _ _, []) s e x.
Proof.
  destruct e; simpl; intros H; try done. injection H as <-. intros size etag [= <- <-]. by vm_compute.
Qed.

Definition url : URL := mkURL [] [] None [] (lit "/v1/releases/1.0/download/app.dar") [] false [] [].
Definition request : Request :=
  mkRequest (lit "GET") (Some url) (lit "/v1/releases/1.0/download/app.dar")
    (header_set (lit "Range") (lit "bytes=6-") (ingress (lit "https://login.example.com/tenant") (lit "alice"))).

Definition run : history hevent hanswer * option Header := play observe env (ServeHTTP ConfigSamples.sample request) d_start.
Definition trace : history hevent hanswer := run.1.
Definition headers : Header := default ∅ run.2.

Lemma run_ends : bool_decide (is_Some run.2) = true.
Proof. vm_compute. reflexivity. Qed.

Lemma run_completes : run.2 = Some headers.
Proof. unfold headers. destruct (bool_decide_eq_true_1 _ run_ends) as [h ->]. done. Qed.

Lemma trace_runs : runs (ServeHTTP ConfigSamples.sample request) trace (Some headers).
Proof. rewrite <- run_completes. apply play_runs. Qed.

Lemma trace_typed : typed trace.
Proof. apply play_permitted, env_typed. Qed.

Lemma trace_objects : from_objects contents trace.
Proof. apply play_permitted, env_honest. Qed.

Definition result : streamResult := mkStreamResult STREAM_COMPLETED 3.
Definition args : list (gostring * attr) :=
  terminal_args (hex_encode (replicate 16 "r"%char)) (mkIdentity (lit "https://login.example.com/tenant") (lit "alice"))
    (mkTarget (lit "1.0/app.dar") (lit "app.dar") (lit "1.0")) (mkTime 0 true) result.

Lemma trace_logged : (lit "download terminal", args) ∈ d_logs (observed trace).
Proof. apply list_elem_of_In. vm_compute. auto. Qed.

Lemma trace_body : d_body (observed trace) = lit "dar".
Proof. vm_compute. reflexivity. Qed.

Lemma completed_arg : (lit "outcome", AString STREAM_COMPLETED) ∈ args.
Proof. apply list_elem_of_In. vm_compute. auto 10. Qed.

(** The look-up is the second request of the run, the only read the fifth. *)
Definition lookup_answer : hanswer (HGetProperties (lit "1.0/app.dar")) := Ok (mkProperties (Some 9) (Some tag)).
Definition read_answer : hanswer (HDownload (lit "1.0/app.dar") 6 3 tag) :=
  Ok (mkStream (Some (slice object 6 3)) (Some 3) (Some tag)).

Lemma trace_lookup : trace = take 1 trace ++ existT (HGetProperties (lit "1.0/app.dar")) lookup_answer :: drop 2 trace.
Proof. symmetry. apply take_drop_middle. vm_compute. reflexivity. Qed.

Lemma trace_read : trace = take 4 trace ++ existT (HDownload (lit "1.0/app.dar") 6 3 tag) read_answer :: drop 5 trace.
Proof. symmetry. apply take_drop_middle. vm_compute. reflexivity. Qed.

Lemma target_named : downloadTargetFromRequest request = Some (mkTarget (lit "1.0/app.dar") (lit "app.dar") (lit "1.0")).
Proof. vm_compute. reflexivity. Qed.

Lemma caller_known : Authenticate (rq_Header request) (policy_of ConfigSamples.sample) =
  Some (mkIdentity (lit "https://login.example.com/tenant") (lit "alice")).
Proof. vm_compute. reflexivity. Qed.
End DownloadSamples.

(** ** Witnesses *)

Import DownloadSamples.

Example storage_after_authentication_witness :
  runs (ServeHTTP ConfigSamples.sample request) trace (Some headers) ∧ authorised ConfigSamples.sample request (lit "1.0/app.dar").
Proof.
  split; [exact trace_runs|].
  exact (storage_after_authentication _ _ _ _ _ _ _ _ _ trace_runs trace_typed trace_lookup (or_introl eq_refl)).
Defined.

Example reads_bounded_witness : next_read ConfigSamples.sample request (observed (take 4 trace)) (lit "1.0/app.dar") 6 3 BlobSamples.tag.
Proof. exact (reads_bounded _ _ _ _ _ _ _ _ _ _ _ trace_runs trace_typed trace_read). Defined.

Example completed_download_exact_witness :
  d_body (observed trace) = lit "dar" ∧
  ∃ selected, downloadTargetFromRequest request = Some (sd_target selected) ∧
    d_body (observed trace) = slice (contents (t_blobName (sd_target selected)) (sn_ETag (sd_snapshot selected)))
                                (s_Offset (sd_selection selected)) (s_Length (sd_selection selected)).
Proof.
  split; [exact trace_body|].
  destruct (completed_download_exact _ _ _ _ _ _ trace_runs trace_objects trace_logged completed_arg)
    as (sel & H1 & _ & _ & H2 & _). exists sel. split; [exact H1|exact H2].
Defined.

Example audit_counts_bytes_witness :
  ∃ target snapshot identity session now res, args = terminal_args session identity target now res ∧
    downloadTargetFromRequest request = Some target ∧ Authenticate (rq_Header request) (policy_of ConfigSamples.sample) = Some identity ∧
    is_ok (Select [lit "bytes=6-"] [] (len (contents (t_blobName target) (sn_ETag snapshot))) (sn_ETag snapshot)) = true.
Proof.
  destruct (audit_counts_bytes _ _ _ _ _ _ trace_runs trace_objects trace_logged) as (tg & sn & sel & id & ses & now & res & H1 & H2 & H3 & H4 & _).
  exists tg, sn, id, ses, now, res. split; [exact H4|]. split; [exact H1|]. split; [exact H2|].
  change [lit "bytes=6-"] with (header_values (rq_Header request) (lit "Range")).
  change [] with (header_values (rq_Header request) (lit "If-Range")). by rewrite H3.
Defined.

Example one_response_witness : len (d_responses (observed trace)) ≤ 1 ∧ d_open (observed trace) = 0.
Proof.
  destruct (one_response _ _ _ _ trace_runs trace_typed) as [H1 H2]. split; [exact H1|]. apply H2. discriminate.
Defined.

Example ServeHTTP_terminates_witness : len trace ≤ 500.
Proof. refine (proj1 (ServeHTTP_terminates _ _ _ _ _ trace_runs trace_typed)). discriminate. Defined.

Example deadline_leaves_no_answer_witness :
  let t : history hevent hanswer :=
    [existT HRandom (Some (lit "0123456789abcdef")); existT (HGetProperties (lit "1.0/app.dar")) (Err AzDeadlineExceeded)] in
  runs (ServeHTTP ConfigSamples.sample request) t (Some (setSecurityHeaders ∅)) ∧ d_responses (observed t) = [].
Proof.
  exact (deadline_leaves_no_answer ConfigSamples.sample request _ _ (lit "0123456789abcdef") eq_refl target_named caller_known).
Defined.
