(* ===== verification/Mail.v ===== *)
(** * internal/distribution/mail.go

    The mail effect: [NewHTTPMailer] fixes where mail may go and with which credentials, [Send] makes
    one bounded SendGrid request and classifies the answer. [Send] is a program over the HTTP
    client. Theorems: requests only go to the configured endpoint and recipients; every answer of the
    provider becomes a result the receipt of the attempt can record, but for one. *)

From stdpp Require Import strings.
From S2P Require Import Prelude Utf8 GoStrings Regex GoTime Json JsonFacts StrictJson Url GoHttp Contracts Receipt Program Azure Effects Worker.

Definition SendGridEndpoint : gostring := lit "https://api.sendgrid.com/v3/mail/send".

(** [MailMode], a Go string type. *)
Definition MailModeStub : gostring := lit "stub".
Definition MailModeSandbox : gostring := lit "sendgrid_sandbox".
Definition MailModeLive : gostring := lit "sendgrid_live".

(** [http.Client]: its timeout, and whether [CheckRedirect] returns the redirect itself. *)
Record HTTPClient : Type := mkClient { hc_Timeout : Z; hc_UseLastResponse : bool }.

Record MailConfig : Type := mkMailConfig {
  mc_Mode : gostring; mc_FromEmail : gostring; mc_FromName : gostring; mc_AllowedRecipients : list gostring;
  mc_APIKey : gostring; mc_StubEndpoint : gostring; mc_Timeout : Z; mc_Client : option HTTPClient }.

Record HTTPMailer : Type := mkMailer {
  m_mode : gostring; m_fromEmail : gostring; m_fromName : gostring; m_allowed : gset gostring;
  m_apiKey : gostring; m_endpoint : gostring; m_client : HTTPClient }.

(** ** Construction *)

(** [canonicalEmail]; [None] where the second result is [false]. *)
Definition canonicalEmail (value : gostring) : option gostring :=
  let email := to_lower (trim_space value) in
  if (len email <=? 254) && match_string emailPattern email then Some email else None.

Definition validStubEndpoint (value : gostring) : bool :=
  match url_parse value with
  | None => false
  | Some parsed =>
    if negb (u_scheme parsed =s lit "https") || bool_decide (u_user parsed ≠ None) ||
       negb (u_raw_query parsed =s []) || negb (u_fragment parsed =s []) ||
       negb (u_path parsed =s lit "/v3/mail/send") || negb (Port parsed =s [])
    then false
    else
      let host := to_lower (Hostname parsed) in
      has_suffix (lit ".azurecontainerapps.io") host || has_suffix (lit ".example.internal") host
  end.

(** The loop over [config.AllowedRecipients]. *)
Fixpoint allow_recipients (raws : list gostring) (allowed : gset gostring) : option (gset gostring) :=
  match raws with
  | [] => Some allowed
  | raw :: raws' =>
    email ← canonicalEmail raw;
    if bool_decide (email ∈ allowed) then None else allow_recipients raws' ({[email]} ∪ allowed)
  end.

Definition NewHTTPMailer (config : MailConfig) : result error HTTPMailer :=
  match canonicalEmail (mc_FromEmail config) with
  | None => Err ErrContract
  | Some fromEmail =>
    if (mc_FromName config =s []) || (64 <? len (mc_FromName config)) || negb (controlFree (mc_FromName config))
    then Err ErrContract
    else
      let allowed :=
        if mc_Mode config =s MailModeLive then
          if negb (len (mc_AllowedRecipients config) =? 0) then None else Some ∅
        else
          let maximumRecipients := if mc_Mode config =s MailModeStub then 500 else 2 in
          if (len (mc_AllowedRecipients config) <? 1) || (maximumRecipients <? len (mc_AllowedRecipients config)) then None
          else allow_recipients (mc_AllowedRecipients config) ∅ in
      match allowed with
      | None => Err ErrContract
      | Some allowed =>
        let endpoint :=
          if mc_Mode config =s MailModeStub then
            if negb (mc_APIKey config =s []) || negb (validStubEndpoint (mc_StubEndpoint config)) then None
            else Some (mc_StubEndpoint config)
          else if (mc_Mode config =s MailModeSandbox) || (mc_Mode config =s MailModeLive) then
            if (mc_APIKey config =s []) || negb (mc_StubEndpoint config =s []) then None else Some SendGridEndpoint
          else None in
        match endpoint with
        | None => Err ErrContract
        | Some endpoint =>
          let timeout := if mc_Timeout config =? 0 then 10 * Second else mc_Timeout config in
          if (timeout <? 100 * 10 ^ 6) || (30 * Second <? timeout) then Err ErrContract
          else
            let client := match mc_Client config with Some c => c | None => mkClient timeout true end in
            Ok (mkMailer (mc_Mode config) fromEmail (mc_FromName config) allowed (mc_APIKey config) endpoint client)
        end
      end
  end.

(** ** The message *)

(** [html.EscapeString]. *)
Definition html_escape_byte (c : ascii) : gostring :=
  if Ascii.eqb c "&"%char then lit "&amp;"
  else if Ascii.eqb c "'"%char then lit "&#39;"
  else if Ascii.eqb c "<"%char then lit "&lt;"
  else if Ascii.eqb c ">"%char then lit "&gt;"
  else if code c =? 34 then lit "&#34;"
  else [c].
Definition html_escape (s : gostring) : gostring := flat_map html_escape_byte s.

Definition nl : gostring := [byte 10].
Definition dq : gostring := [byte 34].

Definition plain_body (n : Notification) : gostring :=
  lit "Hello " ++ n_FirstName n ++ lit "," ++ nl ++ nl ++ lit "DAR release " ++ n_ReleaseVersion n ++
  lit " is ready." ++ nl ++ lit "Sign in to download it: " ++ n_ApplicationURL n ++ nl.

Definition html_body (n : Notification) : gostring :=
  lit "<p>Hello " ++ html_escape (n_FirstName n) ++ lit "</p>" ++
  lit "<p>DAR release " ++ html_escape (n_ReleaseVersion n) ++ lit " is ready.</p>" ++
  lit "<p><a href=" ++ dq ++ html_escape (n_ApplicationURL n) ++ dq ++ lit ">Sign in to download the DAR</a></p>".

(** [buildMailPayload]. A Go map is marshalled with its keys in order. *)
Definition buildMailPayload (m : HTTPMailer) (n : Notification) (email : gostring) : json :=
  let displayName := trim_space (n_FirstName n ++ lit " " ++ n_LastName n) in
  let content :=
    (lit "content", JArr [JObj [(lit "type", JStr (lit "text/plain")); (lit "value", JStr (plain_body n))];
                          JObj [(lit "type", JStr (lit "text/html")); (lit "value", JStr (html_body n))]]) in
  let from := (lit "from", JObj [(lit "email", JStr (m_fromEmail m)); (lit "name", JStr (m_fromName m))]) in
  let mail_settings :=
    (lit "mail_settings", JObj [(lit "sandbox_mode", JObj [(lit "enable", JBool true)])]) in
  let personalizations :=
    (lit "personalizations",
     JArr [JObj [(lit "custom_args", JObj [(lit "operation_id", JStr (n_OperationID n));
                                           (lit "recipient_id", JStr (n_RecipientID n));
                                           (lit "release_id", JStr (n_ReleaseID n))]);
                 (lit "to", JArr [JObj [(lit "email", JStr email); (lit "name", JStr displayName)]])]]) in
  let subject := (lit "subject", JStr (lit "DAR release " ++ n_ReleaseVersion n ++ lit " is ready")) in
  let tracking_settings :=
    (lit "tracking_settings",
     JObj [(lit "click_tracking", JObj [(lit "enable", JBool false); (lit "enable_text", JBool false)]);
           (lit "open_tracking", JObj [(lit "enable", JBool false)])]) in
  JObj ([content; from] ++ (if m_mode m =s MailModeSandbox then [mail_settings] else []) ++
        [personalizations; subject] ++ (if negb (m_mode m =s MailModeStub) then [tracking_settings] else [])).

(** ** The HTTP client *)

(** An outgoing request, and what is looked at of a response. *)
Record ClientRequest : Type := mkClientRequest {
  cr_Method : gostring; cr_URL : URL; cr_Header : Header; cr_Body : gostring }.
Record ClientResponse : Type := mkClientResponse { rs_StatusCode : Z; rs_Header : Header }.

Inductive mevent : Type :=
(** [client.Do]; no answer is its error. *)
| MDo (client : HTTPClient) (request : ClientRequest)
(** Reading at most so many bytes of the body, with the outcome ignored. *)
| MDrain (limit : Z)
| MClose.

Definition manswer (e : mevent) : Type :=
  match e with
  | MDo _ _ => option ClientResponse
  | MDrain _ => unit
  | MClose => unit
  end.

Abbreviation mprog := (program mevent manswer).
Definition mperform (e : mevent) : mprog (manswer e) := perform e.

(** [removeEmptyPort] of net/http: a colon at the end that starts an empty port. *)
Definition hasPort (s : gostring) : bool :=
  match rcut_byte ":"%char s with Some (_, after) => negb (contains_byte "]"%char after) | None => false end.
Definition removeEmptyPort (host : gostring) : gostring := if hasPort host then trim_suffix (lit ":") host else host.

(** [http.NewRequestWithContext] with the method POST; [None] is its error. *)
Definition NewRequest (url body : gostring) : option ClientRequest :=
  u ← url_parse url;
  Some (mkClientRequest (lit "POST")
    (mkURL (u_scheme u) (u_opaque u) (u_user u) (removeEmptyPort (u_host u)) (u_path u) (u_raw_path u)
           (u_force_query u) (u_raw_query u) (u_fragment u)) ∅ body).

(** [Header.Get]. *)
Definition header_get (h : Header) (name : gostring) : gostring := default [] (head (header_values h name)).

Definition boundedHeader (headers : Header) (name : gostring) : gostring :=
  let value := header_get headers name in
  if 128 <? len value then take 128 value else value.

Definition retryAfter (headers : Header) : Z :=
  match parse_int (header_get headers (lit "Retry-After")) with
  | None => Second
  | Some seconds =>
    if seconds <? 1 then Second
    else
      let seconds := if 300 <? seconds then 300 else seconds in
      wrap64 (seconds * Second)
  end.

Definition classifyMailResponse (mode : gostring) (response : ClientResponse) : MailResult :=
  let status := rs_StatusCode response in
  let requestID := boundedHeader (rs_Header response) (lit "X-Message-Id") in
  let requestID := if requestID =s [] then boundedHeader (rs_Header response) (lit "X-Stub-Request-Id") else requestID in
  if ((mode =s MailModeStub) || (mode =s MailModeSandbox)) && (status =? 200) then
    mkMailResult MailSimulated 200 requestID [] 0
  else if (mode =s MailModeLive) && (status =? 202) then mkMailResult MailAccepted 202 requestID [] 0
  else if status =? 429 then
    mkMailResult MailRetryable status requestID (lit "PROVIDER_THROTTLED") (retryAfter (rs_Header response))
  else if (500 <=? status) && (status <=? 599) then
    mkMailResult MailRetryable status requestID (lit "PROVIDER_UNAVAILABLE") (retryAfter (rs_Header response))
  else if (status =? 401) || (status =? 403) then
    mkMailResult MailPermanent status requestID (lit "PROVIDER_AUTH_FAILED") 0
  else if (400 <=? status) && (status <=? 499) then
    mkMailResult MailPermanent status requestID (lit "PROVIDER_REJECTED") 0
  else mkMailResult MailUnknown status requestID (lit "PROVIDER_PROTOCOL_UNKNOWN") 0.

(** A result without an answer of the provider. *)
Definition unanswered (outcome reason : gostring) : MailResult := mkMailResult outcome 0 [] reason 0.

(** [HTTPMailer.Send]. *)
Definition http_Send (m : HTTPMailer) (n : Notification) : mprog MailResult :=
  match canonicalEmail (n_Email n) with
  | None => Ret (unanswered MailPermanent (lit "RECIPIENT_INVALID"))
  | Some email =>
    if negb (m_mode m =s MailModeLive) && negb (bool_decide (email ∈ m_allowed m)) then
      Ret (unanswered MailPermanent (lit "RECIPIENT_NOT_ALLOWED"))
    else
      let body := print (buildMailPayload m n email) in
      if (len body =? 0) || (64 * 1024 <? len body) then Ret (unanswered MailPermanent (lit "MAIL_PAYLOAD_INVALID"))
      else match NewRequest (m_endpoint m) body with
      | None => Ret (unanswered MailPermanent (lit "MAIL_PAYLOAD_INVALID"))
      | Some request =>
        let headers := header_set (lit "Accept") (lit "application/json") (cr_Header request) in
        let headers := header_set (lit "Content-Type") (lit "application/json") headers in
        let headers := header_set (lit "User-Agent") (lit "dar-distribution-go/0.1") headers in
        let headers := if negb (m_mode m =s MailModeStub)
                       then header_set (lit "Authorization") (lit "Bearer " ++ m_apiKey m) headers else headers in
        response ← mperform (MDo (m_client m) (mkClientRequest (cr_Method request) (cr_URL request) headers (cr_Body request)));
        match response with
        | None => Ret (unanswered MailUnknown (lit "PROVIDER_OUTCOME_UNKNOWN"))
        | Some response =>
          _ ← mperform (MDrain 1024);
          let result := classifyMailResponse (m_mode m) response in
          _ ← mperform MClose;
          Ret result
        end
      end
  end.

(** ** Where mail may go *)

(** The canonical recipients of a list of configured ones. *)
Definition configured (raws : list gostring) (email : gostring) : Prop :=
  ∃ raw, raw ∈ raws ∧ canonicalEmail raw = Some email.

Lemma allow_recipients_spec raws allowed s email :
  allow_recipients raws allowed = Some s → email ∈ s ↔ email ∈ allowed ∨ configured raws email.
Proof.
  revert allowed; induction raws as [|raw raws IH]; intros allowed H; cbn [allow_recipients] in H.
  { injection H as <-. unfold configured. split; [auto|]. intros [|(raw & Hin & _)]; [done|]. by apply not_elem_of_nil in Hin. }
  destruct (canonicalEmail raw) as [e|] eqn:E; [|done]. simpl in H. case_bool_decide as Hd; [done|].
  rewrite (IH _ H). unfold configured. set_unfold. split.
  - intros [[->|?]|(r & Hr & Hc)]; eauto.
  - intros [?|(r & [->|Hr] & Hc)]; [auto| |eauto]. left. left. congruence.
Qed.

(** The endpoint and the credentials a mode uses: the stub's is a plain URL of an approved host and
    carries no credentials, every other mode uses the fixed provider endpoint with the key. *)
Definition approved_host (host : gostring) : Prop :=
  has_suffix (lit ".azurecontainerapps.io") host = true ∨ has_suffix (lit ".example.internal") host = true.

Definition stub_endpoint (endpoint : gostring) (u : URL) : Prop :=
  url_parse endpoint = Some u ∧ u_scheme u = lit "https" ∧ u_user u = None ∧ u_raw_query u = [] ∧ u_fragment u = [] ∧
  u_path u = lit "/v3/mail/send" ∧ Port u = [] ∧ approved_host (to_lower (Hostname u)).

Lemma validStubEndpoint_spec endpoint : validStubEndpoint endpoint = true ↔ ∃ u, stub_endpoint endpoint u.
Proof.
  unfold validStubEndpoint, stub_endpoint, approved_host. destruct (url_parse endpoint) as [u|].
  2: { split; [done|]. by intros (u & ? & _). }
  split.
  - intros H. case_if_in H; [done|]. apply orb_true_iff in H. breflect. exists u. split_hyps. repeat split; auto.
    apply dec_stable; tauto.
  - intros (u' & [= <-] & Hs & Hu & Hq & Hf & Hp & Ho & Hh). apply orb_true_iff in Hh.
    rewrite Hs, Hu, Hq, Hf, Hp, Ho, Hh. done.
Qed.

Definition sendgrid : URL :=
  mkURL (lit "https") [] None (lit "api.sendgrid.com") (lit "/v3/mail/send") [] false [] [].

Lemma sendgrid_request body : NewRequest SendGridEndpoint body = Some (mkClientRequest (lit "POST") sendgrid ∅ body).
Proof. reflexivity. Qed.

Record confined (config : MailConfig) (n : Notification) (client : HTTPClient) (request : ClientRequest) : Prop := {
  c_client : mc_Client config = None →
    100 * 10 ^ 6 ≤ hc_Timeout client ≤ 30 * Second ∧ hc_UseLastResponse client = true;
  c_method : cr_Method request = lit "POST";
  c_recipient : ∃ m email, NewHTTPMailer config = Ok m ∧ canonicalEmail (n_Email n) = Some email ∧
    (mc_Mode config ≠ MailModeLive → configured (mc_AllowedRecipients config) email) ∧
    cr_Body request = print (buildMailPayload m n email);
  c_size : 0 < len (cr_Body request) ≤ 64 * 1024;
  c_endpoint :
    (mc_Mode config = MailModeStub ∧ header_values (cr_Header request) (lit "Authorization") = [] ∧
     ∃ u, stub_endpoint (mc_StubEndpoint config) u ∧
          cr_URL request = mkURL (lit "https") (u_opaque u) None (removeEmptyPort (u_host u)) (lit "/v3/mail/send")
                                 (u_raw_path u) (u_force_query u) [] []) ∨
    ((mc_Mode config = MailModeSandbox ∨ mc_Mode config = MailModeLive) ∧ mc_APIKey config ≠ [] ∧
     header_values (cr_Header request) (lit "Authorization") = [lit "Bearer " ++ mc_APIKey config] ∧
     cr_URL request = sendgrid) }.

(** What [NewHTTPMailer] established. *)
Record mailer_ok (config : MailConfig) (m : HTTPMailer) : Prop := {
  mo_mode : m_mode m = mc_Mode config;
  mo_from : canonicalEmail (mc_FromEmail config) = Some (m_fromEmail m);
  mo_name : m_fromName m = mc_FromName config ∧ m_fromName m ≠ [] ∧ len (m_fromName m) ≤ 64;
  mo_key : m_apiKey m = mc_APIKey config;
  mo_allowed : mc_Mode config ≠ MailModeLive → ∀ email, email ∈ m_allowed m ↔ configured (mc_AllowedRecipients config) email;
  mo_client : mc_Client config = None →
    100 * 10 ^ 6 ≤ hc_Timeout (m_client m) ≤ 30 * Second ∧ hc_UseLastResponse (m_client m) = true;
  mo_endpoint :
    (mc_Mode config = MailModeStub ∧ m_endpoint m = mc_StubEndpoint config ∧ ∃ u, stub_endpoint (m_endpoint m) u) ∨
    ((mc_Mode config = MailModeSandbox ∨ mc_Mode config = MailModeLive) ∧ mc_APIKey config ≠ [] ∧ m_endpoint m = SendGridEndpoint) }.

Lemma NewHTTPMailer_ok config m : NewHTTPMailer config = Ok m → mailer_ok config m.
Proof.
  unfold NewHTTPMailer. intros H. destruct (canonicalEmail (mc_FromEmail config)) as [from|] eqn:Ef; [|done].
  case_if_in H; [done|]. match type of H with context [match ?a with Some _ => _ | None => _ end] => destruct a as [allowed|] eqn:Ea; [|done] end.
  match type of H with context [match ?a with Some _ => _ | None => _ end] => destruct a as [endpoint|] eqn:Ee; [|done] end.
  cbv zeta in H. set (timeout := if mc_Timeout config =? 0 then 10 * Second else mc_Timeout config) in *.
  destruct ((timeout <? 100 * 10 ^ 6) || (30 * Second <? timeout)) eqn:Et; [done|]. injection H as <-.
  breflect. destruct E as [[Hn1 Hn2] _]. constructor; cbn [m_mode m_fromEmail m_fromName m_allowed m_apiKey m_endpoint m_client]; try done.
  - intros Hm. apply str_eqb_neq in Hm. rewrite Hm in Ea. case_if_in Ea; [done|]. intros email.
    rewrite (allow_recipients_spec _ _ _ email Ea). set_solver.
  - intros ->. cbn [hc_Timeout hc_UseLastResponse]. lia.
  - destruct (mc_Mode config =s MailModeStub) eqn:Es.
    + case_if_in Ee; [done|]. injection Ee as <-. breflect. left. split; [done|]. split; [done|].
      apply validStubEndpoint_spec. tauto.
    + case_if_in Ee; [|done]. case_if_in Ee; [done|]. injection Ee as <-. breflect. right. tauto.
Qed.

(** The requests of a history, the responses it got, and how many bodies were closed. *)
Definition requests (t : history mevent manswer) : list (HTTPClient * ClientRequest) :=
  omap (λ x, match projT1 x with MDo c r => Some (c, r) | _ => None end) t.
Definition response_of (x : {e : mevent & manswer e}) : option ClientResponse :=
  match x with existT (MDo _ _) response => response | _ => None end.
Definition responses (t : history mevent manswer) : list ClientResponse := omap response_of t.
Definition closes (t : history mevent manswer) : nat :=
  length (List.filter (λ x, match projT1 x with MClose => true | _ => false end) t).

(** The request [Send] makes for an accepted recipient. *)
Definition mail_request (m : HTTPMailer) (body : gostring) : option ClientRequest :=
  request ← NewRequest (m_endpoint m) body;
  let headers := header_set (lit "User-Agent") (lit "dar-distribution-go/0.1")
    (header_set (lit "Content-Type") (lit "application/json")
      (header_set (lit "Accept") (lit "application/json") (cr_Header request))) in
  let headers := if negb (m_mode m =s MailModeStub)
                 then header_set (lit "Authorization") (lit "Bearer " ++ m_apiKey m) headers else headers in
  Some (mkClientRequest (cr_Method request) (cr_URL request) headers (cr_Body request)).

(** Every run of [Send] refuses without a request, or makes one request for an accepted recipient and
    returns the classification of its answer. *)
Lemma Send_runs m n t r :
  runs (http_Send m n) t r →
  (t = [] ∧ ∀ res, r = Some res → ∃ reason, res = unanswered MailPermanent reason ∧ match_string reasonPattern reason = true) ∨
  ∃ email request response t', canonicalEmail (n_Email n) = Some email ∧
    (m_mode m ≠ MailModeLive → email ∈ m_allowed m) ∧
    0 < len (print (buildMailPayload m n email)) ≤ 64 * 1024 ∧
    mail_request m (print (buildMailPayload m n email)) = Some request ∧
    t = existT (MDo (m_client m) request) response :: t' ∧ requests t' = [] ∧ responses t' = [] ∧
    ∀ res, r = Some res →
      match response with
      | None => res = unanswered MailUnknown (lit "PROVIDER_OUTCOME_UNKNOWN") ∧ closes t' = 0%nat
      | Some response => res = classifyMailResponse (m_mode m) response ∧ closes t' = 1%nat
      end.
Proof.
  unfold http_Send. intros H.
  assert (Hret : ∀ reason, runs (Ret (unanswered MailPermanent reason) : mprog MailResult) t r →
    match_string reasonPattern reason = true →
    t = [] ∧ ∀ res, r = Some res → ∃ reason, res = unanswered MailPermanent reason ∧ match_string reasonPattern reason = true).
  { intros reason [-> Hr] Hm. split; [done|]. intros res ->. destruct Hr as [[= ->]|]; [eauto|done]. }
  destruct (canonicalEmail (n_Email n)) as [email|] eqn:Ee; [|left; eapply Hret; [exact H|by vm_compute]].
  case_if_in H; [left; eapply Hret; [exact H|by vm_compute]|].
  cbv zeta in H. set (body := print (buildMailPayload m n email)) in *.
  destruct ((len body =? 0) || (64 * 1024 <? len body)) eqn:El; [left; eapply Hret; [exact H|by vm_compute]|].
  destruct (NewRequest (m_endpoint m) body) as [request|] eqn:En; [|left; eapply Hret; [exact H|by vm_compute]].
  destruct H as [[-> ->]|(response & t' & -> & H)]; [left; by split|]. right.
  exists email. eexists. exists response, t'. split; [done|]. split.
  { breflect. intros Hm. by destruct E. }
  fold body. split; [breflect; pose proof (len_nonneg body); lia|]. split; [unfold mail_request; by rewrite En|]. split; [done|].
  destruct response as [response|]; cbn [prog_bind] in H.
  2: { destruct H as [-> Hr]. split_and!; [done..|]. intros res ->. by destruct Hr as [[= ->]|]. }
  destruct H as [[-> ->]|([] & t2 & -> & H)]; [done|]. destruct H as [[-> ->]|([] & t3 & -> & H)]; [done|].
  destruct H as [-> Hr]. split_and!; [done..|]. intros res ->. by destruct Hr as [[= ->]|].
Qed.

Lemma mail_request_confined config m n email request :
  NewHTTPMailer config = Ok m → canonicalEmail (n_Email n) = Some email → (m_mode m ≠ MailModeLive → email ∈ m_allowed m) →
  0 < len (print (buildMailPayload m n email)) ≤ 64 * 1024 →
  mail_request m (print (buildMailPayload m n email)) = Some request →
  confined config n (m_client m) request.
Proof.
  intros Hm He Ha Hl Hr. pose proof (NewHTTPMailer_ok _ _ Hm) as [Hmode _ _ Hkey Hall Hcl Hend]. unfold mail_request in Hr.
  destruct (NewRequest (m_endpoint m) (print (buildMailPayload m n email))) as [base|] eqn:Eb; [|done]. simpl in Hr.
  injection Hr as <-. rewrite Hmode in *.
  assert (Hb : cr_Method base = lit "POST" ∧ cr_Header base = ∅ ∧ cr_Body base = print (buildMailPayload m n email)).
  { unfold NewRequest in Eb. destruct (url_parse (m_endpoint m)); [|done]. by injection Eb as <-. }
  destruct Hb as (Hb1 & Hb2 & Hb3). rewrite Hb2.
  constructor; cbn [cr_Method cr_Body cr_URL cr_Header]; rewrite ?Hb3; try done.
  - exists m, email. split; [done|]. split; [done|]. split; [|done]. intros Hn. by apply Hall, Ha.
  - destruct Hend as [(Hs & Hep & u & Hu)|(Hs & Hk & Hep)].
    + left. rewrite Hs, str_eqb_refl. cbn [negb]. split; [done|]. split.
      { rewrite !header_values_set_ne by (by vm_compute). done. }
      exists u. rewrite <- Hep. split; [done|]. destruct Hu as (Hu & Hu1 & Hu2 & Hu3 & Hu4 & Hu5 & _).
      unfold NewRequest in Eb. rewrite Hu in Eb. injection Eb as <-. cbn [cr_URL]. by rewrite Hu1, Hu2, Hu3, Hu4, Hu5.
    + right. split; [done|]. split; [done|]. rewrite Hep, sendgrid_request in Eb. injection Eb as <-. split; [|done].
      assert (Hns : mc_Mode config =s MailModeStub = false) by (by destruct Hs as [-> | ->]; vm_compute).
      rewrite Hns, Hkey. cbn [negb]. by rewrite header_values_set_eq.
Qed.

(** C19: Mail is confined by the configuration. Each [Send] makes at most one request, a POST of the
    bounded payload for the notification; outside live mode its recipient is one of the configured
    ones. In stub mode it goes to the configured stub on an approved host and carries no credentials;
    in every other mode it goes to the fixed provider endpoint with the key. A response body is
    always closed. *)
Theorem Send_confined config m n t r :
  NewHTTPMailer config = Ok m → runs (http_Send m n) t r →
  (requests t = [] ∨ ∃ client request, requests t = [(client, request)] ∧ confined config n client request) ∧
  (∀ res, r = Some res → closes t = length (responses t)).
Proof.
  intros Hm Hr. destruct (Send_runs _ _ _ _ Hr) as [[-> _]|(email & rq & rs & t' & He & Ha & Hl & Hq & -> & Ht1 & Ht2 & Hres)].
  { split; [by left|]. done. }
  split.
  - right. exists (m_client m), rq. split; [|by eapply mail_request_confined]. unfold requests in *. cbn [omap list_omap projT1]. by rewrite Ht1.
  - intros res Eres. specialize (Hres res Eres). unfold closes, responses in *. cbn [List.filter omap list_omap projT1 response_of].
    destruct rs as [rs|]; destruct Hres as [_ ->]; rewrite Ht2; done.
Qed.

(** ** The HTML body *)

Definition markup (c : ascii) : bool :=
  Ascii.eqb c "<"%char || Ascii.eqb c ">"%char || Ascii.eqb c "'"%char || (code c =? 34).

Lemma html_escape_inert s : List.filter markup (html_escape s) = [].
Proof.
  unfold html_escape. induction s as [|c s IH]; [done|]. cbn [flat_map]. rewrite List.filter_app, IH, app_nil_r.
  unfold html_escape_byte. destruct (Ascii.eqb c "&"%char) eqn:E0; [by vm_compute|].
  destruct (Ascii.eqb c "'"%char) eqn:E1; [by vm_compute|]. destruct (Ascii.eqb c "<"%char) eqn:E2; [by vm_compute|].
  destruct (Ascii.eqb c ">"%char) eqn:E3; [by vm_compute|]. destruct (code c =? 34) eqn:E4; [by vm_compute|].
  cbn [List.filter]. unfold markup. by rewrite E1, E2, E3, E4.
Qed.

(** The values of a notification cannot add markup to the HTML body: its angle brackets and
    quotes are those of the template, the same for any two notifications. *)
Theorem html_body_inert n n' : List.filter markup (html_body n) = List.filter markup (html_body n').
Proof. unfold html_body. by rewrite !List.filter_app, !html_escape_inert. Qed.

(** ** Every answer can be recorded *)

Lemma boundedHeader_len h name : len (boundedHeader h name) ≤ 128.
Proof.
  unfold boundedHeader. cbv zeta. destruct (Z.ltb_spec 128 (len (header_get h name))); [|done]. unfold len in *. rewrite length_take. lia.
Qed.

Lemma retryAfter_bounds h : Second ≤ retryAfter h ≤ 300 * Second.
Proof.
  unfold retryAfter, Second. destruct (parse_int _) as [z|]; [|lia]. destruct (Z.ltb_spec z 1); [lia|]. cbv zeta.
  destruct (Z.ltb_spec 300 z); rewrite wrap64_small by (unfold int64_range; lia); lia.
Qed.

(** The results [Send] can return: what it takes for the receipt to record them. *)
Record recordable (mode : gostring) (res : MailResult) : Prop := {
  rc_id : len (mr_RequestID res) ≤ 128;
  rc_accepted : mr_Outcome res = MailAccepted → mode = MailModeLive ∧ mr_HTTPStatus res = 202;
  rc_simulated : mr_Outcome res = MailSimulated → (mode = MailModeStub ∨ mode = MailModeSandbox) ∧ mr_HTTPStatus res = 200;
  rc_status : 0 ≤ mr_HTTPStatus res ≤ 599 ∨ mr_Outcome res = MailUnknown;
  rc_retry : mr_Outcome res = MailRetryable → mr_HTTPStatus res = 429 ∨ 500 ≤ mr_HTTPStatus res ≤ 599;
  rc_reason : mr_Outcome res = MailAccepted ∨ mr_Outcome res = MailSimulated ∨
              match_string reasonPattern (mr_ReasonCode res) = true;
  rc_after : 0 ≤ mr_RetryAfter res ≤ 300 * Second }.

Lemma classify_recordable mode response : recordable mode (classifyMailResponse mode response).
Proof.
  unfold classifyMailResponse. cbv zeta.
  set (id := if boundedHeader (rs_Header response) (lit "X-Message-Id") =s [] then _ else _).
  assert (Hid : len id ≤ 128) by (unfold id; case_match; apply boundedHeader_len).
  clearbody id. pose proof (retryAfter_bounds (rs_Header response)) as Hr.
  assert (Hs : 0 < Second) by done.
  repeat match goal with |- recordable _ (if ?b then _ else _) => destruct b eqn:? end; breflect;
    constructor; cbn [mr_RequestID mr_Outcome mr_HTTPStatus mr_ReasonCode mr_RetryAfter]; try done; try tauto; try lia;
    try (right; right; by vm_compute); by right.
Qed.

Lemma Send_recordable_result m n t res : runs (http_Send m n) t (Some res) → recordable (m_mode m) res.
Proof.
  assert (Hs : 0 < Second) by done.
  intros Hr. destruct (Send_runs _ _ _ _ Hr) as [[-> Hres]|(email & rq & rs & t' & He & Ha & Hl & Hq & -> & Ht1 & Ht2 & Hres)].
  - destruct (Hres res eq_refl) as (reason & -> & Hm).
    constructor; cbn [unanswered mr_RequestID mr_Outcome mr_HTTPStatus mr_ReasonCode mr_RetryAfter]; try done; auto; lia.
  - specialize (Hres res eq_refl). destruct rs as [rs|]; destruct Hres as [-> _]; [apply classify_recordable|].
    constructor; cbn [unanswered mr_RequestID mr_Outcome mr_HTTPStatus mr_ReasonCode mr_RetryAfter]; try done; auto; lia.
Qed.

Lemma reason_kept reason fallback :
  match_string reasonPattern reason = true → match_string reasonPattern (nonempty_or reason fallback) = true.
Proof. intros H. unfold nonempty_or. destruct (reason =s []) eqn:E; [|done]. by apply str_eqb_eq in E as ->. Qed.

Lemma finish_valid r now s http id reason r' : finish r now s http id reason = Ok r' → validate r' = true.
Proof. unfold finish. intros H. op_guards H. op_guards H; by apply validated_ok in H as [-> Hv]. Qed.

(** The status a disposition stands for. *)
Definition recorded (mode : gostring) (r : Receipt) (disposition : gostring) (delay : Z) : Prop :=
  (disposition = Complete ∧
   (mode = MailModeLive ∧ Status r = ReceiptAccepted ∨
    (mode = MailModeStub ∨ mode = MailModeSandbox) ∧ Status r = ReceiptSimulated)) ∨
  (disposition = Abandon ∧ Status r = ReceiptRetryable ∧ Second ≤ delay ≤ 300 * Second) ∨
  (disposition = DeadLetter ∧ (Status r = ReceiptFailed ∨ Status r = ReceiptUnknown)).

(** The provider took the mail, under a request identifier with a control character: the receipt cannot
    hold it. A horizontal tab is such a character, and net/http lets it pass in a header. *)
Definition unrecordable (res : MailResult) : bool :=
  ((mr_Outcome res =s MailAccepted) || (mr_Outcome res =s MailSimulated)) && negb (controlFree (mr_RequestID res)).

Lemma request_id_ok res :
  len (mr_RequestID res) ≤ 128 → unrecordable res = false → mr_Outcome res = MailAccepted ∨ mr_Outcome res = MailSimulated →
  mr_RequestID res = [] ∨ request_ok (mr_RequestID res) = true.
Proof.
  unfold unrecordable, request_ok. intros Hl Hu Ho. right. apply andb_true_iff. split; [by apply Z.leb_le|].
  destruct Ho as [Ho|Ho]; rewrite Ho in Hu; by apply negb_false_iff in Hu.
Qed.

(** A receipt does not take an identifier with a control character. *)
Lemma finish_control r now status http id reason : controlFree id = false → finish r now status http id reason = Err ErrReceiptConflict.
Proof.
  intros Hc. unfold finish. case_match; [done|]. cbv zeta. destruct (id =s []) eqn:E; [by apply str_eqb_eq in E as ->|].
  rewrite Hc. cbn [negb]. by rewrite orb_true_r.
Qed.

Lemma applyMailResult_unrecordable mode r res now :
  recordable mode res → unrecordable res = true → applyMailResult r res now = Some (zeroReceipt, Complete, [], 0).
Proof.
  intros [_ Hacc Hsim _ _ _ _] [Ho Hc%negb_true_iff]%andb_true_iff. unfold applyMailResult.
  destruct (mr_Outcome res =s MailAccepted) eqn:E1.
  { apply str_eqb_eq in E1. destruct (Hacc E1) as [_ ->]. unfold Accept. cbn [Z.eqb Pos.eqb negb]. by rewrite finish_control. }
  cbn [orb] in Ho. rewrite Ho. apply str_eqb_eq in Ho. destruct (Hsim Ho) as [_ ->]. unfold Simulate. cbn [Z.eqb Pos.eqb negb]. by rewrite finish_control.
Qed.

Lemma applyMailResult_recordable mode r res now :
  recordable mode res → unrecordable res = false → validate r = true → Status r = ReceiptSendStarted → t_utc now = true → time_range now →
  time_range (time_add now (300 * Second)) → StateVersion r < maxInt64 →
  ∃ r' disposition reason delay,
    applyMailResult r res now = Some (r', disposition, reason, delay) ∧ validate r' = true ∧ recorded mode r' disposition delay.
Proof.
  intros [Hl Hacc Hsim Hst Hret Hrea Haft] Hun Hv Hs Hu Ht Ht2 Hver. pose proof (request_id_ok res Hl Hun) as Hid. unfold applyMailResult, recorded.
  destruct (mr_Outcome res =s MailAccepted) eqn:E1.
  { apply str_eqb_eq in E1. destruct (Hacc E1) as [Hm ->]. unfold Accept. cbn [Z.eqb Pos.eqb negb].
    destruct (finish_enabled r now Accepted 202 (mr_RequestID res) []) as (r' & Hf & Hr'); auto.
    cbn [status_name] in Hf. rewrite Hf. do 4 eexists. split; [reflexivity|]. cbn [updatedOrZero].
    split; [by eapply finish_valid|]. left. auto. }
  destruct (mr_Outcome res =s MailSimulated) eqn:E2.
  { apply str_eqb_eq in E2. destruct (Hsim E2) as [Hm ->]. unfold Simulate. cbn [Z.eqb Pos.eqb negb].
    destruct (finish_enabled r now Simulated 200 (mr_RequestID res) []) as (r' & Hf & Hr'); auto.
    cbn [status_name] in Hf. rewrite Hf. do 4 eexists. split; [reflexivity|]. cbn [updatedOrZero].
    split; [by eapply finish_valid|]. left. auto. }
  apply str_eqb_neq in E1, E2. destruct Hrea as [|[|Hrea]]; [done|done|].
  pose proof (validate_spec r Hv) as (_ & _ & Hrec & _).
  apply match_string_count in Hrec as [Hrec _].
  destruct (mr_Outcome res =s MailRetryable) eqn:E3.
  { apply str_eqb_eq in E3. destruct (retryDelay_bounds r res) as (delay & -> & Hd & _).
    { unfold int64_range, Second in *. lia. } { unfold len. lia. }
    cbn [mbind option_bind]. cbv zeta.
    destruct (Retry_enabled r now (mr_HTTPStatus res) (nonempty_or (mr_ReasonCode res) (lit "PROVIDER_RETRYABLE")) (time_add now delay))
      as (r' & Hf & Hr'); auto using reason_kept.
    { unfold time_range, time_add in *. cbn [t_ns] in *. lia. } { cbn [time_add t_ns]. unfold Second in *. lia. }
    rewrite Hf. do 4 eexists. split; [reflexivity|]. cbn [updatedOrZero]. split; [|right; left; auto].
    by apply Retry_moves in Hf as (_ & _ & ?). }
  destruct (mr_Outcome res =s MailPermanent) eqn:E4.
  { apply str_eqb_eq in E4. destruct Hst as [Hst|Hst]; [|by rewrite E4 in Hst]. unfold Fail. cbv zeta.
    rewrite (proj2 (Z.ltb_ge _ 0)), (proj2 (Z.ltb_ge 599 _)), reason_kept by (done || lia). cbn [negb orb].
    destruct (finish_enabled r now Failed (mr_HTTPStatus res) [] (nonempty_or (mr_ReasonCode res) (lit "PROVIDER_REJECTED")))
      as (r' & Hf & Hr'); auto using reason_kept.
    cbn [status_name] in Hf. rewrite Hf. do 4 eexists. split; [reflexivity|]. cbn [updatedOrZero].
    split; [by eapply finish_valid|]. right. right. auto. }
  unfold MarkUnknown. cbv zeta. rewrite reason_kept by done. cbn [negb].
  destruct (finish_enabled r now Unknown 0 [] (nonempty_or (mr_ReasonCode res) (lit "PROVIDER_OUTCOME_UNKNOWN")))
    as (r' & Hf & Hr'); auto using reason_kept.
  cbn [status_name] in Hf. rewrite Hf. do 4 eexists. split; [reflexivity|]. cbn [updatedOrZero].
  split; [by eapply finish_valid|]. right. right. auto.
Qed.

(** C20: Every result of [Send], whatever the provider answers and whatever its headers hold, can be
    recorded on the receipt of the attempt as a valid receipt whose status fits the disposition: an
    accepted delivery only in live mode, a simulated one only in the other modes, a retry within one
    second and five minutes, or a final failure; with exactly one exception: when the provider took
    the mail and its request identifier holds a control character, there is no receipt to write. *)
Theorem Send_recordable config m n t res r now :
  NewHTTPMailer config = Ok m → runs (http_Send m n) t (Some res) →
  validate r = true → Status r = ReceiptSendStarted → t_utc now = true → time_range now →
  time_range (time_add now (300 * Second)) → StateVersion r < maxInt64 →
  ∃ r' disposition reason delay,
    applyMailResult r res now = Some (r', disposition, reason, delay) ∧
    if unrecordable res then r' = zeroReceipt ∧ disposition = Complete
    else validate r' = true ∧ recorded (mc_Mode config) r' disposition delay.
Proof.
  intros Hm Hr ??????. rewrite <- (mo_mode _ _ (NewHTTPMailer_ok _ _ Hm)). pose proof (Send_recordable_result _ _ _ _ Hr) as Hres.
  destruct (unrecordable res) eqn:Hu; [|by eapply applyMailResult_recordable].
  exists zeroReceipt, Complete, [], 0. split; [by eapply applyMailResult_unrecordable|done].
Qed.

(** ** A run *)

Module MailSamples.
Definition config : MailConfig :=
  mkMailConfig MailModeStub (lit "DAR@example.internal") (lit "DAR") [lit "ann@example.com"; lit "Bob@Example.com "] []
    (lit "https://stub.example.internal/v3/mail/send") (5 * Second) None.
Definition mailer : HTTPMailer :=
  mkMailer MailModeStub (lit "dar@example.internal") (lit "DAR") {[lit "bob@example.com"; lit "ann@example.com"]} []
    (lit "https://stub.example.internal/v3/mail/send") (mkClient (5 * Second) true).
Definition notification : Notification :=
  mkNotification (lit "op") (lit "dar") (lit "v1.2.3.01") (lit "id") (lit "Ann") (lit "O'Hara") (lit "ann@example.com")
    (lit "https://app.example.internal/v1/releases/v1.2.3.01/download/dar-1.2.3.01.zip").
Definition response : ClientResponse := mkClientResponse 200 (header_set (lit "X-Message-Id") (lit "m-1") ∅).
Definition env (_ : unit) (e : mevent) : option (manswer e) :=
  match e return option (manswer e) with MDo _ _ => Some (Some response) | MDrain _ => Some tt | MClose => Some tt end.
Definition run (m : HTTPMailer) := play (λ s _ _, s) env (http_Send m notification) ().
Definition trace : history mevent manswer := (run mailer).1.
Definition sent : MailResult := mkMailResult MailSimulated 200 (lit "m-1") [] 0.

Lemma config_accepted : NewHTTPMailer config = Ok mailer.
Proof. vm_compute. reflexivity. Qed.

Lemma run_sent : (run mailer).2 = Some sent.
Proof. vm_compute. reflexivity. Qed.

Lemma mail_trace_runs : runs (http_Send mailer notification) trace (Some sent).
Proof. rewrite <- run_sent. apply play_runs. Qed.

Lemma trace_responses : responses trace = [response].
Proof. vm_compute. reflexivity. Qed.

(** An answer whose identifier holds a tab. *)
Definition tabbed : ClientResponse := mkClientResponse 200 (header_set (lit "X-Message-Id") (lit "a" ++ [byte 9] ++ lit "b") ∅).

Lemma tabbed_unrecordable : unrecordable (classifyMailResponse MailModeStub tabbed) = true.
Proof. vm_compute. reflexivity. Qed.
End MailSamples.

Import MailSamples.

Lemma Send_confined_witness :
  requests trace = [] ∨ ∃ client request, requests trace = [(client, request)] ∧ confined config notification client request.
Proof. apply (Send_confined config mailer notification trace (Some sent) config_accepted mail_trace_runs). Defined.

Lemma Send_recordable_witness :
  ∃ r' disposition reason delay,
    applyMailResult ReceiptSamples.started sent ReceiptSamples.now = Some (r', disposition, reason, delay) ∧
    if unrecordable sent then r' = zeroReceipt ∧ disposition = Complete
    else validate r' = true ∧ recorded MailModeStub r' disposition delay.
Proof.
  apply (Send_recordable config mailer notification trace); [apply config_accepted|apply mail_trace_runs|apply started_ok
    |vm_compute; reflexivity|reflexivity|apply samples_range| |vm_compute; reflexivity].
  split; [apply Z.leb_le|apply Z.ltb_lt]; vm_compute; reflexivity.
Defined.
