(* ===== verification/MailStub.v ===== *)
(** * internal/distribution/stub.go

    The no-delivery mail endpoint used in place of the provider. Its handler is a program over the
    request body, the response writer and the timer. Theorem: a mailer in stub mode and the stub fit
    together, each fault scenario of the stub leads to its outcome, with the timeout of the client. *)

From stdpp Require Import strings.
From S2P Require Import Prelude Utf8 GoStrings Regex GoTime Json JsonFacts StrictJson Sha256 Url GoHttp Contracts Receipt Program Azure Effects Worker Mail.

(** [MailStub]: what is fixed, and what its mutex guards. *)
Record MailStub : Type := mkStub { ms_scenario : gostring; ms_timeoutDelay : Z }.
Record stub_state : Type := mkStubState { ss_requestCount : Z; ss_lastDigest : gostring }.

Definition NewMailStub (scenario : gostring) (timeoutDelay : Z) : result error (MailStub * stub_state) :=
  if negb (existsb (str_eqb scenario) [lit "accepted"; lit "throttle"; lit "reject"; lit "unavailable"; lit "timeout"])
  then Err ErrContract
  else
    let timeoutDelay := if timeoutDelay =? 0 then 15 * Second else timeoutDelay in
    if (timeoutDelay <? 100 * 10 ^ 6) || (30 * Second <? timeoutDelay) then Err ErrContract
    else Ok (mkStub scenario timeoutDelay, mkStubState 0 []).

(** ** The payload *)

Record stubContent : Type := mkContent { sc_Type : gostring; sc_Value : gostring }.
Record stubAddress : Type := mkAddress { sa_Email : gostring; sa_Name : gostring }.
Record stubPersonalization : Type := mkPersonalization {
  sp_CustomArgs : gmap gostring gostring; sp_To : list stubAddress }.
Record stubPayload : Type := mkPayload {
  pl_Content : list stubContent; pl_From : stubAddress; pl_Personalizations : list stubPersonalization;
  pl_Subject : gostring }.

Definition content_kind : kind := KStruct [(lit "type", KString); (lit "value", KString)].
Definition address_kind : kind := KStruct [(lit "email", KString); (lit "name", KString)].
Definition payload_kind : kind :=
  KStruct [(lit "content", KSlice content_kind); (lit "from", address_kind);
           (lit "personalizations", KSlice (KStruct [(lit "custom_args", KStringMap); (lit "to", KSlice address_kind)]));
           (lit "subject", KString)].

Definition content_of (v : gval) : option stubContent :=
  match v with GStruct [GStr t; GStr c] => Some (mkContent t c) | _ => None end.
Definition address_of (v : gval) : option stubAddress :=
  match v with GStruct [GStr e; GStr n] => Some (mkAddress e n) | _ => None end.
Definition personalization_of (v : gval) : option stubPersonalization :=
  match v with
  | GStruct [GStringMap m; GSlice to _] => addresses ← mapM address_of to; Some (mkPersonalization m addresses)
  | _ => None
  end.
Definition payload_of (v : gval) : option stubPayload :=
  match v with
  | GStruct [GSlice content _; from; GSlice personalizations _; GStr subject] =>
    cs ← mapM content_of content; f ← address_of from; ps ← mapM personalization_of personalizations;
    Some (mkPayload cs f ps subject)
  | _ => None
  end.

(** [strictjson.Decode] into a [stubPayload]. *)
Definition decode_payload (body : gostring) : option stubPayload :=
  v ← Decode body (64 * 1024) payload_kind; payload_of v.

Definition validStubPayload (body : gostring) : bool :=
  match decode_payload body with
  | None => false
  | Some payload =>
    if negb (len (pl_Content payload) =? 2) || negb (len (pl_Personalizations payload) =? 1) ||
       match pl_Personalizations payload with p :: _ => negb (len (sp_To p) =? 1) | [] => true end ||
       (sa_Email (pl_From payload) =s []) || (pl_Subject payload =s []) || (256 <? len (pl_Subject payload))
    then false
    else forallb (λ content, negb ((sc_Value content =s []) || (16 * 1024 <? len (sc_Value content)) ||
                   (negb (sc_Type content =s lit "text/plain") && negb (sc_Type content =s lit "text/html"))))
           (pl_Content payload)
  end.

(** ** The handler *)

Record StubRequest : Type := mkStubRequest { sr_Method : gostring; sr_Path : gostring; sr_Header : Header }.

Inductive sevent : Type :=
(** The request body as the connection delivers it. *)
| SReadBody
(** The locked section. *)
| SRecord (digestText : gostring)
(** [waitRequest]: whether the delay passed before the request ended. *)
| SWait (delay : Z)
| SWriteHeader (status : Z) (headers : Header)
| SWrite (data : gostring).

Definition sanswer (e : sevent) : Type :=
  match e with SReadBody => Reader | SWait _ => bool | _ => unit end.

Abbreviation sprog := (program sevent sanswer).
Definition sperform (e : sevent) : sprog (sanswer e) := perform e.

(** [http.MaxBytesReader]. *)
Definition MaxBytesReader (r : Reader) (n : Z) : Reader :=
  if n <? len (rd_data r) then mkReader (take (Z.to_nat n) (rd_data r)) (Some ErrContract) else r.

Definition respond (status : Z) (headers : Header) : sprog unit := sperform (SWriteHeader status headers).

Definition waitRequest (delay : Z) : sprog bool := sperform (SWait delay).

(** [MailStub.ServeHTTP]. *)
Definition stub_ServeHTTP (stub : MailStub) (request : StubRequest) : sprog unit :=
  let headers := header_set (lit "Cache-Control") (lit "no-store") ∅ in
  if (sr_Method request =s lit "GET") && (sr_Path request =s lit "/healthz") then
    _ ← respond 200 (header_set (lit "Content-Type") (lit "application/json") headers);
    sperform (SWrite (print (JObj [(lit "service", JStr (lit "dar-mail-stub")); (lit "status", JStr (lit "ok"))])))
  else if negb (sr_Method request =s lit "POST") then respond 405 headers
  else if negb (sr_Path request =s lit "/v3/mail/send") then respond 404 headers
  else if negb (len (header_values (sr_Header request) (lit "Authorization")) =? 0) then respond 400 headers
  else
    raw ← sperform SReadBody;
    match readBounded (Some (MaxBytesReader raw (64 * 1024))) (64 * 1024) with
    | Err _ => respond 400 headers
    | Ok body =>
      if (len body =? 0) || (64 * 1024 <? len body) || negb (validStubPayload body) then respond 400 headers
      else
        let digestText := sha256_hex body in
        _ ← sperform (SRecord digestText);
        let headers := header_set (lit "X-Stub-Request-Id") (lit "stub-" ++ take 24 digestText) headers in
        if ms_scenario stub =s lit "throttle" then respond 429 (header_set (lit "Retry-After") (lit "1") headers)
        else if ms_scenario stub =s lit "reject" then respond 400 headers
        else if ms_scenario stub =s lit "unavailable" then respond 503 (header_set (lit "Retry-After") (lit "1") headers)
        else if ms_scenario stub =s lit "timeout" then
          passed ← waitRequest (ms_timeoutDelay stub);
          if (passed : bool) then respond 200 headers else Ret tt
        else respond 200 headers
    end.

(** The locked section and the two accessors. *)
Definition stub_record (digestText : gostring) (s : stub_state) : stub_state :=
  mkStubState (wrap64 (ss_requestCount s + 1)) digestText.
Definition RequestCount (s : stub_state) : Z := ss_requestCount s.
Definition LastRequestSHA256 (s : stub_state) : gostring := ss_lastDigest s.

(** ** The mailer and the stub *)

Lemma sanitize_len s : len (sanitize s) ≤ 3 * len s ∧ (s ≠ [] → sanitize s ≠ []).
Proof.
  unfold sanitize. induction s as [|r t Hwf E [IH _]] using runes_ind; [done|]. rewrite E. cbn [flat_map]. split.
  - rewrite !len_app. destruct Hwf; cbn [rune_bytes rune_raw]; rewrite ?len_cons, ?len_nil; try lia.
    change (len runeErrorBytes) with 3. lia.
  - intros _ H. apply app_eq_nil in H as [H _]. destruct Hwf; done.
Qed.

(** The decoded payload of a mailer in stub mode. *)
Definition stub_view (m : HTTPMailer) (n : Notification) (email : gostring) : stubPayload :=
  mkPayload
    [mkContent (lit "text/plain") (sanitize (plain_body n)); mkContent (lit "text/html") (sanitize (html_body n))]
    (mkAddress (sanitize (m_fromEmail m)) (sanitize (m_fromName m)))
    [mkPersonalization
       (<[lit "release_id" := sanitize (n_ReleaseID n)]> (<[lit "recipient_id" := sanitize (n_RecipientID n)]>
         (<[lit "operation_id" := sanitize (n_OperationID n)]> ∅)))
       [mkAddress (sanitize email) (sanitize (trim_space (n_FirstName n ++ lit " " ++ n_LastName n)))]]
    (sanitize (lit "DAR release " ++ n_ReleaseVersion n ++ lit " is ready")).

Lemma decode_stub_payload m n email :
  m_mode m = MailModeStub → len (print (buildMailPayload m n email)) ≤ 64 * 1024 →
  decode_payload (print (buildMailPayload m n email)) = Some (stub_view m n email).
Proof.
  intros Hm Hl. unfold decode_payload, stub_view, buildMailPayload in *. rewrite Hm in *.
  change (MailModeStub =s MailModeSandbox) with false in *. change (negb (MailModeStub =s MailModeStub)) with false in *.
  cbv zeta in *. generalize dependent (plain_body n). intros plain. generalize (html_body n). intros html.
  generalize (trim_space (n_FirstName n ++ lit " " ++ n_LastName n)). intros name.
  generalize (lit "DAR release " ++ n_ReleaseVersion n ++ lit " is ready"). intros subject Hl.
  destruct m as [? from fname]. destruct n as [op rel ? rid]. cbn [m_fromEmail m_fromName n_OperationID n_RecipientID n_ReleaseID] in *.
  rewrite Decode_print; [|simpl; tauto|by vm_compute|done|by vm_compute].
  reflexivity.
Qed.

Lemma html_escape_len s : len (html_escape s) ≤ 5 * len s.
Proof.
  unfold html_escape. induction s as [|c s IH]; [done|]. cbn [flat_map]. rewrite len_app, len_cons.
  assert (len (html_escape_byte c) ≤ 5); [|lia]. unfold html_escape_byte.
  repeat match goal with |- context [if ?b then _ else _] => destruct b end; by vm_compute.
Qed.

(** The sizes the stub allows for. *)
Definition mail_sized (n : Notification) : Prop :=
  len (n_FirstName n) ≤ 64 ∧ len (n_ReleaseVersion n) ≤ 64 ∧ len (n_ApplicationURL n) ≤ 512.

Lemma stub_payload_valid m n email :
  m_mode m = MailModeStub → m_fromEmail m ≠ [] → mail_sized n → len (print (buildMailPayload m n email)) ≤ 64 * 1024 →
  validStubPayload (print (buildMailPayload m n email)) = true.
Proof.
  intros Hm Hf (H1 & H2 & H3) Hl. unfold validStubPayload. rewrite decode_stub_payload by done. unfold stub_view.
  cbn [pl_Content pl_Personalizations sp_To sa_Email pl_From pl_Subject forallb sc_Value sc_Type].
  destruct (sanitize_len (m_fromEmail m)) as [_ Hfrom]. specialize (Hfrom Hf). apply str_eqb_neq in Hfrom.
  destruct (sanitize_len (lit "DAR release " ++ n_ReleaseVersion n ++ lit " is ready")) as [Hs1 Hs2].
  destruct (sanitize_len (plain_body n)) as [Hp1 Hp2]. destruct (sanitize_len (html_body n)) as [Hh1 Hh2].
  specialize (Hs2 ltac:(done)). specialize (Hp2 ltac:(done)). specialize (Hh2 ltac:(done)).
  pose proof (html_escape_len (n_FirstName n)). pose proof (html_escape_len (n_ReleaseVersion n)).
  pose proof (html_escape_len (n_ApplicationURL n)).
  assert (Hp : len (sanitize (plain_body n)) ≤ 16 * 1024).
  { unfold plain_body in *. rewrite !len_app in Hp1.
    repeat match type of Hp1 with context [len (lit ?s)] => let v := eval vm_compute in (len (lit s)) in change (len (lit s)) with v in Hp1 end.
    change (len nl) with 1 in Hp1. lia. }
  assert (Hh : len (sanitize (html_body n)) ≤ 16 * 1024).
  { unfold html_body in *. rewrite !len_app in Hh1.
    repeat match type of Hh1 with context [len (lit ?s)] => let v := eval vm_compute in (len (lit s)) in change (len (lit s)) with v in Hh1 end.
    change (len dq) with 1 in Hh1. lia. }
  assert (Hs : len (sanitize (lit "DAR release " ++ n_ReleaseVersion n ++ lit " is ready")) ≤ 256).
  { rewrite !len_app in Hs1. change (len (lit "DAR release ")) with 12 in Hs1. change (len (lit " is ready")) with 9 in Hs1. lia. }
  apply str_eqb_neq in Hs2, Hp2, Hh2. rewrite Hfrom, Hs2, Hp2, Hh2.
  rewrite (proj2 (Z.ltb_ge _ _) Hs), (proj2 (Z.ltb_ge _ _) Hp), (proj2 (Z.ltb_ge _ _) Hh). done.
Qed.

(** ** The connection

    The stub sees the method, the path, the header and the body of the request, [outward] after the
    mailer sent it, and the response with the status and the header written first is back [inward]
    after it was written. The client gives up when its timeout is over ([http.Client.Timeout], where
    zero is none), which ends the request of the stub. *)

Definition in_time (client : HTTPClient) (elapsed : Z) : bool := (hc_Timeout client <=? 0) || (elapsed <? hc_Timeout client).

Definition stub_upd (s : stub_state) (e : sevent) (_ : sanswer e) : stub_state :=
  match e with SRecord digestText => stub_record digestText s | _ => s end.
Definition written (t : history sevent sanswer) : option ClientResponse :=
  head (omap (λ x, match projT1 x with SWriteHeader status headers => Some (mkClientResponse status headers) | _ => None end) t).
Definition waited (t : history sevent sanswer) : Z :=
  foldr Z.add 0 (map (λ x, match projT1 x with SWait delay => delay | _ => 0 end) t).

Section Connection.
Variables (stub : MailStub) (outward inward : Z).

Definition stub_env (client : HTTPClient) (body : gostring) (_ : stub_state) (e : sevent) : option (sanswer e) :=
  match e return option (sanswer e) with
  | SReadBody => Some (mkReader body None)
  | SWait delay => Some (in_time client (outward + delay))
  | _ => Some tt
  end.

Definition exchange (client : HTTPClient) (s : stub_state) (request : ClientRequest) : history sevent sanswer :=
  (play stub_upd (stub_env client (cr_Body request))
    (stub_ServeHTTP stub (mkStubRequest (cr_Method request) (u_path (cr_URL request)) (cr_Header request))) s).1.
Definition mail_env (s : stub_state) (e : mevent) : option (manswer e) :=
  match e return option (manswer e) with
  | MDo client request =>
    let t := exchange client s request in
    Some (if in_time client (outward + waited t + inward) then written t else None)
  | MDrain _ => Some tt
  | MClose => Some tt
  end.
Definition mail_upd (s : stub_state) (e : mevent) (_ : manswer e) : stub_state :=
  match e with MDo client request => after stub_upd s (exchange client s request) | _ => s end.

(** How long the scenario takes, and the outcome it stands for when the client still waits. *)
Definition scenario_delay : Z := if ms_scenario stub =s lit "timeout" then ms_timeoutDelay stub else 0.
Definition scenario_result (client : HTTPClient) (id : gostring) : MailResult :=
  if negb (in_time client (outward + scenario_delay + inward)) then unanswered MailUnknown (lit "PROVIDER_OUTCOME_UNKNOWN")
  else if ms_scenario stub =s lit "throttle" then mkMailResult MailRetryable 429 id (lit "PROVIDER_THROTTLED") Second
  else if ms_scenario stub =s lit "reject" then mkMailResult MailPermanent 400 id (lit "PROVIDER_REJECTED") 0
  else if ms_scenario stub =s lit "unavailable" then mkMailResult MailRetryable 503 id (lit "PROVIDER_UNAVAILABLE") Second
  else mkMailResult MailSimulated 200 id [] 0.

(** The response of each scenario. *)
Definition scenario_response (id : gostring) : ClientResponse :=
  let headers := header_set (lit "X-Stub-Request-Id") id (header_set (lit "Cache-Control") (lit "no-store") ∅) in
  if ms_scenario stub =s lit "throttle" then mkClientResponse 429 (header_set (lit "Retry-After") (lit "1") headers)
  else if ms_scenario stub =s lit "reject" then mkClientResponse 400 headers
  else if ms_scenario stub =s lit "unavailable" then mkClientResponse 503 (header_set (lit "Retry-After") (lit "1") headers)
  else mkClientResponse 200 headers.

Lemma exchange_accepted client s request :
  cr_Method request = lit "POST" → u_path (cr_URL request) = lit "/v3/mail/send" →
  header_values (cr_Header request) (lit "Authorization") = [] → 0 < len (cr_Body request) ≤ 64 * 1024 →
  validStubPayload (cr_Body request) = true →
  (in_time client (outward + scenario_delay) = true →
   written (exchange client s request) = Some (scenario_response (lit "stub-" ++ take 24 (sha256_hex (cr_Body request))))) ∧
  waited (exchange client s request) = scenario_delay ∧
  after stub_upd s (exchange client s request) = stub_record (sha256_hex (cr_Body request)) s.
Proof.
  intros Hm Hp Ha Hl Hv. unfold exchange, scenario_response, scenario_delay. destruct request as [method url headers body]. cbn [cr_Method cr_URL cr_Header cr_Body] in *.
  unfold stub_ServeHTTP. cbn [sr_Method sr_Path sr_Header]. rewrite Hm, Hp, Ha.
  change (lit "POST" =s lit "GET") with false. rewrite !str_eqb_refl. change (len (@nil gostring)) with 0. cbn [negb andb Z.eqb].
  cbn [sperform perform mbind prog_mbind prog_bind play stub_env stub_upd].
  unfold MaxBytesReader. cbn [rd_data]. rewrite (proj2 (Z.ltb_ge (64 * 1024) (len body))) by lia.
  unfold readBounded. cbn [rd_data rd_err]. rewrite (proj2 (Z.ltb_ge (64 * 1024) (len body))) by lia.
  change (64 * 1024 <? 1) with false. cbv iota. rewrite Hv, (proj2 (Z.ltb_ge (64 * 1024) (len body))) by lia.
  rewrite (proj2 (Z.eqb_neq (len body) 0)) by lia. cbn [orb negb]. cbv zeta.
  cbn [prog_mbind prog_bind play stub_env stub_upd].
  destruct (ms_scenario stub =s lit "throttle") eqn:E1; [apply str_eqb_eq in E1 as ->; by split_and!|].
  destruct (ms_scenario stub =s lit "reject") eqn:E2; [apply str_eqb_eq in E2 as ->; by split_and!|].
  destruct (ms_scenario stub =s lit "unavailable") eqn:E3; [apply str_eqb_eq in E3 as ->; by split_and!|].
  destruct (ms_scenario stub =s lit "timeout"); [|by split_and!].
  cbn [waitRequest sperform perform mbind prog_mbind prog_bind play stub_env stub_upd]. unfold waited.
  destruct (in_time client (outward + ms_timeoutDelay stub)); cbn [play prog_bind fst]; split_and!; try done;
    cbn [respond sperform perform play stub_env stub_upd map foldr projT1 fst]; lia.
Qed.

Lemma scenario_classified client id :
  len id ≤ 128 → id ≠ [] → in_time client (outward + scenario_delay + inward) = true →
  classifyMailResponse MailModeStub (scenario_response id) = scenario_result client id.
Proof.
  intros Hl Hn Ht. set (headers := header_set (lit "X-Stub-Request-Id") id (header_set (lit "Cache-Control") (lit "no-store") ∅)).
  assert (Hg : ∀ h, h = headers ∨ h = header_set (lit "Retry-After") (lit "1") headers →
    boundedHeader h (lit "X-Message-Id") = [] ∧ boundedHeader h (lit "X-Stub-Request-Id") = id).
  { intros h Hh. unfold boundedHeader, header_get, headers in *.
    split; destruct Hh as [-> | ->]; rewrite ?header_values_set_ne by (by vm_compute); try done;
      rewrite header_values_set_eq; cbn [head]; cbv zeta; unfold default, Datatypes.id; by rewrite (proj2 (Z.ltb_ge 128 (len id)) Hl). }
  assert (Hr : retryAfter (header_set (lit "Retry-After") (lit "1") headers) = Second).
  { unfold retryAfter, header_get. rewrite header_values_set_eq. reflexivity. }
  unfold classifyMailResponse, scenario_response, scenario_result. rewrite Ht. cbn [negb]. fold headers.
  repeat match goal with |- context [ms_scenario stub =s lit ?x] => destruct (ms_scenario stub =s lit x) end;
    cbn [rs_Header rs_StatusCode]; rewrite ?Hr;
    match goal with |- context [boundedHeader ?h _] => destruct (Hg h) as [-> ->]; [auto|reflexivity] end.
Qed.

Lemma in_time_le client a b : a ≤ b → in_time client b = true → in_time client a = true.
Proof. unfold in_time. intros Hab. rewrite !orb_true_iff, !Z.ltb_lt. intros [?|?]; [by left|right; lia]. Qed.

(** C21: A mailer configured for the stub and the stub fit together. For an allowed recipient, a
    notification whose first name and version have at most 64 bytes and whose address has at most 512,
    and a payload of at most 64 KiB, that reaches the stub before the client gives up, the stub accepts
    the mailer's payload, counts it and remembers its digest. The mailer returns the outcome of the stub's scenario with the stub's identifier when the
    time of the connection, with the delay of the scenario "timeout", is within the timeout of its
    client; otherwise the outcome is UNKNOWN. *)
Theorem stub_fits config delay m n email s0 s :
  0 ≤ outward → 0 ≤ inward → NewMailStub (ms_scenario stub) delay = Ok (stub, s0) →
  NewHTTPMailer config = Ok m → mc_Mode config = MailModeStub → canonicalEmail (n_Email n) = Some email →
  configured (mc_AllowedRecipients config) email → mail_sized n → len (print (buildMailPayload m n email)) ≤ 64 * 1024 →
  in_time (m_client m) outward = true →
  let digest := sha256_hex (print (buildMailPayload m n email)) in
  let run := play mail_upd mail_env (http_Send m n) s in
  run.2 = Some (scenario_result (m_client m) (lit "stub-" ++ take 24 digest)) ∧
  after mail_upd s run.1 = mkStubState (wrap64 (ss_requestCount s + 1)) digest.
Proof.
  intros Hout Hin_ Hs Hm Hmode He Hc Hsz Hl _. pose proof (NewHTTPMailer_ok _ _ Hm) as Hok. cbv zeta.
  pose proof (mo_mode _ _ Hok) as Hmm. rewrite Hmode in Hmm.
  set (body := print (buildMailPayload m n email)) in *.
  assert (Hfrom : m_fromEmail m ≠ []).
  { pose proof (mo_from _ _ Hok) as Hf. unfold canonicalEmail in Hf. case_if_in Hf; [|done]. injection Hf as <-.
    apply andb_true_iff in E as [_ E]. intros Hnil. rewrite Hnil in E. by vm_compute in E. }
  assert (Hv : validStubPayload body = true) by (by apply stub_payload_valid).
  assert (Hpos : 0 < len body ≤ 64 * 1024).
  { split; [|done]. unfold validStubPayload, decode_payload in Hv. pose proof (len_nonneg body).
    destruct (decide (len body = 0)) as [->%len_0_nil|]; [done|lia]. }
  assert (Hin : email ∈ m_allowed m). { apply (mo_allowed _ _ Hok); [by rewrite Hmode|done]. }
  destruct (mo_endpoint _ _ Hok) as [(_ & Hep & u & Hu)|([Hx|Hx] & _)]; [|by rewrite Hmode in Hx..].
  destruct (mail_request m body) as [request|] eqn:Erq.
  2: { unfold mail_request, NewRequest in Erq. by rewrite (proj1 Hu) in Erq. }
  destruct (mail_request_confined config m n email request Hm He (λ _, Hin) Hpos Erq) as [_ Hmeth _ _ Hend].
  destruct Hend as [(_ & Hauth & u' & Hu' & Hurl)|([Hx|Hx] & _)]; [|by rewrite Hmode in Hx..].
  assert (Hbody : cr_Body request = body).
  { unfold mail_request, NewRequest in Erq. rewrite (proj1 Hu) in Erq. by injection Erq as <-. }
  destruct (exchange_accepted (m_client m) s request) as (Hw & Hwait & Hst); [done|by rewrite Hurl|done|by rewrite Hbody|by rewrite Hbody|].
  rewrite Hbody in *. unfold http_Send. rewrite He, Hmm, (bool_decide_eq_true_2 _ Hin). rewrite andb_false_r. fold body.
  rewrite (proj2 (Z.eqb_neq (len body) 0)), (proj2 (Z.ltb_ge (64 * 1024) (len body))) by lia. cbn [orb]. cbv iota zeta.
  unfold mail_request in Erq. destruct (NewRequest (m_endpoint m) body) as [base|]; [|done]. cbn [mbind option_bind] in Erq.
  cbv zeta in Erq. rewrite Hmm in Erq. apply (inj Some) in Erq. rewrite Erq.
  cbn [mperform perform mbind prog_mbind prog_bind play mail_env mail_upd]. cbv zeta. rewrite Hwait.
  destruct (in_time (m_client m) (outward + scenario_delay + inward)) eqn:Et.
  - rewrite (Hw (in_time_le _ (outward + scenario_delay) (outward + scenario_delay + inward) ltac:(lia) Et)).
    cbn [prog_mbind prog_bind play mail_env mail_upd fst snd after]. rewrite (scenario_classified (m_client m)), Hst; [done| |done|done].
    rewrite len_app. unfold len at 2. rewrite length_take. change (len (lit "stub-")) with 5. lia.
  - cbn [prog_mbind prog_bind play mail_env mail_upd fst snd after]. rewrite Hst. split; [|done]. unfold scenario_result. by rewrite Et.
Qed.
End Connection.

Import MailSamples.

(** The scenario "timeout" with the delay of the stub's default and with the shortest one. *)
Definition stalling : MailStub := mkStub (lit "timeout") (15 * Second).
Definition pausing : MailStub := mkStub (lit "timeout") (100 * 10 ^ 6).

Lemma notification_sized : mail_sized notification.
Proof. split; [|split]; vm_compute; discriminate. Qed.

Lemma notification_allowed : configured (mc_AllowedRecipients config) (lit "ann@example.com").
Proof. exists (lit "ann@example.com"). split; [left|vm_compute; reflexivity]. Qed.

Lemma notification_fits : len (print (buildMailPayload mailer notification (lit "ann@example.com"))) ≤ 64 * 1024.
Proof. vm_compute. discriminate. Qed.

Lemma stub_fits_witness :
  (play (mail_upd stalling 0) (mail_env stalling 0 0) (http_Send mailer notification) (mkStubState 0 [])).2 =
    Some (unanswered MailUnknown (lit "PROVIDER_OUTCOME_UNKNOWN")) ∧
  ∃ id, (play (mail_upd pausing 0) (mail_env pausing 0 0) (http_Send mailer notification) (mkStubState 0 [])).2 =
    Some (mkMailResult MailSimulated 200 id [] 0).
Proof.
  split.
  - exact (proj1 (stub_fits stalling 0 0 config 0 mailer notification (lit "ann@example.com") (mkStubState 0 []) (mkStubState 0 [])
      ltac:(lia) ltac:(lia) eq_refl config_accepted eq_refl eq_refl notification_allowed notification_sized notification_fits eq_refl)).
  - eexists. exact (proj1 (stub_fits pausing 0 0 config (100 * 10 ^ 6) mailer notification (lit "ann@example.com") (mkStubState 0 []) (mkStubState 0 [])
      ltac:(lia) ltac:(lia) eq_refl config_accepted eq_refl eq_refl notification_allowed notification_sized notification_fits eq_refl)).
Defined.
