(* ===== verification/WorkerConfig.v ===== *)
(** * internal/distribution/config.go

    The fail-closed configuration of the distribution worker: [ParseWorkerEnvironment] builds a
    [RuntimeConfig] from the environment or refuses it. *)

From stdpp Require Import strings.
From S2P Require Import Prelude Utf8 GoStrings Regex GoTime Json StrictJson Contracts Receipt Program Azure Effects Worker AzureStorage Config Base64 GoHttp Mail.

Definition WorkerIdentityClientIDEnv : gostring := lit "DAR_WORKER_IDENTITY_CLIENT_ID".
Definition WorkerStorageAccountEnv : gostring := lit "DAR_STORAGE_ACCOUNT_NAME".
Definition WorkerServiceBusNamespaceEnv : gostring := lit "DAR_SERVICEBUS_NAMESPACE".
Definition WorkerServiceBusQueueEnv : gostring := lit "DAR_SERVICEBUS_QUEUE".
Definition WorkerManifestsContainerEnv : gostring := lit "DAR_MANIFESTS_CONTAINER".
Definition WorkerBatchesContainerEnv : gostring := lit "DAR_BATCHES_CONTAINER".
Definition WorkerReceiptsContainerEnv : gostring := lit "DAR_RECEIPTS_CONTAINER".
Definition WorkerHMACKeyEnv : gostring := lit "DAR_RECEIPT_HMAC_KEY_B64".
Definition WorkerHMACKeyVersionEnv : gostring := lit "DAR_RECEIPT_HMAC_KEY_VERSION".
Definition WorkerMailModeEnv : gostring := lit "DAR_MAIL_MODE".
Definition WorkerMailFromEmailEnv : gostring := lit "DAR_MAIL_FROM_EMAIL".
Definition WorkerMailFromNameEnv : gostring := lit "DAR_MAIL_FROM_NAME".
Definition WorkerAllowedRecipientsEnv : gostring := lit "DAR_MAIL_ALLOWED_RECIPIENTS_JSON".
Definition WorkerMailAPIKeyEnv : gostring := lit "DAR_MAIL_API_KEY".
Definition WorkerStubEndpointEnv : gostring := lit "DAR_STUB_ENDPOINT".
Definition WorkerMaxAttemptsEnv : gostring := lit "DAR_MAX_ATTEMPTS".
Definition WorkerClaimTimeoutSecondsEnv : gostring := lit "DAR_CLAIM_TIMEOUT_SECONDS".
Definition WorkerMailTimeoutSecondsEnv : gostring := lit "DAR_MAIL_TIMEOUT_SECONDS".
Definition WorkerHealthPortEnv : gostring := lit "DAR_HEALTH_PORT".

Inductive worker_config_error : Type := ErrWorkerConfig.

Import Class_.
Definition storageAccountPattern : re := RCount lower_digit 3 24.
Definition serviceBusNamespacePattern : re :=
  RSeq [RClass lower_digit; RCount (plus lower_digit (lit "-")) 4 48; RClass lower_digit;
        RLit ".servicebus.windows.net"].
Definition queuePattern : re :=
  RSeq [RClass alnum; RCount (plus alnum (lit "._/-")) 0 258; RClass alnum].

Record RuntimeConfig : Type := mkRuntimeConfig {
  wc_IdentityClientID : gostring; wc_StorageAccount : gostring; wc_ServiceBusNamespace : gostring;
  wc_ServiceBusQueue : gostring; wc_ManifestsContainer : gostring; wc_BatchesContainer : gostring;
  wc_ReceiptsContainer : gostring; wc_HMACKeyVersion : gostring; wc_MailMode : gostring;
  wc_MailFromEmail : gostring; wc_MailFromName : gostring; wc_MaxAttempts : Z; wc_ClaimTimeout : Z;
  wc_MailTimeout : Z; wc_HealthPort : Z; wc_hmacKey : gostring; wc_allowedRecipients : list gostring;
  wc_mailAPIKey : gostring; wc_stubEndpoint : gostring }.

(** [RuntimeConfig.String]. *)
Definition runtime_String (c : RuntimeConfig) : gostring :=
  lit "RuntimeConfig{IdentityClientID:" ++ wc_IdentityClientID c ++ lit " StorageAccount:" ++ wc_StorageAccount c ++
  lit " ServiceBusNamespace:" ++ wc_ServiceBusNamespace c ++ lit " ServiceBusQueue:" ++ wc_ServiceBusQueue c ++
  lit " MailMode:" ++ wc_MailMode c ++ lit " HMACKeyVersion:" ++ wc_HMACKeyVersion c ++ lit "}".

Definition HMACKey (c : RuntimeConfig) : gostring := wc_hmacKey c.

(** [RuntimeConfig.Provider]. *)
Definition provider_of (c : RuntimeConfig) : gostring :=
  if wc_MailMode c =s MailModeStub then lit "stub" else lit "sendgrid".

Definition MailerConfig (c : RuntimeConfig) : MailConfig :=
  mkMailConfig (wc_MailMode c) (wc_MailFromEmail c) (wc_MailFromName c) (wc_allowedRecipients c) (wc_mailAPIKey c)
    (wc_stubEndpoint c) (wc_MailTimeout c) None.

(** ** Parsing *)

Definition boundedInteger (raw : gostring) (defaultValue minimum maximum : Z) : result worker_config_error Z :=
  if raw =s [] then Ok defaultValue
  else match parse_int raw with
  | None => Err ErrWorkerConfig
  | Some value => if (value <? minimum) || (maximum <? value) then Err ErrWorkerConfig else Ok value
  end.

(** [json.Unmarshal] into a [[]string]: every element is a string or [null]. *)
Definition unmarshal_strings (raw : gostring) : option (list gostring) :=
  '(j, rest) ← decode_next raw;
  if ensureEOF rest then
    v ← decode_into j (KSlice KString) (zero (KSlice KString));
    match v with
    | GSlice vs _ => mapM (λ v, match v with GStr s => Some s | _ => None end) vs
    | _ => None
    end
  else None.

Definition required_worker : list gostring :=
  [WorkerIdentityClientIDEnv; WorkerStorageAccountEnv; WorkerServiceBusNamespaceEnv; WorkerServiceBusQueueEnv;
   WorkerManifestsContainerEnv; WorkerBatchesContainerEnv; WorkerReceiptsContainerEnv; WorkerHMACKeyEnv;
   WorkerHMACKeyVersionEnv; WorkerMailModeEnv; WorkerMailFromEmailEnv; WorkerMailFromNameEnv].

(** The names, lines 141 to 148. *)
Definition names_accepted (identity storageAccount namespace queue c0 c1 c2 keyVersion : gostring) : bool :=
  negb (negb (IsCanonicalUUID identity) || negb (match_string storageAccountPattern storageAccount) ||
        negb (match_string serviceBusNamespacePattern namespace) || negb (match_string queuePattern queue) ||
        contains (lit "//") queue || contains (lit "..") queue ||
        negb (validContainer c0) || negb (validContainer c1) || negb (validContainer c2) ||
        (c0 =s c1) || (c0 =s c2) || (c1 =s c2) || negb (match_string versionLabelPattern keyVersion)).

(** The key, lines 149 to 153. *)
Definition hmac_key (raw : gostring) : option gostring :=
  hmacKey ← base64_decode raw;
  if (len hmacKey <? 32) || (64 <? len hmacKey) || negb (base64_encode hmacKey =s raw) then None else Some hmacKey.

(** The allowed recipients, lines 155 to 164. *)
Definition parse_recipients (env : environment) (mailMode : gostring) : option (list gostring) :=
  if mailMode =s MailModeLive then if is_set env WorkerAllowedRecipientsEnv then None else Some []
  else
    recipients ← unmarshal_strings (env_get env WorkerAllowedRecipientsEnv);
    if len recipients =? 0 then None else Some recipients.

Definition ParseWorkerEnvironment (env : environment) : result worker_config_error RuntimeConfig :=
  if existsb (λ name, trim_space (env_get env name) =s []) required_worker then Err ErrWorkerConfig
  else
    let identity := env_get env WorkerIdentityClientIDEnv in
    let storageAccount := env_get env WorkerStorageAccountEnv in
    let namespace := to_lower (env_get env WorkerServiceBusNamespaceEnv) in
    let queue := env_get env WorkerServiceBusQueueEnv in
    let c0 := env_get env WorkerManifestsContainerEnv in
    let c1 := env_get env WorkerBatchesContainerEnv in
    let c2 := env_get env WorkerReceiptsContainerEnv in
    if negb (names_accepted identity storageAccount namespace queue c0 c1 c2 (env_get env WorkerHMACKeyVersionEnv))
    then Err ErrWorkerConfig
    else match hmac_key (env_get env WorkerHMACKeyEnv) with
    | None => Err ErrWorkerConfig
    | Some hmacKey =>
      let mailMode := env_get env WorkerMailModeEnv in
      match parse_recipients env mailMode with
      | None => Err ErrWorkerConfig
      | Some recipients =>
        maxAttempts ← boundedInteger (env_get env WorkerMaxAttemptsEnv) 5 1 5;
        claimSeconds ← boundedInteger (env_get env WorkerClaimTimeoutSecondsEnv) 300 30 900;
        mailSeconds ← boundedInteger (env_get env WorkerMailTimeoutSecondsEnv) 10 1 30;
        healthPort ← boundedInteger (env_get env WorkerHealthPortEnv) 8081 1024 65535;
        let config := mkRuntimeConfig identity storageAccount namespace queue c0 c1 c2
          (env_get env WorkerHMACKeyVersionEnv) mailMode (env_get env WorkerMailFromEmailEnv)
          (env_get env WorkerMailFromNameEnv) maxAttempts (wrap64 (claimSeconds * Second))
          (wrap64 (mailSeconds * Second)) healthPort hmacKey recipients (env_get env WorkerMailAPIKeyEnv)
          (env_get env WorkerStubEndpointEnv) in
        match NewHTTPMailer (MailerConfig config) with
        | Err _ => Err ErrWorkerConfig
        | Ok _ => Ok config
        end
      end
    end.

(** [LoadWorkerEnvironment]: only the documented variables of the process environment are read. *)
Definition worker_variables : list gostring :=
  required_worker ++
  [WorkerAllowedRecipientsEnv; WorkerMailAPIKeyEnv; WorkerStubEndpointEnv; WorkerMaxAttemptsEnv;
   WorkerClaimTimeoutSecondsEnv; WorkerMailTimeoutSecondsEnv; WorkerHealthPortEnv].
Definition LoadWorkerEnvironment (LookupEnv : gostring → option gostring) : result worker_config_error RuntimeConfig :=
  ParseWorkerEnvironment
    (fold_left (λ env name, match LookupEnv name with Some value => <[name := value]> env | None => env end)
       worker_variables ∅).

(** ** What an accepted configuration satisfies *)

Record runtime_ok (c : RuntimeConfig) : Prop := {
  ro_attempts : 1 ≤ wc_MaxAttempts c ≤ 5;
  ro_claim : 30 * Second ≤ wc_ClaimTimeout c ≤ 900 * Second;
  ro_mail : Second ≤ wc_MailTimeout c ≤ 30 * Second;
  ro_port : 1024 ≤ wc_HealthPort c ≤ 65535;
  ro_key : 32 ≤ len (wc_hmacKey c) ≤ 64;
  ro_version : match_string versionLabelPattern (wc_HMACKeyVersion c) = true;
  ro_containers : validContainer (wc_ManifestsContainer c) = true ∧ validContainer (wc_BatchesContainer c) = true ∧
    validContainer (wc_ReceiptsContainer c) = true;
  ro_distinct : NoDup [wc_ManifestsContainer c; wc_BatchesContainer c; wc_ReceiptsContainer c];
  ro_mailer : ∃ m, NewHTTPMailer (MailerConfig c) = Ok m }.

Lemma boundedInteger_ok raw d lo hi v : lo ≤ d ≤ hi → boundedInteger raw d lo hi = Ok v → lo ≤ v ≤ hi.
Proof.
  unfold boundedInteger. intros Hd H. case_if_in H; [by injection H as <-|]. destruct (parse_int raw); [|done].
  case_if_in H; [done|]. injection H as <-. breflect. lia.
Qed.

Lemma ParseWorkerEnvironment_ok env c : ParseWorkerEnvironment env = Ok c → runtime_ok c.
Proof.
  unfold ParseWorkerEnvironment. intros H. case_if_in H; [done|]. cbv zeta in H. case_if_in H; [done|].
  destruct (hmac_key _) as [key|] eqn:Ek; [|done]. destruct (parse_recipients env _) as [rs|]; [|done].
  repeat match type of H with context [boundedInteger ?a ?b ?c ?d] =>
    let E := fresh "B" in destruct (boundedInteger a b c d) eqn:E; [|done]; apply boundedInteger_ok in E; [|lia]; cbn [mbind result_mbind result_bind] in H end.
  match type of H with context [match ?a with Ok _ => _ | Err _ => _ end] => destruct a as [m|] eqn:Em; [|done] end. injection H as <-.
  unfold names_accepted in E0. breflect. destruct E0 as [[[[[[[[[[[[Hn1 Hn2] Hn3] Hn4] Hn5] Hn6] Hc0] Hc1] Hc2] Hd1] Hd2] Hd3] Hv].
  unfold hmac_key in Ek. destruct (base64_decode _); [|done]. cbn [mbind option_bind] in Ek. case_if_in Ek; [done|]. injection Ek as <-. breflect.
  assert (HS : Second = 10 ^ 9) by done.
  constructor; cbn [wc_MaxAttempts wc_ClaimTimeout wc_MailTimeout wc_HealthPort wc_hmacKey wc_HMACKeyVersion wc_ManifestsContainer
    wc_BatchesContainer wc_ReceiptsContainer]; try done; try lia.
  - rewrite wrap64_small by (unfold int64_range; lia). lia.
  - rewrite wrap64_small by (unfold int64_range; lia). lia.
  - repeat constructor; set_solver.
  - eauto.
Qed.
