(* ===== verification/Runtime.v ===== *)
(** * internal/distribution/runtime.go

    The queue consumer. [RunWorker] assembles the clients and receives one message at a time;
    [processReceivedMessage] runs the worker on a message while a second goroutine renews the
    message lock, then settles the message. The two goroutines, their context and their channel are
    a transition system whose actions a scheduler chooses. Theorems: a message is settled at most
    once, exactly as the worker decided, and never after its lock was lost; the goroutines never block
    each other and none is left behind; an accepted environment makes a worker that starts. *)

From stdpp Require Import strings.
From S2P Require Import Prelude Utf8 GoStrings Regex GoTime Json Sha256 Contracts Receipt Program Azure Effects Worker AzureStorage GoHttp Config Base64 HttpEffects Mail WorkerConfig.

(** ** Settling one message *)

Inductive settlement : Type :=
| CompleteMessage
| DeadLetterMessage (reason errorDescription : gostring)
| AbandonMessage.

(** The switch on the disposition, lines 144 to 158. *)
Definition settlement_of (result : ProcessResult) : settlement :=
  if p_Disposition result =s Complete then CompleteMessage
  else if p_Disposition result =s DeadLetter then
    let reason := p_ReasonCode result in
    let reason := if reason =s [] then lit "WORKER_REJECTED" else reason in
    DeadLetterMessage reason (lit "DAR distribution worker rejected the bounded operation")
  else AbandonMessage.

(** Each disposition has its settlement. *)
Lemma settlement_exact r :
  (settlement_of r = CompleteMessage ↔ p_Disposition r = Complete) ∧
  ((∃ reason description, settlement_of r = DeadLetterMessage reason description) ↔ p_Disposition r = DeadLetter) ∧
  (∀ reason description, settlement_of r = DeadLetterMessage reason description →
     (p_ReasonCode r ≠ [] → reason = p_ReasonCode r) ∧ (p_ReasonCode r = [] → reason = lit "WORKER_REJECTED")) ∧
  (settlement_of r = AbandonMessage ↔ p_Disposition r ≠ Complete ∧ p_Disposition r ≠ DeadLetter).
Proof.
  unfold settlement_of. destruct (p_Disposition r =s Complete) eqn:E1; breflect.
  { rewrite E1. split_and!; [done|split; [by intros (? & ? & ?)|done]|done|naive_solver]. }
  destruct (p_Disposition r =s DeadLetter) eqn:E2; breflect; [|split_and!; [done|naive_solver|done|done]].
  cbv zeta. split_and!; [done|split; [done|eauto]| |naive_solver].
  intros reason description [= <- _]. destruct (p_ReasonCode r =s []) eqn:E3; breflect; naive_solver.
Qed.

Inductive runtime_error : Type :=
| ErrContextCanceled
| ErrRenewalBudget
| ErrRenewalFailed
| ErrSettlement.

(** Where [processReceivedMessage] stands. *)
Inductive main_state : Type :=
(** In [worker.Process]. *)
| MProcess (p : prog ProcessResult)
(** In [waitContext] before an abandoned message is released. *)
| MWait (result : ProcessResult)
(** Receiving from [renewDone] after the wait was interrupted. *)
| MInterrupted
(** Receiving from [renewDone] before settling. *)
| MJoin (result : ProcessResult)
(** Calling the receiver. *)
| MSettle (result : ProcessResult)
| MReturned (err : option runtime_error).

(** Where [renewMessageLock] stands: in its select, in [RenewMessageLock], or returned. *)
Inductive renew_state : Type := RSelect | RRenew | RReturned.

Record delivery : Type := mkDelivery {
  dl_main : main_state;
  dl_renew : renew_state;
  (** [messageCtx] has ended. *)
  dl_ended : bool;
  (** The buffer of [renewDone]. *)
  dl_done : option (option runtime_error);
  (** What the worker asked of its environment, and what the receiver was asked to do. *)
  dl_trace : trace;
  dl_settled : list settlement }.

Section Delivery.
(** [worker.Process] on the message. *)
Variable process : prog ProcessResult.

(** [processReceivedMessage] up to the call of the worker: the renewer is started. *)
Definition received : delivery := mkDelivery (MProcess process) RSelect false None [] [].

(** The main goroutine, lines 131 to 158. Sending to [renewDone] never blocks: one value is sent and
    one fits. *)
Inductive main_step : delivery → delivery → Prop :=
(** The environment answers a request of the worker. *)
| main_answer e k x rn ended done t st :
    main_step (mkDelivery (MProcess (Vis e k)) rn ended done t st)
              (mkDelivery (MProcess (k x)) rn ended done (t ++ [existT e x]) st)
(** The worker has returned: an abandoned message waits, for the others the context is ended. *)
| main_abandon r rn ended done t st :
    (p_Disposition r =s Abandon) = true →
    main_step (mkDelivery (MProcess (Ret r)) rn ended done t st) (mkDelivery (MWait r) rn ended done t st)
| main_processed r rn ended done t st :
    (p_Disposition r =s Abandon) = false →
    main_step (mkDelivery (MProcess (Ret r)) rn ended done t st) (mkDelivery (MJoin r) rn true done t st)
(** [waitContext]: the timer, or the end of the context. *)
| main_waited r rn ended done t st :
    main_step (mkDelivery (MWait r) rn ended done t st) (mkDelivery (MJoin r) rn true done t st)
| main_interrupted r rn done t st :
    main_step (mkDelivery (MWait r) rn true done t st) (mkDelivery MInterrupted rn true done t st)
(** The receives from [renewDone]. *)
| main_canceled rn ended v t st :
    main_step (mkDelivery MInterrupted rn ended (Some v) t st)
              (mkDelivery (MReturned (Some ErrContextCanceled)) rn ended None t st)
| main_renewal_error r rn ended e t st :
    main_step (mkDelivery (MJoin r) rn ended (Some (Some e)) t st)
              (mkDelivery (MReturned (Some e)) rn ended None t st)
| main_joined r rn ended t st :
    main_step (mkDelivery (MJoin r) rn ended (Some None) t st) (mkDelivery (MSettle r) rn ended None t st)
(** The call of the receiver. *)
| main_settled r rn ended done t st (ok : bool) :
    main_step (mkDelivery (MSettle r) rn ended done t st)
              (mkDelivery (MReturned (if ok then None else Some ErrSettlement)) rn ended done t (settlement_of r :: st)).

(** [renewMessageLock]. *)
Inductive renew_step : delivery → delivery → Prop :=
| renew_ended m done t st :
    renew_step (mkDelivery m RSelect true done t st) (mkDelivery m RReturned true (Some None) t st)
| renew_deadline m ended done t st :
    renew_step (mkDelivery m RSelect ended done t st) (mkDelivery m RReturned true (Some (Some ErrRenewalBudget)) t st)
| renew_tick m ended done t st :
    renew_step (mkDelivery m RSelect ended done t st) (mkDelivery m RRenew ended done t st)
| renew_renewed m ended done t st :
    renew_step (mkDelivery m RRenew ended done t st) (mkDelivery m RSelect ended done t st)
| renew_failed_ended m done t st :
    renew_step (mkDelivery m RRenew true done t st) (mkDelivery m RReturned true (Some None) t st)
| renew_failed m done t st :
    renew_step (mkDelivery m RRenew false done t st)
               (mkDelivery m RReturned true (Some (Some ErrRenewalFailed)) t st).

(** Any interleaving of the two, and the end of the parent context. *)
Inductive delivery_step : delivery → delivery → Prop :=
| step_main d d' : main_step d d' → delivery_step d d'
| step_renew d d' : renew_step d d' → delivery_step d d'
| step_shutdown m rn ended done t st :
    delivery_step (mkDelivery m rn ended done t st) (mkDelivery m rn true done t st).

Abbreviation delivered := (rtc delivery_step received).

(** ** Invariant *)

(** The main goroutine has a result of the worker that a run of it returned. *)
Definition returned (t : trace) (r : ProcessResult) : Prop := runs process t (Some r).

Definition main_ok (d : delivery) : Prop :=
  match dl_main d with
  | MProcess p => (∀ t' r, runs p t' r → runs process (dl_trace d ++ t') r) ∧ dl_settled d = []
  | MWait r => returned (dl_trace d) r ∧ p_Disposition r = Abandon ∧ dl_settled d = []
  | MInterrupted => dl_ended d = true ∧ dl_settled d = [] ∧ ∃ r, returned (dl_trace d) r ∧ p_Disposition r = Abandon
  | MJoin r => returned (dl_trace d) r ∧ dl_ended d = true ∧ dl_settled d = []
  | MSettle r => returned (dl_trace d) r ∧ dl_ended d = true ∧ dl_settled d = []
  | MReturned e =>
    (dl_settled d = [] ∧ (e = Some ErrContextCanceled ∨ e = Some ErrRenewalBudget ∨ e = Some ErrRenewalFailed)) ∨
    (∃ r, returned (dl_trace d) r ∧ dl_settled d = [settlement_of r] ∧ (e = None ∨ e = Some ErrSettlement))
  end.

(** The value of the channel is there from the return of the renewer to the receive. *)
Definition channel_ok (d : delivery) : Prop :=
  match dl_main d with
  | MSettle _ | MReturned _ => dl_renew d = RReturned ∧ dl_done d = None
  | _ => dl_renew d = RReturned ↔ is_Some (dl_done d)
  end.

(** An error of the renewer is one of its two. *)
Definition renewal_ok (d : delivery) : Prop :=
  ∀ e, dl_done d = Some (Some e) → e = ErrRenewalBudget ∨ e = ErrRenewalFailed.

Definition delivery_inv (d : delivery) : Prop := main_ok d ∧ channel_ok d ∧ renewal_ok d.

Lemma received_inv : delivery_inv received.
Proof.
  split_and!; [split; [done|done]|..]; cbn; [|done]. split; [done|]. by intros [? ?].
Qed.

Lemma main_inv d d' : main_step d d' → delivery_inv d → delivery_inv d'.
Proof.
  intros H (Hm & Hc & Hr). unfold delivery_inv, main_ok, channel_ok, renewal_ok, returned in *.
  destruct H as [e k x rn ended done_ t st|r rn ended done_ t st Hd|r rn ended done_ t st Hd|r rn ended done_ t st
    |r rn done_ t st|rn ended v t st|r rn ended e t st|r rn ended t st|r rn ended done_ t st ok]; cbn in *.
  - destruct Hm as [Hm Hs]. split_and!; try done. intros t' r Hr'. rewrite <- app_assoc. apply Hm. cbn. right. eauto.
  - destruct Hm as [Hm Hs]. split_and!; try done; [|by apply str_eqb_eq]. rewrite <- (app_nil_r t). apply Hm. cbn. auto.
  - destruct Hm as [Hm Hs]. split_and!; try done. rewrite <- (app_nil_r t). apply Hm. cbn. auto.
  - destruct Hm as (Hm & Hd & Hs). split_and!; done.
  - destruct Hm as (Hm & Hd & Hs). split_and!; try done. eauto.
  - destruct Hm as (He & Hs & _). pose proof (proj2 Hc ltac:(eauto)) as ->. split_and!; try done. left. auto.
  - destruct Hm as (Hm & He & Hs). pose proof (proj2 Hc ltac:(eauto)) as ->. split_and!; try done.
    left. split; [done|]. right.
    destruct (Hr e eq_refl) as [-> | ->]; auto.
  - pose proof (proj2 Hc ltac:(eauto)) as ->. split_and!; try done; apply Hm.
  - destruct Hm as (Hm & He & Hs). split_and!; try done; try apply Hc. right. exists r. rewrite Hs. destruct ok; auto.
Qed.

(** The renewer and the parent context only ever end the message context. *)
Lemma main_ok_ext m rn rn' ended ended' done_ done' t st :
  main_ok (mkDelivery m rn ended done_ t st) → (ended = true → ended' = true) →
  main_ok (mkDelivery m rn' ended' done' t st).
Proof. unfold main_ok. cbn. intros H He. destruct m; naive_solver. Qed.

Lemma renew_inv d d' : renew_step d d' → delivery_inv d → delivery_inv d'.
Proof.
  assert (Hret : ∀ m rn ended done_ t st v, rn ≠ RReturned → channel_ok (mkDelivery m rn ended done_ t st) →
    channel_ok (mkDelivery m RReturned true (Some v) t st)).
  { unfold channel_ok. cbn. intros m rn ended done_ t st v Hrn Hc. destruct m; try (by destruct Hc); split; eauto. }
  assert (Hkeep : ∀ m rn rn' ended done_ t st, rn ≠ RReturned → rn' ≠ RReturned → channel_ok (mkDelivery m rn ended done_ t st) →
    channel_ok (mkDelivery m rn' ended done_ t st)).
  { unfold channel_ok. cbn. intros m rn rn' ended done_ t st Hrn Hrn' Hc. destruct m; try (by destruct Hc); rewrite <- Hc; split; done. }
  intros H (Hm & Hc & Hr). destruct H; (split; [by eapply main_ok_ext|]);
    (split; [first [by eapply Hret; [|exact Hc]|by eapply Hkeep; [| |exact Hc]]|]); unfold renewal_ok in *; cbn in *; try done;
    intros e [= <-]; auto.
Qed.

Lemma step_inv d d' : delivery_step d d' → delivery_inv d → delivery_inv d'.
Proof.
  intros [d1 d2 H|d1 d2 H|m rn ended done_ t st]; [by apply main_inv|by apply renew_inv|].
  intros (Hm & Hc & Hr). split; [by eapply main_ok_ext|]. by split.
Qed.

Lemma delivered_inv d : delivered d → delivery_inv d.
Proof.
  assert (H : ∀ a b, rtc delivery_step a b → delivery_inv a → delivery_inv b).
  { induction 1 as [|a b c Hs _ IH]; [done|]. intros Ha. by eapply IH, step_inv. }
  intros Hd. by eapply H, received_inv.
Qed.

(** ** What a delivery does to the message *)

(** The lock was reported lost, or the delivery has ended without a settlement. *)
Definition lost (d : delivery) : Prop :=
  (∃ e, dl_done d = Some (Some e)) ∨ (dl_settled d = [] ∧ ∃ e, dl_main d = MReturned e).

(** A renewer that can step has not returned, so its channel is empty and the delivery goes on. *)
Lemma renewing d d' : renew_step d d' → channel_ok d → dl_done d = None ∧ ∀ e, dl_main d ≠ MReturned e.
Proof.
  intros Hs Hc. assert (Hn : dl_renew d ≠ RReturned) by (by destruct Hs). unfold channel_ok in Hc. split.
  - destruct (dl_main d), (dl_done d); try done; try (by destruct Hc); destruct Hn; apply Hc; eauto.
  - intros e He. rewrite He in Hc. by destruct Hc.
Qed.

Lemma lost_step d d' : delivery_inv d → delivery_step d d' → lost d → lost d' ∧ delivery_inv d'.
Proof.
  intros Hi Hs Hl. split; [|by eapply step_inv]. destruct Hi as (Hm & Hc & Hr). unfold lost in *.
  destruct Hs as [d d' Hs|d d' Hs|m rn ended done_ t st]; [|destruct (renewing _ _ Hs Hc)|]; destruct Hl as [[e He]|[Hs0 [e He]]];
    try congruence; try (destruct (H0 e); done); eauto.
  - unfold main_ok in Hm. destruct Hs; cbn in *; simplify_eq; eauto; right; (split; [apply Hm|eauto]).
  - destruct Hs; cbn in *; simplify_eq.
Qed.

Lemma lost_settled d : delivery_inv d → lost d → dl_settled d = [].
Proof.
  intros (Hm & Hc & _) [[e He]|[Hs _]]; [|done]. unfold main_ok, channel_ok in *. destruct (dl_main d); try tauto.
  - destruct Hc as [_ Hc]. congruence.
Qed.

(** C17: A message is settled at most once, and exactly as a returned run of the worker decided: it is
    completed if and only if the worker returned COMPLETE, dead-lettered if and only if it returned
    DEAD_LETTER, with the worker's reason or WORKER_REJECTED when there was none, and abandoned if
    and only if it returned anything else. Once the renewer has reported the lock lost, the message
    is not settled. *)
Theorem settled_once d :
  delivered d →
  (dl_settled d = [] ∨
   ∃ r s, dl_settled d = [s] ∧ runs process (dl_trace d) (Some r) ∧
          (s = CompleteMessage ↔ p_Disposition r = Complete) ∧
          ((∃ reason description, s = DeadLetterMessage reason description) ↔ p_Disposition r = DeadLetter) ∧
          (∀ reason description, s = DeadLetterMessage reason description →
             (p_ReasonCode r ≠ [] → reason = p_ReasonCode r) ∧ (p_ReasonCode r = [] → reason = lit "WORKER_REJECTED")) ∧
          (s = AbandonMessage ↔ p_Disposition r ≠ Complete ∧ p_Disposition r ≠ DeadLetter)) ∧
  (∀ d0 e, delivered d0 → dl_done d0 = Some (Some e) → rtc delivery_step d0 d → dl_settled d = []).
Proof.
  intros Hd. pose proof (delivered_inv d Hd) as Hi. split.
  - destruct Hi as (Hm & _). unfold main_ok in Hm. destruct (dl_main d); try (left; tauto).
    destruct Hm as [[? _]|(r & Hr & Hs & _)]; [by left|]. right. exists r, (settlement_of r). split; [done|]. split; [done|].
    apply settlement_exact.
  - intros d0 e Hd0 He Hrtc. pose proof (delivered_inv d0 Hd0) as Hi0.
    assert (Hl : lost d0) by (left; eauto). clear He Hd Hd0 Hi.
    induction Hrtc as [d|d d1 d2 Hs _ IH]; [by apply lost_settled|]. destruct (lost_step _ _ Hi0 Hs Hl). auto.
Qed.

(** The steps of the two goroutines. *)
Definition internal (d d' : delivery) : Prop := main_step d d' ∨ renew_step d d'.

Definition ends (d : delivery) : Prop := ∃ d', rtc internal d d' ∧ ∃ e, dl_main d' = MReturned e.

Lemma ends_step d d' : internal d d' → ends d' → ends d.
Proof. intros Hs (d2 & Hr & He). exists d2. split; [by eapply rtc_l|done]. Qed.

Lemma ends_settle r rn ended done_ t st : ends (mkDelivery (MSettle r) rn ended done_ t st).
Proof. eapply ends_step; [left; apply (main_settled _ _ _ _ _ _ true)|]. eexists. split; [apply rtc_refl|]. by eexists. Qed.

(** Both receives are served: a returned renewer has sent, any other one finds the context ended. *)
Lemma ends_receive m rn done_ t st :
  (∀ v, ends (mkDelivery m RReturned true (Some v) t st)) → (rn = RReturned ↔ is_Some done_) →
  ends (mkDelivery m rn true done_ t st).
Proof.
  intros Hv Hc. destruct rn.
  - eapply ends_step; [right; apply renew_ended|apply Hv].
  - eapply ends_step; [right; apply renew_failed_ended|apply Hv].
  - destruct (proj1 Hc eq_refl) as [v ->]. apply Hv.
Qed.

Lemma ends_join r rn done_ t st : (rn = RReturned ↔ is_Some done_) → ends (mkDelivery (MJoin r) rn true done_ t st).
Proof.
  apply ends_receive. intros [e|].
  - eapply ends_step; [left; apply main_renewal_error|]. eexists. split; [apply rtc_refl|]. by eexists.
  - eapply ends_step; [left; apply main_joined|]. apply ends_settle.
Qed.

(** C18: The goroutines cannot block each other. Once the worker has returned, the delivery can always
    go on to its end by its own steps, and at its end the renewer has returned and its channel is
    empty: no goroutine is left behind. *)
Theorem delivery_ends d :
  delivered d → (∀ e k, dl_main d ≠ MProcess (Vis e k)) →
  (∃ d', rtc internal d d' ∧ ∃ e, dl_main d' = MReturned e) ∧
  (∀ e, dl_main d = MReturned e → dl_renew d = RReturned ∧ dl_done d = None).
Proof.
  intros Hd Hp. pose proof (delivered_inv d Hd) as (Hm & Hc & _). change (ends d ∧ (∀ e, dl_main d = MReturned e → dl_renew d = RReturned ∧ dl_done d = None)).
  split; [|intros e He; unfold channel_ok in Hc; by rewrite He in Hc].
  destruct d as [m rn ended done_ t st]. unfold main_ok, channel_ok in *. cbn in *. destruct m as [[r|e k]|r| |r|r|e]; cbn in *.
  - destruct (p_Disposition r =s Abandon) eqn:E.
    + eapply ends_step; [left; by apply main_abandon|]. eapply ends_step; [left; apply main_waited|]. by apply ends_join.
    + eapply ends_step; [left; by apply main_processed|]. by apply ends_join.
  - by destruct (Hp e k).
  - eapply ends_step; [left; apply main_waited|]. by apply ends_join.
  - destruct Hm as [-> _]. apply ends_receive; [|done]. intros v. eapply ends_step; [left; apply main_canceled|].
    eexists. split; [apply rtc_refl|]. by eexists.
  - destruct Hm as (_ & -> & _). by apply ends_join.
  - apply ends_settle.
  - eexists. split; [apply rtc_refl|]. by eexists.
Qed.

End Delivery.

(** ** Auditing and health *)

(** [slogAuditor.Emit]: the attributes of the log record. *)
Definition emit_args (event : AuditEvent) : list (gostring * attr) :=
  [(lit "schema_version", AString (lit "1.0")); (lit "event", AString (ae_EventName event));
   (lit "occurred_at", AString (ae_OccurredAt event)); (lit "operation_id", AString (ae_OperationID event));
   (lit "release_id", AString (ae_ReleaseID event)); (lit "release_version", AString (ae_ReleaseVersion event));
   (lit "recipient_id", AString (ae_RecipientID event)); (lit "hmac_key_version", AString (ae_HMACKeyVersion event));
   (lit "queue_message_id", AString (ae_QueueMessageID event)); (lit "provider", AString (ae_Provider event));
   (lit "receipt_status", AString (ae_ReceiptStatus event));
   (lit "receipt_state_version", AInt (ae_ReceiptStateVersion event)); (lit "attempt_count", AInt (ae_AttemptCount event));
   (lit "provider_http_status", AInt (ae_ProviderHTTPStatus event)); (lit "reason_code", AString (ae_ReasonCode event))].

(** The handler of [newWorkerHealthServer]: the status, the header and the body. *)
Definition health_response (ready : bool) : Z * Header * gostring :=
  let headers := header_set (lit "Content-Type") (lit "application/json")
    (header_set (lit "Cache-Control") (lit "no-store") ∅) in
  let body status := print (JObj [(lit "service", JStr (lit "dar-distribution-worker")); (lit "status", JStr status)]) in
  if negb ready then (503, headers, body (lit "starting")) else (200, headers, body (lit "ok")).

(** ** Running the worker *)

(** The select at the head of the loop: shutdown, the health server's end, or neither. *)
Inductive poll : Type :=
| PollStop
| PollHealth (failed : bool)
| PollNone.

Inductive receive_error : Type := ReceiveDeadline | ReceiveCanceled | ReceiveUnavailable.

Inductive revent : Type :=
(** The constructors of the SDK; the answer is whether they succeed. *)
| RCredential (clientID : gostring)
| RStorageClient (url audience : gostring)
| RServiceBusClient (namespace : gostring)
| RReceiver (queue : gostring)
(** The goroutine that runs the health server is started: whether the server comes to listen is not
    waited for, its end is one of the answers of [RPoll]. Readiness is stored. *)
| RSpawnHealth (port : Z)
| RReady
| RLog (message : gostring) (args : list (gostring * attr))
| RPoll
| RReceive
| RDeliver (messageID body : gostring)
| RWait (delay : Z)
(** The deferred calls. *)
| RShutdownHealth
| RCloseReceiver
| RCloseBus
| RPanic.

Definition ranswer (e : revent) : Type :=
  match e with
  | RCredential _ | RStorageClient _ _ | RServiceBusClient _ | RReceiver _ | RWait _ => bool
  | RPoll => poll
  | RReceive => result receive_error (list (gostring * gostring))
  (** Whether [processReceivedMessage] returned without an error. *)
  | RDeliver _ _ => bool
  | RPanic => Empty_set
  | _ => unit
  end.

Abbreviation rprog := (program revent ranswer).
Definition rperform (e : revent) : rprog (ranswer e) := perform e.

Inductive run_exit : Type :=
| ExitNil
| ExitConfig
| ExitContract
| ExitHealth.

Definition storageAudience : gostring := lit "https://storage.azure.com/".

(** The options of the worker. *)
Definition worker_options (c : RuntimeConfig) : WorkerOptions :=
  mkOptions true true true true (HMACKey c) (wc_HMACKeyVersion c) (provider_of c) true (wc_MaxAttempts c) (wc_ClaimTimeout c).

Definition log_event (message event : gostring) : rprog unit :=
  rperform (RLog message [(lit "event", AString event)]).

(** [waitContext]: whether the delay passed before the context ended. *)
Definition waitContext (delay : Z) : rprog bool := rperform (RWait delay).

(** The messages of one receive. *)
Fixpoint deliver_all (messages : list (gostring * gostring)) : rprog unit :=
  match messages with
  | [] => Ret tt
  | (id, body) :: messages' =>
    ok ← rperform (RDeliver id body);
    _ ← (if (ok : bool) then Ret tt else log_event (lit "message processing interrupted") (lit "message_processing_interrupted"));
    deliver_all messages'
  end.

(** The loop, lines 89 to 119, for as many rounds as [fuel]; [None] is a loop that goes on. *)
Fixpoint receive_loop (fuel : nat) : rprog (option run_exit) :=
  match fuel with
  | O => Ret None
  | S fuel =>
    polled ← rperform RPoll;
    match polled with
    | PollStop => _ ← log_event (lit "worker stopped") (lit "shutdown"); Ret (Some ExitNil)
    | PollHealth true => Ret (Some ExitHealth)
    | PollHealth false => Ret (Some ExitNil)
    | PollNone =>
      received ← rperform RReceive;
      match received with
      | Err ReceiveUnavailable =>
        _ ← log_event (lit "queue receive unavailable") (lit "queue_receive_failed");
        waited ← waitContext (2 * Second);
        if (waited : bool) then receive_loop fuel else Ret (Some ExitNil)
      | Err _ => receive_loop fuel
      | Ok messages => _ ← deliver_all messages; receive_loop fuel
      end
    end
  end.

(** [RunWorker]. *)
Definition RunWorker (fuel : nat) (config : RuntimeConfig) : rprog (option run_exit) :=
  credential ← rperform (RCredential (wc_IdentityClientID config));
  if negb credential then Ret (Some ExitConfig) else
  storageClient ← rperform (RStorageClient (lit "https://" ++ wc_StorageAccount config ++ lit ".blob.core.windows.net/") storageAudience);
  if negb storageClient then Ret (Some ExitConfig) else
  match NewAzureBlobStore true [wc_ManifestsContainer config; wc_BatchesContainer config], NewAzureReceiptStore true,
        NewHTTPMailer (MailerConfig config) with
  | Ok _, Ok _, Ok _ =>
    match NewWorker (worker_options config) with
    | None => Vis RPanic (λ x : ranswer RPanic, match x with end)
    | Some _ =>
      serviceBus ← rperform (RServiceBusClient (wc_ServiceBusNamespace config));
      if negb serviceBus then Ret (Some ExitConfig) else
      receiver ← rperform (RReceiver (wc_ServiceBusQueue config));
      if negb receiver then _ ← rperform RCloseBus; Ret (Some ExitConfig) else
      _ ← rperform (RSpawnHealth (wc_HealthPort config));
      _ ← rperform RReady;
      _ ← rperform (RLog (lit "worker starting") [(lit "event", AString (lit "startup")); (lit "mail_mode", AString (wc_MailMode config))]);
      exit ← receive_loop fuel;
      match exit with
      | None => Ret None
      | Some exit =>
        _ ← rperform RShutdownHealth; _ ← rperform RCloseReceiver; _ ← rperform RCloseBus; Ret (Some exit)
      end
    end
  | _, _, _ => Ret (Some ExitContract)
  end.

(** ** An accepted environment makes a worker that starts *)

(** What happened so far: an SDK constructor refused; the Service Bus client and the receiver are open,
    the goroutine of the health server was started and not shut down; readiness is stored; and the
    messages received but not yet delivered. *)
Record startup : Type := mkStartup {
  su_refused : bool; su_bus : bool; su_receiver : bool; su_health : bool; su_ready : bool; su_pending : list (gostring * gostring) }.
Definition su_start : startup := mkStartup false false false false false [].

Definition su_upd (s : startup) (e : revent) : ranswer e → startup :=
  match e return ranswer e → startup with
  | RCredential _ | RStorageClient _ _ => λ ok,
    mkStartup (su_refused s || negb ok) (su_bus s) (su_receiver s) (su_health s) (su_ready s) (su_pending s)
  | RServiceBusClient _ => λ ok, mkStartup (su_refused s || negb ok) ok (su_receiver s) (su_health s) (su_ready s) (su_pending s)
  | RReceiver _ => λ ok, mkStartup (su_refused s || negb ok) (su_bus s) ok (su_health s) (su_ready s) (su_pending s)
  | RSpawnHealth _ => λ _, mkStartup (su_refused s) (su_bus s) (su_receiver s) true (su_ready s) (su_pending s)
  | RReady => λ _, mkStartup (su_refused s) (su_bus s) (su_receiver s) (su_health s) true (su_pending s)
  | RReceive => λ received, match received with
                            | Ok messages => mkStartup (su_refused s) (su_bus s) (su_receiver s) (su_health s) (su_ready s) messages
                            | Err _ => s
                            end
  | RDeliver _ _ => λ _, mkStartup (su_refused s) (su_bus s) (su_receiver s) (su_health s) (su_ready s) (tail (su_pending s))
  | RShutdownHealth => λ _, mkStartup (su_refused s) (su_bus s) (su_receiver s) false (su_ready s) (su_pending s)
  | RCloseReceiver => λ _, mkStartup (su_refused s) (su_bus s) false (su_health s) (su_ready s) (su_pending s)
  | RCloseBus => λ _, mkStartup (su_refused s) false (su_receiver s) (su_health s) (su_ready s) (su_pending s)
  | _ => λ _, s
  end.

(** Readiness is stored after the goroutine of the health server was started; messages are received by a
    worker whose clients were all made and are open, with none pending, and delivered one by one in
    the order received; what was opened is closed in the opposite order; nothing panics. *)
Definition su_check (s : startup) (e : revent) : Prop :=
  match e with
  | RSpawnHealth _ => su_receiver s = true
  | RReady => su_health s = true
  | RReceive =>
    su_ready s = true ∧ su_refused s = false ∧ su_bus s = true ∧ su_receiver s = true ∧ su_health s = true ∧ su_pending s = []
  | RDeliver id body => head (su_pending s) = Some (id, body)
  | RShutdownHealth => su_health s = true
  | RCloseReceiver => su_receiver s = true ∧ su_health s = false
  | RCloseBus => su_bus s = true ∧ su_receiver s = false
  | RPanic => False
  | _ => True
  end.

(** Nothing is left open. *)
Definition su_closed (s : startup) : Prop := su_bus s = false ∧ su_receiver s = false ∧ su_health s = false.

Abbreviation rmeets := (meets (λ (_ : startup) e (_ : ranswer e), True) su_check su_upd).

Lemma deliver_all_meets messages s :
  su_pending s = messages →
  rmeets (deliver_all messages) s (λ _ s', s' = mkStartup (su_refused s) (su_bus s) (su_receiver s) (su_health s) (su_ready s) []).
Proof.
  revert s; induction messages as [|[id body] messages IH]; intros s Hs; cbn [deliver_all].
  { simpl. destruct s. cbn in *. by subst. }
  simpl. split; [by rewrite Hs|]. intros ok _. set (s1 := mkStartup _ _ _ _ _ _).
  assert (H1 : su_pending s1 = messages) by (unfold s1; cbn; by rewrite Hs).
  destruct ok; simpl; [by apply (IH s1)|]. split; [done|]. intros _ _. by apply (IH s1).
Qed.

(** A worker that receives. *)
Definition receiving : startup := mkStartup false true true true true [].

Lemma receive_loop_meets fuel :
  rmeets (receive_loop fuel) receiving (λ exit s', s' = receiving ∧ (exit = None ∨ exit = Some ExitNil ∨ exit = Some ExitHealth)).
Proof.
  induction fuel as [|fuel IH]; cbn [receive_loop]; [simpl; auto|].
  simpl. split; [done|]. intros [|[]|] _; simpl; auto.
  split; [done|]. intros [messages|[]] _; simpl; auto.
  - apply meets_bind. eapply meets_weaken; [by apply deliver_all_meets|]. cbn. intros _ s' ->. apply IH.
  - split; [done|]. intros _ _. split; [done|]. intros [] _; simpl; auto.
Qed.

Lemma worker_options_accepted config : runtime_ok config → NewWorker (worker_options config) = Some (worker_options config).
Proof.
  intros [Ha Hc _ _ Hk Hv _ _ _]. unfold NewWorker, worker_options, provider_of, HMACKey.
  cbn [wo_Blobs wo_Receipts wo_Mailer wo_HMACKey wo_HMACKeyVersion wo_Provider wo_Clock wo_MaxAttempts wo_ClaimTimeout].
  rewrite Hv. assert (HS : 0 < Second) by done. destruct (_ || _) eqn:E; [|done]. breflect.
  destruct (wc_MailMode config =s MailModeStub); breflect; naive_solver lia.
Qed.

Lemma RunWorker_meets fuel config :
  runtime_ok config →
  rmeets (RunWorker fuel config) su_start
    (λ exit s', exit = None ∨
       (su_closed s' ∧ (exit = Some ExitNil ∨ exit = Some ExitHealth ∨ (exit = Some ExitConfig ∧ su_refused s' = true)))).
Proof.
  intros Hok. pose proof Hok as [Ha Hc Hm Hp Hk Hv (Hc1 & Hc2 & _) Hd [m Hmail]]. unfold RunWorker.
  rewrite Hmail, worker_options_accepted by done. unfold NewAzureBlobStore, NewAzureReceiptStore. cbn [forallb]. rewrite Hc1, Hc2.
  cbn. split; [done|]. intros [] _; cbn; [|unfold su_closed; auto 8]. split; [done|]. intros [] _; cbn; [|unfold su_closed; auto 8].
  split; [done|]. intros [] _; cbn; [|unfold su_closed; auto 8]. split; [done|]. intros [] _; cbn; [|split; [done|]; unfold su_closed; auto 8].
  do 3 (split; [done|]; intros _ _; cbn). apply meets_bind. eapply meets_weaken; [by apply receive_loop_meets|].
  cbn. intros [exit|] s [-> He]; cbn; [|auto]. do 3 (split; [done|]; intros _ _; cbn). unfold su_closed. naive_solver.
Qed.


(** ** Runs *)

Module RuntimeSamples.
Definition env : environment :=
  <[WorkerIdentityClientIDEnv := lit "11111111-2222-3333-4444-555555555555"]>
  (<[WorkerStorageAccountEnv := lit "darstore"]>
  (<[WorkerServiceBusNamespaceEnv := lit "Dar-Bus.servicebus.windows.net"]>
  (<[WorkerServiceBusQueueEnv := lit "releases"]>
  (<[WorkerManifestsContainerEnv := lit "manifests"]>
  (<[WorkerBatchesContainerEnv := lit "batches"]>
  (<[WorkerReceiptsContainerEnv := lit "receipts"]>
  (<[WorkerHMACKeyEnv := base64_encode (repeat_byte "k"%char 32)]>
  (<[WorkerHMACKeyVersionEnv := lit "k1"]>
  (<[WorkerMailModeEnv := MailModeStub]>
  (<[WorkerMailFromEmailEnv := lit "dar@example.internal"]>
  (<[WorkerMailFromNameEnv := lit "DAR"]>
  (<[WorkerAllowedRecipientsEnv := print (JArr [JStr (lit "ann@example.com")])]>
  (<[WorkerStubEndpointEnv := lit "https://stub.example.internal/v3/mail/send"]> ∅))))))))))))).

Definition config : RuntimeConfig :=
  mkRuntimeConfig (lit "11111111-2222-3333-4444-555555555555") (lit "darstore") (lit "dar-bus.servicebus.windows.net")
    (lit "releases") (lit "manifests") (lit "batches") (lit "receipts") (lit "k1") MailModeStub
    (lit "dar@example.internal") (lit "DAR") 5 (300 * Second) (10 * Second) 8081 (repeat_byte "k"%char 32)
    [lit "ann@example.com"] [] (lit "https://stub.example.internal/v3/mail/send").

Lemma config_parsed : ParseWorkerEnvironment env = Ok config.
Proof. vm_compute. reflexivity. Qed.

(** One round in which the worker is told to stop. *)
Definition answers (_ : startup) (e : revent) : option (ranswer e) :=
  match e return option (ranswer e) with
  | RCredential _ | RStorageClient _ _ | RServiceBusClient _ | RReceiver _ | RWait _ | RDeliver _ _ => Some true
  | RPoll => Some PollStop
  | RReceive => Some (Ok [])
  | RPanic => None
  | _ => Some tt
  end.
Definition run := play su_upd answers (RunWorker 1 config) su_start.

Lemma run_stops : run.2 = Some (Some ExitNil).
Proof. vm_compute. reflexivity. Qed.

(** The delivery of a message that is not valid. *)
Definition process : prog ProcessResult :=
  Process (Blobs := azure_blob_store [lit "manifests"; lit "batches"]) (worker_options config) (lit "m:0") (lit "{}").
Definition rejected : ProcessResult := result_of DeadLetter (lit "MESSAGE_INVALID") 0.

Lemma process_rejects : process = Ret rejected.
Proof. reflexivity. Qed.

Definition joining : delivery := mkDelivery (MJoin rejected) RSelect true None [] [].
Definition settled : delivery := mkDelivery (MReturned None) RReturned true None [] [settlement_of rejected].

Lemma joining_reached : rtc delivery_step (received process) joining.
Proof. eapply rtc_l; [apply step_main, (main_processed rejected); reflexivity|apply rtc_refl]. Qed.

Lemma settled_reached : rtc delivery_step (received process) settled.
Proof.
  etrans; [apply joining_reached|]. eapply rtc_l; [apply step_renew, renew_ended|].
  eapply rtc_l; [apply step_main, main_joined|]. eapply rtc_l; [apply step_main, (main_settled _ _ _ _ _ _ true)|apply rtc_refl].
Qed.
End RuntimeSamples.

Lemma settled_once_witness :
  ∃ r, dl_settled RuntimeSamples.settled = [DeadLetterMessage (lit "MESSAGE_INVALID") (lit "DAR distribution worker rejected the bounded operation")] ∧
       runs RuntimeSamples.process [] (Some r) ∧ p_Disposition r = DeadLetter.
Proof.
  destruct (settled_once _ RuntimeSamples.settled RuntimeSamples.settled_reached) as [[H|(r & s & Hs & Hr & _ & Hd & _)] _]; [discriminate H|].
  exists r. split; [reflexivity|]. split; [exact Hr|]. injection Hs as Hs. apply Hd. eexists _, _. exact (eq_sym Hs).
Defined.

Lemma delivery_ends_witness : ∃ d', rtc internal RuntimeSamples.joining d' ∧ ∃ e, dl_main d' = MReturned e.
Proof.
  apply (delivery_ends _ RuntimeSamples.joining RuntimeSamples.joining_reached). intros e k H. discriminate H.
Defined.

