(* ===== verification/GoPath.v ===== *)
(** * path and path/filepath

    Lexical paths as the publisher uses them, on a system whose separator is the slash. [Clean] is
    given by its effect on the segments of a path. Theorem: [Clean] leaves a path of ordinary
    segments as it is. *)

From S2P Require Import Prelude Utf8 GoStrings.

Definition slash : ascii := "/"%char.
Definition dot : gostring := lit ".".
Definition dotdot : gostring := lit "..".

(** The segments kept so far, the last one first: empty ones and dots are dropped, a pair of dots
    takes the segment before it away, and stays when there is none to take away. *)
Definition clean_segment (rooted : bool) (out : list gostring) (segment : gostring) : list gostring :=
  if (segment =s []) || (segment =s dot) then out
  else if segment =s dotdot then
    match out with
    | previous :: out' => if previous =s dotdot then dotdot :: out else out'
    | [] => if rooted then [] else [dotdot]
    end
  else segment :: out.

(** [path.Clean] and [filepath.Clean]. *)
Definition path_clean (p : gostring) : gostring :=
  let rooted := has_prefix (lit "/") p in
  let out := rev (fold_left (clean_segment rooted) (split_on slash p) []) in
  let text := match out with [] => [] | _ => join_on slash out end in
  if rooted then slash :: text else if text =s [] then dot else text.

(** [filepath.Join]. *)
Definition path_join (parts : list gostring) : gostring :=
  match List.filter (λ x, negb (x =s [])) parts with
  | [] => []
  | parts => path_clean (join_on slash parts)
  end.

(** [path.Ext]: the suffix from the last dot of the last segment. *)
Fixpoint ext_from (s : gostring) (found : gostring) : gostring :=
  match s with
  | [] => found
  | c :: t => if Ascii.eqb c slash then ext_from t [] else if Ascii.eqb c "."%char then ext_from t s else ext_from t found
  end.
Definition path_ext (p : gostring) : gostring := ext_from p [].

Fixpoint strip_common (a b : list gostring) : list gostring * list gostring :=
  match a, b with
  | x :: a', y :: b' => if x =s y then strip_common a' b' else (a, b)
  | _, _ => (a, b)
  end.

(** The segments of a clean path. *)
Definition segments (p : gostring) : list gostring := List.filter (λ s, negb (s =s []) && negb (s =s dot)) (split_on slash p).

(** [filepath.Rel]; [None] is its error. *)
Definition path_rel (base target : gostring) : option gostring :=
  let base := path_clean base in
  let target := path_clean target in
  if target =s base then Some dot
  else if negb (Bool.eqb (has_prefix (lit "/") base) (has_prefix (lit "/") target)) then None
  else
    let '(up, down) := strip_common (segments base) (segments target) in
    if existsb (str_eqb dotdot) up then None
    else match map (λ _, dotdot) up ++ down with [] => Some dot | l => Some (join_on slash l) end.

(** ** Ordinary paths *)

(** A segment that names something in its directory. *)
Definition ordinary (segment : gostring) : Prop := segment ≠ [] ∧ segment ≠ dot ∧ segment ≠ dotdot ∧ slash ∉ segment.

Lemma clean_ordinary rooted segs out :
  Forall ordinary segs → fold_left (clean_segment rooted) segs out = rev segs ++ out.
Proof.
  revert out; induction segs as [|s segs IH]; intros out Hs; [done|]. inversion Hs as [|? ? (H1 & H2 & H3 & _) Hs']; subst.
  cbn [fold_left rev]. unfold clean_segment at 2. apply str_eqb_neq in H1, H2, H3. rewrite H1, H2, H3. cbn [orb].
  rewrite IH by done. by rewrite <- app_assoc.
Qed.

Lemma ordinary_free segs : Forall ordinary segs → Forall (λ x, slash ∉ x) segs.
Proof. intros H. eapply Forall_impl; [exact H|]. by intros x (_ & _ & _ & ?). Qed.

(** [Clean] leaves a relative path of ordinary segments as it is. *)
Lemma path_clean_ordinary s segs : Forall ordinary (s :: segs) → path_clean (join_on slash (s :: segs)) = join_on slash (s :: segs).
Proof.
  intros Hs. pose proof (ordinary_free _ Hs) as Hf. inversion Hs as [|? ? (H1 & _ & _ & H4) Hs']; subst. unfold path_clean.
  assert (Hr : has_prefix (lit "/") (join_on slash (s :: segs)) = false).
  { destruct s as [|c s]; [done|]. destruct (has_prefix (lit "/") (join_on slash ((c :: s) :: segs))) eqn:E; [|done].
    apply has_prefix_spec in E as [t E]. injection E as -> _. set_solver. }
  rewrite Hr, split_join, clean_ordinary, app_nil_r, rev_involutive by done. cbv zeta.
  destruct (join_on slash (s :: segs) =s []) eqn:E; [|done]. apply str_eqb_eq in E. by destruct s.
Qed.
