(* ===== verification/Csv.v ===== *)
(** * encoding/csv

    [Reader.ReadAll] with a comma, strict quotes and any number of fields, on a text without
    carriage returns: the records of a text, or an error. Theorem: the records of a rendered table
    are its rows. *)

From S2P Require Import Prelude Utf8 GoStrings.

Definition comma : ascii := ","%char.
Definition dquote : ascii := byte 34.
Definition newline : ascii := byte 10.

(** Where the reader stands: at the start of a line, at the start of a field after a comma, in a
    bare field, in a quoted field, or after the quote that may close it. *)
Inductive csv_state : Type :=
| LineStart
| FieldStart
| Bare (field : gostring)
| Quoted (field : gostring)
| Closed (field : gostring).

(** The records of the rest of a text, with the fields read of the current one. Empty lines are
    skipped; a quote in a bare field, text after a closing quote and an open quote at the end are
    errors. *)
Fixpoint csv_read (s : gostring) (row : list gostring) (st : csv_state) : option (list (list gostring)) :=
  match s with
  | [] =>
    match st with
    | LineStart => Some []
    | FieldStart => Some [row ++ [[]]]
    | Bare field | Closed field => Some [row ++ [field]]
    | Quoted _ => None
    end
  | c :: s' =>
    let finish field := rows ← csv_read s' [] LineStart; Some ((row ++ [field]) :: rows) in
    match st with
    | LineStart | FieldStart =>
      if Ascii.eqb c newline then
        match st with LineStart => csv_read s' [] LineStart | _ => finish [] end
      else if Ascii.eqb c dquote then csv_read s' row (Quoted [])
      else if Ascii.eqb c comma then csv_read s' (row ++ [[]]) FieldStart
      else csv_read s' row (Bare [c])
    | Bare field =>
      if Ascii.eqb c newline then finish field
      else if Ascii.eqb c dquote then None
      else if Ascii.eqb c comma then csv_read s' (row ++ [field]) FieldStart
      else csv_read s' row (Bare (field ++ [c]))
    | Quoted field => csv_read s' row (if Ascii.eqb c dquote then Closed field else Quoted (field ++ [c]))
    | Closed field =>
      if Ascii.eqb c dquote then csv_read s' row (Quoted (field ++ [dquote]))
      else if Ascii.eqb c comma then csv_read s' (row ++ [field]) FieldStart
      else if Ascii.eqb c newline then finish field
      else None
    end
  end.

Definition csv_ReadAll (s : gostring) : option (list (list gostring)) := csv_read s [] LineStart.

(** ** Rendered tables *)

(** A field that needs no quotes. *)
Definition bare (field : gostring) : Prop := comma ∉ field ∧ dquote ∉ field ∧ newline ∉ field.

Definition render_row (row : list gostring) : gostring := join_on comma row ++ [newline].
Definition render (rows : list (list gostring)) : gostring := flat_map render_row rows.

Lemma csv_bare field rest row acc :
  bare field → csv_read (field ++ rest) row (Bare acc) = csv_read rest row (Bare (acc ++ field)).
Proof.
  revert acc; induction field as [|c field IH]; intros acc (H1 & H2 & H3); [by rewrite app_nil_r|].
  cbn [app csv_read]. rewrite !(proj2 (Ascii.eqb_neq _ _)) by set_solver. rewrite IH by (repeat split; set_solver).
  by rewrite <- app_assoc.
Qed.

(** A field from its start to the character that ends it. *)
Lemma csv_field field rest row st :
  bare field → st = LineStart ∧ field ≠ [] ∨ st = FieldStart →
  csv_read (field ++ comma :: rest) row st = csv_read rest (row ++ [field]) FieldStart ∧
  csv_read (field ++ newline :: rest) row st = (rows ← csv_read rest [] LineStart; Some ((row ++ [field]) :: rows)).
Proof.
  intros Hb Hst. destruct field as [|c field].
  { destruct Hst as [[_ []]| ->]; [done|]. done. }
  destruct Hb as (H1 & H2 & H3). cbn [app csv_read].
  rewrite !(proj2 (Ascii.eqb_neq c _)) by set_solver. rewrite !csv_bare by (repeat split; set_solver). cbn [app].
  destruct Hst as [[-> _]| ->]; split; done.
Qed.

Lemma csv_fields fields rest row :
  Forall bare fields → fields ≠ [] →
  csv_read (join_on comma fields ++ newline :: rest) row FieldStart =
  (rows ← csv_read rest [] LineStart; Some ((row ++ fields) :: rows)).
Proof.
  revert row; induction fields as [|f fields IH]; intros row Hf Hn; [done|]. inversion Hf as [|? ? Hb Hf']; subst.
  destruct fields as [|g fields].
  - cbn [join_on flat_map]. rewrite app_nil_r. apply csv_field; auto.
  - change (join_on comma (f :: g :: fields)) with (f ++ comma :: join_on comma (g :: fields)). rewrite <- app_assoc. cbn [app].
    rewrite (proj1 (csv_field f _ row FieldStart Hb (or_intror eq_refl))), IH by done. by rewrite <- app_assoc.
Qed.

Lemma csv_row first fields rest :
  Forall bare (first :: fields) → first ≠ [] →
  csv_read (render_row (first :: fields) ++ rest) [] LineStart =
  (rows ← csv_read rest [] LineStart; Some ((first :: fields) :: rows)).
Proof.
  intros Hf Hn. inversion Hf as [|? ? Hb Hf']; subst. unfold render_row. rewrite <- app_assoc. cbn [app].
  destruct fields as [|g fields].
  - cbn [join_on flat_map]. rewrite app_nil_r. apply csv_field; auto.
  - change (join_on comma (first :: g :: fields)) with (first ++ comma :: join_on comma (g :: fields)). rewrite <- app_assoc. cbn [app].
    rewrite (proj1 (csv_field first _ [] LineStart Hb (or_introl (conj eq_refl Hn)))). by rewrite csv_fields.
Qed.

Lemma csv_render rows :
  Forall (λ row, Forall bare row ∧ ∃ f fs, row = f :: fs ∧ f ≠ []) rows → csv_ReadAll (render rows) = Some rows.
Proof.
  unfold csv_ReadAll, render. induction 1 as [|row rows (Hb & f & fs & -> & Hf) _ IH]; [done|].
  cbn [flat_map]. rewrite csv_row by done. by rewrite IH.
Qed.
