(* ===== verification/PublicationEffects.v ===== *)
(** * Effects of the release publisher

    Requests the publisher makes of its environment: the file system of the repository, Blob storage
    and the queue; and the interfaces [BlobWriter] and [QueueWriter] of publisher.go. *)

From S2P Require Import Prelude Utf8 GoStrings Program Azure Contracts.

(** [ErrSource], and [ErrPublication] with the reason [publicationError] adds. *)
Inductive publication_error : Type :=
| ErrSource
| ErrPublication (reason : gostring).

(** What is looked at of a [fs.FileInfo] and a [fs.DirEntry]. *)
Record file_info : Type := mkFileInfo { fi_size : Z; fi_regular : bool; fi_dir : bool; fi_symlink : bool }.
Record dir_entry : Type := mkDirEntry { de_name : gostring; de_regular : bool; de_dir : bool; de_symlink : bool }.

(** A member of an opened ZIP archive: its header, and what reading it delivers when it opens. *)
Record zip_member : Type := mkMember {
  zm_Name : gostring; zm_Flags : Z; zm_Method : Z; zm_symlink : bool; zm_dir : bool;
  zm_UncompressedSize : Z; zm_UncompressedSize64 : Z; zm_stream : option Reader; zm_close_ok : bool }.

(** The responses of the storage service. *)
Record upload_response : Type := mkUploadResponse { ur_ETag : option gostring; ur_VersionID : option gostring }.
Record blob_properties : Type := mkBlobProperties {
  bp_ContentLength : option Z; bp_ETag : option gostring; bp_VersionID : option gostring;
  bp_Metadata : list (gostring * option gostring) }.

Inductive blob_condition : Type :=
| CreateOnly
| Replacing (etag : gostring).

(** A queue message as it is handed to the sender. *)
Record bus_message : Type := mkBusMessage {
  sb_Body : gostring; sb_ContentType : gostring; sb_MessageID : gostring; sb_Subject : gostring }.

Inductive pevent : Type :=
| FAbs (name : gostring)
| FEvalSymlinks (name : gostring)
| FStat (name : gostring)
| FLstat (name : gostring)
| FReadDir (name : gostring)
(** [os.Open], with what reading the file to its end delivers *)
| FOpen (name : gostring)
(** [zip.OpenReader] *)
| FZip (name : gostring)
| PUpload (container name : gostring) (body : Reader) (contentType : gostring) (metadata : list (gostring * gostring))
    (cond : blob_condition)
| PGetProperties (container name : gostring)
| PDownload (container name : gostring)
| PSend (message : bus_message)
(** [Close] of a file, an archive or a response body *)
| PClose
(** a run-time panic, and a loop that does not end: nothing answers them *)
| PPanic
| PDiverge.

Definition panswer (e : pevent) : Type :=
  match e with
  | FAbs _ | FEvalSymlinks _ => option gostring
  | FStat _ | FLstat _ => option file_info
  | FReadDir _ => option (list dir_entry)
  | FOpen _ => option Reader
  | FZip _ => option (list zip_member)
  | PUpload _ _ _ _ _ _ => result azure_error upload_response
  | PGetProperties _ _ => result azure_error blob_properties
  | PDownload _ _ => result azure_error (option Reader)
  | PSend _ => bool
  | PClose => unit
  | PPanic | PDiverge => Empty_set
  end.

Abbreviation pprog := (program pevent panswer).
Definition pperform (e : pevent) : pprog (panswer e) := perform e.
