(* ===== verification/Source.v ===== *)
(** * internal/publication/source.go

    The release source: which release a repository holds, whether its archive is acceptable, and who
    the recipients are. *)

From stdpp Require Import strings sorting.
From S2P Require Import Prelude Utf8 GoStrings Regex GoPath Csv Sha256 Contracts Program Azure PublicationEffects Config.

Definition maxArchiveBytes : Z := MaxObjectSize.
Definition maxArchiveEntries : Z := 32.
Definition maxUncompressedBytes : Z := 1024 * 1024 * 1024.
Definition maxRecipientsBytes : Z := 1024 * 1024.

Import Class_.
Definition version_number : re := RAlt (RLit "0") (RCat (RClass (in_ranges [("1", "9")]%char)) (RStar (RClass digit))).
Definition productVersionPattern : re :=
  RSeq [RLit "v"; version_number; RLit "."; version_number; RLit "."; version_number; RLit "."; RCount digit 2 2].
Definition releaseIDPattern : re :=
  RCat (RClass lower_digit) (ROpt (RCat (RCount (plus lower_digit (lit "_-")) 0 62) (RClass lower_digit))).
Definition namePattern : re := RCat (RClass alpha) (RCount (plus alpha (lit " .'-")) 0 63).
Definition emailPattern : re := Contracts.emailPattern.

(** [windowsDrivePattern], which is not anchored at its end. *)
Definition windows_drive (name : gostring) : bool :=
  match name with c :: d :: _ => alpha c && Ascii.eqb d ":"%char | _ => false end.

Definition allowedGuideExtensions : list gostring := [lit ".docx"; lit ".md"; lit ".pdf"; lit ".txt"].

Record SourceRelease : Type := mkSourceRelease {
  sr_DARPath : gostring; sr_DARSHA256 : gostring; sr_DARSize : Z; sr_DownloadName : gostring;
  sr_ReleaseID : gostring; sr_SchemaVersion : gostring; sr_Version : gostring }.

(** ** Versions *)

(** [productVersionKey]. The groups of the pattern hold no dot, so they are what the dots separate. *)
Definition productVersionKey (version : gostring) : option (list Z) :=
  if negb (match_string productVersionPattern version) then None
  else mapM (parse_uint 32) (split_on "."%char (trim_prefix (lit "v") version)).

Fixpoint versionKeyLess (left right : list Z) : bool :=
  match left, right with
  | l :: left', r :: right' => if negb (l =? r) then l <? r else versionKeyLess left' right'
  | _, _ => false
  end.

(** ** Reading *)

(** [readBounded] of this package: every failure is [ErrSource]. *)
Definition read_bounded (reader : option Reader) (maximum : Z) : option gostring :=
  match reader with
  | None => None
  | Some r =>
    if maximum <? 1 then None
    else if maximum <? len (rd_data r) then None
    else match rd_err r with Some _ => None | None => Some (rd_data r) end
  end.

Definition fileDigest (name : gostring) : pprog (option gostring) :=
  file ← pperform (FOpen (path_clean name));
  match file with
  | None => Ret None
  | Some r =>
    let digest := match rd_err r with Some _ => None | None => Some (sha256_hex (rd_data r)) end in
    _ ← pperform PClose; Ret digest
  end.

Definition cleanDirectory (raw : gostring) : pprog (option gostring) :=
  if trim_space raw =s [] then Ret None
  else
    root ← pperform (FAbs raw);
    match root with
    | None => Ret None
    | Some root =>
      root ← pperform (FEvalSymlinks root);
      match root with
      | None => Ret None
      | Some root =>
        info ← pperform (FStat root);
        match info with
        | None => Ret None
        | Some info => if negb (fi_dir info) then Ret None else Ret (Some (path_clean root))
        end
      end
    end.

(** [rejectSymlink]; [true] when no error. *)
Definition rejectSymlink (name : gostring) : pprog bool :=
  info ← pperform (FLstat name);
  match info with
  | None => Ret false
  | Some info => Ret (negb (negb (fi_dir info) || fi_symlink info))
  end.

(** ** The archive *)

(** [validateMemberName]; [filepath.VolumeName] is empty on this system. *)
Definition validateMemberName (name : gostring) : bool :=
  if (name =s []) || (512 <? len name) || has_prefix (lit "/") name || contains_byte (byte 92) name || windows_drive name
  then false
  else if existsb (λ r, (rune_cp r <? 0x20) || (rune_cp r =? 0x7f)) (runes name) then false
  else
    let cleaned := path_clean name in
    if (cleaned =s dot) || negb (cleaned =s trim_suffix (lit "/") name) then false
    else negb (existsb (λ s, (s =s []) || (s =s dot) || (s =s dotdot)) (split_on slash cleaned)).

(** What the loop of [validateReleaseZIP] has seen. *)
Record zip_state : Type := mkZipState { zs_seen : gset gostring; zs_total : Z; zs_darCount : Z }.

(** How much [io.Copy] of a [LimitReader] copies, and whether it saw no error. *)
Definition copy_limited (r : Reader) (limit : Z) : Z * bool :=
  if limit <=? len (rd_data r) then (limit, true) else (len (rd_data r), bool_decide (rd_err r = None)).

(** One round of the loop, lines 249 to 288. *)
Definition validate_member (member : zip_member) (s : zip_state) : option zip_state :=
  if negb (validateMemberName (zm_Name member)) || negb (Z.land (zm_Flags member) 1 =? 0) ||
     (negb (zm_Method member =? 0) && negb (zm_Method member =? 8)) || zm_symlink member
  then None
  else
    let canonicalName := to_lower (zm_Name member) in
    if bool_decide (canonicalName ∈ zs_seen s) then None
    else
      let seen := {[canonicalName]} ∪ zs_seen s in
      if zm_dir member then Some (mkZipState seen (zs_total s) (zs_darCount s))
      else if (maxUncompressedBytes - zs_total s) `mod` 2 ^ 64 <? zm_UncompressedSize64 member then None
      else
        let total := (zs_total s + zm_UncompressedSize64 member) `mod` 2 ^ 64 in
        let extension := to_lower (path_ext (zm_Name member)) in
        let darCount :=
          if extension =s lit ".dar" then
            if zm_UncompressedSize64 member <? 1 then None else Some (zs_darCount s + 1)
          else if negb (existsb (str_eqb extension) allowedGuideExtensions) then None
          else Some (zs_darCount s) in
        match darCount, zm_stream member with
        | Some darCount, Some stream =>
          if negb (zm_UncompressedSize member =? zm_UncompressedSize64 member) then None
          else
            let memberSize := zm_UncompressedSize member in
            let '(written, copied) := copy_limited stream (memberSize + 1) in
            if negb copied || negb (zm_close_ok member) || negb (written =? memberSize) then None
            else Some (mkZipState seen total darCount)
        | _, _ => None
        end.

Fixpoint validate_members (members : list zip_member) (s : zip_state) : option zip_state :=
  match members with
  | [] => Some s
  | member :: members' => s ← validate_member member s; validate_members members' s
  end.

(** The archive is acceptable: the loop and the tests around it. *)
Definition archive_accepted (members : list zip_member) : bool :=
  if (len members <? 1) || (maxArchiveEntries <? len members) then false
  else match validate_members members (mkZipState ∅ 0 0) with
  | None => false
  | Some s => negb (negb (zs_darCount s =? 1))
  end.

(** [validateReleaseZIP]; [true] when no error. *)
Definition validateReleaseZIP (archivePath : gostring) : pprog bool :=
  archive ← pperform (FZip archivePath);
  match archive with
  | None => Ret false
  | Some members => _ ← pperform PClose; Ret (archive_accepted members)
  end.

(** ** Recipients *)

(** One row of the table, lines 154 to 170; [seen] are the addresses before. *)
Definition parse_row (row : list gostring) (seen : gset gostring) : option Recipient :=
  match row with
  | [f0; f1; f2] =>
    let firstName := trim_space f0 in
    let lastName := trim_space f1 in
    let email := to_lower (trim_space f2) in
    if negb (match_string namePattern firstName) || negb (match_string namePattern lastName) ||
       (254 <? len email) || negb (match_string emailPattern email)
    then None
    else if bool_decide (email ∈ seen) then None
    else Some (mkRecipient email firstName lastName)
  | _ => None
  end.

Fixpoint parse_rows (rows : list (list gostring)) (seen : gset gostring) : option (list Recipient) :=
  match rows with
  | [] => Some []
  | row :: rows' =>
    recipient ← parse_row row seen;
    recipients ← parse_rows rows' ({[rc_Email recipient]} ∪ seen);
    Some (recipient :: recipients)
  end.

(** The order of [sort.Slice]. Addresses differ, so there is one sorted list. *)
Definition recipient_less (left right : Recipient) : bool :=
  if negb (rc_Email left =s rc_Email right) then rc_Email left <s rc_Email right
  else if negb (rc_FirstName left =s rc_FirstName right) then rc_FirstName left <s rc_FirstName right
  else rc_LastName left <s rc_LastName right.
Definition recipient_le (left right : Recipient) : Prop := recipient_less right left = false.
#[export] Instance recipient_le_dec left right : Decision (recipient_le left right).
Proof. unfold recipient_le. apply _. Defined.

Definition header_row : list gostring := [lit "first_name"; lit "last_name"; lit "email"].

(** The tests of the text, lines 134 to 142. *)
Definition recipients_text (raw : gostring) : bool :=
  negb ((len raw <? 1) || (maxRecipientsBytes <? len raw) || negb (has_suffix [newline] raw) ||
        contains_byte (byte 13) raw) &&
  forallb (λ c, code c <=? 0x7f) raw.

Definition ParseRecipients (reader : option Reader) : result publication_error (list Recipient) :=
  match reader with
  | None => Err ErrSource
  | Some _ =>
    match read_bounded reader maxRecipientsBytes with
    | None => Err ErrSource
    | Some raw =>
      if negb (recipients_text raw) then Err ErrSource
      else match csv_ReadAll raw with
      | Some (header :: ((_ :: _) as rows)) =>
        if negb (bool_decide (header = header_row)) then Err ErrSource
        else match parse_rows rows ∅ with
        | None => Err ErrSource
        | Some recipients => Ok (merge_sort recipient_le recipients)
        end
      | _ => Err ErrSource
      end
    end
  end.

(** ** The release *)

(** The loop over the entries of the releases directory, lines 82 to 94. *)
Fixpoint release_candidates (entries : list dir_entry) : option (list (gostring * list Z)) :=
  match entries with
  | [] => Some []
  | entry :: entries' =>
    if (de_name entry =s lit "README.md") && de_regular entry then release_candidates entries'
    else if negb (de_dir entry) || de_symlink entry then None
    else
      key ← productVersionKey (de_name entry);
      candidates ← release_candidates entries';
      Some ((de_name entry, key) :: candidates)
  end.

Definition candidate_le (left right : gostring * list Z) : Prop := versionKeyLess right.2 left.2 = false.
#[export] Instance candidate_le_dec left right : Decision (candidate_le left right).
Proof. unfold candidate_le. apply _. Defined.

(** The candidate [sort.Slice] puts last. *)
Definition latest_release (candidates : list (gostring * list Z)) : option gostring :=
  fst <$> last (merge_sort candidate_le candidates).

Definition download_name (version : gostring) : gostring := lit "dar-" ++ trim_prefix (lit "v") version ++ lit ".zip".

(** The release directory and its archive, lines 102 to 125. *)
Definition discover_archive (releases releaseID version : gostring) : pprog (result publication_error SourceRelease) :=
  let downloadName := download_name version in
  let releaseDirectory := path_join [releases; version] in
  entries ← pperform (FReadDir releaseDirectory);
  match entries with
  | Some [entry] =>
    if negb (de_name entry =s downloadName) || de_dir entry || de_symlink entry then Ret (Err ErrSource)
    else
      let archivePath := path_join [releaseDirectory; downloadName] in
      info ← pperform (FStat archivePath);
      match info with
      | None => Ret (Err ErrSource)
      | Some info =>
        if (fi_size info <? 1) || (maxArchiveBytes <? fi_size info) then Ret (Err ErrSource)
        else
          accepted ← validateReleaseZIP archivePath;
          if negb accepted then Ret (Err ErrSource)
          else
            digest ← fileDigest archivePath;
            match digest with
            | None => Ret (Err ErrSource)
            | Some digest =>
              Ret (Ok (mkSourceRelease (path_join [lit "releases"; version; downloadName]) digest (fi_size info)
                         downloadName releaseID (lit "1.0") version))
            end
      end
  | _ => Ret (Err ErrSource)
  end.

Definition DiscoverSource (repositoryRoot releaseID : gostring) : pprog (result publication_error SourceRelease) :=
  if negb (match_string releaseIDPattern releaseID) then Ret (Err ErrSource)
  else
    root ← cleanDirectory repositoryRoot;
    match root with
    | None => Ret (Err ErrSource)
    | Some root =>
      let releases := path_join [root; lit "releases"] in
      directory ← rejectSymlink releases;
      if negb directory then Ret (Err ErrSource)
      else
        entries ← pperform (FReadDir releases);
        match entries with
        | None | Some [] => Ret (Err ErrSource)
        | Some entries =>
          match (candidates ← release_candidates entries; latest_release candidates) with
          | None => Ret (Err ErrSource)
          | Some version => discover_archive releases releaseID version
          end
        end
    end.

(** The release fits its own names, lines 346 to 352. *)
Definition release_accepted (release : SourceRelease) : bool :=
  negb (negb (sr_SchemaVersion release =s lit "1.0") || negb (match_string releaseIDPattern (sr_ReleaseID release)) ||
        negb (match_string productVersionPattern (sr_Version release)) ||
        negb (sr_DownloadName release =s download_name (sr_Version release)) ||
        negb (sr_DARPath release =s lit "releases/" ++ sr_Version release ++ lit "/" ++ sr_DownloadName release) ||
        negb (len (sr_DARSHA256 release) =? 64) || (sr_DARSize release <? 1) || (maxArchiveBytes <? sr_DARSize release)).

Definition verifySourceArtifact (repositoryRoot : gostring) (release : SourceRelease) : pprog (option gostring) :=
  if negb (release_accepted release) then Ret None
  else
    root ← cleanDirectory repositoryRoot;
    match root with
    | None => Ret None
    | Some root =>
      let name := path_join [root; sr_DARPath release] in
      resolved ← pperform (FEvalSymlinks name);
      match resolved with
      | None => Ret None
      | Some resolved =>
        if negb (path_clean resolved =s path_clean name) then Ret None
        else match path_rel root resolved with
        | None => Ret None
        | Some relative =>
          if (relative =s dotdot) || has_prefix (lit "../") relative then Ret None
          else
            info ← pperform (FStat resolved);
            match info with
            | None => Ret None
            | Some info =>
              if negb (fi_regular info) || negb (fi_size info =? sr_DARSize release) then Ret None
              else
                digest ← fileDigest resolved;
                match digest with
                | None => Ret None
                | Some digest => if negb (digest =s sr_DARSHA256 release) then Ret None else Ret (Some resolved)
                end
            end
        end
      end
    end.
