(* ===== verification/Publisher.v ===== *)
(** * internal/publication/publisher.go

    The publisher: it plans a publication from a verified source and a cohort, stores the identity,
    the archive, the manifest and the recipient batches, sends one message per batch, and advances
    the current manifest last. Programs are written against the interfaces [BlobWriter] and
    [QueueWriter]. *)

From stdpp Require Import strings.
From S2P Require Import Prelude Utf8 GoStrings Regex GoTime Json StrictJson Sha256 Url Contracts Program Azure PublicationEffects Source.

Definition maxPublicationBatchSize : Z := 10.

Import Class_.
Definition repositoryPattern : re := RSeq [RPlus (RClass (plus alnum (lit "_.-"))); RLit "/"; RPlus (RClass (plus alnum (lit "_.-")))].
Definition containerPattern : re :=
  RCat (RClass lower_digit) (ROpt (RCat (RCount (plus lower_digit (lit "-")) 1 61) (RClass lower_digit))).
Definition commitPattern : re := RCount hex 40 40.

(** ** Data *)

Record Config : Type := mkConfig {
  cf_Repository : gostring; cf_ReleasesContainer : gostring; cf_ManifestsContainer : gostring;
  cf_BatchesContainer : gostring; cf_ApplicationOrigin : gostring; cf_BatchSize : Z }.

Record PublishRequest : Type := mkPublishRequest {
  rq_RepositoryRoot : gostring; rq_Source : SourceRelease; rq_Recipients : list Recipient;
  rq_CommitSHA : gostring; rq_CreatedAt : gostring }.

Record ImmutableBytesRequest : Type := mkImmutableBytes {
  ib_Container : gostring; ib_Name : gostring; ib_Body : gostring; ib_ContentType : gostring }.

Record ImmutableFileRequest : Type := mkImmutableFile {
  if_Container : gostring; if_Name : gostring; if_FileName : gostring; if_ExpectedDigest : gostring;
  if_ExpectedSize : Z; if_ContentType : gostring }.

Record CurrentManifestRequest : Type := mkCurrentManifest {
  cm_Container : gostring; cm_Name : gostring; cm_Body : gostring; cm_ReleaseVersion : gostring }.

Record QueueRequest : Type := mkQueueRequest { qr_MessageID : gostring; qr_Body : gostring }.

Record PublishedBlob : Type := mkPublishedBlob { pb_Reference : BlobReference; pb_ETag : gostring }.

Record PublicationResult : Type := mkPublicationResult {
  res_BatchCount : Z; res_OperationID : gostring; res_ReleaseID : gostring; res_ReleaseVersion : gostring }.

(** The interfaces. *)
Class BlobWriter : Type := {
  PutImmutableBytes : ImmutableBytesRequest → pprog (result publication_error PublishedBlob);
  PutImmutableFile : ImmutableFileRequest → pprog (result publication_error PublishedBlob);
  PutCurrentManifest : CurrentManifestRequest → pprog (result publication_error PublishedBlob) }.

Class QueueWriter : Type := { SendRequest : QueueRequest → pprog (result publication_error unit) }.

(** ** The JSON layout *)

Definition source_kind : kind :=
  KStruct [(lit "dar_path", KString); (lit "dar_sha256", KString); (lit "dar_size", KInt); (lit "download_name", KString);
           (lit "release_id", KString); (lit "schema_version", KString); (lit "version", KString)].

Lemma source_kind_ok : kind_ok source_kind.
Proof. unfold source_kind. kind_ok_tac. Qed.

#[export] Instance source_struct : GoStruct SourceRelease.
Proof.
  refine {|
    kind_of := source_kind;
    to_gval s := GStruct [GStr (sr_DARPath s); GStr (sr_DARSHA256 s); GInt (sr_DARSize s); GStr (sr_DownloadName s);
                          GStr (sr_ReleaseID s); GStr (sr_SchemaVersion s); GStr (sr_Version s)];
    of_gval v := match v with
      | GStruct [GStr p; GStr d; GInt s; GStr n; GStr r; GStr sc; GStr ver] => Some (mkSourceRelease p d s n r sc ver)
      | _ => None
      end;
    struct_kind_ok := source_kind_ok |}.
  - abstract depth_tac.
  - abstract (by intros []).
  - abstract (unfold source_kind; intros v H; invert_kind; eexists; split; reflexivity).
Defined.

Record releaseIdentity : Type := mkReleaseIdentity {
  ri_CommitSHA : gostring; ri_OperationID : gostring; ri_Repository : gostring; ri_SchemaVersion : gostring;
  ri_SourceManifest : SourceRelease }.

Definition identity_kind : kind :=
  KStruct [(lit "commit_sha", KString); (lit "operation_id", KString); (lit "repository", KString);
           (lit "schema_version", KString); (lit "source_manifest", source_kind)].

Lemma identity_kind_ok : kind_ok identity_kind.
Proof. unfold identity_kind, source_kind. kind_ok_tac. Qed.

#[export] Instance identity_struct : GoStruct releaseIdentity.
Proof.
  refine {|
    kind_of := identity_kind;
    to_gval i := GStruct [GStr (ri_CommitSHA i); GStr (ri_OperationID i); GStr (ri_Repository i); GStr (ri_SchemaVersion i);
                          to_gval (ri_SourceManifest i)];
    of_gval v := match v with
      | GStruct [GStr c; GStr o; GStr r; GStr sc; s] => s ← of_gval s; Some (mkReleaseIdentity c o r sc s)
      | _ => None
      end;
    struct_kind_ok := identity_kind_ok |}.
  - abstract depth_tac.
  - abstract (intros [???? s]; by rewrite !of_to_gval).
  - abstract (unfold identity_kind, source_kind; intros v H; invert_kind; eexists; split; reflexivity).
Defined.

Record operationIntent : Type := mkOperationIntent {
  oi_CommitSHA : gostring; oi_Manifest : SourceRelease; oi_Repository : gostring }.

Definition intent_kind : kind :=
  KStruct [(lit "commit_sha", KString); (lit "manifest", source_kind); (lit "repository", KString)].

Lemma intent_kind_ok : kind_ok intent_kind.
Proof. unfold intent_kind, source_kind. kind_ok_tac. Qed.

#[export] Instance intent_struct : GoStruct operationIntent.
Proof.
  refine {|
    kind_of := intent_kind;
    to_gval i := GStruct [GStr (oi_CommitSHA i); to_gval (oi_Manifest i); GStr (oi_Repository i)];
    of_gval v := match v with
      | GStruct [GStr c; s; GStr r] => s ← of_gval s; Some (mkOperationIntent c s r)
      | _ => None
      end;
    struct_kind_ok := intent_kind_ok |}.
  - abstract depth_tac.
  - abstract (intros [? s ?]; by rewrite !of_to_gval).
  - abstract (unfold intent_kind, source_kind; intros v H; invert_kind; eexists; split; reflexivity).
Defined.

(** ** Pure parts *)

Definition publicationError {A} (reason : gostring) : result publication_error A := Err (ErrPublication reason).

Definition validCreatedAt (raw : gostring) : bool :=
  if negb (has_suffix (lit "Z") raw) then false
  else match time_parse raw with Some parsed => t_utc parsed | None => false end.

Definition validApplicationOrigin (raw : gostring) : bool :=
  match url_parse raw with
  | None => false
  | Some parsed =>
    if negb (u_scheme parsed =s lit "https") || bool_decide (u_user parsed ≠ None) || (Hostname parsed =s []) ||
       negb (u_raw_query parsed =s []) || negb (u_fragment parsed =s []) ||
       (negb (u_path parsed =s []) && negb (u_path parsed =s lit "/")) ||
       (negb (Port parsed =s []) && negb (Port parsed =s lit "443"))
    then false
    else
      let host := to_lower (Hostname parsed) in
      has_suffix (lit ".azurecontainerapps.io") host || has_suffix (lit ".example.internal") host
  end.

(** The loop over the containers of a configuration, here and in config.go. *)
Fixpoint containers_accepted (containers : list gostring) (seen : list gostring) : bool :=
  match containers with
  | [] => true
  | container :: containers' =>
    if negb (match_string containerPattern container) || contains (lit "--") container then false
    else if existsb (str_eqb container) seen then false
    else containers_accepted containers' (container :: seen)
  end.

Definition validPublisherConfig (config : Config) : bool :=
  if negb (match_string repositoryPattern (cf_Repository config)) || (cf_BatchSize config <? 1) ||
     (maxPublicationBatchSize <? cf_BatchSize config) || negb (validApplicationOrigin (cf_ApplicationOrigin config))
  then false
  else containers_accepted [cf_ReleasesContainer config; cf_ManifestsContainer config; cf_BatchesContainer config] [].

(** [NewPublisher]; the interface arguments are set or not. *)
Definition NewPublisher (config : Config) (blobs queue : bool) : option Config :=
  let config := mkConfig (cf_Repository config) (cf_ReleasesContainer config) (cf_ManifestsContainer config)
    (cf_BatchesContainer config) (cf_ApplicationOrigin config)
    (if cf_BatchSize config =? 0 then maxPublicationBatchSize else cf_BatchSize config) in
  if negb (validPublisherConfig config) || negb blobs || negb queue then None
  else Some (mkConfig (cf_Repository config) (cf_ReleasesContainer config) (cf_ManifestsContainer config)
    (cf_BatchesContainer config) (trim_suffix (lit "/") (cf_ApplicationOrigin config)) (cf_BatchSize config)).

(** [validRecipients]; [previous] is the address before. *)
Fixpoint valid_recipients (recipients : list Recipient) (previous : option gostring) : bool :=
  match recipients with
  | [] => true
  | recipient :: recipients' =>
    if negb (is_ok (ParseRecipient (marshal_struct recipient))) ||
       match previous with Some email => negb (email <s rc_Email recipient) | None => false end
    then false
    else valid_recipients recipients' (Some (rc_Email recipient))
  end.
Definition validRecipients (recipients : list Recipient) : bool := valid_recipients recipients None.

Definition deriveOperationID (repository commitSHA : gostring) (source : SourceRelease) : gostring :=
  sha256_hex (marshal_struct (mkOperationIntent commitSHA source (to_lower repository))).

Definition batch_body (recipients : list Recipient) : gostring :=
  flat_map (λ recipient, marshal_struct recipient ++ [byte 10]) recipients.

(** The loop of [buildBatches] from [start] on. [fuel] bounds the rounds; a round too many is a loop
    that does not end. *)
Fixpoint batch_loop (fuel : nat) (recipients : list Recipient) (batchSize start : Z) : pprog (list gostring) :=
  if start <? len recipients then
    match fuel with
    | O => Vis PDiverge (λ x : Empty_set, match x with end)
    | S fuel =>
      let stop := Z.min (start + batchSize) (len recipients) in
      batches ← batch_loop fuel recipients batchSize (start + batchSize);
      Ret (batch_body (take (Z.to_nat (stop - start)) (drop (Z.to_nat start) recipients)) :: batches)
    end
  else Ret [].

(** [buildBatches]; dividing by a zero [batchSize] panics. *)
Definition buildBatches (recipients : list Recipient) (batchSize : Z) : pprog (option (list gostring)) :=
  if batchSize =? 0 then Vis PPanic (λ x : Empty_set, match x with end)
  else
    let batchCount := Z.quot (len recipients + batchSize - 1) batchSize in
    if (batchCount <? 1) || (10000 <? batchCount) then Ret None
    else batches ← batch_loop (length recipients) recipients batchSize 0; Ret (Some batches).

Definition batchRecipientCount (index total size : Z) : Z := Z.min size (total - index * size).

Definition leftPad (value width : Z) : gostring := repeat_byte "0"%char (Z.max (width - len (itoa value)) 0) ++ itoa value.

Record publicationPlan : Type := mkPlan {
  pp_request : PublishRequest; pp_artifactPath : gostring; pp_operationID : gostring; pp_batches : list gostring }.

Definition plan_result (plan : publicationPlan) : PublicationResult :=
  mkPublicationResult (len (pp_batches plan)) (pp_operationID plan) (sr_ReleaseID (rq_Source (pp_request plan)))
    (sr_Version (rq_Source (pp_request plan))).

(** ** Publishing *)

Section Publisher.
Context `{Blobs : BlobWriter} `{Queue : QueueWriter}.
Variable config : Config.

Definition plan (request : PublishRequest) : pprog (result publication_error publicationPlan) :=
  if negb (match_string commitPattern (rq_CommitSHA request)) || negb (validCreatedAt (rq_CreatedAt request)) ||
     (len (rq_Recipients request) =? 0) || negb (validRecipients (rq_Recipients request))
  then Ret (publicationError [])
  else
    artifactPath ← verifySourceArtifact (rq_RepositoryRoot request) (rq_Source request);
    match artifactPath with
    | None => Ret (publicationError (lit "SOURCE_ARTIFACT"))
    | Some artifactPath =>
      let operationID := deriveOperationID (cf_Repository config) (rq_CommitSHA request) (rq_Source request) in
      batches ← buildBatches (rq_Recipients request) (cf_BatchSize config);
      match batches with
      | None => Ret (publicationError [])
      | Some batches => Ret (Ok (mkPlan request artifactPath operationID batches))
      end
    end.

Definition publishIdentity (plan : publicationPlan) : pprog (result publication_error unit) :=
  let source := rq_Source (pp_request plan) in
  let body := marshal_struct (mkReleaseIdentity (rq_CommitSHA (pp_request plan)) (pp_operationID plan)
    (to_lower (cf_Repository config)) (lit "1.0") source) in
  put ← PutImmutableBytes (mkImmutableBytes (cf_ManifestsContainer config)
    (lit "release-identities/" ++ sr_ReleaseID source ++ lit "/" ++ sr_Version source ++ lit ".json") body (lit "application/json"));
  Ret (match put with Ok _ => Ok tt | Err _ => publicationError (lit "IDENTITY_BLOB") end).

Definition publishDAR (plan : publicationPlan) : pprog (result publication_error PublishedBlob) :=
  let source := rq_Source (pp_request plan) in
  put ← PutImmutableFile (mkImmutableFile (cf_ReleasesContainer config) (sr_Version source ++ lit "/" ++ sr_DownloadName source)
    (pp_artifactPath plan) (sr_DARSHA256 source) (sr_DARSize source) (lit "application/octet-stream"));
  match put with
  | Err _ => Ret (publicationError (lit "DAR_BLOB"))
  | Ok published =>
    let reference := pb_Reference published in
    if negb (br_SHA256 reference =s sr_DARSHA256 source) || negb (br_Size reference =? sr_DARSize source) ||
       negb (br_Container reference =s cf_ReleasesContainer config)
    then Ret (publicationError (lit "DAR_BLOB")) else Ret (Ok published)
  end.

Definition manifest_of (plan : publicationPlan) (dar : BlobReference) : PublishedManifest :=
  let source := rq_Source (pp_request plan) in
  mkPublishedManifest dar (sr_DownloadName source) (pp_operationID plan) (rq_CreatedAt (pp_request plan)) (sr_ReleaseID source)
    (sr_Version source) (to_lower (cf_Repository config)) (lit "1.0") (rq_CommitSHA (pp_request plan)).

Definition publishManifest (plan : publicationPlan) (dar : BlobReference) :
  pprog (result publication_error (PublishedBlob * gostring)) :=
  let source := rq_Source (pp_request plan) in
  let body := marshal_struct (manifest_of plan dar) in
  if negb (is_ok (ParsePublishedManifest body)) then Ret (publicationError (lit "MANIFEST_CONTRACT"))
  else
    put ← PutImmutableBytes (mkImmutableBytes (cf_ManifestsContainer config)
      (lit "published/" ++ sr_ReleaseID source ++ lit "/" ++ pp_operationID plan ++ lit ".json") body (lit "application/json"));
    Ret (match put with Ok published => Ok (published, body) | Err _ => publicationError (lit "MANIFEST_BLOB") end).

(** The loop of [publishBatches] from batch [index] on. *)
Fixpoint publish_batches (operationID : gostring) (bodies : list gostring) (index : Z) :
  pprog (result publication_error (list PublishedBlob)) :=
  match bodies with
  | [] => Ret (Ok [])
  | body :: bodies' =>
    put ← PutImmutableBytes (mkImmutableBytes (cf_BatchesContainer config)
      (operationID ++ lit "/batch-" ++ leftPad index 4 ++ lit ".jsonl") body (lit "application/x-ndjson"));
    match put with
    | Err _ => Ret (publicationError (lit "BATCH_BLOB"))
    | Ok batch =>
      rest ← publish_batches operationID bodies' (index + 1);
      Ret (match rest with Ok published => Ok (batch :: published) | Err e => Err e end)
    end
  end.
Definition publishBatches (plan : publicationPlan) : pprog (result publication_error (list PublishedBlob)) :=
  publish_batches (pp_operationID plan) (pp_batches plan) 0.

Definition message_of (plan : publicationPlan) (manifest batch : BlobReference) (index : Z) : QueueMessage :=
  let source := rq_Source (pp_request plan) in
  mkQueueMessage
    (cf_ApplicationOrigin config ++ lit "/v1/releases/" ++ sr_Version source ++ lit "/download/" ++ sr_DownloadName source)
    (rq_CreatedAt (pp_request plan)) manifest (pp_operationID plan ++ lit ":" ++ itoa index) (pp_operationID plan)
    (mkBatchReference (len (pp_batches plan)) index (br_Container batch) (br_Name batch)
       (batchRecipientCount index (len (rq_Recipients (pp_request plan))) (cf_BatchSize config))
       (br_SHA256 batch) (br_Size batch) (br_VersionID batch))
    (sr_ReleaseID source) (sr_Version source) (lit "1.0") (rq_CommitSHA (pp_request plan)).

Definition queueRequest (plan : publicationPlan) (manifest batch : BlobReference) (index : Z) :
  result publication_error QueueRequest :=
  let messageID := pp_operationID plan ++ lit ":" ++ itoa index in
  let body := marshal_struct (message_of plan manifest batch index) in
  if negb (is_ok (ParseQueueMessage body messageID)) then publicationError (lit "MESSAGE_CONTRACT")
  else Ok (mkQueueRequest messageID body).

(** The loop of [enqueueBatches] from batch [index] on. *)
Fixpoint enqueue_batches (plan : publicationPlan) (manifest : BlobReference) (batches : list PublishedBlob) (index : Z) :
  pprog (result publication_error unit) :=
  match batches with
  | [] => Ret (Ok tt)
  | batch :: batches' =>
    match queueRequest plan manifest (pb_Reference batch) index with
    | Err e => Ret (Err e)
    | Ok request =>
      sent ← SendRequest request;
      match sent with
      | Err _ => Ret (publicationError (lit "MESSAGE_SEND"))
      | Ok _ => enqueue_batches plan manifest batches' (index + 1)
      end
    end
  end.
Definition enqueueBatches (plan : publicationPlan) (manifest : BlobReference) (batches : list PublishedBlob) :
  pprog (result publication_error unit) := enqueue_batches plan manifest batches 0.

Definition advanceCurrentManifest (plan : publicationPlan) (body : gostring) : pprog (result publication_error unit) :=
  let source := rq_Source (pp_request plan) in
  put ← PutCurrentManifest (mkCurrentManifest (cf_ManifestsContainer config) (lit "current/" ++ sr_ReleaseID source ++ lit ".json")
    body (sr_Version source));
  Ret (match put with Ok _ => Ok tt | Err _ => publicationError (lit "CURRENT_MANIFEST") end).

(** [Publish], with a context. *)
Definition Publish (request : PublishRequest) : pprog (result publication_error PublicationResult) :=
  planned ← plan request;
  match planned with
  | Err _ => Ret (publicationError [])
  | Ok plan =>
    identity ← publishIdentity plan;
    match identity with
    | Err e => Ret (Err e)
    | Ok _ =>
      dar ← publishDAR plan;
      match dar with
      | Err e => Ret (Err e)
      | Ok dar =>
        manifest ← publishManifest plan (pb_Reference dar);
        match manifest with
        | Err e => Ret (Err e)
        | Ok (manifest, manifestBody) =>
          batches ← publishBatches plan;
          match batches with
          | Err e => Ret (Err e)
          | Ok batches =>
            enqueued ← enqueueBatches plan (pb_Reference manifest) batches;
            match enqueued with
            | Err e => Ret (Err e)
            | Ok _ =>
              advanced ← advanceCurrentManifest plan manifestBody;
              match advanced with
              | Err e => Ret (Err e)
              | Ok _ => Ret (Ok (plan_result plan))
              end
            end
          end
        end
      end
    end
  end.
End Publisher.
