(* ===== verification/PublicationAzure.v ===== *)
(** * internal/publication/azure.go

    The Azure implementations of the publisher's [BlobWriter] and [QueueWriter]: create-only uploads
    that accept an equal blob already there, and the compare-and-swap of the current manifest. *)

From stdpp Require Import strings.
From S2P Require Import Prelude Utf8 GoStrings Regex StrictJson Sha256 Contracts Program Azure PublicationEffects Source Publisher.

Definition maxManifestBytes : Z := 64 * 1024.

(** [azureStatus]: zero for an error that is not an HTTP response. *)
Definition azureStatus (e : azure_error) : Z := match e with AzStatus s => s | _ => 0 end.

(** [metadataValue]; the metadata is listed in the order a Go map range visits it. *)
Fixpoint metadataValue (metadata : list (gostring * option gostring)) (expected : gostring) : gostring :=
  match metadata with
  | [] => []
  | (name, value) :: metadata' =>
    match value with
    | Some v => if equal_fold name expected then v else metadataValue metadata' expected
    | None => metadataValue metadata' expected
    end
  end.

Definition metadataMatches (metadata : list (gostring * option gostring)) (body : gostring) : bool :=
  metadataValue metadata (lit "sha256") =s sha256_hex body.

Record blobIdentity : Type := mkBlobIdentity {
  bi_container : gostring; bi_name : gostring; bi_digest : gostring; bi_size : Z; bi_contentType : gostring }.

(** [blobUpload] without its conditions, which are an argument. *)
Record blobUpload : Type := mkBlobUpload { bu_identity : blobIdentity; bu_body : Reader }.

Definition failed {A} : result publication_error A := Err (ErrPublication []).

Definition publishedFromUpload (identity : blobIdentity) (response : upload_response) : result publication_error PublishedBlob :=
  match ur_ETag response, ur_VersionID response with
  | Some etag, Some version =>
    if version =s [] then failed
    else Ok (mkPublishedBlob (mkBlobReference (bi_container identity) (bi_name identity) (bi_digest identity) (bi_size identity) version) etag)
  | _, _ => failed
  end.

Definition publishedFromProperties (identity : blobIdentity) (properties : blob_properties) : result publication_error PublishedBlob :=
  match bp_ETag properties, bp_VersionID properties, bp_ContentLength properties with
  | Some etag, Some version, Some size =>
    if (version =s []) || (size <? 1) then failed
    else
      let digest := metadataValue (bp_Metadata properties) (lit "sha256") in
      if negb (len digest =? 64) then failed
      else Ok (mkPublishedBlob (mkBlobReference (bi_container identity) (bi_name identity) digest size version) etag)
  | _, _, _ => failed
  end.

(** [upload]. *)
Definition upload_blob (upload : blobUpload) (conditions : blob_condition) : pprog (result azure_error upload_response) :=
  let identity := bu_identity upload in
  pperform (PUpload (bi_container identity) (bi_name identity) (bu_body upload) (bi_contentType identity)
    [(lit "sha256", bi_digest identity)] conditions).

Definition putImmutable (upload : blobUpload) : pprog (result publication_error PublishedBlob) :=
  let identity := bu_identity upload in
  if negb (match_string containerPattern (bi_container identity)) || (bi_name identity =s []) || (bi_size identity <? 1) ||
     negb (len (bi_digest identity) =? 64) || (bi_contentType identity =s [])
  then _ ← pperform PClose; Ret failed
  else
    response ← upload_blob upload CreateOnly;
    match response with
    | Ok response => Ret (publishedFromUpload identity response)
    | Err e =>
      if negb (azureStatus e =? 409) && negb (azureStatus e =? 412) then Ret failed
      else
        properties ← pperform (PGetProperties (bi_container identity) (bi_name identity));
        match properties with
        | Err _ => Ret failed
        | Ok properties =>
          match publishedFromProperties identity properties with
          | Err _ => Ret failed
          | Ok published =>
            if negb (br_SHA256 (pb_Reference published) =s bi_digest identity) ||
               negb (br_Size (pb_Reference published) =? bi_size identity)
            then Ret failed else Ret (Ok published)
          end
        end
    end.

Definition azure_PutImmutableBytes (request : ImmutableBytesRequest) : pprog (result publication_error PublishedBlob) :=
  if len (ib_Body request) <? 1 then Ret failed
  else putImmutable (mkBlobUpload (mkBlobIdentity (ib_Container request) (ib_Name request) (sha256_hex (ib_Body request))
         (len (ib_Body request)) (ib_ContentType request)) (mkReader (ib_Body request) None)).

Definition azure_PutImmutableFile (request : ImmutableFileRequest) : pprog (result publication_error PublishedBlob) :=
  info ← pperform (FStat (if_FileName request));
  match info with
  | None => Ret failed
  | Some info =>
    if negb (fi_regular info) || negb (fi_size info =? if_ExpectedSize request) then Ret failed
    else
      actualDigest ← fileDigest (if_FileName request);
      match actualDigest with
      | None => Ret failed
      | Some actualDigest =>
        if negb (actualDigest =s if_ExpectedDigest request) then Ret failed
        else
          file ← pperform (FOpen (if_FileName request));
          match file with
          | None => Ret failed
          | Some file =>
            putImmutable (mkBlobUpload (mkBlobIdentity (if_Container request) (if_Name request) (if_ExpectedDigest request)
              (if_ExpectedSize request) (if_ContentType request)) file)
          end
      end
  end.

Definition downloadCurrent (container name : gostring) (properties : blob_properties) : pprog (option gostring) :=
  match bp_ContentLength properties with
  | None => Ret None
  | Some size =>
    if (size <? 1) || (maxManifestBytes <? size) then Ret None
    else
      response ← pperform (PDownload container name);
      match response with
      | Ok (Some reader) =>
        let read := read_bounded (Some reader) maxManifestBytes in
        _ ← pperform PClose;
        match read with
        | None => Ret None
        | Some body =>
          if negb (len body =? size) || negb (metadataMatches (bp_Metadata properties) body) then Ret None else Ret (Some body)
        end
      | _ => Ret None
      end
  end.

Definition azure_PutCurrentManifest (request : CurrentManifestRequest) : pprog (result publication_error PublishedBlob) :=
  if (len (cm_Body request) <? 1) || (maxManifestBytes <? len (cm_Body request)) then Ret failed
  else
    properties ← pperform (PGetProperties (cm_Container request) (cm_Name request));
    match properties with
    | Err e =>
      if negb (azureStatus e =? 404) then Ret failed
      else azure_PutImmutableBytes (mkImmutableBytes (cm_Container request) (cm_Name request) (cm_Body request) (lit "application/json"))
    | Ok properties =>
      existing ← downloadCurrent (cm_Container request) (cm_Name request) properties;
      match existing with
      | None => Ret failed
      | Some existing =>
        if existing =s cm_Body request then
          Ret (publishedFromProperties (mkBlobIdentity (cm_Container request) (cm_Name request) [] 0 []) properties)
        else match ParsePublishedManifest existing with
        | Err _ => Ret failed
        | Ok manifest =>
          match productVersionKey (pm_ReleaseVersion manifest), productVersionKey (cm_ReleaseVersion request), bp_ETag properties with
          | Some existingKey, Some incomingKey, Some etag =>
            if negb (versionKeyLess existingKey incomingKey) then Ret failed
            else
              let identity := mkBlobIdentity (cm_Container request) (cm_Name request) (sha256_hex (cm_Body request))
                (len (cm_Body request)) (lit "application/json") in
              response ← upload_blob (mkBlobUpload identity (mkReader (cm_Body request) None)) (Replacing etag);
              match response with
              | Err _ => Ret failed
              | Ok response => Ret (publishedFromUpload identity response)
              end
          | _, _, _ => Ret failed
          end
        end
      end
    end.

(** [NewAzureBlobWriter] and [NewAzureQueueWriter] of a client, here whether it is set. *)
Definition NewAzureBlobWriter (serviceClient : bool) : result publication_error unit := if negb serviceClient then failed else Ok tt.
Definition NewAzureQueueWriter (sender : bool) : result publication_error unit := if negb sender then failed else Ok tt.

(** [AzureQueueWriter.Send]. *)
Definition azure_SendRequest (request : QueueRequest) : pprog (result publication_error unit) :=
  if (qr_MessageID request =s []) || (128 <? len (qr_MessageID request)) || (len (qr_Body request) <? 1) ||
     (64 * 1024 <? len (qr_Body request))
  then Ret failed
  else
    sent ← pperform (PSend (mkBusMessage (qr_Body request) (lit "application/json") (qr_MessageID request) (lit "dar.release.batch.v1")));
    Ret (if (sent : bool) then Ok tt else failed).

#[export] Instance azure_blob_writer : BlobWriter := {|
  PutImmutableBytes := azure_PutImmutableBytes;
  PutImmutableFile := azure_PutImmutableFile;
  PutCurrentManifest := azure_PutCurrentManifest |}.

#[export] Instance azure_queue_writer : QueueWriter := {| SendRequest := azure_SendRequest |}.
