(* ===== verification/PublicationConfig.v ===== *)
(** * internal/publication/config.go

    The secretless configuration of the publisher. *)

From stdpp Require Import strings.
From S2P Require Import Prelude Utf8 GoStrings Regex GoTime Json StrictJson Contracts Program Azure PublicationEffects Source Publisher PublicationAzure.

Definition EnvRepository : gostring := lit "DAR_PUBLISHER_REPOSITORY".
Definition EnvCommitSHA : gostring := lit "DAR_PUBLISHER_SOURCE_COMMIT_SHA".
Definition EnvCommitEpoch : gostring := lit "DAR_PUBLISHER_SOURCE_COMMIT_EPOCH".
Definition EnvRepositoryRoot : gostring := lit "DAR_PUBLISHER_REPOSITORY_ROOT".
Definition EnvReleaseID : gostring := lit "DAR_PUBLISHER_RELEASE_ID".
Definition EnvRecipientsFile : gostring := lit "DAR_PUBLISHER_RECIPIENTS_FILE".
Definition EnvStorageAccount : gostring := lit "DAR_PUBLISHER_STORAGE_ACCOUNT_NAME".
Definition EnvReleasesContainer : gostring := lit "DAR_PUBLISHER_RELEASES_CONTAINER".
Definition EnvManifestsContainer : gostring := lit "DAR_PUBLISHER_MANIFESTS_CONTAINER".
Definition EnvBatchesContainer : gostring := lit "DAR_PUBLISHER_BATCHES_CONTAINER".
Definition EnvServiceBusNamespace : gostring := lit "DAR_PUBLISHER_SERVICEBUS_NAMESPACE".
Definition EnvServiceBusQueue : gostring := lit "DAR_PUBLISHER_SERVICEBUS_QUEUE".
Definition EnvApplicationOrigin : gostring := lit "DAR_PUBLISHER_APPLICATION_ORIGIN".

Inductive environment_error : Type := ErrEnvironment.

Import Class_.
Definition storageAccountPattern : re := RCount lower_digit 3 24.
Definition serviceBusNamespacePattern : re :=
  RSeq [RClass lower_digit; RCount (plus lower_digit (lit "-")) 4 48; RClass lower_digit; RLit ".servicebus.windows.net"].
Definition queueNamePattern : re := RSeq [RClass alnum; RCount (plus alnum (lit "._/-")) 0 258; RClass alnum].

Record Environment : Type := mkEnvironment {
  en_ApplicationOrigin : gostring; en_BatchesContainer : gostring; en_CommitSHA : gostring; en_CreatedAt : gostring;
  en_ManifestsContainer : gostring; en_RecipientsFile : gostring; en_ReleaseID : gostring; en_ReleasesContainer : gostring;
  en_Repository : gostring; en_RepositoryRoot : gostring; en_ServiceBusNamespace : gostring; en_ServiceBusQueue : gostring;
  en_StorageAccount : gostring }.

Definition PublisherConfig (e : Environment) : Config :=
  mkConfig (en_Repository e) (en_ReleasesContainer e) (en_ManifestsContainer e) (en_BatchesContainer e)
    (en_ApplicationOrigin e) maxPublicationBatchSize.

Definition containsControl (value : gostring) : bool :=
  existsb (λ r, (rune_cp r <? 0x20) || (rune_cp r =? 0x7f)) (runes value).

Definition forbidden_variables : list gostring :=
  [lit "DAR_PUBLISHER_STORAGE_KEY"; lit "DAR_PUBLISHER_STORAGE_CONNECTION_STRING";
   lit "DAR_PUBLISHER_SERVICEBUS_CONNECTION_STRING"; lit "DAR_PUBLISHER_SENDGRID_API_KEY"].

Definition required_variables : list gostring :=
  [EnvRepository; EnvCommitSHA; EnvCommitEpoch; EnvRepositoryRoot; EnvReleaseID; EnvRecipientsFile; EnvStorageAccount;
   EnvReleasesContainer; EnvManifestsContainer; EnvBatchesContainer; EnvServiceBusNamespace; EnvServiceBusQueue;
   EnvApplicationOrigin].

(** [ParseEnvironment] of a map that is not nil. *)
Definition ParsePublisherEnvironment (values : gmap gostring gostring) : result environment_error Environment :=
  let get name := default [] (values !! name) in
  if existsb (λ name, negb (trim_space (get name) =s [])) forbidden_variables then Err ErrEnvironment
  else if existsb (λ name, (trim_space (get name) =s []) || containsControl (get name)) required_variables then Err ErrEnvironment
  else match parse_int (get EnvCommitEpoch) with
  | None => Err ErrEnvironment
  | Some epoch =>
    if (epoch <? 946684800) || (4102444799 <? epoch) then Err ErrEnvironment
    else
      let namespace := to_lower (get EnvServiceBusNamespace) in
      if negb (containers_accepted [get EnvReleasesContainer; get EnvManifestsContainer; get EnvBatchesContainer] []) then Err ErrEnvironment
      else if negb (match_string repositoryPattern (get EnvRepository)) || negb (match_string commitPattern (get EnvCommitSHA)) ||
              negb (match_string releaseIDPattern (get EnvReleaseID)) || negb (match_string storageAccountPattern (get EnvStorageAccount)) ||
              negb (match_string serviceBusNamespacePattern namespace) || negb (match_string queueNamePattern (get EnvServiceBusQueue)) ||
              contains (lit "//") (get EnvServiceBusQueue) || contains (lit "..") (get EnvServiceBusQueue) ||
              negb (validApplicationOrigin (get EnvApplicationOrigin))
      then Err ErrEnvironment
      else Ok (mkEnvironment (trim_suffix (lit "/") (get EnvApplicationOrigin)) (get EnvBatchesContainer) (get EnvCommitSHA)
                 (formatTime (mkTime (epoch * Second) true)) (get EnvManifestsContainer) (get EnvRecipientsFile) (get EnvReleaseID)
                 (get EnvReleasesContainer) (get EnvRepository) (get EnvRepositoryRoot) namespace (get EnvServiceBusQueue)
                 (get EnvStorageAccount))
  end.
