(* ===== verification/Batches.v ===== *)
(** * Recipient batches

    The publisher writes batches, the worker reads them. Theorems about both ends: a batch the
    publisher builds is read back by the worker's scanner as the recipients it was built from, the
    batches of a cohort are its chunks in order; and the one row length on which the two ends
    disagree. *)

From stdpp Require Import strings.
From S2P Require Import Prelude Utf8 GoStrings Regex GoTime Json JsonFacts StrictJson Sha256 Contracts Receipt Program Azure Effects Worker AzureStorage Protocol PublicationEffects Source Publisher.

(** ** Rows *)

(** A printed string holds no control characters. *)
Lemma escape_byte_visible b : Forall (λ c, 0x20 ≤ code c) (escape_byte b).
Proof.
  assert (H : forallb (λ c, 0x20 <=? code c) (escape_byte b) = true) by (revert b; apply ascii_forall; vm_compute; reflexivity).
  apply forallb_Forall in H. eapply Forall_impl; [exact H|]. intros c Hc. by apply Z.leb_le.
Qed.

Lemma u_escape_visible cp : 0 ≤ cp < 0x10000 → Forall (λ c, 0x20 ≤ code c) (u_escape cp).
Proof.
  intros Hcp. assert (Hd : ∀ n, 0 ≤ n < 16 → 0x20 ≤ code (hex_digit n)).
  { intros n Hn. assert (Hall : Forall (λ n, 0x20 ≤ code (hex_digit n)) (seqZ 0 16)).
    { apply (bool_decide_unpack _). vm_compute. exact I. }
    rewrite Forall_forall in Hall. apply Hall. apply elem_of_seqZ. lia. }
  unfold u_escape, hex4. rewrite !Forall_cons. split_and!; [by vm_compute|by vm_compute|apply Hd..|constructor]; try (apply Z.mod_pos_bound; lia).
  split; [apply Z.div_pos; lia|apply Z.div_lt_upper_bound; lia].
Qed.

Lemma escape_visible s : Forall (λ c, 0x20 ≤ code c) (escape s).
Proof.
  unfold escape. pose proof (runes_wf s) as H. induction H as [|r rs Hr _ IH]; [constructor|]. cbn [flat_map].
  apply Forall_app. split; [|done]. destruct r as [cp raw|b]; cbn [escape_rune]; [|by apply u_escape_visible].
  destruct (Z.ltb_spec cp 0x80) as [Hcp|Hcp].
  - destruct (rune_ascii_raw cp raw Hr Hcp) as (b & -> & _ & _). cbn [flat_map]. rewrite app_nil_r. apply escape_byte_visible.
  - destruct ((cp =? 0x2028) || (cp =? 0x2029)) eqn:E; [apply u_escape_visible; breflect; lia|].
    pose proof (rune_wide_bytes cp raw Hr Hcp) as Hw. apply forallb_Forall in Hw. eapply Forall_impl; [exact Hw|].
    intros c Hc. unfold plain in Hc. breflect. tauto.
Qed.

Lemma print_string_visible s : Forall (λ c, 0x20 ≤ code c) (print_string s).
Proof. unfold print_string. constructor; [by vm_compute|]. apply Forall_app. split; [apply escape_visible|]. by apply Forall_singleton. Qed.

(** The text of a recipient: visible characters, closed by a brace. *)
Lemma recipient_row (r : Recipient) :
  ∃ t, marshal_struct r = t ++ ["}"%char] ∧ Forall (λ c, 0x20 ≤ code c) (marshal_struct r).
Proof.
  exists ("{"%char :: print_string (lit "email") ++ ":"%char :: print_string (rc_Email r) ++
     ","%char :: print_string (lit "first_name") ++ ":"%char :: print_string (rc_FirstName r) ++
     ","%char :: print_string (lit "last_name") ++ ":"%char :: print_string (rc_LastName r)).
  assert (E : marshal_struct r = "{"%char :: print_string (lit "email") ++ ":"%char :: print_string (rc_Email r) ++
     ","%char :: print_string (lit "first_name") ++ ":"%char :: print_string (rc_FirstName r) ++
     ","%char :: print_string (lit "last_name") ++ ":"%char :: print_string (rc_LastName r) ++ ["}"%char]).
  { unfold marshal_struct, marshal. cbn [to_gval kind_of recipient_struct encode recipient_kind print flat_map fst snd].
    rewrite app_nil_r. by repeat (rewrite <- !app_assoc; cbn [app]). }
  split; [rewrite E; cbn [app]; by repeat (rewrite <- app_assoc; cbn [app])|].
  assert (Hc : ∀ c l, (0x20 <=? code c) = true → Forall (λ c, 0x20 ≤ code c) l → Forall (λ c, 0x20 ≤ code c) (c :: l)).
  { intros c l Hc Hl. constructor; [by apply Z.leb_le|done]. }
  rewrite E. repeat match goal with
    | |- Forall _ (_ :: _) => apply Hc; [reflexivity|]
    | |- Forall _ (_ ++ _) => apply Forall_app; split; [apply print_string_visible|]
    end. constructor.
Qed.

Lemma row_newline (r : Recipient) : newline ∉ marshal_struct r.
Proof. destruct (recipient_row r) as (t & _ & Hv). rewrite Forall_forall in Hv. intros Hin. apply Hv in Hin. by vm_compute in Hin. Qed.

Lemma row_dropCR (r : Recipient) : dropCR (marshal_struct r) = marshal_struct r.
Proof. destruct (recipient_row r) as (t & -> & _). unfold dropCR. rewrite rev_app_distr. cbn [rev app]. by change (code "}"%char =? 13) with false. Qed.

Lemma row_nonempty (r : Recipient) : len (marshal_struct r) ≠ 0.
Proof. destruct (recipient_row r) as (t & -> & _). rewrite len_app. change (len ["}"%char]) with 1. pose proof (len_nonneg t). lia. Qed.

(** The scanner takes one row after the other. *)
Lemma scan_row f row rest :
  newline ∉ row → dropCR row = row → len row ≤ 1023 →
  scan_lines (S f) (row ++ newline :: rest) None =
  let '(rows, ok) := scan_lines f rest None in (row :: rows, ok).
Proof.
  intros Hn Hc Hl. cbn [scan_lines]. destruct (row ++ newline :: rest) as [|c t] eqn:E; [by destruct row|]. rewrite <- E.
  rewrite cut_byte_app by done. rewrite (proj2 (Z.leb_le _ _)) by lia. by rewrite Hc.
Qed.

(** Rows the buffer of the scanner holds. *)
Definition short_row (r : Recipient) : bool := len (marshal_struct r) <=? 1023.

(** The recipients before the first whose row has 1024 bytes. *)
Fixpoint short_rows (rs : list Recipient) : list Recipient :=
  match rs with
  | [] => []
  | r :: rs' => if short_row r then r :: short_rows rs' else []
  end.

Lemma short_rows_all rs : forallb short_row rs = true → short_rows rs = rs.
Proof. induction rs as [|r rs IH]; [done|]. cbn [forallb short_rows]. intros [-> H]%andb_true_iff. by rewrite IH. Qed.

Lemma short_rows_Forall (P : Recipient → Prop) rs : Forall P rs → Forall P (short_rows rs).
Proof. induction 1 as [|r rs Hr _ IH]; [constructor|]. cbn [short_rows]. case_match; [by constructor|constructor]. Qed.

Lemma scan_batch_rows f (rs : list Recipient) :
  (length rs < f)%nat → scan_lines f (batch_body rs) None = (map marshal_struct (short_rows rs), forallb short_row rs).
Proof.
  revert f; induction rs as [|r rs IH]; intros f Hf; (destruct f as [|f]; [cbn in Hf; lia|]); [done|].
  unfold batch_body. cbn [flat_map]. fold (batch_body rs). rewrite <- app_assoc. cbn [app forallb short_rows]. change (byte 10) with newline.
  destruct (short_row r) eqn:Hr; unfold short_row in Hr; breflect; cbn [map andb].
  - rewrite scan_row, IH by (done || apply row_newline || apply row_dropCR || (cbn in Hf; lia)). done.
  - cbn [scan_lines]. destruct (marshal_struct r ++ newline :: batch_body rs) as [|c u] eqn:E; [by destruct (marshal_struct r)|].
    rewrite <- E, cut_byte_app by apply row_newline. by rewrite (proj2 (Z.leb_gt _ _)) by lia.
Qed.

Lemma parse_rows_marshal (rs : list Recipient) :
  Forall (λ r, ParseRecipient (marshal_struct r) = Ok r) rs → Protocol.parse_rows (map marshal_struct rs) = Some rs.
Proof.
  induction 1 as [|r rs Hr _ IH]; [done|]. cbn [map Protocol.parse_rows]. rewrite Hr, IH.
  by rewrite (proj2 (Z.eqb_neq _ _)) by apply row_nonempty.
Qed.

Lemma batch_last_byte (rs : list Recipient) : rs ≠ [] → last_byte (mkReader (batch_body rs) None) = newline.
Proof.
  intros Hn. unfold last_byte. cbn [rd_data]. unfold batch_body. destruct rs as [|r rs'] using rev_ind; [done|].
  rewrite flat_map_app. cbn [flat_map]. rewrite app_nil_r, app_assoc. apply last_last.
Qed.

Lemma batch_body_rows (rs : list Recipient) : (length rs ≤ length (batch_body rs))%nat.
Proof. unfold batch_body. induction rs as [|r rs IH]; [done|]. cbn [flat_map length]. rewrite !length_app. cbn [length]. lia. Qed.

(** The recipients of a batch the publisher builds are those it was built from. *)
Lemma batch_read_exactly (rs : list Recipient) :
  rs ≠ [] → Forall (λ r, ParseRecipient (marshal_struct r) = Ok r) rs →
  batch_recipients (batch_body rs) = if forallb short_row rs then Some rs else None.
Proof.
  intros Hn Hp. unfold batch_recipients, scanner. cbn [rd_data rd_err].
  rewrite scan_batch_rows by (pose proof (batch_body_rows rs); lia). rewrite parse_rows_marshal by (by apply short_rows_Forall).
  cbn [mbind option_bind]. destruct (forallb short_row rs) eqn:E; [|done]. rewrite short_rows_all, batch_last_byte, Ascii.eqb_refl by done.
  destruct rs as [|r rs]; [done|]. rewrite len_cons. pose proof (len_nonneg rs). by rewrite (proj2 (Z.eqb_neq _ _)) by lia.
Qed.

(** [batch_recipients] is what [scanRecipientRows] collects when it succeeds. *)
Definition collect (acc : list Recipient) (r : Recipient) : prog (list Recipient * option error) := Ret (acc ++ [r], None).

Lemma scan_collect rows n acc :
  match Protocol.parse_rows rows with
  | Some rs => scan_loop collect rows n acc = Ret (acc ++ rs, inl (n + len rs))
  | None => ∃ acc' e, scan_loop collect rows n acc = Ret (acc', inr e)
  end.
Proof.
  revert n acc; induction rows as [|row rows IH]; intros n acc; cbn [Protocol.parse_rows scan_loop].
  { by rewrite app_nil_r, len_nil, Z.add_0_r. }
  destruct (len row =? 0); [eauto|]. destruct (ParseRecipient row) as [r|e]; [|eauto].
  cbn [collect mbind prog_mbind prog_bind]. specialize (IH (n + 1) (acc ++ [r])). destruct (Protocol.parse_rows rows) as [rs|]; cbn [mbind option_bind].
  - rewrite IH, <- app_assoc, len_cons. cbn [app]. do 3 f_equal. lia.
  - exact IH.
Qed.

Lemma batch_recipients_scan content rs :
  batch_recipients content = Some rs ↔ scanRecipientRows (mkReader content None) collect [] = Ret (rs, None).
Proof.
  unfold batch_recipients, scanRecipientRows. destruct (scanner (mkReader content None)) as [rows ok].
  pose proof (scan_collect rows 0 []) as Hc. destruct (Protocol.parse_rows rows) as [rs'|]; cbn [mbind option_bind].
  - rewrite Hc. cbn [mbind prog_mbind prog_bind app]. rewrite Z.add_0_l.
    destruct ok, (len rs' =? 0), (Ascii.eqb (last_byte (mkReader content None)) newline); cbn [andb orb negb]; split; congruence.
  - destruct Hc as (acc & e & ->). cbn. split; congruence.
Qed.

(** ** The recipients of a publication *)

(** A recipient [validRecipients] lets through is the one its row parses to. *)
Lemma ParseRecipient_marshal (r r' : Recipient) : ParseRecipient (marshal_struct r) = Ok r' → r' = r.
Proof.
  unfold ParseRecipient. intros H. destruct (decode_struct (marshal_struct r) 1024) as [x|] eqn:E; [|done].
  case_if_in H; [done|]. injection H as <-. apply decode_struct_sanitized in E; [|done].
  apply orb_false_iff in E0 as [_ Hc%negb_false_iff]. unfold recipient_checks in Hc. apply negb_true_iff in Hc. breflect. split_hyps.
  destruct x as [e f l], r as [e' f' l']. cbn [to_gval recipient_struct gval_sanitize map rc_Email rc_FirstName rc_LastName] in *.
  injection E as -> -> ->. f_equal; apply sanitize_ascii_inv; (eapply pattern_ascii; [|eassumption]; vm_compute; reflexivity).
Qed.

Lemma valid_recipients_rows rs previous :
  valid_recipients rs previous = true → Forall (λ r, ParseRecipient (marshal_struct r) = Ok r) rs.
Proof.
  revert previous; induction rs as [|r rs IH]; intros previous H; [constructor|]. cbn [valid_recipients] in H.
  case_if_in H; [done|]. apply orb_false_iff in E as [Hr%negb_false_iff _]. constructor; [|by eapply IH].
  destruct (ParseRecipient (marshal_struct r)) as [r'|] eqn:E; [|done]. by rewrite (ParseRecipient_marshal r r' E).
Qed.

(** ** What the worker reads *)

(** [process] called on one recipient after the other, until it fails. *)
Fixpoint process_rows {S} (process : S → Recipient → prog (S * option error)) (rs : list Recipient) (s : S) : prog (S * option error) :=
  match rs with
  | [] => Ret (s, None)
  | r :: rs' =>
    '(s, err) ← process s r;
    match err with
    | Some e => Ret (s, Some e)
    | None => process_rows process rs' s
    end
  end.

Lemma scan_loop_rows {S} (process : S → Recipient → prog (S * option error)) (rs : list Recipient) n s :
  Forall (λ r, ParseRecipient (marshal_struct r) = Ok r) rs →
  scan_loop process (map marshal_struct rs) n s ≡
  ('(s, err) ← process_rows process rs s; Ret (s, match err with Some e => inr e | None => inl (n + len rs) end)).
Proof.
  intros Hp. revert n s. induction Hp as [|r rs Hr _ IH]; intros n s; cbn [map scan_loop process_rows].
  { cbn. by rewrite len_nil, Z.add_0_r. }
  rewrite (proj2 (Z.eqb_neq _ _)) by apply row_nonempty. rewrite Hr, prog_bind_assoc. apply prog_bind_ext. intros [s' [e|]]; [done|].
  rewrite IH, len_cons. apply prog_bind_ext. intros [s'' [e|]]; [done|]. match goal with |- Ret (_, inl ?a) ≡ Ret (_, inl ?b) => by replace a with b by lia end.
Qed.

(** C33: Reading a batch the publisher built. [scanRecipientRows] hands exactly the recipients of the
    batch to its callback, each once and in order, and reports what the callback reported, when every
    row has at most 1023 bytes. With a row of 1024 bytes, which [validRecipients] and [ParseRecipient]
    accept, it hands over the recipients before that row and then fails. *)
Theorem batch_read_back {S} (process : S → Recipient → prog (S * option error)) (rs : list Recipient) (s : S) :
  rs ≠ [] → validRecipients rs = true →
  scanRecipientRows (mkReader (batch_body rs) None) process s ≡
  if forallb short_row rs then process_rows process rs s
  else ('(s, err) ← process_rows process (short_rows rs) s; Ret (s, Some (default ErrContract err))).
Proof.
  intros Hn Hv%valid_recipients_rows. unfold scanRecipientRows, scanner. cbn [rd_data rd_err].
  rewrite scan_batch_rows by (pose proof (batch_body_rows rs); lia).
  rewrite scan_loop_rows, prog_bind_assoc by (by apply short_rows_Forall).
  destruct (forallb short_row rs) eqn:E.
  - rewrite short_rows_all by done. rewrite <- (prog_bind_ret (process_rows process rs s)) at 2. apply prog_bind_ext. intros [s' [e|]]; [done|].
    cbn [mbind prog_mbind prog_bind negb orb]. rewrite batch_last_byte, Ascii.eqb_refl by done. destruct rs as [|r rs]; [done|]. rewrite len_cons. pose proof (len_nonneg rs).
    by rewrite (proj2 (Z.eqb_neq _ _)) by lia.
  - apply prog_bind_ext. by intros [s' [e|]].
Qed.

(** ** The batches of a cohort *)

(** The [i]-th part of [n] recipients, and how many parts there are. *)
Definition chunk {A} (n : nat) (l : list A) (i : nat) : list A := take n (drop (i * n) l).
Definition chunk_count {A} (n : nat) (l : list A) : nat := ((length l + n - 1) / n)%nat.

Lemma chunk_count_step {A} n (l : list A) : (1 ≤ n)%nat → l ≠ [] → chunk_count n l = S (chunk_count n (drop n l)).
Proof.
  intros Hn Hl. unfold chunk_count. rewrite length_drop. assert (1 ≤ length l)%nat by (destruct l; cbn; [done|lia]).
  destruct (Nat.le_gt_cases n (length l)).
  - replace (length l + n - 1)%nat with (length l - n + n - 1 + 1 * n)%nat by lia. rewrite Nat.div_add by lia. lia.
  - rewrite (Nat.div_small (length l - n + n - 1) n) by lia.
    replace (length l + n - 1)%nat with (length l - 1 + 1 * n)%nat by lia. rewrite Nat.div_add, Nat.div_small by lia. lia.
Qed.

Lemma chunk_step {A} n (l : list A) i : chunk n l (S i) = chunk n (drop n l) i.
Proof. unfold chunk. rewrite drop_drop. by replace (S i * n)%nat with (n + i * n)%nat by lia. Qed.

Lemma chunk_count_lt {A} n (l : list A) i : (1 ≤ n)%nat → (i < chunk_count n l ↔ i * n < length l)%nat.
Proof.
  intros Hn. unfold chunk_count. pose proof (Nat.div_mod_eq (length l + n - 1) n).
  pose proof (Nat.mod_upper_bound (length l + n - 1) n). split; nia.
Qed.

(** The loop ends within its fuel, and its batches are the parts that are left. *)
Lemma batch_loop_chunks fuel (rs : list Recipient) batchSize i :
  1 ≤ batchSize → (length rs ≤ i + fuel)%nat →
  let n := Z.to_nat batchSize in
  batch_loop fuel rs batchSize (Z.of_nat (i * n)) =
  Ret (map (λ i, batch_body (chunk n rs i)) (seq i (chunk_count n rs - i))).
Proof.
  intros Hb Hf n. assert (Hn : (1 ≤ n)%nat) by (subst n; lia).
  revert i Hf; induction fuel as [|fuel IH]; intros i Hf; pose proof (chunk_count_lt n rs i Hn) as Hc; cbn [batch_loop].
  - rewrite (proj2 (Z.ltb_ge _ _)) by (unfold len; nia). by replace (chunk_count n rs - i)%nat with O by nia.
  - destruct (Z.ltb_spec (Z.of_nat (i * n)) (len rs)) as [Hi|Hi]; unfold len in Hi; [|by replace (chunk_count n rs - i)%nat with O by lia].
    replace (Z.of_nat (i * n) + batchSize) with (Z.of_nat (S i * n)) by (subst n; lia).
    rewrite IH by lia. cbn [mbind prog_mbind prog_bind].
    replace (chunk_count n rs - i)%nat with (S (chunk_count n rs - S i)) by lia. cbn [seq map]. do 3 f_equal.
    unfold chunk. rewrite Nat2Z.id. unfold len. destruct (Nat.le_gt_cases (S i * n) (length rs)) as [Hl|Hl].
    + f_equal. lia.
    + rewrite !take_ge by (rewrite length_drop; lia). done.
Qed.

Lemma buildBatches_chunks (rs : list Recipient) batchSize :
  1 ≤ batchSize →
  buildBatches rs batchSize =
  Ret (let count := chunk_count (Z.to_nat batchSize) rs in
       if (Z.of_nat count <? 1) || (10000 <? Z.of_nat count) then None
       else Some (map (λ i, batch_body (chunk (Z.to_nat batchSize) rs i)) (seq 0 count))).
Proof.
  intros Hb. unfold buildBatches. rewrite (proj2 (Z.eqb_neq _ _)) by lia.
  assert (Hq : Z.quot (len rs + batchSize - 1) batchSize = Z.of_nat (chunk_count (Z.to_nat batchSize) rs)).
  { unfold len, chunk_count. rewrite Nat2Z.inj_div, Z.quot_div_nonneg by lia. f_equal; lia. }
  rewrite Hq. cbv zeta. case_match; [done|]. change 0 with (Z.of_nat (0 * Z.to_nat batchSize)) at 1.
  rewrite batch_loop_chunks, Nat.sub_0_r by (done || lia). done.
Qed.

(** The parts together are the whole, in order, and none is empty. *)
Lemma chunks_concat {A} n (l : list A) : (1 ≤ n)%nat → concat (map (chunk n l) (seq 0 (chunk_count n l))) = l.
Proof.
  intros Hn. remember (length l) as m eqn:Hm. revert l Hm; induction m as [m IH] using lt_wf_ind; intros l Hm.
  destruct (decide (l = [])) as [->|Hl]; [unfold chunk_count; cbn [length]; by rewrite Nat.div_small by lia|].
  rewrite chunk_count_step by done. cbn [seq map concat]. rewrite <- seq_shift, map_map.
  rewrite (map_ext _ (chunk n (drop n l))) by (intros; apply chunk_step).
  rewrite (IH (length (drop n l))); [|rewrite length_drop; destruct l; cbn in *; [done|lia]|done].
  unfold chunk. rewrite drop_0. apply take_drop.
Qed.

Lemma chunk_length {A} n (l : list A) i :
  (1 ≤ n)%nat → (i < chunk_count n l)%nat →
  len (chunk n l i) = batchRecipientCount (Z.of_nat i) (len l) (Z.of_nat n) ∧ chunk n l i ≠ [].
Proof.
  intros Hn Hi. unfold chunk_count in Hi. assert (Hlt : (i * n < length l)%nat).
  { pose proof (Nat.Div0.mul_div_le (length l + n - 1) n). nia. }
  assert (Hl : length (chunk n l i) = Nat.min n (length l - i * n)) by (unfold chunk; by rewrite length_take, length_drop).
  split; [unfold len, batchRecipientCount; lia|]. intros E. rewrite E in Hl. cbn in Hl. lia.
Qed.

(** A recipient whose row has 1024 bytes: [&] is six bytes in JSON. *)
Definition long_recipient : Recipient :=
  mkRecipient (repeat_byte "&"%char 120 ++ repeat_byte "a"%char 121 ++ lit "@example.com")
    (repeat_byte "A"%char 64) (repeat_byte "B"%char 64).

Lemma long_recipient_valid : validRecipients [long_recipient] = true.
Proof. vm_compute. reflexivity. Qed.

Lemma long_recipient_long : short_row long_recipient = false.
Proof. vm_compute. reflexivity. Qed.

Lemma batch_read_back_witness :
  scanRecipientRows (mkReader (batch_body [Samples.recipient]) None) collect [] ≡ Ret ([Samples.recipient], None) ∧
  scanRecipientRows (mkReader (batch_body [long_recipient]) None) collect [] ≡ Ret ([], Some ErrContract).
Proof.
  assert (Hs : validRecipients [Samples.recipient] = true) by (vm_compute; reflexivity). split.
  - rewrite (batch_read_back collect [Samples.recipient] [] ltac:(done) Hs). reflexivity.
  - rewrite (batch_read_back collect [long_recipient] [] ltac:(done) long_recipient_valid). cbn [forallb short_rows].
    by rewrite long_recipient_long.
Defined.
