(* ===== verification/PublicationSpec.v ===== *)
(** * What a publication does to storage and queue

    What a history of requests and answers shows to be stored and sent, the requests that may be made
    after a history, laws of the two interfaces, and the proof that [Publish] only makes such requests.
    Nothing is assumed about the answers. *)

From stdpp Require Import strings.
From S2P Require Import Prelude Utf8 GoStrings Regex GoTime Json JsonFacts StrictJson Sha256 Url Contracts Receipt Program Azure Effects Worker AzureStorage Protocol GoPath PublicationEffects Source Publisher PublicationAzure Batches.

#[local] Opaque sha256_hex.

(** ** Documents read back *)

Definition sane_blob (r : BlobReference) : BlobReference :=
  mkBlobReference (sanitize (br_Container r)) (sanitize (br_Name r)) (sanitize (br_SHA256 r)) (br_Size r) (sanitize (br_VersionID r)).
Definition sane_batch (r : BatchReference) : BatchReference :=
  mkBatchReference (bt_BatchCount r) (bt_BatchIndex r) (sanitize (bt_Container r)) (sanitize (bt_Name r)) (bt_RecipientCount r)
    (sanitize (bt_SHA256 r)) (bt_Size r) (sanitize (bt_VersionID r)).

(** A document that is not all UTF-8 is read back with its invalid bytes replaced. *)
Lemma message_read_back (m m' : QueueMessage) id :
  has_kind (to_gval m) message_kind → ParseQueueMessage (marshal_struct m) id = Ok m' →
  m' = mkQueueMessage (sanitize (qm_ApplicationURL m)) (sanitize (qm_CreatedAt m)) (sane_blob (qm_Manifest m))
         (sanitize (qm_MessageID m)) (sanitize (qm_OperationID m)) (sane_batch (qm_RecipientBatch m))
         (sanitize (qm_ReleaseID m)) (sanitize (qm_ReleaseVersion m)) (sanitize (qm_SchemaVersion m)) (sanitize (qm_SourceCommitSHA m)).
Proof.
  intros Hk. unfold ParseQueueMessage. intros H.
  match type of H with match ?d with _ => _ end = _ => destruct d as [x|] eqn:E; [|done] end. case_if_in H; [done|].
  injection H as <-. apply (decode_struct_sanitized m _ _ Hk) in E. apply (f_equal (of_gval (A := QueueMessage))) in E. rewrite of_to_gval in E.
  by injection E.
Qed.

Lemma manifest_read_back (m m' : PublishedManifest) :
  has_kind (to_gval m) manifest_kind → ParsePublishedManifest (marshal_struct m) = Ok m' →
  m' = mkPublishedManifest (sane_blob (pm_DAR m)) (sanitize (pm_DownloadName m)) (sanitize (pm_OperationID m))
         (sanitize (pm_PublishedAt m)) (sanitize (pm_ReleaseID m)) (sanitize (pm_ReleaseVersion m)) (sanitize (pm_Repository m))
         (sanitize (pm_SchemaVersion m)) (sanitize (pm_SourceCommitSHA m)).
Proof.
  intros Hk. unfold ParsePublishedManifest. intros H.
  match type of H with match ?d with _ => _ end = _ => destruct d as [x|] eqn:E; [|done] end. case_if_in H; [done|].
  injection H as <-. apply (decode_struct_sanitized m _ _ Hk) in E. apply (f_equal (of_gval (A := PublishedManifest))) in E. rewrite of_to_gval in E.
  by injection E.
Qed.

(** ** What a history shows *)

Abbreviation phistory := (history pevent panswer).
Abbreviation sha256_metadata := (lit "sha256").

(** The messages the queue accepted. *)
Definition sent_by (y : { e : pevent & panswer e }) : option (gostring * gostring) :=
  match y with
  | existT e x =>
    match e return panswer e → option (gostring * gostring) with
    | PSend m => λ accepted : bool, if accepted then Some (sb_MessageID m, sb_Body m) else None
    | _ => λ _, None
    end x
  end.
Definition sent (t : phistory) : list (gostring * gostring) := omap sent_by t.

Definition conflict (e : azure_error) : Prop := azureStatus e = 409 ∨ azureStatus e = 412.

(** Storage acknowledged version [v] of blob [n]: it answered the create-only upload of [body] with
    it, or reported that the blob exists and described the version with this digest and size. *)
Definition acknowledged (t : phistory) (c n : gostring) (body : Reader) (digest : gostring) (size : Z) (v : gostring) : Prop :=
  ∃ contentType, let upload := PUpload c n body contentType [(sha256_metadata, digest)] CreateOnly in
    (∃ r, existT upload (Ok r) ∈ t ∧ ur_VersionID r = Some v) ∨
    (∃ e p, existT upload (Err e) ∈ t ∧ conflict e ∧ existT (PGetProperties c n) (Ok p) ∈ t ∧
       bp_VersionID p = Some v ∧ bp_ContentLength p = Some size ∧ metadataValue (bp_Metadata p) sha256_metadata = digest).

(** The same of a text, under its own digest and size. *)
Definition stored (t : phistory) (c n body v : gostring) : Prop :=
  acknowledged t c n (mkReader body None) (sha256_hex body) (len body) v.

(** Blob [n] was written as [body], over another content or not, or was read and is [body]. *)
Definition advanced (t : phistory) (c n body : gostring) : Prop :=
  (∃ v, stored t c n body v) ∨
  (∃ contentType etag r v,
     existT (PUpload c n (mkReader body None) contentType [(sha256_metadata, sha256_hex body)] (Replacing etag)) (Ok r) ∈ t ∧
     ur_VersionID r = Some v) ∨
  (∃ p, existT (PGetProperties c n) (Ok p) ∈ t ∧ existT (PDownload c n) (Ok (Some (mkReader body None))) ∈ t ∧
     bp_ContentLength p = Some (len body) ∧ metadataValue (bp_Metadata p) sha256_metadata = sha256_hex body).

(** Nothing more was sent. *)
Definition later (t t' : phistory) : Prop := sent t' = sent t ∧ t ⊆ t'.

Lemma later_refl t : later t t.
Proof. by split. Qed.

Lemma later_trans t1 t2 t3 : later t1 t2 → later t2 t3 → later t1 t3.
Proof. intros [E1 H1] [E2 H2]. split; [congruence|]. intros y Hy. auto. Qed.

Lemma record_subset (t : phistory) e x : t ⊆ record t e x.
Proof. intros y Hy. unfold record. apply elem_of_app. by left. Qed.

Lemma later_record t e x : (∀ m, e ≠ PSend m) → later t (record t e x).
Proof.
  intros He. split; [|apply record_subset]. unfold sent, record. rewrite omap_app.
  destruct e; try apply app_nil_r. by destruct (He message).
Qed.

Lemma recorded (t : phistory) e x : existT e x ∈ record t e x.
Proof. unfold record. apply elem_of_app. right. by apply list_elem_of_singleton. Qed.

#[export] Hint Resolve later_refl record_subset recorded : go.

Lemma acknowledged_later t t' c n body digest size v : t ⊆ t' → acknowledged t c n body digest size v → acknowledged t' c n body digest size v.
Proof.
  intros Ht (contentType & [(r & Hr & Hv)|(e & p & He & Hc & Hp & H)]); exists contentType; [left; exists r; auto|].
  right. exists e, p. auto.
Qed.

Section Publication.
Context (config : Config) (request : PublishRequest).

Definition source : SourceRelease := rq_Source request.
Definition operation : gostring := deriveOperationID (cf_Repository config) (rq_CommitSHA request) source.
Definition batch_size : nat := Z.to_nat (cf_BatchSize config).

(** The cohort in the parts the batches are made of. *)
Definition parts : list (list Recipient) :=
  map (chunk batch_size (rq_Recipients request)) (seq 0 (chunk_count batch_size (rq_Recipients request))).

Definition batch_name (i : nat) : gostring := operation ++ lit "/batch-" ++ leftPad (Z.of_nat i) 4 ++ lit ".jsonl".
Definition message_id (i : nat) : gostring := operation ++ lit ":" ++ itoa (Z.of_nat i).
Definition dar_name : gostring := sr_Version source ++ lit "/" ++ sr_DownloadName source.
Definition manifest_name : gostring := lit "published/" ++ sr_ReleaseID source ++ lit "/" ++ operation ++ lit ".json".
Definition current_name : gostring := lit "current/" ++ sr_ReleaseID source ++ lit ".json".

Definition the_plan (path : gostring) : publicationPlan := mkPlan request path operation (map batch_body parts).

(** The reference to version [v] of the archive, and the manifest that carries it. *)
Definition dar_reference (v : gostring) : BlobReference :=
  mkBlobReference (cf_ReleasesContainer config) dar_name (sr_DARSHA256 source) (sr_DARSize source) v.
Definition manifest_text (v : gostring) : gostring := marshal_struct (manifest_of config (the_plan []) (dar_reference v)).

(** Version [v] of the archive is stored under the digest and the size of the source, and a file that
    was read had that digest. *)
Definition archive_stored (t : phistory) (v : gostring) : Prop :=
  (∃ body, acknowledged t (cf_ReleasesContainer config) dar_name body (sr_DARSHA256 source) (sr_DARSize source) v) ∧
  ∃ name content, existT (FOpen name) (Some (mkReader content None)) ∈ t ∧ sha256_hex content = sr_DARSHA256 source.

(** The first [k] batches are stored. *)
Definition batches_stored (k : nat) (t : phistory) : Prop :=
  ∀ i part, (i < k)%nat → parts !! i = Some part → ∃ v, stored t (cf_BatchesContainer config) (batch_name i) (batch_body part) v.

Definition all_sent (t : phistory) : Prop := length (sent t) = length parts.

(** The message for the [i]-th part: it names versions of the manifest and of the batch that are stored,
    with their digests and sizes, and the manifest agrees with it. A version is named in UTF-8. *)
Definition message_for (t : phistory) (i : nat) (part : list Recipient) (m : QueueMessage) : Prop :=
  ∃ va vm vb manifest,
    archive_stored t va ∧
    stored t (cf_ManifestsContainer config) manifest_name (manifest_text va) vm ∧
    stored t (cf_BatchesContainer config) (batch_name i) (batch_body part) vb ∧
    qm_OperationID m = operation ∧
    qm_Manifest m = mkBlobReference (cf_ManifestsContainer config) manifest_name (sha256_hex (manifest_text va))
      (len (manifest_text va)) (sanitize vm) ∧
    qm_RecipientBatch m = mkBatchReference (len parts) (Z.of_nat i) (cf_BatchesContainer config) (batch_name i) (len part)
      (sha256_hex (batch_body part)) (len (batch_body part)) (sanitize vb) ∧
    ParsePublishedManifest (manifest_text va) = Ok manifest ∧ manifestMatchesMessage manifest m = true.

(** The next message: for the next part of the cohort, when every batch is stored. *)
Definition sendable (t : phistory) (id body : gostring) : Prop :=
  ∃ part m, parts !! length (sent t) = Some part ∧ id = message_id (length (sent t)) ∧
    ParseQueueMessage body id = Ok m ∧ message_for t (length (sent t)) part m ∧ batches_stored (length parts) t.

(** The manifest that is replaced was just read; the condition is the ETag of its properties, it has
    their digest and size, and an older version than the new one. *)
Definition replacing (t : phistory) (c n body etag : gostring) : Prop :=
  ∃ t0 p existing old new oldKey newKey,
    t = t0 ++ [existT (PGetProperties c n) (Ok p); existT (PDownload c n) (Ok (Some (mkReader existing None))); existT PClose tt] ∧
    bp_ETag p = Some etag ∧
    bp_ContentLength p = Some (len existing) ∧ metadataValue (bp_Metadata p) sha256_metadata = sha256_hex existing ∧
    ParsePublishedManifest existing = Ok old ∧ ParsePublishedManifest body = Ok new ∧
    productVersionKey (pm_ReleaseVersion old) = Some oldKey ∧ productVersionKey (pm_ReleaseVersion new) = Some newKey ∧
    versionKeyLess oldKey newKey = true.

(** The upload of the archive: the body is what opening the file gives, right after the file was opened
    and read for its digest, which is that of the source. *)
Definition archive_upload (t : phistory) (c n : gostring) (body : Reader) (digest : gostring) (cond : blob_condition) : Prop :=
  c = cf_ReleasesContainer config ∧ n = dar_name ∧ cond = CreateOnly ∧ digest = sr_DARSHA256 source ∧
  ∃ t0 name content,
    t = t0 ++ [existT (FOpen (path_clean name)) (Some (mkReader content None)); existT PClose tt; existT (FOpen name) (Some body)] ∧
    sha256_hex content = digest.

(** An upload carries the digest of its content, or is that of the archive. *)
Definition digest_known (t : phistory) (c n : gostring) (body : Reader) (digest : gostring) (cond : blob_condition) : Prop :=
  (rd_err body = None ∧ digest = sha256_hex (rd_data body)) ∨ archive_upload t c n body digest cond.

(** What may be requested: uploads with a known digest, of the current manifest only after every
    message; replacing only the current manifest. The program does not panic and its loops end. *)
Definition check (t : phistory) (e : pevent) : Prop :=
  match e with
  | PUpload c n body _ metadata cond =>
    (∃ digest, metadata = [(sha256_metadata, digest)] ∧ digest_known t c n body digest cond) ∧
    (c = cf_ManifestsContainer config → n = current_name → all_sent t) ∧
    match cond with
    | CreateOnly => True
    | Replacing etag => c = cf_ManifestsContainer config ∧ n = current_name ∧ replacing t c n (rd_data body) etag
    end
  | PSend m => sendable t (sb_MessageID m) (sb_Body m)
  | PPanic | PDiverge => False
  | _ => True
  end.

Abbreviation spec := (meets anything check record).

(** ** The promises of the interfaces *)

Definition is_current (c n : gostring) : Prop := c = cf_ManifestsContainer config ∧ n = current_name.

Class LawfulBlobs (W : BlobWriter) : Prop := {
  PutImmutableBytes_law : ∀ c n body contentType t (Q : _ → phistory → Prop),
    (is_current c n → all_sent t) →
    (∀ e t', later t t' → Q (Err e) t') →
    (∀ v etag t', later t t' → stored t' c n body v →
       Q (Ok (mkPublishedBlob (mkBlobReference c n (sha256_hex body) (len body) v) etag)) t') →
    spec (PutImmutableBytes (mkImmutableBytes c n body contentType)) t Q;
  PutImmutableFile_law : ∀ name contentType t (Q : _ → phistory → Prop),
    cf_ReleasesContainer config ≠ cf_ManifestsContainer config →
    (∀ e t', later t t' → Q (Err e) t') →
    (∀ v etag t', later t t' → archive_stored t' v → Q (Ok (mkPublishedBlob (dar_reference v) etag)) t') →
    spec (PutImmutableFile (mkImmutableFile (cf_ReleasesContainer config) dar_name name (sr_DARSHA256 source) (sr_DARSize source)
            contentType)) t Q;
  PutCurrentManifest_law : ∀ c n body version new t (Q : _ → phistory → Prop),
    is_current c n → all_sent t → ParsePublishedManifest body = Ok new → pm_ReleaseVersion new = version →
    (∀ e t', later t t' → Q (Err e) t') →
    (∀ published t', later t t' → advanced t' c n body → Q (Ok published) t') →
    spec (PutCurrentManifest (mkCurrentManifest c n body version)) t Q }.

Class LawfulQueue (W : QueueWriter) : Prop := {
  SendRequest_law : ∀ id body t (Q : _ → phistory → Prop),
    sendable t id body →
    (∀ e t', Q (Err e) t') →
    (∀ t', sent t' = sent t ++ [(id, body)] → t ⊆ t' → Q (Ok tt) t') →
    spec (SendRequest (mkQueueRequest id body)) t Q }.

(** ** The Azure implementations keep them *)

Lemma publishedFromProperties_ok identity p published :
  publishedFromProperties identity p = Ok published →
  ∃ v etag size, bp_VersionID p = Some v ∧ bp_ContentLength p = Some size ∧
    published = mkPublishedBlob (mkBlobReference (bi_container identity) (bi_name identity)
      (metadataValue (bp_Metadata p) sha256_metadata) size v) etag.
Proof.
  unfold publishedFromProperties. intros H. destruct (bp_ETag p) as [etag|], (bp_VersionID p) as [v|], (bp_ContentLength p) as [size|]; try done.
  case_if_in H; [done|]. case_if_in H; [done|]. injection H as <-. by exists v, etag, size.
Qed.

Lemma spec_putImmutable c n digest size contentType reader t (Q : _ → phistory → Prop) :
  (is_current c n → all_sent t) → digest_known t c n reader digest CreateOnly →
  (∀ e t', later t t' → Q (Err e) t') →
  (∀ v etag t', later t t' → acknowledged t' c n reader digest size v →
     Q (Ok (mkPublishedBlob (mkBlobReference c n digest size v) etag)) t') →
  spec (putImmutable (mkBlobUpload (mkBlobIdentity c n digest size contentType) reader)) t Q.
Proof.
  intros Hcur Hd HE HO. unfold putImmutable, upload_blob.
  cbn [bu_identity bu_body bi_container bi_name bi_size bi_digest bi_contentType].
  case_match; [apply meets_request; [done|]; intros [] _; by apply HE, later_record|].
  apply meets_request; [split_and!; [by exists digest|intros; by apply Hcur|done]|]. intros x _.
  match goal with |- meets _ _ _ _ ?t1 _ => assert (Hl : later t t1) by (by apply later_record) end.
  destruct x as [response|e].
  - unfold publishedFromUpload. cbn [bi_container bi_name bi_size bi_digest].
    destruct (ur_ETag response) as [etag|]; [|by apply HE]. destruct (ur_VersionID response) as [v|] eqn:Ev; [|by apply HE].
    case_match; [by apply HE|]. apply HO; [done|]. exists contentType. left. exists response. split; [apply recorded|done].
  - case_match eqn:Ec; [by apply HE|]. apply meets_request; [done|]. intros p _.
    match goal with |- meets _ _ _ _ ?t2 _ => assert (Hl2 : later t t2) by (eapply later_trans; [exact Hl|by apply later_record]) end.
    destruct p as [p|e']; [|by apply HE].
    destruct (publishedFromProperties _ p) as [published|] eqn:Ep; [|by apply HE].
    apply publishedFromProperties_ok in Ep as (v & etag & size' & Ev & Es & ->). cbn [bi_container bi_name pb_Reference br_SHA256 br_Size].
    case_match eqn:E; [by apply HE|]. breflect. destruct E as [E ->]. rewrite E.
    apply HO; [done|]. exists contentType. right. exists e, p. split_and!; [apply record_subset, recorded| |apply recorded|done|done|done].
    exact Ec.
Qed.

(** [downloadCurrent] returns content with the size and the digest of the properties. *)
Lemma spec_downloadCurrent c n p t (Q : _ → phistory → Prop) :
  (∀ t', later t t' → Q None t') →
  (∀ existing, bp_ContentLength p = Some (len existing) → metadataValue (bp_Metadata p) sha256_metadata = sha256_hex existing →
     Q (Some existing) (record (record t (PDownload c n) (Ok (Some (mkReader existing None)))) PClose tt)) →
  spec (downloadCurrent c n p) t Q.
Proof.
  intros HN HS. unfold downloadCurrent. destruct (bp_ContentLength p) as [size|] eqn:Es; [|apply HN, later_refl].
  case_match; [apply HN, later_refl|]. apply meets_request; [done|]. intros x _.
  assert (Hl : later t (record t (PDownload c n) x)) by (by apply later_record).
  destruct x as [[[data err]|]|e]; [|by apply HN..]. apply meets_request; [done|]. intros [] _.
  assert (Hl2 : later t (record (record t (PDownload c n) (Ok (Some (mkReader data err)))) PClose tt))
    by (eapply later_trans; [exact Hl|by apply later_record]).
  destruct (read_bounded (Some (mkReader data err)) PublicationAzure.maxManifestBytes) as [existing|] eqn:Er; [|by apply HN].
  assert (existing = data ∧ err = None) as [-> ->].
  { unfold read_bounded in Er. cbn [rd_data rd_err] in Er. repeat case_if_in Er; try done. by destruct err; simplify_eq. }
  case_match eqn:Em; [by apply HN|]. apply orb_false_iff in Em as [Hlen Hmeta]. unfold metadataMatches in Hmeta. breflect.
  apply HS; congruence.
Qed.

Lemma spec_PutImmutableFile name contentType t (Q : _ → phistory → Prop) :
  cf_ReleasesContainer config ≠ cf_ManifestsContainer config →
  (∀ e t', later t t' → Q (Err e) t') →
  (∀ v etag t', later t t' → archive_stored t' v → Q (Ok (mkPublishedBlob (dar_reference v) etag)) t') →
  spec (azure_PutImmutableFile (mkImmutableFile (cf_ReleasesContainer config) dar_name name (sr_DARSHA256 source) (sr_DARSize source)
          contentType)) t Q.
Proof.
  intros Hne HE HO. unfold azure_PutImmutableFile.
  cbn [if_FileName if_ExpectedSize if_ExpectedDigest if_Container if_Name if_ContentType].
  apply meets_request; [done|]. intros info _. set (t1 := record t (FStat name) info). assert (H1 : later t t1) by (by apply later_record).
  destruct info as [info|]; [|by apply HE]. case_match; [by apply HE|].
  unfold fileDigest. apply meets_bind, meets_request; [done|]. intros r _. set (t2 := record t1 (FOpen (path_clean name)) r).
  assert (H2 : later t t2) by (eapply later_trans; [exact H1|by apply later_record]).
  destruct r as [[content err]|]; [|by apply HE].
  apply meets_request; [done|]. intros [] _. set (t3 := record t2 PClose tt).
  assert (H3 : later t t3) by (eapply later_trans; [exact H2|by apply later_record]).
  cbn [rd_err rd_data]. destruct err as [|]; [by apply HE|].
  cbn [meets]. case_match eqn:Ed; [by apply HE|]. breflect.
  apply meets_request; [done|]. intros body _. set (t4 := record t3 (FOpen name) body).
  assert (H4 : later t t4) by (eapply later_trans; [exact H3|by apply later_record]).
  destruct body as [body|]; [|by apply HE]. apply spec_putImmutable.
  - by intros [? _].
  - right. split_and!; try done. exists t1, name, content. split; [|done]. unfold t4, t3, t2, record. by rewrite <- !app_assoc.
  - intros e t' Hl. apply HE. by eapply later_trans.
  - intros v etag t' Hl Hv. apply HO; [by eapply later_trans|]. split; [by exists body|]. exists (path_clean name), content.
    split; [|done]. apply Hl, record_subset, record_subset, recorded.
Qed.

(** The upload that replaces the current manifest. *)
Lemma spec_replace c n body etag t (Q : _ → phistory → Prop) :
  is_current c n → all_sent t → replacing t c n body etag →
  (∀ e t', later t t' → Q (Err e) t') →
  (∀ published t', later t t' → advanced t' c n body → Q (Ok published) t') →
  let identity := mkBlobIdentity c n (sha256_hex body) (len body) (lit "application/json") in
  spec (response ← upload_blob (mkBlobUpload identity (mkReader body None)) (Replacing etag);
        match response with
        | Err _ => Ret failed
        | Ok response => Ret (publishedFromUpload identity response)
        end) t Q.
Proof.
  intros [Hc Hn] Hsent Hr HE HO identity. unfold upload_blob. subst identity.
  cbn [bu_identity bu_body bi_container bi_name bi_size bi_digest bi_contentType].
  apply meets_request; [split_and!; [by eexists; split; [done|left]|done|done..]|]. intros x _.
  match goal with |- meets _ _ _ _ ?t1 _ => assert (Hl : later t t1) by (by apply later_record) end.
  destruct x as [response|]; [|by apply HE]. unfold publishedFromUpload. cbn [bi_container bi_name bi_size bi_digest].
  destruct (ur_ETag response) as [etag'|]; [|by apply HE]. destruct (ur_VersionID response) as [v|] eqn:Ev; [|by apply HE].
  case_match; [by apply HE|]. apply HO; [exact Hl|]. right; left. eexists _, etag, response, v. split; [apply recorded|done].
Qed.

Lemma spec_PutCurrentManifest c n body version new t (Q : _ → phistory → Prop) :
  is_current c n → all_sent t → ParsePublishedManifest body = Ok new → pm_ReleaseVersion new = version →
  (∀ e t', later t t' → Q (Err e) t') →
  (∀ published t', later t t' → advanced t' c n body → Q (Ok published) t') →
  spec (azure_PutCurrentManifest (mkCurrentManifest c n body version)) t Q.
Proof.
  intros Hcur Hsent Hnew Hver HE HO. unfold azure_PutCurrentManifest. cbn [cm_Body cm_Container cm_Name cm_ReleaseVersion].
  case_match; [apply HE, later_refl|]. apply meets_request; [done|]. intros p _. set (t1 := record t (PGetProperties c n) p).
  assert (Hl : later t t1) by (by apply later_record). assert (Hs1 : all_sent t1) by (unfold all_sent; by rewrite (proj1 Hl)).
  destruct p as [p|e].
  2: { case_match; [by apply HE|]. unfold azure_PutImmutableBytes. cbn [ib_Body ib_Container ib_Name ib_ContentType].
    case_match; [by apply HE|]. apply spec_putImmutable; [done|by left| |].
    - intros e' t' Hl'. apply HE. by eapply later_trans.
    - intros v etag t' Hl' Hv. apply HO; [by eapply later_trans|]. left. by exists v. }
  apply meets_bind, spec_downloadCurrent; [intros t' Hl'; apply HE; by eapply later_trans|]. intros existing Hlen Hmeta.
  set (t3 := record (record t1 (PDownload c n) (Ok (Some (mkReader existing None)))) PClose tt).
  assert (Hl3 : later t t3).
  { eapply later_trans; [exact Hl|]. eapply later_trans; [by apply (later_record _ (PDownload c n))|by apply (later_record _ PClose)]. }
  case_match eqn:Eb.
  - apply str_eqb_eq in Eb as ->. destruct (publishedFromProperties _ p) as [published|] eqn:Ep; [|by apply HE].
    apply HO; [exact Hl3|]. right; right. exists p. split_and!; [|apply record_subset, recorded|done|done].
    apply record_subset, record_subset, recorded.
  - destruct (ParsePublishedManifest existing) as [old|] eqn:Eo; [|by apply HE].
    destruct (productVersionKey (pm_ReleaseVersion old)) as [oldKey|] eqn:Ko; [|by apply HE].
    destruct (productVersionKey version) as [newKey|] eqn:Kn; [|by apply HE].
    destruct (bp_ETag p) as [etag|] eqn:Ee; [|by apply HE]. case_match eqn:Ek; [by apply HE|]. breflect.
    apply spec_replace; [done|unfold all_sent; by rewrite (proj1 Hl3)| | |].
    + exists t, p, existing, old, new, oldKey, newKey. rewrite Hver. split_and!; try done.
      unfold t3, t1, record. by rewrite <- !app_assoc.
    + intros e t' Hl'. apply HE. by eapply later_trans.
    + intros published t' Hl' Ha. apply HO; [by eapply later_trans|done].
Qed.

#[export] Instance azure_lawful_blobs : LawfulBlobs azure_blob_writer.
Proof.
  split; [|exact spec_PutImmutableFile|exact spec_PutCurrentManifest].
  intros c n body contentType t Q Hcur HE HO. cbn [PutImmutableBytes azure_blob_writer]. unfold azure_PutImmutableBytes.
  cbn [ib_Body ib_Container ib_Name ib_ContentType]. case_match; [apply HE, later_refl|]. apply spec_putImmutable; [done|by left|done|done].
Qed.

#[export] Instance azure_lawful_queue : LawfulQueue azure_queue_writer.
Proof.
  split. intros id body t Q Hs HE HO. cbn [SendRequest azure_queue_writer]. unfold azure_SendRequest.
  cbn [qr_MessageID qr_Body]. case_match; [apply HE|]. apply meets_request; [exact Hs|]. intros [] _; [|apply HE].
  apply HO; [|apply record_subset]. unfold sent, record. by rewrite omap_app.
Qed.
(** ** Facts about the plan *)

Context (raw : Config).
Hypothesis accepted : NewPublisher raw true true = Some config.

Lemma config_facts :
  1 ≤ cf_BatchSize config ≤ 10 ∧
  match_string containerPattern (cf_ManifestsContainer config) = true ∧
  match_string containerPattern (cf_BatchesContainer config) = true ∧
  cf_ReleasesContainer config ≠ cf_ManifestsContainer config ∧
  cf_BatchesContainer config ≠ cf_ManifestsContainer config.
Proof.
  unfold NewPublisher in accepted. case_if_in accepted; [done|]. injection accepted as <-.
  apply orb_false_iff in E as [E%orb_false_iff _]. destruct E as [E%negb_false_iff _]. unfold validPublisherConfig in E.
  cbn [cf_Repository cf_ReleasesContainer cf_ManifestsContainer cf_BatchesContainer cf_ApplicationOrigin cf_BatchSize] in *.
  case_if_in E; [done|]. apply orb_false_iff in E0 as [E0%orb_false_iff _]. destruct E0 as [E0%orb_false_iff E1]. destruct E0 as [_ E0].
  unfold maxPublicationBatchSize in *. breflect. cbn [containers_accepted existsb] in E. repeat case_if_in E; try done.
  breflect. split_hyps. split_and!; try done; lia.
Qed.

Lemma release_facts :
  release_accepted source = true →
  match_string releaseIDPattern (sr_ReleaseID source) = true ∧ match_string productVersionPattern (sr_Version source) = true ∧
  1 ≤ sr_DARSize source ≤ maxArchiveBytes.
Proof. unfold release_accepted. intros H%negb_true_iff. breflect. split_hyps. split_and!; done || lia. Qed.

Lemma current_name_head c n : is_current c n → head n = Some "c"%char.
Proof. by intros [_ ->]. Qed.

Lemma parts_lookup i part :
  parts !! i = Some part →
  part = chunk batch_size (rq_Recipients request) i ∧ part ≠ [] ∧ (i < length parts)%nat ∧
  len part = batchRecipientCount (Z.of_nat i) (len (rq_Recipients request)) (cf_BatchSize config) ∧ len part ≤ 10.
Proof.
  intros H. pose proof (lookup_lt_Some _ _ _ H) as Hi. unfold parts in *. rewrite length_map, length_seq in *.
  apply list_lookup_fmap_Some in H as (j & -> & Hj). apply lookup_seq in Hj as [-> _]. cbn [Nat.add].
  destruct config_facts as (Hb & _). assert (Hn : (1 ≤ batch_size)%nat) by (unfold batch_size; lia).
  destruct (chunk_length batch_size (rq_Recipients request) i Hn Hi) as [Hl Hne]. split_and!; try done.
  - rewrite Hl. f_equal. unfold batch_size. lia.
  - rewrite Hl. unfold batchRecipientCount, batch_size. lia.
Qed.

Lemma parts_concat : concat parts = rq_Recipients request.
Proof. destruct config_facts as (Hb & _). apply chunks_concat. unfold batch_size. lia. Qed.

Lemma part_rows i part (P : Recipient → Prop) : Forall P (rq_Recipients request) → parts !! i = Some part → Forall P part.
Proof. intros HP (-> & _)%parts_lookup. unfold chunk. by apply Forall_take, Forall_drop. Qed.

(** Names and identifiers are ASCII. *)
Lemma chars_ascii (P : ascii → bool) s : (∀ c, implb (P c) (is_ascii c) = true) → forallb P s = true → all_ascii s = true.
Proof.
  intros HP H. unfold all_ascii. apply forallb_Forall. apply forallb_Forall in H. eapply Forall_impl; [exact H|]. intros c.
  apply implb_true_iff, HP.
Qed.

Lemma hex_ascii s : forallb is_hex s = true → all_ascii s = true.
Proof. apply chars_ascii. apply ascii_forall. vm_compute. reflexivity. Qed.

Lemma digits_ascii s : forallb is_digit s = true → all_ascii s = true.
Proof. apply chars_ascii. apply ascii_forall. vm_compute. reflexivity. Qed.

Lemma sha256_hex_ascii s : all_ascii (sha256_hex s) = true.
Proof. destruct (sha256_hex_format s). by apply hex_ascii. Qed.

Lemma operation_ascii : all_ascii operation = true.
Proof. apply sha256_hex_ascii. Qed.

Lemma batch_name_utf8 i : utf8_valid (batch_name i) = true.
Proof.
  apply utf8_valid_ascii. unfold batch_name, all_ascii. rewrite !forallb_app.
  change (forallb is_ascii operation) with (all_ascii operation). rewrite operation_ascii. unfold leftPad. rewrite forallb_app.
  replace (forallb is_ascii (itoa (Z.of_nat i))) with true.
  - replace (forallb is_ascii (repeat_byte _ _)) with true; [done|]. symmetry. apply forallb_Forall. unfold repeat_byte. by apply Forall_replicate.
  - symmetry. unfold itoa. rewrite (proj2 (Z.ltb_ge _ _)) by lia. apply digits_ascii, utoa_digits. lia.
Qed.
(** ** The documents of a publication *)

Section Documents.
Context (path : gostring).
Hypothesis (release_ok : release_accepted source = true) (rows_ok : Forall (λ r, ParseRecipient (marshal_struct r) = Ok r) (rq_Recipients request))
  (count_ok : 1 ≤ len parts ≤ 10000).

Abbreviation plan_ := (the_plan path).

(** The manifest of version [va] of the archive is stored where the reference says. *)
Definition manifest_ok (t : phistory) (va : gostring) (r : BlobReference) : Prop :=
  archive_stored t va ∧ is_ok (ParsePublishedManifest (manifest_text va)) = true ∧
  ∃ v, r = mkBlobReference (cf_ManifestsContainer config) manifest_name (sha256_hex (manifest_text va)) (len (manifest_text va)) v ∧
    stored t (cf_ManifestsContainer config) manifest_name (manifest_text va) v.

(** The [i]-th batch is stored where the reference says. *)
Definition batch_ok (t : phistory) (i : nat) (r : BlobReference) : Prop :=
  ∃ part v, parts !! i = Some part ∧
    r = mkBlobReference (cf_BatchesContainer config) (batch_name i) (sha256_hex (batch_body part)) (len (batch_body part)) v ∧
    stored t (cf_BatchesContainer config) (batch_name i) (batch_body part) v.

Lemma manifest_name_utf8 : utf8_valid manifest_name = true.
Proof.
  apply utf8_valid_ascii. unfold manifest_name, all_ascii. rewrite !forallb_app.
  change (forallb is_ascii operation) with (all_ascii operation). rewrite operation_ascii.
  destruct (release_facts release_ok) as (Hr & _). apply pattern_ascii in Hr; [|vm_compute; reflexivity]. unfold all_ascii in Hr. by rewrite Hr.
Qed.

Lemma manifest_kind_of va : has_kind (to_gval (manifest_of config plan_ (dar_reference va))) manifest_kind.
Proof.
  destruct (release_facts release_ok) as (_ & _ & Hd). unfold maxArchiveBytes, Config.MaxObjectSize in Hd.
  split_and!; try done. cbn. unfold int64_range. lia.
Qed.

Lemma manifest_short t va r : manifest_ok t va r → 0 ≤ br_Size r ≤ 64 * 1024.
Proof.
  intros (_ & Hp & v & -> & _). cbn [br_Size]. split; [apply len_nonneg|].
  destruct (ParsePublishedManifest _) as [m|] eqn:E; [|done]. unfold ParsePublishedManifest in E. apply parse_exact in E. tauto.
Qed.

Lemma batch_body_short (part : list Recipient) :
  Forall (λ r, ParseRecipient (marshal_struct r) = Ok r) part → len (batch_body part) ≤ 1025 * len part.
Proof.
  induction 1 as [|r rs Hr _ IH]; [done|]. unfold batch_body in *. cbn [flat_map]. rewrite !len_app, !len_cons, len_nil.
  unfold ParseRecipient in Hr. apply parse_exact in Hr. lia.
Qed.

Lemma message_kind_of t va manifest batch i :
  manifest_ok t va manifest → batch_ok t i batch → has_kind (to_gval (message_of config plan_ manifest batch (Z.of_nat i))) message_kind.
Proof.
  intros Hm (part & v & Hpart & -> & _). pose proof (manifest_short t va manifest Hm).
  pose proof (batch_body_short part (part_rows i part _ rows_ok Hpart)). destruct (parts_lookup i part Hpart) as (_ & _ & Hi & Hl & Ht).
  pose proof (len_nonneg part). pose proof (len_nonneg (batch_body part)).
  assert (int64_range (br_Size manifest) ∧ int64_range (len (pp_batches plan_)) ∧ int64_range (Z.of_nat i) ∧
    int64_range (batchRecipientCount (Z.of_nat i) (len (rq_Recipients request)) (cf_BatchSize config)) ∧
    int64_range (len (batch_body part))) as (? & ? & ? & ? & ?).
  { rewrite <- Hl. unfold the_plan, len, int64_range in *. cbn [pp_batches]. rewrite length_map in *. lia. }
  split_and!; done.
Qed.

(** What the worker will read: references to the manifest and the batch as they were stored. *)
Lemma message_asks t va manifest batch i id m :
  manifest_ok t va manifest → batch_ok t i batch →
  ParseQueueMessage (marshal_struct (message_of config plan_ manifest batch (Z.of_nat i))) id = Ok m →
  ∃ part, parts !! i = Some part ∧ message_for t i part m.
Proof.
  intros Hm Hb Hp. pose proof (message_kind_of _ _ _ _ _ Hm Hb) as Hk.
  apply (message_read_back _ _ _ Hk) in Hp as ->. destruct Hm as (Ha & Hmp & vm & -> & Hms), Hb as (part & vb & Hpart & -> & Hbs).
  destruct config_facts as (_ & Hcm & Hcb & _). destruct (parts_lookup i part Hpart) as (_ & _ & _ & Hl & _).
  exists part. split; [done|]. destruct (ParsePublishedManifest (manifest_text va)) as [pm|] eqn:E; [|done].
  exists va, vm, vb, pm. cbn [message_of qm_Manifest qm_RecipientBatch qm_OperationID].
  assert (Hpat : re_chars is_ascii containerPattern = true) by (vm_compute; reflexivity).
  split_and!; [done|done|done| | | |done|].
  - apply sanitize_valid, utf8_valid_ascii, operation_ascii.
  - unfold sane_blob. cbn [br_Container br_Name br_SHA256 br_Size br_VersionID].
    rewrite (sanitize_valid (cf_ManifestsContainer config)) by (by eapply pattern_utf8).
    rewrite (sanitize_valid manifest_name) by exact manifest_name_utf8.
    by rewrite (sanitize_valid (sha256_hex _)) by (apply utf8_valid_ascii, sha256_hex_ascii).
  - unfold sane_batch. cbn [br_Container br_Name br_SHA256 br_Size br_VersionID bt_Container bt_Name bt_SHA256 bt_Size bt_VersionID bt_RecipientCount bt_BatchCount bt_BatchIndex the_plan pp_batches pp_request].
    rewrite (sanitize_valid (cf_BatchesContainer config)) by (by eapply pattern_utf8).
    rewrite (sanitize_valid (batch_name i)) by apply batch_name_utf8.
    rewrite (sanitize_valid (sha256_hex _)) by (apply utf8_valid_ascii, sha256_hex_ascii).
    rewrite Hl. f_equal. unfold len. by rewrite length_map.
  - apply (manifest_read_back _ _ (manifest_kind_of va)) in E as ->. unfold manifestMatchesMessage.
    cbn [manifest_of the_plan pp_request pp_operationID pm_OperationID pm_ReleaseID pm_ReleaseVersion pm_SourceCommitSHA qm_OperationID qm_ReleaseID qm_ReleaseVersion qm_SourceCommitSHA].
    by rewrite !str_eqb_refl.
Qed.

(** What was stored stays stored. *)
Lemma archive_stored_later t t' v : t ⊆ t' → archive_stored t v → archive_stored t' v.
Proof.
  intros Ht [[body Hb] (name & content & Hin & Hd)]. split; [exists body; by eapply acknowledged_later|]. exists name, content. auto.
Qed.

Lemma batches_stored_later k t t' : t ⊆ t' → batches_stored k t → batches_stored k t'.
Proof. intros Hl H i part Hi Hp. destruct (H i part Hi Hp) as (v & Hv). exists v. by eapply acknowledged_later. Qed.

Lemma batch_ok_later t t' i r : t ⊆ t' → batch_ok t i r → batch_ok t' i r.
Proof. intros Ht (part & v & Hp & Hr & Hv). exists part, v. split_and!; [done|done|by eapply acknowledged_later]. Qed.

Lemma manifest_ok_later t t' va r : t ⊆ t' → manifest_ok t va r → manifest_ok t' va r.
Proof.
  intros Ht (Ha & Hp & v & Hr & Hv). split_and!; [by eapply archive_stored_later|done|]. exists v. split; [done|by eapply acknowledged_later].
Qed.

Lemma message_for_later t t' i part m : t ⊆ t' → message_for t i part m → message_for t' i part m.
Proof.
  intros Ht (va & vm & vb & manifest & Ha & Hm & Hb & H). exists va, vm, vb, manifest.
  split_and!; [by eapply archive_stored_later|by eapply acknowledged_later|by eapply acknowledged_later|tauto..].
Qed.

(** ** Storing and sending *)

Context {Blobs : BlobWriter} {Queue : QueueWriter} {HB : LawfulBlobs Blobs} {HQ : LawfulQueue Queue}.

Lemma other_name c n : head n ≠ Some "c"%char → ¬ is_current c n.
Proof. intros Hn H. by apply Hn, (current_name_head c). Qed.

Lemma spec_publishIdentity t (Q : _ → phistory → Prop) :
  (∀ r t', later t t' → Q r t') → spec (publishIdentity config plan_) t Q.
Proof.
  intros H. unfold publishIdentity. apply meets_bind, PutImmutableBytes_law.
  - intros Hc. by apply other_name in Hc.
  - intros e t' Hl. by apply H.
  - intros v etag t' Hl _. by apply H.
Qed.

Lemma spec_publishDAR t (Q : _ → phistory → Prop) :
  (∀ e t', later t t' → Q (Err e) t') →
  (∀ va etag t', later t t' → archive_stored t' va → Q (Ok (mkPublishedBlob (dar_reference va) etag)) t') →
  spec (publishDAR config plan_) t Q.
Proof.
  intros HE HO. unfold publishDAR. apply meets_bind, PutImmutableFile_law.
  - by destruct config_facts as (_ & _ & _ & ? & _).
  - intros e t' Hl. by apply HE.
  - intros v etag t' Hl Hv. cbn [pb_Reference dar_reference br_SHA256 br_Size br_Container]. case_match; [by apply HE|]. by apply HO.
Qed.

Lemma spec_publishManifest va t (Q : _ → phistory → Prop) :
  archive_stored t va →
  (∀ e t', later t t' → Q (Err e) t') →
  (∀ manifest t', later t t' → manifest_ok t' va (pb_Reference manifest) → Q (Ok (manifest, manifest_text va)) t') →
  spec (publishManifest config plan_ (dar_reference va)) t Q.
Proof.
  intros Ha HE HO. unfold publishManifest. change (marshal_struct _) with (manifest_text va).
  destruct (is_ok _) eqn:Ep; cbn [negb]; [|apply HE, later_refl].
  apply meets_bind, PutImmutableBytes_law.
  - intros Hc. by apply other_name in Hc.
  - intros e t' Hl. by apply HE.
  - intros v etag t' Hl Hv. apply HO; [done|]. split_and!; [eapply archive_stored_later; [apply Hl|done]|done|by exists v].
Qed.

Lemma drop_S_cons {A} i (l : list A) x rest : drop i l = x :: rest → l !! i = Some x ∧ drop (S i) l = rest.
Proof.
  intros H. split; [rewrite <- (Nat.add_0_r i), <- lookup_drop; by rewrite H|].
  replace (S i) with (i + 1)%nat by lia. rewrite <- drop_drop, H. done.
Qed.

Lemma spec_publish_batches bodies i t (Q : _ → phistory → Prop) :
  bodies = map batch_body (drop i parts) → (i ≤ length parts)%nat → batches_stored i t →
  (∀ e t', later t t' → Q (Err e) t') →
  (∀ published t', later t t' → length published = length bodies →
     (∀ j b, published !! j = Some b → batch_ok t' (i + j) (pb_Reference b)) → batches_stored (length parts) t' → Q (Ok published) t') →
  spec (publish_batches config operation bodies (Z.of_nat i)) t Q.
Proof.
  revert i t Q; induction bodies as [|body bodies IH]; intros i t Q Eb Hi Hst HE HO; cbn [publish_batches].
  { apply (HO []); [apply later_refl|done|by intros j b|]. symmetry in Eb. apply map_eq_nil, (f_equal length) in Eb.
    rewrite length_drop in Eb. cbn in Eb. intros j part Hj. apply Hst. lia. }
  destruct (drop i parts) as [|part rest] eqn:Ed; [done|]. injection Eb as -> Eb. apply drop_S_cons in Ed as [Hp Hrest].
  pose proof (lookup_lt_Some _ _ _ Hp). apply meets_bind, PutImmutableBytes_law.
  - intros [Hc _]. by destruct config_facts as (_ & _ & _ & _ & ?).
  - intros e t' Hl. by apply HE.
  - intros v etag t1 Hl Hv. apply meets_bind. replace (Z.of_nat i + 1) with (Z.of_nat (S i)) by lia.
    apply (IH (S i)); [by rewrite Hrest|lia| | |].
    + intros j part' Hj Hj'. destruct (decide (j = i)) as [->|].
      { rewrite Hp in Hj'. injection Hj' as <-. by exists v. }
      eapply batches_stored_later; [apply Hl|exact Hst|lia|done].
    + intros e t2 Hl2. apply HE. by eapply later_trans.
    + intros published t2 Hl2 Hlen Hall Hst2. apply HO; [by eapply later_trans|cbn [length]; lia| |done].
      intros [|j] b Hj; [|rewrite Nat.add_succ_r; by apply Hall]. apply (inj Some) in Hj as <-. rewrite Nat.add_0_r.
      exists part, v. split_and!; [done|done|]. eapply acknowledged_later; [apply Hl2|done].
Qed.

(** The messages so far: one per batch, in order, each for its part of the cohort. *)
Definition sent_ok (t : phistory) : Prop :=
  ∀ i id body, sent t !! i = Some (id, body) → ∃ part m, parts !! i = Some part ∧ id = message_id i ∧
    ParseQueueMessage body id = Ok m ∧ message_for t i part m.

Lemma sent_ok_later t t' : sent t' = sent t → t ⊆ t' → sent_ok t → sent_ok t'.
Proof.
  intros Es Ht H i id body. rewrite Es. intros Hi. destruct (H i id body Hi) as (part & m & Hp & Hid & Hm & Hf). exists part, m.
  split_and!; [done..|by eapply message_for_later].
Qed.

Lemma spec_enqueue_batches va manifest batches t (Q : _ → phistory → Prop) :
  manifest_ok t va manifest → (length (sent t) + length batches = length parts)%nat →
  (∀ j b, batches !! j = Some b → batch_ok t (length (sent t) + j) (pb_Reference b)) →
  batches_stored (length parts) t → sent_ok t → (∀ e t', Q (Err e) t') →
  (∀ t', t ⊆ t' → all_sent t' → sent_ok t' → Q (Ok tt) t') →
  spec (enqueue_batches config plan_ manifest batches (Z.of_nat (length (sent t)))) t Q.
Proof.
  revert t; induction batches as [|b batches IH]; intros t Hm Hlen Hall Hst Hs HE HO; cbn [enqueue_batches].
  { apply HO; [done|unfold all_sent; cbn in Hlen; lia|done]. }
  pose proof (Hall 0%nat b eq_refl) as Hb. rewrite Nat.add_0_r in Hb. unfold queueRequest.
  destruct (is_ok _) eqn:Ep; cbn [negb]; [|apply HE]. destruct (ParseQueueMessage _ _) as [m|] eqn:E; [|done].
  destruct (message_asks _ _ _ _ _ _ _ Hm Hb E) as (part & Hpart & Hv).
  apply meets_bind, SendRequest_law; [by exists part, m|intros e t'; apply HE|]. intros t' Hsent Hsub.
  assert (Hn : length (sent t') = S (length (sent t))) by (rewrite Hsent, length_app; cbn; lia).
  replace (Z.of_nat (length (sent t)) + 1) with (Z.of_nat (length (sent t'))) by lia.
  apply IH; [by eapply manifest_ok_later|cbn [length] in *; lia| |by eapply batches_stored_later| |exact HE|].
  - intros j b' Hj. rewrite Hn. replace (S (length (sent t)) + j)%nat with (length (sent t) + S j)%nat by lia.
    eapply batch_ok_later; [exact Hsub|]. by apply Hall.
  - intros i id body. rewrite Hsent. intros [Hi|[Hi Hi']]%lookup_app_Some.
    + destruct (Hs i id body Hi) as (part' & m' & H1 & H2 & H3 & H4). exists part', m'. split_and!; [done..|by eapply message_for_later].
    + apply list_lookup_singleton_Some in Hi' as [Hz Hi']. apply (inj2 pair) in Hi' as [<- <-]. replace i with (length (sent t)) by lia.
      exists part, m. split_and!; [done..|by eapply message_for_later].
  - intros t2 Ht2. apply HO. intros y Hy. auto.
Qed.
End Documents.
(** ** The plan *)

(** Nothing is sent by the requests of the file system. *)
Lemma spec_cleanDirectory name t (Q : _ → phistory → Prop) : (∀ r t', later t t' → Q r t') → spec (cleanDirectory name) t Q.
Proof.
  intros H. unfold cleanDirectory. case_match; [apply H, later_refl|]. apply meets_request; [done|]. intros x _.
  pose proof (later_record t _ x (λ _, ltac:(done))) as H1. destruct x as [root|]; [|by apply H].
  apply meets_request; [done|]. intros y _. pose proof (later_trans _ _ _ H1 (later_record _ _ y (λ _, ltac:(done)))) as H2.
  destruct y as [root'|]; [|by apply H]. apply meets_request; [done|]. intros z _.
  pose proof (later_trans _ _ _ H2 (later_record _ _ z (λ _, ltac:(done)))) as H3. destruct z as [info|]; [|by apply H].
  case_match; by apply H.
Qed.

Lemma spec_fileDigest name t (Q : _ → phistory → Prop) : (∀ r t', later t t' → Q r t') → spec (fileDigest name) t Q.
Proof.
  intros H. unfold fileDigest. apply meets_request; [done|]. intros x _. pose proof (later_record t _ x (λ _, ltac:(done))) as H1.
  destruct x as [r|]; [|by apply H]. apply meets_request; [done|]. intros y _. apply H.
  exact (later_trans _ _ _ H1 (later_record _ _ y (λ _, ltac:(done)))).
Qed.

Lemma spec_verifySourceArtifact root t (Q : _ → phistory → Prop) :
  (∀ t', later t t' → Q None t') → (∀ path t', later t t' → release_accepted source = true → Q (Some path) t') →
  spec (verifySourceArtifact root source) t Q.
Proof.
  intros HN HS. unfold verifySourceArtifact. destruct (release_accepted source); cbn [negb]; [|apply HN, later_refl].
  apply meets_bind, spec_cleanDirectory. intros [root'|] t1 Hl1; [|by apply HN].
  apply meets_request; [done|]. intros x _. pose proof (later_trans _ _ _ Hl1 (later_record _ _ x (λ _, ltac:(done)))) as Hl2.
  destruct x as [resolved|]; [|by apply HN]. case_match; [by apply HN|]. case_match; [|by apply HN].
  case_match; [by apply HN|]. apply meets_request; [done|]. intros y _.
  pose proof (later_trans _ _ _ Hl2 (later_record _ _ y (λ _, ltac:(done)))) as Hl3.
  destruct y as [info|]; [|by apply HN]. case_match; [by apply HN|].
  apply meets_bind, spec_fileDigest. intros r t4 Hl4. pose proof (later_trans _ _ _ Hl3 Hl4). destruct r as [digest|]; [|by apply HN].
  case_match; [by apply HN|]. by apply HS.
Qed.

(** The batches of a cohort that is not empty. *)
Lemma parts_built : rq_Recipients request ≠ [] →
  buildBatches (rq_Recipients request) (cf_BatchSize config) =
  Ret (if 10000 <? len parts then None else Some (map batch_body parts)) ∧ 1 ≤ len parts.
Proof.
  intros Hne. destruct config_facts as (Hb & _). rewrite buildBatches_chunks by lia. fold batch_size.
  assert (Hlen : len parts = Z.of_nat (chunk_count batch_size (rq_Recipients request))).
  { unfold parts, len. by rewrite length_map, length_seq. }
  assert (Hc : 1 ≤ len parts).
  { rewrite Hlen, (chunk_count_step batch_size) by (done || unfold batch_size; lia). lia. }
  split; [|done]. cbv zeta. rewrite Hlen in *. rewrite (proj2 (Z.ltb_ge _ _)) by lia. cbn [orb]. unfold parts. by rewrite map_map.
Qed.

Definition planned (p : publicationPlan) : Prop :=
  ∃ path, p = the_plan path ∧ release_accepted source = true ∧
    Forall (λ r, ParseRecipient (marshal_struct r) = Ok r) (rq_Recipients request) ∧ 1 ≤ len parts ≤ 10000.

Lemma spec_plan t (Q : _ → phistory → Prop) :
  (∀ e t', later t t' → Q (Err e) t') → (∀ p t', later t t' → planned p → Q (Ok p) t') → spec (plan config request) t Q.
Proof.
  intros HE HO. unfold plan. case_match eqn:E; [apply HE, later_refl|]. apply orb_false_iff in E as [E Hv%negb_false_iff].
  apply orb_false_iff in E as [_ Hne%Z.eqb_neq].
  apply meets_bind, spec_verifySourceArtifact; [intros t' Hl; by apply HE|]. intros path t' Hl Hr.
  destruct parts_built as [Hb Hc]; [by intros Hn; rewrite Hn in Hne|]. rewrite Hb. apply meets_bind.
  destruct (Z.ltb_spec 10000 (len parts)); [by apply HE|]. apply HO; [done|]. exists path.
  split; [done|]. split; [done|]. split; [by eapply valid_recipients_rows|lia].
Qed.

(** ** The whole publication *)

(** The end of a publication that reports success. *)
Definition published (res : PublicationResult) (t : phistory) : Prop :=
  res = mkPublicationResult (len parts) operation (sr_ReleaseID source) (sr_Version source) ∧
  Forall (λ r, ParseRecipient (marshal_struct r) = Ok r) (rq_Recipients request) ∧
  batches_stored (length parts) t ∧ all_sent t ∧ sent_ok t ∧
  ∃ va vm, archive_stored t va ∧ stored t (cf_ManifestsContainer config) manifest_name (manifest_text va) vm ∧
    advanced t (cf_ManifestsContainer config) current_name (manifest_text va).

Context {Blobs : BlobWriter} {Queue : QueueWriter} {HB : LawfulBlobs Blobs} {HQ : LawfulQueue Queue}.

Lemma spec_advanceCurrentManifest path va t (Q : _ → phistory → Prop) :
  release_accepted source = true → all_sent t → is_ok (ParsePublishedManifest (manifest_text va)) = true →
  (∀ e t', later t t' → Q (Err e) t') →
  (∀ t', later t t' → advanced t' (cf_ManifestsContainer config) current_name (manifest_text va) → Q (Ok tt) t') →
  spec (advanceCurrentManifest config (the_plan path) (manifest_text va)) t Q.
Proof.
  intros Hr Hsent Hp HE HO. unfold advanceCurrentManifest.
  destruct (ParsePublishedManifest _) as [new|] eqn:E; [|done]. destruct (release_facts Hr) as (_ & Hver & _).
  apply meets_bind. eapply PutCurrentManifest_law; [done|done|exact E| |intros e t' Hl; by apply HE|].
  - apply (manifest_read_back _ _ (manifest_kind_of path Hr va)) in E as ->. cbn [pm_ReleaseVersion manifest_of the_plan pp_request].
    apply sanitize_valid. eapply pattern_utf8; [|exact Hver]. vm_compute. reflexivity.
  - intros pb t' Hl Ha. by apply HO.
Qed.

Lemma spec_Publish :
  spec (Publish config request) [] (λ r t, ∀ res, r = Ok res → published res t).
Proof.
  unfold Publish. apply meets_bind, spec_plan; [done|]. intros p t0 [H0 _] (path & -> & Hr & Hrows & Hcount).
  apply meets_bind, spec_publishIdentity; [done|]. intros [[]|] t1 [Hs1 _]; [|done].
  apply meets_bind. apply (spec_publishDAR path); [done|]. intros va etag t2 [Hs2 _] Hdar.
  apply meets_bind. cbn [pb_Reference]. apply (spec_publishManifest path); [done|done|]. intros manifest t3 Hl3 Hm.
  apply meets_bind. unfold publishBatches. cbn [the_plan pp_operationID pp_batches].
  apply (spec_publish_batches _ 0); [by rewrite drop_0|lia|by intros i part Hi; lia|done|].
  intros batches t4 Hl4 Hlen Hall Hst. rewrite length_map in Hlen. apply meets_bind. unfold enqueueBatches.
  assert (Hs4 : sent t4 = []) by (destruct Hl3 as [E3 _], Hl4 as [E4 _]; by rewrite E4, E3, Hs2, Hs1, H0).
  assert (Hz : 0 = Z.of_nat (length (sent t4))) by (by rewrite Hs4). rewrite Hz at 1.
  pose proof (manifest_ok_later _ _ _ _ (proj2 Hl4) Hm) as Hm4.
  apply (spec_enqueue_batches path Hr Hrows Hcount va); [done|by rewrite Hs4|by rewrite Hs4|done| |done|].
  { unfold sent_ok. by rewrite Hs4. }
  intros t5 Hl5 Hsent Hok. apply meets_bind.
  apply (spec_advanceCurrentManifest path); [done|done|by destruct Hm as (_ & ? & _)|done|]. intros t6 [Hs6 Hl6] Ha res [= <-].
  destruct (manifest_ok_later _ _ _ _ Hl6 (manifest_ok_later _ _ _ _ Hl5 Hm4)) as (Hva & _ & vm & _ & Hvm).
  split; [unfold plan_result; cbn [the_plan pp_batches pp_operationID pp_request]; unfold len; by rewrite length_map|].
  split_and!; [done| |unfold all_sent; by rewrite Hs6|by eapply sent_ok_later|by exists va, vm].
  eapply batches_stored_later; [exact Hl6|]. by eapply batches_stored_later.
Qed.
End Publication.
