(* ===== verification/PublicationGuarantees.v ===== *)
(** * What a publication guarantees

    Statements about every run of [Publish] over the Azure adapters, whatever the file system, storage
    and queue answer, and their composition with the workers that deliver the messages: a cohort whose
    publication succeeded and whose messages were completed has been notified. *)

From stdpp Require Import strings.
From S2P Require Import Prelude Utf8 GoStrings Regex GoTime Json StrictJson Sha256 Url Contracts Receipt Program Azure Effects Worker AzureStorage Protocol Guarantees GoPath PublicationEffects Source Publisher PublicationAzure Batches PublicationSpec.

(** Two texts of the same size with the same SHA-256 digest. *)
Definition collision (a b : gostring) : Prop := a ≠ b ∧ len a = len b ∧ sha256_hex a = sha256_hex b.

Section PublicationGuarantees.
Context (config raw : Config) (request : PublishRequest).
Hypothesis accepted : NewPublisher raw true true = Some config.

Lemma publication_spec :
  meets anything (check config request) record (Publish config request) []
    (λ r t, ∀ res, r = Ok res → published config request res t).
Proof.
  pose proof (azure_lawful_blobs config request). pose proof (azure_lawful_queue config request). by eapply spec_Publish.
Qed.

Lemma publication_checked t r : runs (Publish config request) t r →
  ∀ t1 e x t2, t = t1 ++ existT e x :: t2 → check config request t1 e.
Proof. intros Hr. exact (proj1 (history_runs _ _ _ _ _ publication_spec Hr)). Qed.

Lemma publication_ends t res : runs (Publish config request) t (Some (Ok res)) → published config request res t.
Proof. intros Hr. exact (proj2 (history_runs _ _ _ _ _ publication_spec Hr) _ eq_refl res eq_refl). Qed.

(** C14: A message is handed to the queue only after storage acknowledged every recipient batch, the
    manifest and the archive. The [i]-th message has the identifier of batch [i] and is one
    [ParseQueueMessage] accepts; read back, it names the acknowledged versions of the manifest and of
    the [i]-th batch with the digest and size of the texts uploaded, the number of recipients of the
    [i]-th part of the cohort, and agrees with the manifest. *)
Theorem messages_verified t r t1 m x t2 :
  runs (Publish config request) t r → t = t1 ++ existT (PSend m) x :: t2 →
  sendable config request t1 (sb_MessageID m) (sb_Body m).
Proof. intros Hr E. exact (publication_checked t r Hr t1 _ x t2 E). Qed.

(** C15: Every upload carries one digest. Of a text it is the SHA-256 of that text; of the archive it is
    the digest of the source, which the file had when it was opened and read just before it was opened
    again for the upload. Only the current manifest is ever replaced; it is written only after the
    queue accepted every message, and replaced only under the ETag of the document that was just read,
    that matched its digest and size and has a smaller version. *)
Theorem uploads_safe t r t1 c n body contentType metadata cond x t2 :
  runs (Publish config request) t r →
  t = t1 ++ existT (PUpload c n body contentType metadata cond) x :: t2 →
  (∃ digest, metadata = [(lit "sha256", digest)] ∧ digest_known config request t1 c n body digest cond) ∧
  (c = cf_ManifestsContainer config → n = current_name request → all_sent config request t1) ∧
  (∀ etag, cond = Replacing etag →
     c = cf_ManifestsContainer config ∧ n = current_name request ∧ replacing t1 c n (rd_data body) etag).
Proof.
  intros Hr E. destruct (publication_checked t r Hr t1 _ x t2 E) as (Hm & Hs & Hc). split_and!; [done|done|].
  intros etag ->. exact Hc.
Qed.

(** C16: When a publication reports success, storage acknowledged the archive under the digest and size of
    the source, the manifest that names that version of the archive, and every batch; the queue accepted
    exactly one message per batch, in order, each naming what was acknowledged for its batch; and the
    current manifest was written as the new one, or was read and is the new one already. The batches
    together are the cohort. *)
Theorem publish_complete t res :
  runs (Publish config request) t (Some (Ok res)) →
  published config request res t ∧ concat (parts config request) = rq_Recipients request.
Proof. intros Hr. split; [by apply publication_ends|by eapply parts_concat]. Qed.

(** A batch the worker verified for the message of a part: the batch is that of the part, or the stored
    content is another text with its digest. *)
Lemma part_verified blobs t i part m rs :
  parts config request !! i = Some part → Forall (λ r, ParseRecipient (marshal_struct r) = Ok r) part →
  message_for config request t i part m → verified blobs m rs →
  rs = part ∨ ∃ v content, blobs (cf_BatchesContainer config) (batch_name config request i) v = Some content ∧ collision content (batch_body part).
Proof.
  intros Hp Hrows (va & vm & vb & manifest & _ & _ & _ & _ & _ & Eb & _) (_ & _ & content & Hc & Hm & Hr & _).
  unfold blob_content, Reference, Matches in *. rewrite Eb in *. cbn [br_Container br_Name br_SHA256 br_Size br_VersionID bt_Container bt_Name bt_SHA256 bt_Size bt_VersionID] in *.
  breflect. destruct Hm as [Hsize Hdigest]. destruct (decide (content = batch_body part)) as [->|Hne].
  - left. rewrite batch_read_exactly in Hr; [|by apply (parts_lookup config request raw accepted) in Hp as (_ & ? & _)|done]. by case_if_in Hr; simplify_eq.
  - right. by exists (sanitize vb), content.
Qed.

(** C13: When a publication succeeded and every message the queue accepted was delivered with the
    disposition COMPLETE, whatever the deliveries went through and whatever storage holds, every
    recipient of the cohort has an ACCEPTED or SIMULATED receipt for the operation; unless the batch
    of the recipient was replaced in storage by a different text of the same size with the same
    SHA-256 digest. *)
Theorem cohort_notified t res o containers blobs s :
  runs (Publish config request) t (Some (Ok res)) →
  NewWorker o = Some o → reachable o containers blobs s →
  (∀ id body, (id, body) ∈ sent t →
     ∃ th r, th ∈ s_threads s ∧ th_id th = id ∧ th_body th = body ∧ th_prog th = Ret r ∧ p_Disposition r = Complete) →
  ∀ rc, rc ∈ rq_Recipients request →
  (∃ m, qm_OperationID m = operation config request ∧ notified o (s_world s) m rc) ∨
  (∃ i part v content, parts config request !! i = Some part ∧ rc ∈ part ∧
     blobs (cf_BatchesContainer config) (batch_name config request i) v = Some content ∧ collision content (batch_body part)).
Proof.
  intros Hr Ho Hs Hall rc Hrc. destruct (publication_ends t res Hr) as (_ & Hrows & _ & Hsent & Hok & _).
  rewrite <- (parts_concat config request raw accepted) in Hrc. apply list_elem_of_In, in_concat in Hrc as (part & Hpart & Hrc).
  apply list_elem_of_In in Hpart, Hrc.
  apply list_elem_of_lookup_1 in Hpart as [i Hi]. pose proof (lookup_lt_Some _ _ _ Hi) as Hlt. unfold all_sent in Hsent. rewrite <- Hsent in Hlt.
  apply lookup_lt_is_Some in Hlt as [[id body] Hm]. destruct (Hok i id body Hm) as (part' & m & Hi' & -> & Hp & Hf).
  rewrite Hi in Hi'. apply (inj Some) in Hi' as <-.
  destruct (Hall _ body (list_elem_of_lookup_2 _ _ _ Hm)) as (th & r & Hth & Hid & <- & Hret & Hc).
  destruct (delivery_notified o containers blobs s th r Ho Hs Hth Hret Hc) as (m' & rs & Hp' & Hv' & Hn).
  rewrite Hid, Hp in Hp'. injection Hp' as <-.
  destruct (part_verified blobs t i part m rs Hi (part_rows config request raw accepted i part _ Hrows Hi) Hf Hv') as [->|(v & content & Hb & Hcol)].
  - left. exists m. rewrite Forall_forall in Hn. destruct Hf as (va & vm & vb & manifest & _ & _ & _ & Hop & _). by split; [|apply Hn].
  - right. by exists i, part, v, content.
Qed.
End PublicationGuarantees.

(** ** A publication over an older release *)

Module Publication.
Definition raw : Config :=
  mkConfig (lit "Org/Repo") (lit "releases") (lit "manifests") (lit "batches") (lit "https://d.example.internal/") 0.
Definition config : Config :=
  mkConfig (lit "Org/Repo") (lit "releases") (lit "manifests") (lit "batches") (lit "https://d.example.internal") 10.
Definition archive : gostring := lit "archive".
Definition source : SourceRelease := Eval vm_compute in
  mkSourceRelease (lit "releases/v1.2.3.04/dar-1.2.3.04.zip") (sha256_hex archive) 7 (lit "dar-1.2.3.04.zip") (lit "release-1")
    (lit "1.0") (lit "v1.2.3.04").
Definition request : PublishRequest :=
  mkPublishRequest (lit "/repo") source [Samples.recipient] (repeat_byte "b"%char 40) (lit "2026-01-02T03:04:05Z").
Definition the_plan : publicationPlan := Eval vm_compute in PublicationSpec.the_plan config request (lit "/repo/releases/v1.2.3.04/dar-1.2.3.04.zip").
Definition version : gostring := lit "2026-01-02T03:04:05Z".
Definition old_version : gostring := lit "2025-01-02T03:04:05Z".
Definition dar : BlobReference :=
  mkBlobReference (lit "releases") (lit "v1.2.3.04/dar-1.2.3.04.zip") (sr_DARSHA256 source) 7 version.
Definition manifest_content : gostring := Eval vm_compute in marshal_struct (manifest_of config the_plan dar).
Definition identity_content : gostring := Eval vm_compute in
  marshal_struct (mkReleaseIdentity (rq_CommitSHA request) (pp_operationID the_plan) (lit "org/repo") (lit "1.0") source).
Definition batch_content : gostring := Eval vm_compute in batch_body [Samples.recipient].
Definition old_manifest : gostring := Eval vm_compute in marshal_struct
  (mkPublishedManifest dar (lit "dar-1.2.3.03.zip") (pp_operationID the_plan) old_version (lit "release-1") (lit "v1.2.3.03")
     (lit "org/repo") (lit "1.0") (repeat_byte "b"%char 40)).
Definition old_digest : gostring := Eval vm_compute in sha256_hex old_manifest.

(** Container, name, version and content of the stored objects. *)
Definition store : list (gostring * gostring * gostring * gostring) := Eval vm_compute in
  [(lit "releases", br_Name dar, version, archive);
   (lit "manifests", lit "release-identities/release-1/v1.2.3.04.json", version, identity_content);
   (lit "manifests", manifest_name config request, version, manifest_content);
   (lit "batches", batch_name config request 0, version, batch_content);
   (lit "manifests", lit "current/release-1.json", version, manifest_content);
   (lit "manifests", lit "current/release-1.json", old_version, old_manifest)].
Definition blobs (c n v : gostring) : option gostring :=
  snd <$> List.find (λ '(c', n', v', _), (c' =s c) && (n' =s n) && (v' =s v)) store.

(** The answers of the service: what is uploaded is stored, and the current manifest is the old one. *)
Definition env (t : phistory) (e : pevent) : option (panswer e) :=
  match e return option (panswer e) with
  | FAbs name | FEvalSymlinks name => Some (Some name)
  | FStat name | FLstat name => Some (Some (mkFileInfo 7 (negb (name =s lit "/repo")) (name =s lit "/repo") false))
  | FReadDir _ => Some None
  | FOpen name => Some (Some (mkReader archive None))
  | FZip _ => Some None
  | PUpload _ _ _ _ _ _ => Some (Ok (mkUploadResponse (Some (lit "new")) (Some version)))
  | PGetProperties _ _ =>
    Some (Ok (mkBlobProperties (Some (len old_manifest)) (Some (lit "old")) (Some old_version) [(lit "Sha256", Some old_digest)]))
  | PDownload _ _ => Some (Ok (Some (mkReader old_manifest None)))
  | PSend _ => Some true
  | PClose => Some tt
  | PPanic | PDiverge => None
  end.

Definition run : history pevent panswer * option (result publication_error PublicationResult) :=
  play record env (Publish config request) [].
Definition result : PublicationResult :=
  mkPublicationResult 1 (pp_operationID the_plan) (lit "release-1") (lit "v1.2.3.04").

(** The message, and the delivery of it by a worker over the same storage. *)
Definition message_body : gostring := Eval vm_compute in marshal_struct (message_of config the_plan
  (mkBlobReference (lit "manifests") (manifest_name config request) (sha256_hex manifest_content) (len manifest_content) version)
  (mkBlobReference (lit "batches") (batch_name config request 0) (sha256_hex batch_content) (len batch_content) version) 0).
Definition message : bus_message := Eval vm_compute in
  mkBusMessage message_body (lit "application/json") (message_id config request 0) (lit "dar.release.batch.v1").
Definition containers : list gostring := [lit "manifests"; lit "batches"].
Definition delivery : world * token * prog ProcessResult :=
  run_honest blobs ReceiptSamples.now 40 (mkWorld [] []) None
    (worker_process Delivery.options containers (sb_MessageID message) (sb_Body message)).
Definition system : Protocol.system :=
  mkSystem (fst (fst delivery)) [mkThread (sb_MessageID message) (sb_Body message) (snd (fst delivery)) (snd delivery)].
End Publication.

Lemma publication_runs : runs (Publish Publication.config Publication.request) (fst Publication.run) (snd Publication.run).
Proof. exact (play_runs record Publication.env (Publish Publication.config Publication.request) []). Qed.

(** What the run is. *)
Definition publication_history : history pevent panswer := Eval vm_compute in fst Publication.run.

Lemma publication_run : Publication.run = (publication_history, Some (Ok Publication.result)).
Proof. vm_compute. reflexivity. Qed.

Lemma publication_result : snd Publication.run = Some (Ok Publication.result).
Proof. by rewrite publication_run. Qed.

Lemma publication_sends : fst Publication.run !! 15%nat = Some (existT (PSend Publication.message) true).
Proof. rewrite publication_run. vm_compute. reflexivity. Qed.

Definition replacement : pevent :=
  PUpload (lit "manifests") (lit "current/release-1.json") (mkReader Publication.manifest_content None) (lit "application/json")
    [(lit "sha256", sha256_hex Publication.manifest_content)] (Replacing (lit "old")).

Lemma publication_replaces :
  fst Publication.run !! 19%nat = Some (existT replacement (Ok (mkUploadResponse (Some (lit "new")) (Some Publication.version)))).
Proof. rewrite publication_run. vm_compute. reflexivity. Qed.

Lemma publication_sent :
  sent (fst Publication.run) = [(sb_MessageID Publication.message, sb_Body Publication.message)].
Proof. rewrite publication_run. vm_compute. reflexivity. Qed.

Lemma publication_delivered : snd Publication.delivery = Ret delivered.
Proof. vm_compute. reflexivity. Qed.

Lemma publication_accepted : NewPublisher Publication.raw true true = Some Publication.config.
Proof. vm_compute. reflexivity. Qed.

Lemma publication_system : reachable Delivery.options Publication.containers Publication.blobs Publication.system.
Proof.
  apply (run_honest_reachable Delivery.options Publication.containers Publication.blobs ReceiptSamples.now 40).
  unfold Publication.delivery. generalize (run_honest Publication.blobs ReceiptSamples.now 40 (mkWorld [] []) None
    (worker_process Delivery.options Publication.containers (sb_MessageID Publication.message) (sb_Body Publication.message))).
  by intros [[w tok] p].
Qed.

(** ** The guarantees on the sample publication *)

Lemma messages_verified_witness :
  sendable Publication.config Publication.request (take 15 (fst Publication.run))
    (sb_MessageID Publication.message) (sb_Body Publication.message).
Proof.
  refine (messages_verified Publication.config Publication.raw Publication.request publication_accepted _ _ _ _ true
    (drop 16 (fst Publication.run)) publication_runs _).
  symmetry. apply take_drop_middle. exact publication_sends.
Defined.

Lemma uploads_safe_witness :
  all_sent Publication.config Publication.request (take 19 (fst Publication.run)) ∧
  replacing (take 19 (fst Publication.run)) (lit "manifests") (lit "current/release-1.json")
    Publication.manifest_content (lit "old").
Proof.
  destruct (uploads_safe Publication.config Publication.raw Publication.request publication_accepted _ _ _ _ _ _ _ _ _ _
    (drop 20 (fst Publication.run)) publication_runs (eq_sym (take_drop_middle _ _ _ publication_replaces))) as (_ & Hs & Hr).
  split; [by apply Hs|]. by destruct (Hr _ eq_refl) as (_ & _ & ?).
Defined.

Lemma publish_complete_witness :
  published Publication.config Publication.request Publication.result (fst Publication.run) ∧
  concat (parts Publication.config Publication.request) = [Samples.recipient].
Proof.
  refine (publish_complete Publication.config Publication.raw Publication.request publication_accepted (fst Publication.run) Publication.result _).
  rewrite <- publication_result. exact publication_runs.
Defined.

(** The batches container of the sample holds the batch only. *)
Lemma publication_batch n v content :
  Publication.blobs (lit "batches") n v = Some content → content = Publication.batch_content.
Proof.
  intros ([[[c' n'] v'] content'] & Hin & Hc)%fmap_Some. apply find_some in Hin as [Hin Hb]. apply andb_prop in Hb as [[Hb _]%andb_prop _].
  assert (Hall : forallb (λ '(c, _, _, content), negb (c =s lit "batches") || (content =s Publication.batch_content)) Publication.store = true)
    by (vm_compute; reflexivity).
  rewrite forallb_forall in Hall. specialize (Hall _ Hin). cbv beta iota in Hall. rewrite Hb in Hall. cbn [negb orb] in Hall.
  apply str_eqb_eq in Hall. by rewrite Hc.
Qed.

Lemma publication_parts : parts Publication.config Publication.request = [[Samples.recipient]].
Proof. reflexivity. Qed.

Lemma publication_batch_text : Publication.batch_content = batch_body [Samples.recipient].
Proof. vm_compute. reflexivity. Qed.

Lemma cohort_notified_witness :
  ∃ m, qm_OperationID m = operation Publication.config Publication.request ∧
       notified Delivery.options (s_world Publication.system) m Samples.recipient.
Proof.
  destruct (cohort_notified Publication.config Publication.raw Publication.request publication_accepted (fst Publication.run) Publication.result
    Delivery.options Publication.containers Publication.blobs Publication.system) with (rc := Samples.recipient) as [H|(i & part & v & content & Hi & _ & Hb & Hc & _)].
  - rewrite <- publication_result. exact publication_runs.
  - reflexivity.
  - exact publication_system.
  - intros id body. rewrite publication_sent. intros Hm%list_elem_of_singleton.
    exists (mkThread (sb_MessageID Publication.message) (sb_Body Publication.message) (snd (fst Publication.delivery)) (Ret delivered)), delivered.
    apply (inj2 pair) in Hm as [-> ->]. split_and!; [|reflexivity..]. unfold Publication.system. rewrite publication_delivered. constructor.
  - constructor.
  - exact H.
  - exfalso. apply Hc. apply publication_batch in Hb as ->. rewrite publication_parts in Hi.
    apply list_lookup_singleton_Some in Hi as [_ <-]. exact publication_batch_text.
Defined.
