(* ===== verification/SourceFacts.v ===== *)
(** * What an accepted release source is

    Theorems about source.go: which archives are accepted, what a parsed cohort is, and which
    release is discovered. *)

From stdpp Require Import strings sorting.
From S2P Require Import Prelude Utf8 GoStrings Regex GoPath Csv JsonFacts StrictJson Sha256 Contracts Program Azure PublicationEffects Config Source.

(** ** Member names *)

(** A name that stays below the directory it is extracted to: ordinary segments, for a directory
    with a slash at the end. *)
Definition safe_name (name : gostring) : Prop :=
  (∃ s segs, Forall ordinary (s :: segs) ∧ (name = join_on slash (s :: segs) ∨ name = join_on slash (s :: segs) ++ [slash])) ∧
  len name ≤ 512 ∧ byte 92 ∉ name ∧ windows_drive name = false ∧
  Forall (λ r, 0x20 ≤ rune_cp r ∧ rune_cp r ≠ 0x7f) (runes name).

Lemma trim_suffix_slash name : trim_suffix (lit "/") name = name ∧ has_suffix (lit "/") name = false ∨ name = trim_suffix (lit "/") name ++ [slash].
Proof.
  unfold trim_suffix. destruct (has_suffix (lit "/") name) eqn:E; [right|by left]. apply has_suffix_spec in E as [t ->].
  rewrite length_app. change (length (lit "/")) with 1%nat. rewrite Nat.add_sub, take_app_length. done.
Qed.

Lemma trim_suffix_app t : trim_suffix (lit "/") (t ++ [slash]) = t.
Proof.
  unfold trim_suffix. rewrite (proj2 (has_suffix_spec (lit "/") (t ++ [slash]))) by (by exists t).
  rewrite length_app. change (length (lit "/")) with 1%nat. change (length [slash]) with 1%nat. by rewrite Nat.add_sub, take_app_length.
Qed.

Lemma join_head s segs : ordinary s → ∃ c t, join_on slash (s :: segs) = c :: t ∧ c ≠ slash.
Proof.
  intros (H1 & _ & _ & H4). destruct s as [|c s]; [done|]. destruct segs; eexists _, _; (split; [reflexivity|]); set_solver.
Qed.

Lemma split_on_snoc c t : split_on c (t ++ [c]) = split_on c t ++ [[]].
Proof.
  induction t as [|a t IH]; cbn [app split_on]; [by rewrite Ascii.eqb_refl|]. rewrite IH.
  destruct (Ascii.eqb a c); [done|]. pose proof (split_on_nonempty c t). by destruct (split_on c t).
Qed.

Section Segments.
Context (s : gostring) (segs : list gostring).
Hypothesis Hs : Forall ordinary (s :: segs).

Lemma split_segments : split_on slash (join_on slash (s :: segs)) = s :: segs.
Proof. by apply split_join, ordinary_free. Qed.

Lemma join_last : has_suffix (lit "/") (join_on slash (s :: segs)) = false.
Proof.
  destruct (has_suffix _ _) eqn:E; [|done]. apply has_suffix_spec in E as [t E]. pose proof split_segments as Hsp.
  rewrite E in Hsp. change (lit "/") with [slash] in Hsp. rewrite split_on_snoc in Hsp.
  assert (Hin : [] ∈ s :: segs) by (rewrite <- Hsp; apply elem_of_app; right; constructor).
  rewrite Forall_forall in Hs. by destruct (Hs _ Hin).
Qed.

Lemma join_no_root t : has_prefix (lit "/") (join_on slash (s :: segs) ++ t) = false.
Proof.
  destruct (join_head s segs) as (c & u & E & Hc); [by inversion Hs|]. rewrite E. destruct (has_prefix _ _) eqn:Ep; [|done].
  apply has_prefix_spec in Ep as [v Ep]. injection Ep as Ep _. by destruct Hc.
Qed.

Lemma path_clean_directory : path_clean (join_on slash (s :: segs) ++ [slash]) = join_on slash (s :: segs).
Proof.
  unfold path_clean. rewrite join_no_root, split_on_snoc, split_segments, fold_left_app, (clean_ordinary _ (s :: segs)), app_nil_r by done.
  cbn [fold_left]. unfold clean_segment. rewrite str_eqb_refl. cbn [orb]. rewrite rev_involutive. cbv zeta.
  destruct (join_head s segs) as (c & u & E & _); [by inversion Hs|]. by rewrite E.
Qed.
End Segments.

Lemma existsb_false {A} (f : A → bool) l : existsb f l = false ↔ Forall (λ x, f x = false) l.
Proof. induction l as [|x l IH]; cbn [existsb]; [done|]. by rewrite orb_false_iff, IH, Forall_cons. Qed.

Lemma ordinary_segments p :
  existsb (λ s, (s =s []) || (s =s dot) || (s =s dotdot)) (split_on slash p) = false ↔ Forall ordinary (split_on slash p).
Proof.
  rewrite existsb_false. pose proof (split_on_segments_free slash p) as Hf. split; intros H.
  - pose proof (conj H Hf) as Hb. apply Forall_and in Hb. eapply Forall_impl; [exact Hb|]. intros x [Hx ?]. breflect. split_hyps. by split_and!.
  - eapply Forall_impl; [exact H|]. intros x (? & ? & ? & _). breflect. by split_and!.
Qed.

Lemma visible_runes name :
  existsb (λ r, (rune_cp r <? 0x20) || (rune_cp r =? 0x7f)) (runes name) = false ↔
  Forall (λ r, 0x20 ≤ rune_cp r ∧ rune_cp r ≠ 0x7f) (runes name).
Proof. rewrite existsb_false. apply Forall_iff. intros r. rewrite orb_false_iff, Z.ltb_ge, Z.eqb_neq. done. Qed.

(** [validateMemberName] accepts exactly the safe names. *)
Lemma validateMemberName_exact name : validateMemberName name = true ↔ safe_name name.
Proof.
  unfold validateMemberName, safe_name. split.
  - intros H. case_if_in H; [done|]. case_if_in H; [done|]. apply visible_runes in E0. case_if_in H; [done|]. apply negb_true_iff, ordinary_segments in H.
    apply orb_false_iff in E1 as [_ E1%negb_false_iff]. apply str_eqb_eq in E1. rewrite E1 in H. breflect. split_hyps.
    rewrite contains_byte_false in *. split_and!; try done.
    pose proof (join_split slash (trim_suffix (lit "/") name)) as Hj. pose proof (split_on_nonempty slash (trim_suffix (lit "/") name)).
    destruct (split_on slash (trim_suffix (lit "/") name)) as [|s segs]; [done|]. exists s, segs. split; [done|]. rewrite Hj.
    destruct (trim_suffix_slash name) as [[-> _]|]; auto.
  - intros ((s & segs & Hs & Hn) & Hl & Hb & Hd & Hr). apply visible_runes in Hr. destruct (join_head s segs) as (c & u & E & Hc); [by inversion Hs|].
    assert (name ≠ [] ∧ has_prefix (lit "/") name = false ∧ path_clean name = join_on slash (s :: segs) ∧
      trim_suffix (lit "/") name = join_on slash (s :: segs)) as (Hne & Hp & Hcl & Ht).
    { pose proof (join_no_root s segs Hs) as Hroot. destruct Hn as [->| ->]; split_and!; [by rewrite E| | | |by rewrite E|done|by apply path_clean_directory|apply trim_suffix_app].
      - specialize (Hroot []). by rewrite app_nil_r in Hroot.
      - by apply path_clean_ordinary.
      - unfold trim_suffix. by rewrite join_last. }
    rewrite Hcl, Ht, str_eqb_refl, Hr, Hp, Hd. apply contains_byte_false in Hb. rewrite Hb, (proj2 (str_eqb_neq _ _) Hne), (proj2 (Z.ltb_ge _ _) Hl). cbn [orb negb].
    assert (Hdot : (join_on slash (s :: segs) =s dot) = false).
    { apply str_eqb_neq. intros Ed. pose proof (split_segments s segs Hs) as Hsp. rewrite Ed in Hsp. change (split_on slash dot) with [dot] in Hsp.
      inversion Hs as [|? ? (_ & Hx & _) _]. apply Hx. by injection Hsp as <- _. }
    rewrite Hdot. cbn [orb]. apply negb_true_iff, ordinary_segments. by rewrite split_segments.
Qed.

(** ** The archive *)

(** A file extracted from the archive. *)
Definition is_file (m : zip_member) : bool := negb (zm_dir m).
Definition extension (m : zip_member) : gostring := to_lower (path_ext (zm_Name m)).
Definition is_dar (m : zip_member) : bool := is_file m && (extension m =s lit ".dar").

(** What every entry must be, and what a file must be besides. *)
Definition entry_ok (m : zip_member) : Prop :=
  safe_name (zm_Name m) ∧ Z.land (zm_Flags m) 1 = 0 ∧ (zm_Method m = 0 ∨ zm_Method m = 8) ∧ zm_symlink m = false.
Definition file_ok (m : zip_member) : Prop :=
  (∃ stream, zm_stream m = Some stream ∧ len (rd_data stream) = zm_UncompressedSize64 m ∧ rd_err stream = None) ∧
  zm_close_ok m = true ∧ zm_UncompressedSize m = zm_UncompressedSize64 m ∧
  (extension m = lit ".dar" ∧ 1 ≤ zm_UncompressedSize64 m ∨ extension m ∈ allowedGuideExtensions).

Definition unpacked_size (ms : list zip_member) : Z := foldr Z.add 0 (map zm_UncompressedSize64 (List.filter is_file ms)).
Definition dar_count (ms : list zip_member) : Z := len (List.filter is_dar ms).
Definition canonical_names (ms : list zip_member) : list gostring := map (λ m, to_lower (zm_Name m)) ms.

(** The header fields fit their width. *)
Definition sizes_ok (ms : list zip_member) : Prop := Forall (λ m, 0 ≤ zm_UncompressedSize64 m < 2 ^ 64) ms.

Lemma copy_limited_exact r n :
  0 ≤ n → (let '(written, copied) := copy_limited r (n + 1) in negb copied || negb (written =? n)) = false ↔
  len (rd_data r) = n ∧ rd_err r = None.
Proof.
  intros Hn. unfold copy_limited. destruct (Z.leb_spec (n + 1) (len (rd_data r))).
  - rewrite (proj2 (Z.eqb_neq _ _)) by lia. split; [done|lia].
  - rewrite orb_false_iff, !negb_false_iff, Z.eqb_eq, bool_decide_eq_true. tauto.
Qed.

Lemma dar_not_guide m : extension m = lit ".dar" → extension m ∉ allowedGuideExtensions.
Proof. intros ->. apply (bool_decide_unpack _). vm_compute. exact I. Qed.

Lemma entry_test m :
  negb (validateMemberName (zm_Name m)) || negb (Z.land (zm_Flags m) 1 =? 0) ||
  (negb (zm_Method m =? 0) && negb (zm_Method m =? 8)) || zm_symlink m = false ↔ entry_ok m.
Proof.
  unfold entry_ok. rewrite <- validateMemberName_exact, !orb_false_iff, andb_false_iff, !negb_false_iff, !Z.eqb_eq. tauto.
Qed.

(** How a file of the archive is counted, when it is acceptable. *)
Definition file_darCount (m : zip_member) (darCount : Z) : option Z :=
  if extension m =s lit ".dar" then
    if zm_UncompressedSize64 m <? 1 then None else Some (darCount + 1)
  else if negb (existsb (str_eqb (extension m)) allowedGuideExtensions) then None
  else Some darCount.

Lemma file_darCount_exact m n n' :
  is_file m = true →
  file_darCount m n = Some n' ↔
  (extension m = lit ".dar" ∧ 1 ≤ zm_UncompressedSize64 m ∨ extension m ∈ allowedGuideExtensions) ∧ n' = n + if is_dar m then 1 else 0.
Proof.
  intros Hf. unfold file_darCount, is_dar. rewrite Hf, existsb_str_eqb. cbn [andb]. destruct (extension m =s lit ".dar") eqn:E.
  - apply str_eqb_eq in E. pose proof (dar_not_guide m E). destruct (Z.ltb_spec (zm_UncompressedSize64 m) 1); naive_solver lia.
  - apply str_eqb_neq in E. case_bool_decide; cbn [negb]; [|naive_solver]. rewrite Z.add_0_r. naive_solver.
Qed.

(** One round of the loop. *)
Lemma validate_member_exact m s s' :
  0 ≤ zs_total s ≤ maxUncompressedBytes → 0 ≤ zm_UncompressedSize64 m < 2 ^ 64 →
  validate_member m s = Some s' ↔
  entry_ok m ∧ to_lower (zm_Name m) ∉ zs_seen s ∧ (is_file m = true → file_ok m ∧ zs_total s + zm_UncompressedSize64 m ≤ maxUncompressedBytes) ∧
  s' = mkZipState ({[to_lower (zm_Name m)]} ∪ zs_seen s) (zs_total s + if is_file m then zm_UncompressedSize64 m else 0)
         (zs_darCount s + if is_dar m then 1 else 0).
Proof.
  intros Ht Hz. unfold validate_member. rewrite <- entry_test. destruct (_ || zm_symlink m); [split; [done|by intros [? _]]|].
  case_bool_decide; [naive_solver|]. destruct (zm_dir m) eqn:Ed.
  { unfold is_dar, is_file. rewrite Ed. cbn [negb andb]. rewrite !Z.add_0_r. naive_solver. }
  assert (Hf : is_file m = true) by (unfold is_file; by rewrite Ed). rewrite Hf. unfold maxUncompressedBytes in *.
  rewrite Z.mod_small by lia. destruct (Z.ltb_spec (1024 * 1024 * 1024 - zs_total s) (zm_UncompressedSize64 m)) as [Hs|Hs].
  { split; [done|]. intros (_ & _ & Hfile & _). destruct (Hfile eq_refl). lia. }
  rewrite Z.mod_small by lia. cbv zeta. fold (extension m). fold (file_darCount m (zs_darCount s)).
  pose proof (file_darCount_exact m (zs_darCount s)) as Hd. unfold file_ok.
  destruct (file_darCount m (zs_darCount s)) as [d|].
  2: { split; [done|]. intros (_ & _ & Hfile & _). destruct (Hfile eq_refl) as [(_ & _ & _ & Hx) _].
    destruct (Hd (zs_darCount s + if is_dar m then 1 else 0) Hf) as [_ Hd2]. by specialize (Hd2 (conj Hx eq_refl)). }
  destruct (Hd d Hf) as [Hd1 _]. destruct (Hd1 eq_refl) as [Hx ->]. destruct (zm_stream m) as [stream|]; [|naive_solver].
  destruct (Z.eqb_spec (zm_UncompressedSize m) (zm_UncompressedSize64 m)) as [E|E]; cbn [negb]; [|naive_solver].
  pose proof (copy_limited_exact stream (zm_UncompressedSize m) ltac:(lia)) as Hc.
  destruct (copy_limited stream (zm_UncompressedSize m + 1)) as [written copied]. rewrite E in Hc.
  destruct (negb copied || negb (zm_close_ok m) || negb (written =? zm_UncompressedSize m)) eqn:Et; rewrite E in Et.
  - split; [done|]. intros (_ & _ & Hfile & _). destruct (Hfile eq_refl) as [((stream' & [= <-] & Hlen & Herr) & Hclose & _) _].
    rewrite Hclose in Et. destruct Hc as [_ Hc]. rewrite orb_false_r in Et. rewrite (Hc (conj Hlen Herr)) in Et. done.
  - apply orb_false_iff in Et as [Et Ew]. apply orb_false_iff in Et as [Ec Hclose%negb_false_iff].
    destruct Hc as [Hc _]. rewrite Ec, Ew in Hc. destruct (Hc eq_refl). split; [|naive_solver].
    intros [= <-]. split_and!; try done. intros _. split; [|lia]. split_and!; try done. by exists stream.
Qed.

Lemma unpacked_cons m ms : unpacked_size (m :: ms) = (if is_file m then zm_UncompressedSize64 m else 0) + unpacked_size ms.
Proof. unfold unpacked_size. cbn [List.filter]. by destruct (is_file m). Qed.

Lemma dar_count_cons m ms : dar_count (m :: ms) = (if is_dar m then 1 else 0) + dar_count ms.
Proof. unfold dar_count. cbn [List.filter]. destruct (is_dar m); [|done]. rewrite len_cons. lia. Qed.

Lemma unpacked_nonneg ms : sizes_ok ms → 0 ≤ unpacked_size ms.
Proof. induction 1 as [|m ms Hm _ IH]; [done|]. rewrite unpacked_cons. destruct (is_file m); lia. Qed.

Lemma file_ok_cons m ms :
  Forall file_ok (List.filter is_file (m :: ms)) ↔ (is_file m = true → file_ok m) ∧ Forall file_ok (List.filter is_file ms).
Proof. cbn [List.filter]. destruct (is_file m); [rewrite Forall_cons; naive_solver|naive_solver]. Qed.

(** The whole loop. *)
Lemma validate_members_exact ms s total darCount :
  0 ≤ zs_total s ≤ maxUncompressedBytes → sizes_ok ms →
  (∃ seen, validate_members ms s = Some (mkZipState seen total darCount)) ↔
  Forall entry_ok ms ∧ NoDup (canonical_names ms) ∧ (∀ n, n ∈ canonical_names ms → n ∉ zs_seen s) ∧
  Forall file_ok (List.filter is_file ms) ∧ zs_total s + unpacked_size ms ≤ maxUncompressedBytes ∧
  total = zs_total s + unpacked_size ms ∧ darCount = zs_darCount s + dar_count ms.
Proof.
  revert s; induction ms as [|m ms IH]; intros s Ht Hz.
  { cbn [validate_members canonical_names map List.filter]. unfold unpacked_size, dar_count. cbn. rewrite !Z.add_0_r. split.
    - intros [seen [= ->]]. cbn in *. split_and!; try done; try lia; [apply NoDup_nil_2|set_solver].
    - intros (_ & _ & _ & _ & _ & -> & ->). exists (zs_seen s). by destruct s. }
  inversion Hz as [|? ? Hm Hz']; subst. pose proof (unpacked_nonneg ms Hz') as Hu. cbn [validate_members].
  rewrite Forall_cons, file_ok_cons, unpacked_cons, dar_count_cons. unfold canonical_names. cbn [map]. fold (canonical_names ms). rewrite NoDup_cons.
  pose proof (validate_member_exact m s) as Hex. split.
  - intros [seen H]. destruct (validate_member m s) as [s1|] eqn:E1; [|done]. cbn [mbind option_bind] in H.
    destruct (proj1 (Hex s1 Ht Hm) eq_refl) as (He & Hn & Hf & Hs1).
    assert (Hs1t : zs_total s1 = zs_total s + if is_file m then zm_UncompressedSize64 m else 0) by (by subst).
    assert (Ht1 : 0 ≤ zs_total s1 ≤ maxUncompressedBytes) by (rewrite Hs1t; destruct (is_file m); [destruct (Hf eq_refl)|]; lia).
    destruct (proj1 (IH s1 Ht1 Hz')) as (IH1 & IH2 & IH3 & IH4 & IH5 & -> & ->); [eauto|].
    rewrite Hs1 in IH3. cbn [zs_seen] in IH3. rewrite Hs1t in *. replace (zs_darCount s1) with (zs_darCount s + if is_dar m then 1 else 0) by (by subst).
    split_and!; try done; try lia; [intros Hin; apply IH3 in Hin; set_solver| |intros; by apply Hf].
    intros n [->|Hin]%elem_of_cons; [done|]. apply IH3 in Hin. set_solver.
  - intros ([He1 He2] & [Hn1 Hn2] & Hseen & [Hf1 Hf2] & Hsum & -> & ->).
    assert (E1 : validate_member m s = Some (mkZipState ({[to_lower (zm_Name m)]} ∪ zs_seen s)
      (zs_total s + if is_file m then zm_UncompressedSize64 m else 0) (zs_darCount s + if is_dar m then 1 else 0))).
    { apply Hex; [done|done|]. split_and!; try done; [apply Hseen; set_solver|]. intros Hf. rewrite Hf in Hsum. split; [by apply Hf1|lia]. }
    rewrite E1. cbn [mbind option_bind]. apply IH; cbn [zs_total zs_seen zs_darCount]; [destruct (is_file m); lia|done|].
    split_and!; try done; try lia. intros n Hin Hn. apply elem_of_union in Hn as [->%elem_of_singleton|Hn]; [done|].
    eapply Hseen; [|exact Hn]. by right.
Qed.

(** The archives the publisher accepts. *)
Definition archive_spec (ms : list zip_member) : Prop :=
  1 ≤ len ms ≤ maxArchiveEntries ∧ Forall entry_ok ms ∧ NoDup (canonical_names ms) ∧ Forall file_ok (List.filter is_file ms) ∧
  unpacked_size ms ≤ maxUncompressedBytes ∧ dar_count ms = 1.

(** C29: An archive is accepted exactly when it has between 1 and 32 entries, all with safe names that
    differ when case is ignored, stored or deflated, not encrypted and no links; when every file
    unpacks, without an error, to exactly the size its header names, all files together to at most
    1 GiB; and when exactly one file is a non-empty .dar and all others are guides. *)
Theorem archive_exact ms : sizes_ok ms → archive_accepted ms = true ↔ archive_spec ms.
Proof.
  intros Hz. unfold archive_accepted, archive_spec.
  pose proof (λ t d, validate_members_exact ms (mkZipState ∅ 0 0) t d ltac:(unfold maxUncompressedBytes; cbn; lia) Hz) as H.
  cbn [zs_total zs_darCount zs_seen] in H. destruct (_ || _) eqn:E; [split; [done|]; intros (Hl & _); rewrite orb_true_iff, !Z.ltb_lt in E; lia|].
  apply orb_false_iff in E. rewrite !Z.ltb_ge in E.
  destruct (validate_members ms (mkZipState ∅ 0 0)) as [[seen t d]|].
  - destruct (proj1 (H t d) (ex_intro _ seen eq_refl)) as (H1 & H2 & _ & H4 & H5 & _ & ->). cbn [zs_darCount]. rewrite negb_involutive, Z.eqb_eq.
    rewrite Z.add_0_l in *. tauto.
  - split; [done|]. intros (_ & H1 & H2 & H3 & H4 & _).
    destruct (proj2 (H (unpacked_size ms) (dar_count ms))) as [? ?]; [|done]. rewrite Z.add_0_l. by split_and!.
Qed.

Module Archive.
Definition file (name content : gostring) : zip_member :=
  mkMember name 0 8 false false (len content) (len content) (Some (mkReader content None)) true.
Definition members : list zip_member :=
  [mkMember (lit "app/") 0 0 false true 0 0 None true; file (lit "app/Main.DAR") (lit "dar"); file (lit "README.md") (lit "guide")].
End Archive.

Lemma archive_sizes : sizes_ok Archive.members.
Proof. apply (bool_decide_unpack _). vm_compute. exact I. Qed.

Lemma archive_members_accepted : archive_accepted Archive.members = true.
Proof. vm_compute. reflexivity. Qed.

Lemma archive_exact_witness : sizes_ok Archive.members ∧ archive_spec Archive.members.
Proof.
  split; [exact archive_sizes|]. apply (proj1 (archive_exact Archive.members archive_sizes)). exact archive_members_accepted.
Defined.

(** ** Versions *)

Lemma matches_lit l w : matches (RLit l) w → w = lit l.
Proof.
  unfold RLit. revert w; induction (lit l) as [|c t IH]; intros w H; cbn [fold_right] in H; [by apply matches_eps|].
  apply matches_cat in H as (u & v & -> & (d & -> & Hd%Ascii.eqb_eq)%matches_class & Hv). subst d. by rewrite (IH v Hv).
Qed.

(** A version is three decimal numbers and two digits, separated by dots. *)
Lemma version_parts v :
  match_string productVersionPattern v = true →
  ∃ a b c d, v = "v"%char :: join_on "."%char [a; b; c; d] ∧ split_on "."%char (trim_prefix (lit "v") v) = [a; b; c; d].
Proof.
  intros H%match_string_spec. unfold productVersionPattern, RSeq in H. cbn [fold_right] in H.
  apply matches_cat in H as (u0 & w0 & -> & ->%matches_lit & H). apply matches_cat in H as (a & w1 & -> & Ha & H).
  apply matches_cat in H as (u1 & w2 & -> & ->%matches_lit & H). apply matches_cat in H as (b & w3 & -> & Hb & H).
  apply matches_cat in H as (u2 & w4 & -> & ->%matches_lit & H). apply matches_cat in H as (c & w5 & -> & Hc & H).
  apply matches_cat in H as (u3 & w6 & -> & ->%matches_lit & H). apply matches_cat in H as (d & w7 & -> & Hd & ->%matches_eps).
  assert (Hn : ∀ r w, re_chars (λ x, negb (Ascii.eqb "."%char x)) r = true → matches r w → "."%char ∉ w).
  { intros r w Hr Hw. eapply pattern_free; [exact Hr|]. by apply match_string_spec. }
  apply Hn in Ha, Hb, Hc, Hd; [|vm_compute; reflexivity..]. exists a, b, c, d. rewrite app_nil_r, trim_prefix_app.
  assert (E : a ++ lit "." ++ b ++ lit "." ++ c ++ lit "." ++ d = join_on "."%char [a; b; c; d]).
  { cbn [join_on flat_map]. by rewrite app_nil_r. }
  change (split_on _ _) with (split_on "."%char (a ++ lit "." ++ b ++ lit "." ++ c ++ lit "." ++ d)). rewrite E. split; [by rewrite <- E|].
  apply split_join. by rewrite !Forall_cons.
Qed.

Lemma productVersionKey_length v key : productVersionKey v = Some key → match_string productVersionPattern v = true ∧ length key = 4%nat.
Proof.
  unfold productVersionKey. destruct (match_string productVersionPattern v) eqn:E; [|done]. cbn [negb]. intros H. split; [done|].
  apply version_parts in E as (a & b & c & d & _ & E). rewrite E in H. apply length_mapM in H. by rewrite <- H.
Qed.

(** The order of versions, on keys of the same length. *)
Lemma versionKeyLess_irrefl k : versionKeyLess k k = false.
Proof. induction k as [|x k IH]; [done|]. cbn [versionKeyLess]. by rewrite Z.eqb_refl. Qed.

Lemma versionKeyLess_asym a b : versionKeyLess a b = true → versionKeyLess b a = false.
Proof.
  revert b; induction a as [|x a IH]; intros [|y b] H; try done. cbn [versionKeyLess] in *. rewrite (Z.eqb_sym y x).
  destruct (Z.eqb_spec x y); cbn [negb] in *; [by apply IH|]. apply Z.ltb_lt in H. apply Z.ltb_ge. lia.
Qed.

Lemma versionKeyLess_trans a b c :
  length a = length b → length b = length c →
  versionKeyLess b a = false → versionKeyLess c b = false → versionKeyLess c a = false.
Proof.
  revert b c; induction a as [|x a IH]; intros [|y b] [|z c] E1 E2 H1 H2; try done. cbn [versionKeyLess length] in *. injection E1 as E1. injection E2 as E2.
  destruct (Z.eqb_spec y x), (Z.eqb_spec z y), (Z.eqb_spec z x); cbn [negb] in *; try (apply Z.ltb_ge in H1); try (apply Z.ltb_ge in H2); subst; try done;
    try (apply Z.ltb_ge; lia); try lia. by eapply IH.
Qed.

#[export] Instance candidate_le_total : Total candidate_le.
Proof.
  intros a b. unfold candidate_le. destruct (versionKeyLess b.2 a.2) eqn:E; [right; by apply versionKeyLess_asym|by left].
Qed.

(** The last of a sorted list is the greatest. *)
Lemma sorted_last cs c :
  Sorted candidate_le cs → Forall (λ x, length x.2 = 4%nat) cs → last cs = Some c → Forall (λ x, candidate_le x c) cs.
Proof.
  induction 1 as [|x cs Hs IH Hx]; intros Hl Hlast; [done|]. apply Forall_cons in Hl as [Hlx Hl]. destruct Hx as [|y cs Hxy].
  { injection Hlast as ->. constructor; [apply versionKeyLess_irrefl|constructor]. }
  specialize (IH Hl Hlast). constructor; [|done]. apply Forall_cons in IH as [Hyc _].
  assert (Hlc : length c.2 = 4%nat) by (rewrite Forall_forall in Hl; apply Hl; by eapply last_Some_elem_of).
  apply Forall_cons in Hl as [Hly _]. unfold candidate_le in *. eapply versionKeyLess_trans; [| |exact Hxy|exact Hyc]; congruence.
Qed.

(** ** The discovered release *)

Definition is_readme (e : dir_entry) : Prop := de_name e = lit "README.md" ∧ de_regular e = true.
Definition is_release (e : dir_entry) : Prop :=
  de_dir e = true ∧ de_symlink e = false ∧ ∃ key, productVersionKey (de_name e) = Some key.

Lemma release_candidates_exact entries cs :
  release_candidates entries = Some cs →
  Forall (λ e, is_readme e ∨ is_release e) entries ∧
  (∀ v key, (v, key) ∈ cs → productVersionKey v = Some key ∧ ∃ e, e ∈ entries ∧ is_release e ∧ de_name e = v) ∧
  (∀ e key, e ∈ entries → productVersionKey (de_name e) = Some key → (de_name e, key) ∈ cs).
Proof.
  revert cs; induction entries as [|e entries IH]; intros cs H; cbn [release_candidates] in H.
  { injection H as <-. split_and!; [constructor|by intros ? ? ?%elem_of_nil|by intros ? ? ?%elem_of_nil]. }
  destruct ((de_name e =s lit "README.md") && de_regular e) eqn:E.
  - apply andb_prop in E as [E%str_eqb_eq Hreg]. destruct (IH cs H) as (H1 & H2 & H3). split_and!.
    + constructor; [by left|done].
    + intros v key Hv. destruct (H2 v key Hv) as (? & e' & ? & ? & ?). split; [done|]. exists e'. split; [by right|done].
    + intros e' key [->|He]%elem_of_cons Hk; [|by apply H3]. rewrite E in Hk. by vm_compute in Hk.
  - case_if_in H; [done|]. apply orb_false_iff in E0 as [Hd%negb_false_iff Hs].
    destruct (productVersionKey (de_name e)) as [key|] eqn:Ek; [|done]. cbn [mbind option_bind] in H.
    destruct (release_candidates entries) as [cs'|]; [|done]. apply (inj Some) in H as <-. destruct (IH cs' eq_refl) as (H1 & H2 & H3).
    assert (Hr : is_release e) by (split_and!; [done|done|by exists key]). split_and!.
    + constructor; [by right|done].
    + intros v k [[= -> ->]|Hv]%elem_of_cons; [split; [done|]; exists e; split_and!; [by left|done|done]|].
      destruct (H2 v k Hv) as (? & e' & ? & ? & ?). split; [done|]. exists e'. split; [by right|done].
    + intros e' k [->|He]%elem_of_cons Hk; [rewrite Ek in Hk; injection Hk as <-; by left|]. right. by apply H3.
Qed.

(** The release is a directory of the listing, and no directory has a greater version. *)
Definition latest_of (entries : list dir_entry) (version : gostring) : Prop :=
  Forall (λ e, is_readme e ∨ is_release e) entries ∧ (∃ e, e ∈ entries ∧ is_release e ∧ de_name e = version) ∧
  ∃ key, productVersionKey version = Some key ∧
    ∀ e key', e ∈ entries → productVersionKey (de_name e) = Some key' → versionKeyLess key key' = false.

Lemma latest_release_exact entries cs v :
  release_candidates entries = Some cs → latest_release cs = Some v → latest_of entries v.
Proof.
  intros (H1 & H2 & H3)%release_candidates_exact Hv. unfold latest_release in Hv.
  apply fmap_Some in Hv as ([v' key] & Hl & ->). cbn [fst]. pose proof (merge_sort_Permutation candidate_le cs) as Hp.
  assert (Hin : (v', key) ∈ cs) by (rewrite <- Hp; by apply last_Some_elem_of).
  destruct (H2 _ _ Hin) as [Hk He]. split_and!; [done|done|]. exists key. split; [done|]. intros e key' Hein Hk'.
  apply sorted_last in Hl; [|apply Sorted_merge_sort, _|].
  - rewrite Forall_forall in Hl. apply (Hl (de_name e, key')). rewrite Hp. by apply H3.
  - rewrite Hp. apply Forall_forall. intros [x k] Hx. apply H2 in Hx as [Hx _]. by apply productVersionKey_length in Hx as [_ ?].
Qed.

(** The names of a release are its version's. *)
Lemma release_path version :
  match_string productVersionPattern version = true →
  path_join [lit "releases"; version; download_name version] = lit "releases/" ++ version ++ lit "/" ++ download_name version.
Proof.
  intros H. assert (Hs : slash ∉ version) by (eapply pattern_free; [|exact H]; vm_compute; reflexivity).
  destruct (version_parts version H) as (a & b & c & d & E & _).
  assert (Hd : slash ∉ download_name version).
  { unfold download_name. rewrite E in *. change (trim_prefix (lit "v") ("v"%char :: ?x)) with x.
    rewrite !not_elem_of_app. split_and!; [by vm_compute; set_solver| |by vm_compute; set_solver]. set_solver. }
  unfold path_join. replace (List.filter _ _) with [lit "releases"; version; download_name version] by (by rewrite E).
  rewrite path_clean_ordinary.
  - cbn [join_on flat_map]. by rewrite app_nil_r.
  - rewrite !Forall_cons. split_and!; [| | |constructor].
    + split_and!; [done|done|done|]. vm_compute. set_solver.
    + split_and!; [by rewrite E|by rewrite E|by rewrite E|done].
    + split_and!; [done|done|done|done].
Qed.

(** The listing of the releases directory: the first directory that was read. *)
Definition first_listing (s : option (list dir_entry)) (e : pevent) : panswer e → option (list dir_entry) :=
  match e with
  | FReadDir _ => λ x, match s with Some _ => s | None => x end
  | _ => λ _, s
  end.

Definition any_answer (s : option (list dir_entry)) (e : pevent) (x : panswer e) : Prop := True.
Definition any_request (s : option (list dir_entry)) (e : pevent) : Prop := True.
Abbreviation sspec := (meets any_answer any_request first_listing).

Definition discovered (entries : list dir_entry) (releaseID : gostring) (release : SourceRelease) : Prop :=
  latest_of entries (sr_Version release) ∧ sr_ReleaseID release = releaseID ∧ release_accepted release = true.

Lemma sspec_cleanDirectory name s (Q : _ → _ → Prop) : (∀ r, Q r s) → sspec (cleanDirectory name) s Q.
Proof.
  intros H. unfold cleanDirectory. case_match; [apply H|]. apply meets_request; [done|]. intros [root|] _; [|apply H].
  apply meets_request; [done|]. intros [root'|] _; [|apply H]. apply meets_request; [done|]. intros [info|] _; [|apply H].
  case_match; apply H.
Qed.

Lemma sspec_discover_archive releases releaseID version entries :
  match_string releaseIDPattern releaseID = true → match_string productVersionPattern version = true → latest_of entries version →
  sspec (discover_archive releases releaseID version) (Some entries)
    (λ r s, ∀ release, r = Ok release → s = Some entries ∧ discovered entries releaseID release).
Proof.
  intros Hid Hv Hl. unfold discover_archive. apply meets_request; [done|]. intros [[|e [|e' es]]|] _; try done.
  cbn [first_listing]. case_match; [done|]. apply meets_request; [done|]. intros [info|] _; [|done].
  case_match eqn:Es; [done|]. apply orb_false_iff in Es as [Es1%Z.ltb_ge Es2%Z.ltb_ge]. unfold validateReleaseZIP.
  apply meets_bind, meets_request; [done|]. intros [members|] _; [|done]. apply meets_request; [done|]. intros [] _.
  destruct (archive_accepted members); [|done]. cbn [negb meets].
  unfold fileDigest. apply meets_bind, meets_request; [done|]. intros [r|] _; [|done]. apply meets_request; [done|]. intros [] _.
  destruct (rd_err r); [done|]. cbn [meets first_listing]. intros release [= <-]. split; [done|]. split; [done|]. split; [done|].
  unfold release_accepted. cbn [sr_SchemaVersion sr_ReleaseID sr_Version sr_DownloadName sr_DARPath sr_DARSHA256 sr_DARSize].
  rewrite Hid, Hv, release_path, !str_eqb_refl by done. destruct (sha256_hex_format (rd_data r)) as [Hlen _].
  unfold len. rewrite Hlen, (proj2 (Z.ltb_ge _ _) Es1), (proj2 (Z.ltb_ge _ _) Es2). done.
Qed.

Lemma sspec_DiscoverSource root releaseID :
  sspec (DiscoverSource root releaseID) None
    (λ r s, ∀ release, r = Ok release → ∃ entries, s = Some entries ∧ discovered entries releaseID release).
Proof.
  unfold DiscoverSource. destruct (match_string releaseIDPattern releaseID) eqn:Hid; [|done]. cbn [negb].
  apply meets_bind, sspec_cleanDirectory. intros [root'|]; [|done].
  unfold rejectSymlink. apply meets_bind, meets_request; [done|]. intros [info|] _; [|done]. cbn [meets]. case_match; [done|].
  apply meets_request; [done|]. intros [[|e es]|] _; try done. cbn [first_listing].
  destruct (release_candidates (e :: es)) as [cs|] eqn:Ec; [|done]. cbn [mbind option_bind].
  destruct (latest_release cs) as [v|] eqn:Ev; [|done]. pose proof (latest_release_exact _ _ _ Ec Ev) as Hl.
  destruct Hl as (Hl1 & Hl2 & key & Hk & Hl3). destruct (productVersionKey_length v key Hk) as [Hv _].
  eapply meets_weaken; [apply (sspec_discover_archive _ releaseID v (e :: es)); [done|done|]|].
  - split_and!; [done|done|]. by exists key.
  - intros r s Hr release ->. exists (e :: es). by apply Hr.
Qed.

(** C30: The release [DiscoverSource] reports is a directory of the releases folder, none of whose
    directories has a greater version, that folder holds nothing but releases and a README, and the
    report is one the publisher accepts. *)
Theorem discovered_latest root releaseID t release :
  runs (DiscoverSource root releaseID) t (Some (Ok release)) →
  ∃ entries, after first_listing None t = Some entries ∧ discovered entries releaseID release.
Proof.
  intros Hr. assert (Hp : permitted any_answer first_listing None t).
  { generalize (@None (list dir_entry)). clear Hr. induction t as [|[e x] t IH]; intros s; cbn; [done|]. split; [done|apply IH]. }
  exact (proj2 (meets_runs _ _ _ _ _ _ _ _ (sspec_DiscoverSource root releaseID) Hr Hp) _ eq_refl release eq_refl).
Qed.

(** A repository with two releases. *)
Module Repository.
Definition directory (name : gostring) : dir_entry := mkDirEntry name false true false.
Definition entries : list dir_entry :=
  [mkDirEntry (lit "README.md") true false false; directory (lit "v1.2.10.01"); directory (lit "v1.2.9.99")].
Definition env (s : unit) (e : pevent) : option (panswer e) :=
  match e return option (panswer e) with
  | FAbs name | FEvalSymlinks name => Some (Some name)
  | FStat name | FLstat name =>
    Some (Some (if has_suffix (lit ".zip") name then mkFileInfo 7 true false false else mkFileInfo 0 false true false))
  | FReadDir name =>
    Some (Some (if has_suffix (lit "releases") name then entries else [mkDirEntry (lit "dar-1.2.10.01.zip") true false false]))
  | FOpen _ => Some (Some (mkReader (lit "archive") None))
  | FZip _ => Some (Some Archive.members)
  | PClose => Some tt
  | _ => None
  end.
Definition run : history pevent panswer * option (result publication_error SourceRelease) :=
  play (λ s _ _, s) env (DiscoverSource (lit "/repo") (lit "release-1")) ().
Definition release : SourceRelease := Eval vm_compute in
  mkSourceRelease (lit "releases/v1.2.10.01/dar-1.2.10.01.zip") (sha256_hex (lit "archive")) 7 (lit "dar-1.2.10.01.zip")
    (lit "release-1") (lit "1.0") (lit "v1.2.10.01").
End Repository.

Lemma repository_run : snd Repository.run = Some (Ok Repository.release).
Proof. vm_compute. reflexivity. Qed.

Lemma discovered_latest_witness :
  ∃ entries, after first_listing None (fst Repository.run) = Some entries ∧ discovered entries (lit "release-1") Repository.release.
Proof.
  apply (discovered_latest (lit "/repo")). rewrite <- repository_run.
  exact (play_runs (λ s _ _, s) Repository.env (DiscoverSource (lit "/repo") (lit "release-1")) ()).
Defined.
