(* ===== verification/Cohort.v ===== *)
(** * The cohort of a publication

    Theorems about the recipients: what [ParseRecipients] makes of the protected file, that the
    publisher accepts it, and that a cohort written as a file is read back. *)

From stdpp Require Import strings sorting.
From S2P Require Import Prelude Utf8 GoStrings Regex Csv JsonFacts StrictJson Contracts Azure PublicationEffects Source Publisher Batches.

(** ** Addresses in canonical form *)

(** A character of a canonical address. *)
Definition address_char (c : ascii) : bool := is_ascii c && negb (is_space (code c)) && Ascii.eqb (lower_byte c) c.

Lemma drop_while_none {A} (f : A → bool) l : Forall (λ x, f x = false) l → drop_while f l = l.
Proof. destruct 1 as [|x l Hx _]; [done|]. cbn [drop_while]. by rewrite Hx. Qed.

Lemma trim_both_none {A} (f : A → bool) l : Forall (λ x, f x = false) l → trim_both f l = l.
Proof.
  intros H. unfold trim_both. rewrite (drop_while_none _ l) by done. rewrite drop_while_none, rev_involutive; [done|].
  by apply Forall_rev.
Qed.

Lemma canonical_address s : forallb address_char s = true → to_lower (trim_space s) = s.
Proof.
  intros H. apply forallb_Forall in H.
  assert (Ha : all_ascii s = true).
  { apply forallb_Forall. eapply Forall_impl; [exact H|]. intros c Hc. unfold address_char in Hc. by destruct (is_ascii c). }
  assert (Ht : trim_space s = s).
  { unfold trim_space. rewrite <- (flat_map_raw_runes s) at 2. f_equal. apply trim_both_none.
    rewrite <- (app_nil_r s), runes_all_ascii by done. apply Forall_app. split; [|constructor].
    apply Forall_fmap. eapply Forall_impl; [exact H|]. intros c Hc. unfold address_char in Hc. cbn [compose rune_cp].
    apply andb_prop in Hc as [[_ Hc]%andb_prop _]. by apply negb_true_iff. }
  rewrite Ht, to_lower_ascii by done. clear Ha Ht. induction H as [|c s Hc _ IH]; [done|]. cbn [map]. rewrite IH.
  apply andb_prop in Hc as [_ Hc%Ascii.eqb_eq]. by rewrite Hc.
Qed.

Lemma email_canonical e : match_string Contracts.emailPattern e = true → to_lower (trim_space e) = e.
Proof. intros H. apply canonical_address. eapply match_string_chars; [|exact H]. vm_compute. reflexivity. Qed.

(** ** Rows *)

Definition row_recipient (row : list gostring) : Recipient :=
  mkRecipient (to_lower (trim_space (nth 2 row []))) (trim_space (nth 0 row [])) (trim_space (nth 1 row [])).

Lemma parse_row_exact row seen r :
  Source.parse_row row seen = Some r ↔
  length row = 3%nat ∧ r = row_recipient row ∧ recipient_checks r = true ∧ rc_Email r ∉ seen.
Proof.
  assert (Hc : ∀ e f l, recipient_checks (mkRecipient e f l) = true ↔
    match_string Source.namePattern f = true ∧ match_string Source.namePattern l = true ∧ len e ≤ 254 ∧ match_string Source.emailPattern e = true).
  { intros e f l. unfold recipient_checks. cbn [rc_FirstName rc_LastName rc_Email].
    rewrite negb_true_iff, !orb_false_iff, !negb_false_iff, Z.ltb_ge, str_eqb_eq. split; [naive_solver|].
    intros (? & ? & ? & He). split_and!; try done. symmetry. by apply email_canonical. }
  unfold Source.parse_row, row_recipient. destruct row as [|f0 [|f1 [|f2 [|f3 row]]]]; try (split; [done|by intros (? & _)]).
  cbn [nth length]. case_match eqn:E.
  - split; [done|]. intros (_ & -> & H & _). apply Hc in H as (H1 & H2 & H3 & H4). rewrite H1, H2, H4, (proj2 (Z.ltb_ge _ _) H3) in E. done.
  - breflect. split_hyps. case_bool_decide.
    + split; [done|]. intros (_ & -> & _ & ?). done.
    + split; [|naive_solver]. intros [= <-]. split_and!; try done. by apply Hc.
Qed.

Lemma parse_rows_exact rows seen rs :
  Source.parse_rows rows seen = Some rs ↔
  Forall (λ row, length row = 3%nat) rows ∧ rs = map row_recipient rows ∧ Forall (λ r, recipient_checks r = true) rs ∧
  NoDup (map rc_Email rs) ∧ (∀ e, e ∈ map rc_Email rs → e ∉ seen).
Proof.
  revert seen rs; induction rows as [|row rows IH]; intros seen rs; cbn [Source.parse_rows map].
  { split; [intros [= <-]; split_and!; try done; [constructor|set_solver]|by intros (_ & -> & _)]. }
  rewrite Forall_cons. split.
  - intros H. destruct (parse_row row seen) as [r|] eqn:E; [|done]. cbn [mbind option_bind] in H. apply parse_row_exact in E as (E1 & -> & E3 & E4).
    destruct (Source.parse_rows rows _) as [rs'|] eqn:E'; [|done]. injection H as <-. apply IH in E' as (H1 & -> & H3 & H4 & H5).
    cbn [map]. split_and!; [done|done|done|by constructor| |].
    + constructor; [|done]. intros Hin. apply H5 in Hin. set_solver.
    + intros e [->|He]%elem_of_cons; [done|]. apply H5 in He. set_solver.
  - intros ([H1 H2] & -> & H3 & H4 & H5). inversion H3 as [|? ? H3a H3b]; subst. cbn [map] in *. apply NoDup_cons in H4 as [H4a H4b].
    rewrite (proj2 (parse_row_exact row seen (row_recipient row))) by (split_and!; try done; apply H5; set_solver). cbn [mbind option_bind].
    rewrite (proj2 (IH _ (map row_recipient rows))); [done|]. split_and!; try done.
    intros e He [->%elem_of_singleton|Hs]%elem_of_union; [done|]. eapply H5; [|exact Hs]. by right.
Qed.

(** ** The order of a cohort *)

(** Strictly increasing addresses. *)
Definition before (a b : Recipient) : Prop := str_ltb (rc_Email a) (rc_Email b) = true.

#[export] Instance before_trans : Transitive before.
Proof. intros a b c. apply str_ltb_trans. Qed.

Lemma str_ltb_asym s t : str_ltb s t = true → str_ltb t s = false.
Proof. intros H. destruct (str_ltb t s) eqn:E; [|done]. pose proof (str_ltb_trans s t s H E) as Hc. by rewrite str_ltb_irrefl in Hc. Qed.

Lemma recipient_less_email a b : rc_Email a ≠ rc_Email b → recipient_less a b = str_ltb (rc_Email a) (rc_Email b).
Proof. intros H. unfold recipient_less. by rewrite (proj2 (str_eqb_neq _ _) H). Qed.

#[export] Instance recipient_le_total : Total recipient_le.
Proof.
  intros a b. unfold recipient_le, recipient_less.
  assert (Hsym : ∀ x y, (x =s y) = (y =s x)).
  { intros x y. destruct (y =s x) eqn:E; [apply str_eqb_eq in E as ->; apply str_eqb_refl|]. apply str_eqb_neq. apply str_eqb_neq in E. congruence. }
  rewrite (Hsym (rc_Email b)), (Hsym (rc_FirstName b)).
  destruct (rc_Email a =s rc_Email b); cbn [negb]; [destruct (rc_FirstName a =s rc_FirstName b); cbn [negb]|];
    match goal with |- str_ltb ?x ?y = false ∨ _ => destruct (str_ltb x y) eqn:E; [right; by apply str_ltb_asym|by left] end.
Qed.

Lemma sorted_before rs : Sorted recipient_le rs → NoDup (map rc_Email rs) → Sorted before rs.
Proof.
  induction 1 as [|r rs Hs IH Hr]; intros Hn; [constructor|]. cbn [map] in Hn. apply NoDup_cons in Hn as [Hin Hn].
  constructor; [by apply IH|]. destruct Hr as [|r' rs Hle]; constructor. unfold recipient_le in Hle. unfold before.
  assert (Hne : rc_Email r ≠ rc_Email r') by (cbn [map] in Hin; set_solver). rewrite recipient_less_email in Hle by congruence.
  destruct (str_ltb_total (rc_Email r) (rc_Email r')) as [?|[?|?]]; [done|done|congruence].
Qed.

Lemma before_unique rs1 rs2 : Sorted before rs1 → Sorted before rs2 → rs1 ≡ₚ rs2 → rs1 = rs2.
Proof.
  intros H1 H2. apply (StronglySorted_unique_strong before).
  - intros x1 x2 _ _ H12 H21. unfold before in *. apply str_ltb_asym in H12. congruence.
  - by apply Sorted_StronglySorted; [apply _|].
  - by apply Sorted_StronglySorted; [apply _|].
Qed.

Lemma before_nodup rs : Sorted before rs → NoDup (map rc_Email rs).
Proof.
  intros H%Sorted_StronglySorted; [|apply _]. induction H as [|r rs _ IH Hr]; [constructor|]. cbn [map]. constructor; [|done].
  intros (r' & E & Hin)%list_elem_of_fmap. rewrite Forall_forall in Hr. apply Hr in Hin. unfold before in Hin. by rewrite E, str_ltb_irrefl in Hin.
Qed.

(** ** The protected file *)

(** The bytes of an acceptable file: ASCII, without carriage returns, closed by a line feed. *)
Definition cohort_text (raw : gostring) : Prop :=
  1 ≤ len raw ≤ maxRecipientsBytes ∧ has_suffix [newline] raw = true ∧ byte 13 ∉ raw ∧ all_ascii raw = true.

Lemma recipients_text_exact raw : recipients_text raw = true ↔ cohort_text raw.
Proof.
  unfold recipients_text, cohort_text, all_ascii. rewrite andb_true_iff, negb_true_iff, !orb_false_iff, negb_false_iff, !Z.ltb_ge, contains_byte_false.
  assert (E : forallb (λ c, code c <=? 0x7f) raw = forallb is_ascii raw).
  { induction raw as [|c raw IH]; [done|]. cbn [forallb]. rewrite IH. f_equal. unfold is_ascii. destruct (Z.leb_spec (code c) 0x7f), (Z.ltb_spec (code c) 0x80); lia. }
  rewrite E. tauto.
Qed.

Lemma parse_recipients_exact reader rs :
  ParseRecipients (Some reader) = Ok rs ↔
  rd_err reader = None ∧ cohort_text (rd_data reader) ∧
  ∃ rows, csv_ReadAll (rd_data reader) = Some (header_row :: rows) ∧ rows ≠ [] ∧ Forall (λ row, length row = 3%nat) rows ∧
    rs ≡ₚ map row_recipient rows ∧ Forall (λ r, recipient_checks r = true) rs ∧ Sorted before rs.
Proof.
  unfold ParseRecipients. destruct (read_bounded (Some reader) maxRecipientsBytes) as [raw|] eqn:Er.
  2: { split; [done|]. intros (He & [Hl _] & _). exfalso. unfold read_bounded, maxRecipientsBytes in *.
    rewrite (proj2 (Z.ltb_ge _ (len (rd_data reader)))) in Er by lia. by rewrite He in Er. }
  assert (Hraw : raw = rd_data reader ∧ rd_err reader = None).
  { unfold read_bounded in Er. repeat case_if_in Er; try done. by destruct (rd_err reader); simplify_eq. }
  destruct Hraw as [-> He]. rewrite <- recipients_text_exact. destruct (recipients_text (rd_data reader)); cbn [negb]; [|naive_solver].
  destruct (csv_ReadAll (rd_data reader)) as [[|h [|row rows]]|]; [naive_solver|naive_solver| |naive_solver].
  case_bool_decide as Hh; cbn [negb tail]; [subst h|naive_solver]. split.
  - destruct (parse_rows (row :: rows) ∅) as [rs'|] eqn:Ep; [|done]. intros [= <-].
    apply parse_rows_exact in Ep as (H1 & -> & H3 & H4 & _). set (rs := map row_recipient (row :: rows)) in *.
    pose proof (merge_sort_Permutation recipient_le rs) as Hp. split; [done|]. split; [done|]. exists (row :: rows).
    split_and!; try done; [by rewrite Hp|]. apply sorted_before; [apply Sorted_merge_sort, _|]. by rewrite Hp.
  - intros (_ & _ & rows' & [= <-] & _ & H1 & Hp & Hc & Hs).
    rewrite (proj2 (parse_rows_exact (row :: rows) ∅ (map row_recipient (row :: rows)))).
    + f_equal. apply before_unique; [|done|by rewrite merge_sort_Permutation, Hp].
      apply sorted_before; [apply Sorted_merge_sort, _|]. rewrite merge_sort_Permutation, <- Hp. by apply before_nodup.
    + split_and!; [done|done|by rewrite <- Hp| |set_solver]. rewrite <- Hp. by apply before_nodup.
Qed.

(** C31: [ParseRecipients] returns a cohort exactly when the source is a readable ASCII table of at most
    1 MiB with the three named columns and at least one row, every row has three fields that make a
    valid recipient after trimming, and no address repeats; the cohort is that of the rows, in
    strictly increasing order of the addresses. *)
Theorem ParseRecipients_exact reader rs :
  ParseRecipients (Some reader) = Ok rs ↔
  rd_err reader = None ∧ cohort_text (rd_data reader) ∧
  ∃ rows, csv_ReadAll (rd_data reader) = Some (header_row :: rows) ∧ rows ≠ [] ∧ Forall (λ row, length row = 3%nat) rows ∧
    rs ≡ₚ map row_recipient rows ∧ Forall (λ r, recipient_checks r = true) rs ∧ Sorted before rs.
Proof. apply parse_recipients_exact. Qed.

(** ** The publisher and the cohort *)

Definition fits_row (r : Recipient) : bool := len (marshal_struct r) <=? 1024.

Lemma parse_row_fits r : recipient_checks r = true → is_ok (ParseRecipient (marshal_struct r)) = fits_row r.
Proof.
  intros Hc. unfold fits_row. destruct (Z.leb_spec (len (marshal_struct r)) 1024) as [H|H].
  - by rewrite (proj2 (ParseRecipient_exact (marshal_struct r) r)).
  - destruct (ParseRecipient (marshal_struct r)) as [r'|] eqn:E; [|done]. apply ParseRecipient_exact in E as (_ & ? & _). lia.
Qed.

Lemma valid_recipients_sorted rs previous :
  Forall (λ r, recipient_checks r = true) rs → Sorted before rs →
  match rs, previous with r :: _, Some email => str_ltb email (rc_Email r) = true | _, _ => True end →
  valid_recipients rs previous = forallb fits_row rs.
Proof.
  intros Hc Hs. revert previous; induction Hs as [|r rs Hs IH Hr]; intros previous Hp; [done|]. apply Forall_cons in Hc as [Hc Hcs].
  cbn [valid_recipients forallb]. rewrite parse_row_fits by done.
  replace (match previous with Some email => negb (str_ltb email (rc_Email r)) | None => false end) with false
    by (destruct previous; [by rewrite Hp|done]).
  rewrite orb_false_r. destruct (fits_row r); cbn [negb andb]; [|done]. apply IH; [done|]. by destruct Hr.
Qed.

(** C34: The cohort of an accepted file is one the publisher accepts, except for one thing: a recipient
    whose row is longer than 1024 bytes passes validation of the file and fails the publication. *)
Theorem cohort_publishable reader rs :
  ParseRecipients (Some reader) = Ok rs →
  rs ≠ [] ∧ validRecipients rs = forallb fits_row rs.
Proof.
  intros (_ & _ & rows & _ & Hne & _ & Hp & Hc & Hs)%parse_recipients_exact. split.
  - intros ->. apply Permutation_nil_l in Hp. by destruct rows.
  - apply valid_recipients_sorted; [done|done|by destruct rs].
Qed.

(** ** A cohort as a file *)

Definition cohort_file (rs : list Recipient) : gostring :=
  render (header_row :: map (λ r, [rc_FirstName r; rc_LastName r; rc_Email r]) rs).

Definition trimmed (r : Recipient) : Prop := trim_space (rc_FirstName r) = rc_FirstName r ∧ trim_space (rc_LastName r) = rc_LastName r.

(** A character of a field that needs no quotes. *)
Definition field_char (c : ascii) : bool :=
  is_ascii c && negb (existsb (Ascii.eqb c) [byte 13; comma; dquote; Csv.newline]).
Definition plain_field (f : gostring) : Prop := forallb field_char f = true.

Lemma plain_field_free c f : c ∈ [byte 13; comma; dquote; Csv.newline] → plain_field f → c ∉ f.
Proof.
  intros Hc Hf Hin. unfold plain_field in Hf. apply forallb_Forall in Hf. rewrite Forall_forall in Hf. apply Hf in Hin. unfold field_char in Hin.
  apply andb_prop in Hin as [_ Hin%negb_true_iff]. apply not_true_iff_false in Hin. apply Hin. apply existsb_exists. exists c.
  split; [by apply list_elem_of_In|apply Ascii.eqb_refl].
Qed.

Lemma plain_bare f : plain_field f → bare f.
Proof. intros Hf. split_and!; apply (plain_field_free _ f); (done || set_solver). Qed.

Lemma recipient_plain r : recipient_checks r = true → Forall plain_field [rc_FirstName r; rc_LastName r; rc_Email r].
Proof.
  unfold recipient_checks. rewrite negb_true_iff, !orb_false_iff, !negb_false_iff. intros ((((H1 & H2) & _) & _) & H3).
  rewrite !Forall_cons. split_and!; [| | |constructor]; (eapply match_string_chars; [|eassumption]; vm_compute; reflexivity).
Qed.

(** What holds of separators and fields holds of the file. *)
Lemma render_chars (P : ascii → Prop) rows :
  P comma → P Csv.newline → Forall (Forall (Forall P)) rows → Forall P (render rows).
Proof.
  intros Hc Hn. unfold render, render_row. induction 1 as [|row rows Hr _ IH]; [constructor|]. cbn [flat_map].
  apply Forall_app. split; [|done]. apply Forall_app. split; [|by constructor]. destruct Hr as [|f fs Hf Hfs]; [constructor|].
  cbn [join_on]. apply Forall_app. split; [done|]. induction Hfs as [|g gs Hg _ IHg]; [constructor|]. cbn [flat_map].
  apply Forall_cons. split; [done|]. apply Forall_app. by split.
Qed.

Lemma render_suffix rows row : has_suffix [Csv.newline] (render (rows ++ [row])) = true.
Proof.
  apply has_suffix_spec. unfold render, render_row. rewrite flat_map_app. cbn [flat_map]. rewrite app_nil_r, app_assoc. by eexists.
Qed.

Lemma row_recipient_trimmed r :
  recipient_checks r = true → trimmed r → row_recipient [rc_FirstName r; rc_LastName r; rc_Email r] = r.
Proof.
  intros Hc [Hf Hl]. unfold row_recipient. cbn [nth]. rewrite Hf, Hl. destruct r as [e f l]. cbn [rc_Email rc_FirstName rc_LastName].
  unfold recipient_checks in Hc. rewrite negb_true_iff, !orb_false_iff, !negb_false_iff in Hc. destruct Hc as (_ & He). by rewrite email_canonical.
Qed.

Section File.
Context (rs : list Recipient).
Hypothesis Hc : Forall (λ r, recipient_checks r = true) rs.

Definition cohort_rows : list (list gostring) := map (λ r, [rc_FirstName r; rc_LastName r; rc_Email r]) rs.

Lemma cohort_plain : Forall (Forall plain_field) (header_row :: cohort_rows).
Proof.
  constructor; [apply (bool_decide_unpack _); vm_compute; exact I|]. apply Forall_fmap. eapply Forall_impl; [exact Hc|]. apply recipient_plain.
Qed.

Lemma cohort_chars : Forall (λ c, is_ascii c = true ∧ c ≠ byte 13) (cohort_file rs).
Proof.
  apply render_chars; [by vm_compute|by vm_compute|]. eapply Forall_impl; [exact cohort_plain|]. intros row Hrow.
  eapply Forall_impl; [exact Hrow|]. intros f Hf. apply Forall_forall. intros c Hin. split.
  - unfold plain_field in Hf. apply forallb_Forall in Hf. rewrite Forall_forall in Hf. apply Hf in Hin. by apply andb_prop in Hin as [? _].
  - intros ->. by eapply plain_field_free in Hin; [|set_solver|exact Hf].
Qed.

Lemma cohort_file_text : len (cohort_file rs) ≤ maxRecipientsBytes → cohort_text (cohort_file rs).
Proof.
  intros Hl. pose proof cohort_chars as [Ha Hcr]%Forall_and. split_and!; [|done| | |by apply forallb_Forall].
  - destruct (cohort_file rs) as [|c t] eqn:E; [by vm_compute in E|]. rewrite len_cons. pose proof (len_nonneg t). lia.
  - unfold cohort_file. destruct (exists_last (l := header_row :: cohort_rows)) as (rows & row & E); [done|]. unfold cohort_rows in E.
    rewrite E. apply render_suffix.
  - intros Hin. rewrite Forall_forall in Hcr. by apply Hcr in Hin.
Qed.

Lemma cohort_file_rows : csv_ReadAll (cohort_file rs) = Some (header_row :: cohort_rows).
Proof.
  apply csv_render. apply Forall_and. split.
  - eapply Forall_impl; [exact cohort_plain|]. intros row Hrow. eapply Forall_impl; [exact Hrow|]. apply plain_bare.
  - constructor; [by eexists _, _|]. apply Forall_fmap. eapply Forall_impl; [exact Hc|]. intros r Hr. eexists _, _. split; [done|].
    unfold recipient_checks in Hr. rewrite negb_true_iff, !orb_false_iff, !negb_false_iff in Hr. destruct Hr as ((((Hf & _) & _) & _) & _).
    eapply match_string_nonempty; [|exact Hf]. vm_compute. lia.
Qed.
End File.


Definition sample_cohort : list Recipient := [Samples.recipient; mkRecipient (lit "bob@example.com") (lit "Bob") (lit "Smith")].

Lemma sample_cohort_ok : Forall (λ r, recipient_checks r = true ∧ trimmed r) sample_cohort.
Proof. apply (bool_decide_unpack _). vm_compute. exact I. Qed.

Lemma sample_cohort_sorted : Sorted before sample_cohort.
Proof. repeat constructor. Qed.

Lemma sample_cohort_length : (len (cohort_file sample_cohort) <=? maxRecipientsBytes) = true.
Proof. vm_compute. reflexivity. Qed.


Lemma sample_cohort_parses : ParseRecipients (Some (mkReader (cohort_file sample_cohort) None)) = Ok sample_cohort.
Proof. vm_compute. reflexivity. Qed.

Lemma cohort_publishable_witness : validRecipients sample_cohort = forallb fits_row sample_cohort ∧ forallb fits_row sample_cohort = true.
Proof.
  split; [exact (proj2 (cohort_publishable _ _ sample_cohort_parses))|vm_compute; reflexivity].
Defined.
