(* ===== verification/Origins.v ===== *)
(** * The application origin

    The publisher is configured with an origin and puts an address made of it into every message; the
    worker refuses messages whose address it does not approve. Theorems: an origin without a question
    mark and a number sign that the publisher accepts makes addresses the worker approves, so that a
    message of the publication is refused only for its references or its length; an origin that ends
    with a question mark is accepted as well and makes no address the worker approves. *)

From stdpp Require Import strings.
From S2P Require Import Prelude Utf8 GoStrings Regex GoTime Json StrictJson Sha256 Url Contracts Program Azure PublicationEffects Source Publisher PublicationAzure PublicationConfig Batches PublicationSpec PublicationGuarantees SourceFacts.

(** ** URLs with an authority *)

Lemma scheme_end_spec raw scheme rest :
  scheme_end raw = Some (scheme, rest) →
  raw = scheme ++ ":"%char :: rest ∧ ∀ rest', scheme_end (scheme ++ ":"%char :: rest') = Some (scheme, rest').
Proof.
  revert scheme. induction raw as [|c raw IH]; intros scheme H; [done|]. cbn [scheme_end] in H. case_if_in H.
  - apply bind_Some in H as ([s r] & Hs & [= <- <-]). destruct (IH s Hs) as [-> Hall]. split; [done|]. intros rest'.
    cbn [app scheme_end]. by rewrite E, Hall.
  - case_if_in H; [|done]. injection H as <- <-. apply Ascii.eqb_eq in E0 as ->. done.
Qed.

Lemma getScheme_spec raw scheme rest :
  getScheme raw = Some (scheme, rest) → scheme ≠ [] →
  raw = scheme ++ ":"%char :: rest ∧ ∀ rest', getScheme (scheme ++ ":"%char :: rest') = Some (scheme, rest').
Proof.
  unfold getScheme. intros H Hne. destruct raw as [|c raw]; [congruence|]. case_if_in H; [|by case_if_in H; congruence].
  destruct (scheme_end (c :: raw)) as [[s r]|] eqn:Es; [|congruence]. injection H as -> ->.
  apply scheme_end_spec in Es as [Er Hall]. split; [done|]. intros rest'. destruct scheme as [|d scheme]; [done|].
  injection Er as <- _. cbn [app]. rewrite E. by rewrite (Hall rest' : scheme_end (c :: scheme ++ ":"%char :: rest') = _).
Qed.

Definition url_control (c : ascii) : bool := (code c <? 0x20) || (code c =? 0x7f).

(** How a URL of a scheme, an authority and a path is parsed. *)
Lemma parse_authority_url scheme authority path :
  getScheme (scheme ++ ":"%char :: lit "//" ++ authority ++ path) = Some (scheme, lit "//" ++ authority ++ path) →
  to_lower scheme ≠ [] → existsb url_control (scheme ++ ":"%char :: lit "//" ++ authority ++ path) = false →
  "#"%char ∉ scheme ++ ":"%char :: lit "//" ++ authority ++ path → "?"%char ∉ authority ++ path → "/"%char ∉ authority →
  (path = [] ∨ head path = Some "/"%char) →
  url_parse (scheme ++ ":"%char :: lit "//" ++ authority ++ path) =
    ('(user, host) ← parseAuthority authority; '(p, raw_path) ← setPath path;
     Some (mkURL (to_lower scheme) [] user host p raw_path false [] [])).
Proof.
  intros Hs Hne Hctl Hhash Hq Hslash Hpath. unfold url_parse. rewrite cut_byte_none by done. unfold parse_no_fragment.
  fold url_control. rewrite Hctl, Hs.
  assert (Hstar : str_eqb (scheme ++ ":"%char :: lit "//" ++ authority ++ path) (lit "*") = false).
  { apply str_eqb_neq. intros E%(f_equal length). revert E. rewrite length_app. cbn [length lit]. rewrite length_app. cbn. lia. }
  rewrite Hstar. cbn [mbind option_bind]. set (rest := lit "//" ++ authority ++ path).
  assert (Hq' : "?"%char ∉ rest) by (unfold rest; rewrite elem_of_app; intros [H|H]; [by vm_compute in H; set_solver|done]).
  assert (Hsuf : has_suffix (lit "?") rest = false).
  { apply not_true_iff_false. rewrite has_suffix_spec. intros [t E]. apply Hq'. rewrite E. set_solver. }
  rewrite Hsuf. cbn [andb]. rewrite cut_byte_none by done. cbv beta iota.
  change (has_prefix (lit "/") rest) with true. change (has_prefix (lit "//") rest) with true.
  assert (Hlow : str_eqb (to_lower scheme) [] = false) by (by apply str_eqb_neq).
  rewrite Hlow. cbn [negb andb orb]. change (drop 2 rest) with (authority ++ path).
  destruct Hpath as [->|Hp].
  - rewrite app_nil_r, cut_byte_none by done. done.
  - destruct path as [|c path]; [done|]. injection Hp as ->. rewrite cut_byte_app by done. done.
Qed.

(** The other direction: a URL with a scheme and a host, but without query and fragment. *)
Lemma url_parse_inv raw u :
  url_parse raw = Some u → "#"%char ∉ raw → "?"%char ∉ raw → u_scheme u ≠ [] → u_host u ≠ [] →
  ∃ scheme authority path,
    raw = scheme ++ ":"%char :: lit "//" ++ authority ++ path ∧ (path = [] ∨ head path = Some "/"%char) ∧ "/"%char ∉ authority ∧
    existsb url_control raw = false ∧ to_lower scheme = u_scheme u ∧
    (∀ rest, getScheme (scheme ++ ":"%char :: rest) = Some (scheme, rest)) ∧
    parseAuthority authority = Some (u_user u, u_host u) ∧ unescape encodePath path = Some (u_path u).
Proof.
  intros H Hhash Hq Hscheme Hhost. unfold url_parse in H. rewrite cut_byte_none in H by done. unfold parse_no_fragment in H.
  fold url_control in H. destruct (existsb url_control raw) eqn:Hctl; [done|]. case_if_in H; [by injection H as <-|].
  destruct (getScheme raw) as [[scheme rest]|] eqn:Hs; [|done]. cbn [mbind option_bind] in H.
  destruct (decide (scheme = [])) as [->|Hne].
  { destruct Hscheme. change (to_lower []) with (@nil ascii) in H. repeat first [case_if_in H; try done|case_match; try done];
      repeat (apply bind_Some in H as ([? ?] & _ & H)); by injection H as <-. }
  apply getScheme_spec in Hs as [-> Hall]; [|done]. assert (Hq' : "?"%char ∉ rest) by set_solver.
  assert (Hsuf : has_suffix (lit "?") rest = false).
  { apply not_true_iff_false. rewrite has_suffix_spec. intros [t E']. apply Hq'. rewrite E'. set_solver. }
  rewrite Hsuf in H. cbn [andb] in H. rewrite cut_byte_none in H by done. cbv beta iota in H.
  case_if_in H; [by injection H as <-|]. case_if_in H; [done|]. case_if_in H.
  2: { apply bind_Some in H as ([? ?] & _ & H). by injection H as <-. }
  apply andb_true_iff in E2 as [_ [tail ->]%has_prefix_spec]. change (drop 2 (lit "//" ++ tail)) with tail in H.
  destruct (cut_byte "/"%char tail) as [authority after] eqn:Hcut. apply cut_byte_spec in Hcut as [Ha ->].
  set (path := match after with Some t => "/"%char :: t | None => [] end).
  assert (Hp : path = [] ∨ head path = Some "/"%char) by (destruct after; [by right|by left]).
  assert (H' : ('(user, host) ← parseAuthority authority; '(p, raw_path) ← setPath path;
     Some (mkURL (to_lower scheme) [] user host p raw_path false [] [])) = Some u) by (by destruct after). clear H.
  apply bind_Some in H' as ([user host] & Hauth & H). apply bind_Some in H as ([p rp] & Hset & H).
  injection H as <-. unfold setPath in Hset. apply bind_Some in Hset as (p' & Hu & [= -> _]).
  exists scheme, authority, path. by split_and!.
Qed.

(** ** Paths that mean themselves *)

Lemma unescape_nil p : unescape encodePath p = Some [] → p = [].
Proof.
  destruct p as [|c p]; [done|]. cbn [unescape]. intros H. repeat case_match; try done;
    repeat (apply bind_Some in H as (? & _ & H)); done.
Qed.

Lemma unescape_slash p q : unescape encodePath ("/"%char :: p) = Some q → ∃ r, unescape encodePath p = Some r ∧ q = "/"%char :: r.
Proof. cbn [unescape]. change (Ascii.eqb "/" "%") with false. intros (r & Hr & [= <-])%bind_Some. by exists r. Qed.

Lemma unescape_free p : "%"%char ∉ p → unescape encodePath p = Some p.
Proof.
  induction p as [|c p IH]; intros H; [done|]. cbn [unescape]. rewrite (proj2 (Ascii.eqb_neq c "%")) by set_solver.
  by rewrite IH by set_solver.
Qed.

Definition path_char (c : ascii) : bool := url_plain c || contains_byte c (lit "/_").

Lemma path_chars_free c p : path_char c = false → forallb path_char p = true → c ∉ p.
Proof. rewrite forallb_forall. intros Hc H Hin%list_elem_of_In. specialize (H _ Hin). congruence. Qed.

Lemma path_chars_control p : forallb path_char p = true → existsb url_control p = false.
Proof.
  intros H. apply not_true_iff_false. rewrite existsb_exists. intros (c & Hin & Hc). rewrite forallb_forall in H. specialize (H c Hin).
  assert (He : implb (path_char c) (negb (url_control c)) = true) by (apply (ascii_forall (λ c, implb (path_char c) (negb (url_control c)))); vm_compute; reflexivity).
  by rewrite H, Hc in He.
Qed.

(** ** Origins *)

(** The host and port of an approved address. *)
Definition approved (hostPort : gostring) : Prop :=
  let '(hostname, port) := splitHostPort hostPort in
  (has_suffix (lit ".azurecontainerapps.io") (to_lower hostname) || has_suffix (lit ".example.internal") (to_lower hostname)) = true ∧
  (port = [] ∨ port = lit "443").

(** An origin without the two characters that start a query and a fragment. *)
Definition plain_origin (raw : gostring) : Prop := "?"%char ∉ raw ∧ "#"%char ∉ raw.

Lemma origin_accepted raw u :
  url_parse raw = Some u →
  (validApplicationOrigin raw = true ↔
   u_scheme u = lit "https" ∧ u_user u = None ∧ Hostname u ≠ [] ∧ u_raw_query u = [] ∧ u_fragment u = [] ∧
   (u_path u = [] ∨ u_path u = lit "/") ∧ approved (u_host u)).
Proof.
  intros Hu. unfold validApplicationOrigin, approved. rewrite Hu. unfold Hostname, Port. destruct (splitHostPort (u_host u)) as [hostname port].
  cbn [fst snd]. split.
  - intros H. case_if_in H; [done|]. breflect. split_hyps. split_and!; try done; first [by apply dec_stable|by apply orb_true_iff].
  - intros (-> & -> & Hh & -> & -> & Hp & Ha & Hport). apply str_eqb_neq in Hh. rewrite !str_eqb_refl, Hh, Ha.
    rewrite bool_decide_false by tauto. destruct Hp as [-> | ->], Hport as [-> | ->]; done.
Qed.

Lemma url_text_app scheme authority path :
  scheme ++ ":"%char :: lit "//" ++ authority ++ path = (scheme ++ ":"%char :: lit "//" ++ authority) ++ path.
Proof. by rewrite <- app_assoc. Qed.

(** What an accepted plain origin is made of. *)
Record origin_parts (raw scheme authority host : gostring) : Prop := mkOriginParts {
  op_text : trim_suffix (lit "/") raw = scheme ++ ":"%char :: lit "//" ++ authority;
  op_plain : plain_origin (scheme ++ ":"%char :: lit "//" ++ authority);
  op_control : existsb url_control (scheme ++ ":"%char :: lit "//" ++ authority) = false;
  op_scheme : to_lower scheme = lit "https";
  op_getScheme : ∀ rest, getScheme (scheme ++ ":"%char :: rest) = Some (scheme, rest);
  op_slash : "/"%char ∉ authority;
  op_authority : parseAuthority authority = Some (None, host);
  op_host : approved host;
  op_hostname : fst (splitHostPort host) ≠ [] }.

Lemma parse_authority_nil : parseAuthority [] = Some (None, []).
Proof. reflexivity. Qed.

Lemma origin_parse raw :
  validApplicationOrigin raw = true → plain_origin raw → ∃ scheme authority host, origin_parts raw scheme authority host.
Proof.
  intros H [Hq Hh]. destruct (url_parse raw) as [u|] eqn:Hu; [|by unfold validApplicationOrigin in H; rewrite Hu in H].
  apply (origin_accepted raw u Hu) in H as (Hs & Huser & Hhost & _ & _ & Hpath & Ha).
  assert (Hne : u_host u ≠ []). { intros E. apply Hhost. unfold Hostname. by rewrite E. }
  apply url_parse_inv in Hu as (scheme & authority & path & -> & Hp & Hslash & Hctl & Hsl & Hget & Hauth & Hun); [|done|done|by rewrite Hs|done].
  assert (Hpp : path = [] ∨ path = lit "/").
  { destruct Hp as [->|Hp]; [by left|]. right. destruct path as [|c path]; [done|]. injection Hp as ->.
    apply unescape_slash in Hun as (r & Hr & Er). rewrite Er in Hpath. destruct Hpath as [?|[= ->]]; [done|]. by apply unescape_nil in Hr as ->. }
  assert (Hane : authority ≠ []). { intros ->. rewrite parse_authority_nil in Hauth. congruence. }
  exists scheme, authority, (u_host u). rewrite Hs in Hsl. rewrite Huser in Hauth. split; try done.
  - assert (Hend : has_suffix (lit "/") (scheme ++ ":"%char :: lit "//" ++ authority) = false).
    { apply not_true_iff_false. rewrite has_suffix_spec. intros [t Et]. destruct (exists_last Hane) as (a & c & ->).
      rewrite url_text_app in Et. apply app_inj_tail in Et as [_ ->]. apply Hslash. set_solver. }
    destruct Hpp as [-> | ->]; [rewrite app_nil_r; unfold trim_suffix; by rewrite Hend|].
    rewrite url_text_app. apply trim_suffix_app.
  - rewrite url_text_app in Hq, Hh. split; set_solver.
  - rewrite url_text_app, existsb_app in Hctl. by apply orb_false_iff in Hctl as [? _].
Qed.

(** The address of a path under an accepted origin: its scheme, its host, and the path as it is. *)
Lemma origin_address raw scheme authority host path :
  origin_parts raw scheme authority host → forallb path_char path = true → head path = Some "/"%char →
  ∃ raw_path, url_parse (trim_suffix (lit "/") raw ++ path) = Some (mkURL (lit "https") [] None host path raw_path false [] []).
Proof.
  intros [Htext [Hq Hh] Hctl Hs Hget Hslash Hauth _ _] Hp Hhead. rewrite Htext, <- url_text_app.
  assert (Hun : unescape encodePath path = Some path) by (by apply unescape_free, path_chars_free).
  assert (Hset : ∃ rp, setPath path = Some (path, rp)) by (unfold setPath; rewrite Hun; by eexists).
  destruct Hset as [rp Hset]. exists rp. rewrite parse_authority_url; [|done|by rewrite Hs| | | |done|by right].
  - rewrite Hauth, Hset, Hs. done.
  - rewrite url_text_app, existsb_app, Hctl. by apply path_chars_control.
  - rewrite url_text_app, elem_of_app. intros [H|H]; [done|by apply (path_chars_free "#"%char path) in H].
  - rewrite elem_of_app. intros [H|H]; [set_solver|by apply (path_chars_free "?"%char path) in H].
Qed.

(** An accepted origin is accepted again once its slash is removed. *)
Lemma origin_again raw scheme authority host : origin_parts raw scheme authority host → validApplicationOrigin (trim_suffix (lit "/") raw) = true.
Proof.
  intros [Htext [Hq Hh] Hctl Hs Hget Hslash Hauth Ha Hne]. rewrite Htext. pose proof (url_text_app scheme authority []) as E.
  rewrite !app_nil_r in E.
  assert (Hu : url_parse (scheme ++ ":"%char :: lit "//" ++ authority ++ []) = Some (mkURL (lit "https") [] None host [] [] false [] [])).
  { rewrite parse_authority_url; rewrite ?app_nil_r; try done; [by rewrite Hauth, Hs|by rewrite Hs|set_solver|by left]. }
  rewrite app_nil_r in Hu. apply (origin_accepted _ _ Hu). cbn [u_scheme u_user u_raw_query u_fragment u_path u_host]. split_and!; try done. by left.
Qed.

(** ** Addresses and messages *)

Lemma version_chars version : match_string productVersionPattern version = true → forallb url_plain version = true.
Proof. apply match_string_chars. vm_compute. reflexivity. Qed.

Lemma name_chars name : match_string downloadNamePattern name = true → forallb (λ c, path_char c && negb (Ascii.eqb c "/")) name = true.
Proof. apply match_string_chars. vm_compute. reflexivity. Qed.

Lemma address_path version name :
  forallb url_plain version = true → forallb (λ c, path_char c && negb (Ascii.eqb c "/")) name = true →
  forallb path_char (lit "/v1/releases/" ++ version ++ lit "/download/" ++ name) = true ∧
  split_on "/"%char (lit "/v1/releases/" ++ version ++ lit "/download/" ++ name) =
    [[]; lit "v1"; lit "releases"; version; lit "download"; name].
Proof.
  intros Hv Hn. split.
  - rewrite !forallb_app. apply andb_true_iff; split; [reflexivity|]. apply andb_true_iff; split.
    { revert Hv. rewrite !forallb_forall. intros Hv c Hc. unfold path_char. by rewrite Hv. }
    apply andb_true_iff; split; [reflexivity|]. revert Hn. rewrite !forallb_forall. intros Hn c Hc. by specialize (Hn c Hc) as [? _]%andb_true_iff.
  - assert (Hvs : "/"%char ∉ version) by (by apply url_plain_free).
    assert (Hns : "/"%char ∉ name).
    { intros Hin%list_elem_of_In. rewrite forallb_forall in Hn. by specialize (Hn _ Hin). }
    rewrite <- (split_join "/"%char [] [lit "v1"; lit "releases"; version; lit "download"; name]).
    + f_equal. cbn [join_on flat_map app]. by rewrite app_nil_r.
    + repeat constructor; try done; set_solver.
Qed.

Lemma origin_url raw scheme authority host version name :
  origin_parts raw scheme authority host → match_string productVersionPattern version = true → match_string downloadNamePattern name = true →
  validApplicationURL (trim_suffix (lit "/") raw ++ lit "/v1/releases/" ++ version ++ lit "/download/" ++ name) version = true.
Proof.
  intros Ho Hv Hn. destruct (address_path version name (version_chars _ Hv) (name_chars _ Hn)) as [Hp Hs].
  destruct (origin_address _ _ _ _ _ Ho Hp eq_refl) as [rp Hu]. unfold validApplicationURL. rewrite Hu.
  cbn [u_path u_scheme u_user u_raw_query u_fragment]. rewrite Hs, !str_eqb_refl, Hn. cbn [negb andb orb].
  rewrite bool_decide_false by tauto. cbn [orb]. pose proof (op_host _ _ _ _ Ho) as Ha. unfold approved, Hostname, Port in *. cbn [u_host].
  destruct (splitHostPort host) as [hostname port]. cbn [fst snd]. destruct Ha as [-> [-> | ->]]; done.
Qed.

Lemma version_release version : match_string productVersionPattern version = true → match_string releaseVersionPattern version = true.
Proof. rewrite !match_string_spec. intros H. apply matches_alt. right. exact H. Qed.

(** The environment of the publisher makes a publisher: what [ParseEnvironment] accepts, [NewPublisher] accepts. *)
Lemma environment_makes_publisher values environment :
  ParsePublisherEnvironment values = Ok environment → plain_origin (default [] (values !! EnvApplicationOrigin)) →
  ∃ config, NewPublisher (PublisherConfig environment) true true = Some config.
Proof.
  unfold ParsePublisherEnvironment. intros H Ho. case_if_in H; [done|]. case_if_in H; [done|]. case_match; [|done]. case_if_in H; [done|].
  case_if_in H; [done|]. case_if_in H; [done|]. injection H as <-. apply negb_false_iff in E2.
  apply orb_false_iff in E3 as [E3 Hv%negb_false_iff]. repeat (apply orb_false_iff in E3 as [E3 _]). apply negb_false_iff in E3.
  destruct (origin_parse _ Hv Ho) as (scheme & authority & host & Hp%origin_again).
  unfold NewPublisher, validPublisherConfig, PublisherConfig.
  cbn [cf_Repository cf_BatchSize cf_ApplicationOrigin cf_ReleasesContainer cf_ManifestsContainer cf_BatchesContainer
    en_Repository en_ReleasesContainer en_ManifestsContainer en_BatchesContainer en_ApplicationOrigin].
  change (maxPublicationBatchSize =? 0) with false. cbn [cf_BatchSize]. change ["/"%char] with (lit "/"). rewrite E3, Hp, E2.
  change (maxPublicationBatchSize <? 1) with false. rewrite Z.ltb_irrefl. cbn [negb orb]. by eexists.
Qed.

(** ** The messages of a plan *)

Section Messages.
Context (raw config : Config) (request : PublishRequest).
Hypothesis (accepted : NewPublisher raw true true = Some config) (origin : plain_origin (cf_ApplicationOrigin raw)).

Lemma config_origin : ∃ scheme authority host,
  origin_parts (cf_ApplicationOrigin raw) scheme authority host ∧ cf_ApplicationOrigin config = trim_suffix (lit "/") (cf_ApplicationOrigin raw).
Proof.
  unfold NewPublisher in accepted. case_if_in accepted; [done|]. injection accepted as <-. cbn [cf_ApplicationOrigin].
  apply orb_false_iff in E as [E%orb_false_iff _]. destruct E as [E%negb_false_iff _]. unfold validPublisherConfig in E.
  case_if_in E; [done|]. apply orb_false_iff in E0 as [_ E0%negb_false_iff]. cbn [cf_ApplicationOrigin] in E0.
  destruct (origin_parse _ E0 origin) as (scheme & authority & host & H). by exists scheme, authority, host.
Qed.

(** What a plan that was made says of its request. *)
Record plan_facts (p : publicationPlan) : Prop := mkPlanFacts {
  pf_request : pp_request p = request;
  pf_operation : pp_operationID p = operation config request;
  pf_batches : pp_batches p = map batch_body (parts config request);
  pf_count : 1 ≤ len (parts config request) ≤ 10000;
  pf_commit : match_string commitPattern (rq_CommitSHA request) = true;
  pf_created : validCreatedAt (rq_CreatedAt request) = true;
  pf_release : release_accepted (rq_Source request) = true }.

Lemma plan_made t p : runs (plan config request) t (Some (Ok p)) → plan_facts p.
Proof.
  unfold plan. case_match eqn:E; [by intros [_ [?|?]]|]. apply orb_false_iff in E as [E Hv%negb_false_iff].
  apply orb_false_iff in E as [E Hne%Z.eqb_neq]. apply orb_false_iff in E as [Hcommit%negb_false_iff Hcreated%negb_false_iff].
  intros [[_ ?]|(t1 & t2 & path & -> & H1 & H2)]%runs_bind; [done|]. destruct path as [path|]; [|by destruct H2 as [_ [?|?]]].
  destruct (parts_built config request raw accepted) as [Eb Hc]; [by intros Hn; rewrite Hn in Hne|]. rewrite Eb in H2.
  destruct (Z.ltb_spec 10000 (len (parts config request))); [by destruct H2 as [_ [?|?]]|].
  destruct H2 as [_ [[= ->]|?]]; [|done].
  split; try done. unfold verifySourceArtifact in H1. destruct (release_accepted _); [done|]. by destruct H1 as [_ [?|?]].
Qed.

(** A message of a plan passes the checks of the worker exactly when its references do. *)
Lemma message_checked p manifest batch i :
  plan_facts p → match_string downloadNamePattern (sr_DownloadName (rq_Source request)) = true → 0 ≤ i < len (pp_batches p) →
  message_checks (message_of config p manifest batch i) (pp_operationID p ++ lit ":" ++ itoa i) = blob_valid manifest && blob_valid batch.
Proof.
  intros [Hreq Hop Hbatches Hcount Hcommit Hcreated Hrelease] Hname Hi.
  destruct config_origin as (scheme & authority & host & Ho & Eo). destruct (release_facts request Hrelease) as (Hid & Hversion & _). unfold source in Hid, Hversion.
  assert (Hlen : len (pp_batches p) = len (parts config request)) by (rewrite Hbatches; unfold len; by rewrite length_map).
  destruct (lookup_lt_is_Some_2 (parts config request) (Z.to_nat i)) as [part Hpart]; [unfold len in *; lia|].
  apply (parts_lookup config request raw accepted) in Hpart as (_ & Hne & _ & Hl & Hshort). rewrite Z2Nat.id in Hl by lia.
  assert (1 ≤ len part) by (destruct part; [done|]; rewrite len_cons; pose proof (len_nonneg part); lia).
  pose proof (origin_url _ _ _ _ _ _ Ho Hversion Hname) as Hurl. unfold message_checks, message_of. rewrite Hreq, Eo.
  cbn [qm_SchemaVersion qm_MessageID qm_OperationID qm_RecipientBatch bt_BatchIndex qm_ReleaseID qm_ReleaseVersion qm_SourceCommitSHA qm_CreatedAt
    qm_ApplicationURL qm_Manifest]. rewrite !str_eqb_refl, Hurl, (version_release _ Hversion).
  rewrite (Hcommit : match_string Contracts.commitPattern _ = true), (Hid : match_string releasePattern _ = true), (Hcreated : validTimestamp _ = true), Hop.
  unfold operation, deriveOperationID. rewrite digest_sha256. cbn [negb orb]. rewrite negb_orb, !negb_involutive. f_equal. unfold batch_valid.
  cbn [bt_BatchIndex bt_BatchCount bt_RecipientCount]. rewrite <- Hl, Hlen.
  replace (blob_valid (Reference _)) with (blob_valid batch) by (by destruct batch).
  rewrite !(proj2 (Z.leb_le _ _)), (proj2 (Z.ltb_lt _ _)) by lia. by rewrite !andb_true_r.
Qed.

(** C36: What can go wrong with a message of the publisher: for a configuration it accepts whose origin has no
    question mark and no number sign, and a release whose file name is one the manifest contract allows,
    a message of a plan it made, with text fields in UTF-8 and 64-bit sizes, passes the parser the
    worker uses exactly when its references to the manifest and the batch are valid and its text has at
    most 64 KiB. Otherwise the publication stops with MESSAGE_CONTRACT. *)
Theorem messages_accepted t p manifest batch i :
  runs (plan config request) t (Some (Ok p)) → match_string downloadNamePattern (sr_DownloadName (rq_Source request)) = true →
  0 ≤ i < len (pp_batches p) → struct_ok (message_of config p manifest batch i) →
  queueRequest config p manifest batch i =
    (let body := marshal_struct (message_of config p manifest batch i) in
     if blob_valid manifest && blob_valid batch && (len body <=? maxMessageBytes)
     then Ok (mkQueueRequest (pp_operationID p ++ lit ":" ++ itoa i) body)
     else Err (ErrPublication (lit "MESSAGE_CONTRACT"))).
Proof.
  intros Hp%plan_made Hname Hi Hok. pose proof (message_checked p manifest batch i Hp Hname Hi) as Hc. cbv zeta. unfold queueRequest.
  set (m := message_of config p manifest batch i) in *. set (id := pp_operationID p ++ lit ":" ++ itoa i) in *. rewrite <- Hc.
  pose proof (parse_exact (marshal_struct m) maxMessageBytes (λ m, message_checks m id) ErrContract) as Hx.
  change (ParseQueueMessage (marshal_struct m) id) with
    (match decode_struct (marshal_struct m) maxMessageBytes with
     | None => Err ErrContract
     | Some x => if negb (canonical (marshal_struct m) x) || negb (message_checks x id) then Err ErrContract else Ok x
     end). destruct (match decode_struct _ _ with Some _ => _ | None => _ end) as [m'|e] eqn:E; cbn [is_ok negb].
  - destruct (proj1 (Hx m') eq_refl) as (Em & Hlen & Hok' & Hck). apply marshal_struct_inj in Em as <-; [|done..]. by rewrite Hck, (proj2 (Z.leb_le _ _)).
  - destruct (message_checks m id && (len (marshal_struct m) <=? maxMessageBytes)) eqn:Ea; [|done].
    apply andb_true_iff in Ea as [Hck Hlen%Z.leb_le]. pose proof (proj2 (Hx m) (conj eq_refl (conj Hlen (conj Hok Hck)))) as Hf. discriminate Hf.
Qed.
End Messages.

(** ** A plan, and an origin no message can be made of *)

Definition sample_manifest : BlobReference := Eval vm_compute in
  mkBlobReference (lit "manifests") (manifest_name Publication.config Publication.request) (sha256_hex Publication.manifest_content)
    (len Publication.manifest_content) Publication.version.
Definition sample_batch : BlobReference := Eval vm_compute in
  mkBlobReference (lit "batches") (batch_name Publication.config Publication.request 0) (sha256_hex Publication.batch_content)
    (len Publication.batch_content) Publication.version.
Definition sample_planning : history pevent panswer * option (result publication_error publicationPlan) :=
  play record Publication.env (plan Publication.config Publication.request) [].

Lemma sample_planned : snd sample_planning = Some (Ok Publication.the_plan).
Proof. vm_compute. reflexivity. Qed.

Lemma sample_plan_runs : runs (plan Publication.config Publication.request) (fst sample_planning) (Some (Ok Publication.the_plan)).
Proof. rewrite <- sample_planned. exact (play_runs record Publication.env (plan Publication.config Publication.request) []). Qed.

Lemma sample_origin : plain_origin (cf_ApplicationOrigin Publication.raw).
Proof. split; vm_compute; set_solver. Qed.

Lemma sample_index : 0 ≤ 0 < len (pp_batches Publication.the_plan).
Proof. split; [lia|]. vm_compute. reflexivity. Qed.

Lemma sample_references : blob_valid sample_manifest && blob_valid sample_batch &&
  match_string downloadNamePattern (sr_DownloadName Publication.source) = true.
Proof. vm_compute. reflexivity. Qed.

Lemma sample_message_ok : struct_ok (message_of Publication.config Publication.the_plan sample_manifest sample_batch 0).
Proof. split; vm_compute; repeat split; discriminate. Qed.

Lemma sample_message_fits : len (marshal_struct (message_of Publication.config Publication.the_plan sample_manifest sample_batch 0)) ≤ maxMessageBytes.
Proof. vm_compute. discriminate. Qed.

Lemma messages_accepted_witness :
  queueRequest Publication.config Publication.the_plan sample_manifest sample_batch 0 =
    Ok (mkQueueRequest (pp_operationID Publication.the_plan ++ lit ":" ++ itoa 0)
          (marshal_struct (message_of Publication.config Publication.the_plan sample_manifest sample_batch 0))).
Proof.
  pose proof sample_references as [Hr Hn]%andb_true_iff.
  rewrite (messages_accepted Publication.raw Publication.config Publication.request publication_accepted sample_origin _ _ sample_manifest sample_batch 0
    sample_plan_runs Hn sample_index sample_message_ok). cbv zeta. by rewrite Hr, (proj2 (Z.leb_le _ _) sample_message_fits).
Defined.

(** The same publication with an origin that ends with a question mark: the configuration is accepted,
    the archive is stored, and the first message is refused. *)
Definition queried : Config :=
  mkConfig (lit "Org/Repo") (lit "releases") (lit "manifests") (lit "batches") (lit "https://d.example.internal?") 10.

Lemma query_origin_unusable :
  NewPublisher queried true true = Some queried ∧
  snd (play record Publication.env (Publish queried Publication.request) []) = Some (Err (ErrPublication (lit "MESSAGE_CONTRACT"))) ∧
  existsb (λ x, match projT1 x with PUpload c _ _ _ _ _ => c =s lit "releases" | _ => false end)
    (fst (play record Publication.env (Publish queried Publication.request) [])) = true.
Proof. vm_compute. done. Qed.
