(* ===== verification/PublicationEnds.v ===== *)
(** * A publication ends

    [Publish] over the Azure adapters makes a bounded number of requests, whatever it is answered, and
    every run goes on to a result: the loop that builds the batches ends within its fuel, the division
    before it does not panic, and nothing is retried. *)

From stdpp Require Import strings.
From S2P Require Import Prelude Utf8 GoStrings Regex Json StrictJson Contracts Program Azure PublicationEffects Source Publisher PublicationAzure Batches PublicationSpec PublicationGuarantees.

(** Every request a publication makes can be answered: it does not panic and its loops end. *)
Lemma check_answered config request t e : check config request t e → Inhabited (panswer e).
Proof. destruct e; cbn [check panswer]; try done; intros _; try apply _; (constructor; first [exact (Err (AzStatus 500))|exact true]). Qed.

(** A request and the bound of what follows it. *)
Lemma bounded_request {A} n e (f : panswer e → pprog A) : (∀ x, bounded n (f x)) → bounded (S n) (pperform e ≫= f).
Proof. intros H. exact H. Qed.

(** Walks through a program of fixed shape: a request uses one unit, every branch is visited. *)
Ltac bounded_walk :=
  repeat first
    [ exact I
    | apply bounded_request; intros ?
    | case_match ].

Lemma bounded_fileDigest name : bounded 2 (fileDigest name).
Proof. unfold fileDigest. bounded_walk. Qed.

Lemma bounded_cleanDirectory root : bounded 3 (cleanDirectory root).
Proof. unfold cleanDirectory. bounded_walk. Qed.

Lemma bounded_verifySourceArtifact root release : bounded 7 (verifySourceArtifact root release).
Proof.
  unfold verifySourceArtifact. case_match; [exact I|]. apply (bounded_bind 3 4); [apply bounded_cleanDirectory|]. intros [r|]; [|exact I].
  apply bounded_request. intros x. case_match; [|exact I]. case_match; [exact I|]. case_match; [|exact I]. case_match; [exact I|].
  apply bounded_request. intros y. case_match; [|exact I]. case_match; [exact I|].
  apply (bounded_bind 2 0); [apply bounded_fileDigest|]. intros ?. bounded_walk.
Qed.

Lemma bounded_putImmutable upload : bounded 2 (putImmutable upload).
Proof. unfold putImmutable, upload_blob. bounded_walk. Qed.

Lemma bounded_PutImmutableBytes request : bounded 2 (azure_PutImmutableBytes request).
Proof. unfold azure_PutImmutableBytes. case_match; [exact I|apply bounded_putImmutable]. Qed.

Lemma bounded_PutImmutableFile request : bounded 6 (azure_PutImmutableFile request).
Proof.
  unfold azure_PutImmutableFile. apply bounded_request. intros x. case_match; [|exact I]. case_match; [exact I|].
  apply (bounded_bind 2 3); [apply bounded_fileDigest|]. intros [d|]; [|exact I]. case_match; [exact I|].
  apply bounded_request. intros y. case_match; [apply bounded_putImmutable|exact I].
Qed.

Lemma bounded_downloadCurrent container name properties : bounded 2 (downloadCurrent container name properties).
Proof. unfold downloadCurrent. bounded_walk. Qed.

Lemma bounded_PutCurrentManifest request : bounded 4 (azure_PutCurrentManifest request).
Proof.
  unfold azure_PutCurrentManifest. case_match; [exact I|]. apply bounded_request. intros x. case_match.
  - apply (bounded_bind 2 1); [apply bounded_downloadCurrent|]. intros ?. unfold upload_blob. bounded_walk.
  - case_match; [exact I|]. apply (bounded_mono 2); [lia|apply bounded_PutImmutableBytes].
Qed.

Lemma bounded_SendRequest request : bounded 1 (azure_SendRequest request).
Proof. unfold azure_SendRequest. bounded_walk. Qed.

(** ** The stages *)

Section Stages.
Context (config raw : Config) (request : PublishRequest).
Hypothesis accepted : NewPublisher raw true true = Some config.

(** Building the batches makes no request. *)
Lemma built : ∃ batches, buildBatches (rq_Recipients request) (cf_BatchSize config) = Ret batches ∧
  ∀ bodies, batches = Some bodies → length bodies = length (parts config request).
Proof.
  destruct (config_facts config raw accepted) as (Hb & _). rewrite buildBatches_chunks by lia. eexists. split; [done|]. cbv zeta. intros bodies H.
  case_if_in H; [done|]. apply (inj Some) in H as <-. unfold parts, batch_size. by rewrite !length_map.
Qed.

Lemma bounded_plan : bounded 7 (plan config request).
Proof.
  unfold plan. case_match; [exact I|]. apply (bounded_bind 7 0); [apply bounded_verifySourceArtifact|]. intros [path|]; [|exact I].
  destruct built as (batches & -> & _). by destruct batches.
Qed.

Lemma plan_batches t p : runs (plan config request) t (Some (Ok p)) → length (pp_batches p) = length (parts config request).
Proof.
  unfold plan. case_match; [by intros [_ [?|?]]|]. intros [[_ ?]|(t1 & t2 & path & -> & _ & H2)]%runs_bind; [done|].
  destruct path as [path|]; [|by destruct H2 as [_ [?|?]]]. destruct built as (batches & Eb & Hl). rewrite Eb in H2.
  destruct batches as [bodies|]; [|by destruct H2 as [_ [?|?]]]. destruct H2 as [_ [[= ->]|?]]; [|done]. by apply Hl.
Qed.
End Stages.

Lemma bounded_publish_batches config operation bodies index :
  bounded (2 * length bodies) (publish_batches config operation bodies index).
Proof.
  revert index. induction bodies as [|body bodies IH]; intros index; [exact I|]. cbn [publish_batches length].
  replace (2 * S (length bodies))%nat with (2 + 2 * length bodies)%nat by lia.
  apply bounded_bind; [apply bounded_PutImmutableBytes|]. intros [b|]; [|exact I].
  rewrite <- (Nat.add_0_r (2 * length bodies)). apply bounded_bind; [apply IH|]. intros ?. exact I.
Qed.

Lemma bounded_enqueue_batches config p manifest batches index :
  bounded (length batches) (enqueue_batches config p manifest batches index).
Proof.
  revert index. induction batches as [|batch batches IH]; intros index; [exact I|]. cbn [enqueue_batches length]. case_match; [|exact I].
  apply (bounded_bind 1 (length batches)); [apply bounded_SendRequest|]. intros [x|]; [apply IH|exact I].
Qed.

(** A bound of the rest may depend on what the first part returned. *)
Lemma bounded_bind_runs {E : Type} {ans : E → Type} {A B} n m (p : program E ans A) (f : A → program E ans B) :
  bounded n p → (∀ t a, runs p t (Some a) → bounded m (f a)) → bounded (n + m) (p ≫= f).
Proof.
  revert n. induction p as [a|e k IH]; intros n Hp Hf.
  - apply (bounded_mono m); [lia|]. apply (Hf []). by split; [|left].
  - destruct n as [|n]; [done|]. intros x. apply IH; [apply Hp|]. intros t a Ht. apply (Hf (existT e x :: t)). right. eauto.
Qed.

Lemma publish_batches_length config operation bodies index t bs :
  runs (publish_batches config operation bodies index) t (Some (Ok bs)) → length bs = length bodies.
Proof.
  revert index t bs. induction bodies as [|body bodies IH]; intros index t bs; cbn [publish_batches].
  - by intros [_ [[= ->]|?]].
  - intros [[_ ?]|(t1 & t2 & b & -> & _ & H)]%runs_bind; [done|]. destruct b as [b|]; [|by destruct H as [_ [?|?]]].
    apply runs_bind in H as [[_ ?]|(t3 & t4 & rest & -> & H3 & H4)]; [done|]. destruct rest as [rest|]; [|by destruct H4 as [_ [?|?]]].
    destruct H4 as [_ [[= ->]|?]]; [|done]. apply IH in H3. cbn [length]. by rewrite H3.
Qed.

(** The stages of a plan, in the order of [Publish]. *)
Lemma bounded_Publish config raw request :
  NewPublisher raw true true = Some config → bounded (21 + 3 * length (parts config request)) (Publish config request).
Proof.
  intros accepted. unfold Publish. set (n := length (parts config request)). replace (21 + 3 * n)%nat with (7 + (2 + (6 + (2 + (2 * n + (n + 4))))))%nat by lia.
  apply bounded_bind_runs; [by eapply bounded_plan|]. intros t [p|] Hp; [|exact I]. apply (plan_batches config raw request accepted) in Hp. fold n in Hp.
  apply bounded_bind. { unfold publishIdentity. apply (bounded_bind 2 0); [apply bounded_PutImmutableBytes|]. intros ?. exact I. }
  intros [u|]; [|exact I]. apply bounded_bind.
  { unfold publishDAR. apply (bounded_bind 6 0); [apply bounded_PutImmutableFile|]. intros ?. bounded_walk. }
  intros [dar|]; [|exact I]. apply bounded_bind.
  { unfold publishManifest. case_match; [exact I|]. apply (bounded_bind 2 0); [apply bounded_PutImmutableBytes|]. intros ?. exact I. }
  intros [[manifest body]|]; [|exact I]. apply bounded_bind_runs.
  { apply (bounded_mono (2 * length (pp_batches p))); [lia|apply bounded_publish_batches]. }
  intros t' [bs|] Hbs; [|exact I]. apply publish_batches_length in Hbs. apply bounded_bind.
  { apply (bounded_mono (length bs)); [lia|apply bounded_enqueue_batches]. }
  intros [v|]; [|exact I]. rewrite <- (Nat.add_0_r 4). apply bounded_bind.
  { unfold advanceCurrentManifest. apply (bounded_bind 4 0); [apply bounded_PutCurrentManifest|]. intros ?. exact I. }
  intros [w|]; exact I.
Qed.

(** C37: A publication by a publisher that was accepted terminates: whatever the file system, storage and
    queue answer, it makes at most 21 requests and three for each batch, and every run goes on to a
    result. It does not reach the division by zero, and the loop that builds the batches ends, before
    more rounds than there are recipients. *)
Theorem Publish_terminates raw config request t r :
  NewPublisher raw true true = Some config → runs (Publish config request) t r →
  len t ≤ 21 + 3 * len (parts config request) ∧
  ∃ t' res, runs (Publish config request) (t ++ t') (Some res) ∧ len (t ++ t') ≤ 21 + 3 * len (parts config request).
Proof.
  intros Ha Hr. assert (Hb : ∀ t r, runs (Publish config request) t r → len t ≤ 21 + 3 * len (parts config request)).
  { intros t' r' H'. pose proof (bounded_runs _ _ _ _ (bounded_Publish config raw request Ha) H'). unfold len. lia. }
  split; [by eapply Hb|].
  destruct (history_completes _ _ _ _ _ (check_answered config request) (publication_spec config raw request Ha) Hr) as (t' & res & H).
  exists t', res. eauto.
Qed.

Lemma Publish_terminates_witness : len (fst Publication.run) ≤ 24.
Proof. exact (proj1 (Publish_terminates _ _ _ _ _ publication_accepted publication_runs)). Defined.
