(* ===== verification/PublisherMain.v ===== *)
(** * cmd/dar-release-publisher/main.go

    The command around the publisher: arguments, the environment, the clients it makes, exit codes
    and what it prints. The clients of the SDK and the two output streams are events. Theorems: the
    command exits with 0 only when the publication succeeded, and validation stays local. *)

From stdpp Require Import strings.
From S2P Require Import Prelude Utf8 GoStrings Json StrictJson Sha256 Contracts Program Azure GoPath PublicationEffects Source Publisher PublicationAzure PublicationConfig Worker Batches PublicationSpec PublicationGuarantees.

(** ** Effects *)

Inductive cevent : Type :=
(** a request of the publication package *)
| CPublication (e : pevent)
| CStdout (text : gostring)
| CStderr (text : gostring)
(** [azidentity.NewAzureCLICredential], [service.NewClient], [azservicebus.NewClient] and
    [NewSender]; the answer is whether it succeeded *)
| CCredential
| CStorageClient (url : gostring)
| CServiceBus (namespace : gostring)
| CSender (queue : gostring)
| CCloseSender
| CCloseServiceBus.

Definition canswer (e : cevent) : Type :=
  match e with
  | CPublication e => panswer e
  | CStdout _ | CCredential | CStorageClient _ | CServiceBus _ | CSender _ => bool
  | CStderr _ | CCloseSender | CCloseServiceBus => unit
  end.

Abbreviation cprog := (program cevent canswer).
Definition cperform (e : cevent) : cprog (canswer e) := perform e.

(** A part of the publication package in the command. *)
Fixpoint embed {A} (p : pprog A) : cprog A :=
  match p with
  | Ret a => Ret a
  | Vis e k => Vis (CPublication e : cevent) (λ x : canswer (CPublication e), embed (k x))
  end.

(** ** package flag *)

(** A flag set of string flags: the values set so far, the arguments left, or an error. *)
Definition split_flag (name : gostring) : gostring * option gostring :=
  match name with
  | [] => ([], None)
  | c :: rest => let '(before, after) := cut_byte "="%char rest in (c :: before, after)
  end.

(** [FlagSet.parseOne]: [inl] the flag and its value with the arguments left, [inr] the arguments
    after the flags; [None] is an error. *)
Definition parseOne (formal : list gostring) (args : list gostring) :
  option ((gostring * gostring * list gostring) + list gostring) :=
  match args with
  | [] => Some (inr [])
  | s :: rest =>
    match s with
    | "-"%char :: c :: t =>
      if Ascii.eqb c "-"%char && (t =s []) then Some (inr rest)
      else
        let name := if Ascii.eqb c "-"%char then t else c :: t in
        if match name with [] => true | d :: _ => Ascii.eqb d "-"%char || Ascii.eqb d "="%char end then None
        else
          let '(name, value) := split_flag name in
          if negb (existsb (str_eqb name) formal) then None
          else match value, rest with
          | Some value, _ => Some (inl (name, value, rest))
          | None, value :: rest => Some (inl (name, value, rest))
          | None, [] => None
          end
    | _ => Some (inr args)
    end
  end.

(** [FlagSet.Parse]: the values of the flags and the arguments that are not flags. Every round takes
    an argument. *)
Fixpoint parse_flags (fuel : nat) (formal : list gostring) (args : list gostring) (values : gmap gostring gostring) :
  option (gmap gostring gostring * list gostring) :=
  match fuel with
  | O => None
  | S fuel =>
    match parseOne formal args with
    | None => None
    | Some (inr rest) => Some (values, rest)
    | Some (inl (name, value, rest)) => parse_flags fuel formal rest (<[name := value]> values)
    end
  end.
Definition flags_Parse (formal : list gostring) (args : list gostring) : option (gmap gostring gostring * list gostring) :=
  parse_flags (S (length args)) formal args ∅.

(** ** The command *)

(** [environmentMap]. *)
Definition environmentMap (entries : list gostring) : gmap gostring gostring :=
  fold_left (λ result entry,
    match cut_byte "="%char entry with
    | (name, Some value) => <[name := value]> result
    | (_, None) => result
    end) entries ∅.

(** [writeJSON]: the text and a line feed; the answer is whether there was no error. *)
Definition writeJSON (value : gval) (k : kind) : cprog bool := cperform (CStdout (marshal value k ++ [byte 10])).

Definition loadInput (repositoryRoot releaseID recipientsFile : gostring) :
  pprog (result publication_error (SourceRelease * list Recipient)) :=
  source ← DiscoverSource repositoryRoot releaseID;
  match source with
  | Err e => Ret (Err e)
  | Ok source =>
    info ← pperform (FLstat recipientsFile);
    match info with
    | None => Ret (Err ErrSource)
    | Some info =>
      if negb (fi_regular info) || fi_symlink info then Ret (Err ErrSource)
      else
        file ← pperform (FOpen recipientsFile);
        match file with
        | None => Ret (Err ErrSource)
        | Some file =>
          let recipients := ParseRecipients (Some file) in
          _ ← pperform PClose;
          match recipients with
          | Err e => Ret (Err e)
          | Ok recipients => Ret (Ok (source, recipients))
          end
        end
    end
  end.

Definition validated_kind : kind :=
  KStruct [(lit "artifact_sha256", KString); (lit "recipient_count", KInt); (lit "release_id", KString);
           (lit "release_version", KString); (lit "status", KString)].

Definition validate_flags : list gostring := [lit "repository-root"; lit "release-id"; lit "recipients-file"].

(** [validateCommand]; [true] when there is no error. *)
Definition validateCommand (args : list gostring) : cprog bool :=
  match flags_Parse validate_flags args with
  | None => Ret false
  | Some (values, rest) =>
    if negb (len rest =? 0) then Ret false
    else
      let get name := default [] (values !! name) in
      input ← embed (loadInput (get (lit "repository-root")) (get (lit "release-id")) (get (lit "recipients-file")));
      match input with
      | Err _ => Ret false
      | Ok (source, recipients) =>
        writeJSON (GStruct [GStr (sr_DARSHA256 source); GInt (len recipients); GStr (sr_ReleaseID source);
                            GStr (sr_Version source); GStr (lit "VALID")]) validated_kind
      end
  end.

Definition published_kind : kind :=
  KStruct [(lit "batch_count", KInt); (lit "operation_id", KString); (lit "release_id", KString);
           (lit "release_version", KString); (lit "status", KString)].
Definition published_report (r : PublicationResult) : gval :=
  GStruct [GInt (res_BatchCount r); GStr (res_OperationID r); GStr (res_ReleaseID r); GStr (res_ReleaseVersion r);
           GStr (lit "PUBLISHED")].

(** The part of [publishCommand] with a sender, lines 119 to 141, before its deferred calls. *)
Definition publish_with_sender (environment : Environment) (source : SourceRelease) (recipients : list Recipient) : cprog bool :=
  match NewAzureQueueWriter true with
  | Err _ => Ret false
  | Ok _ =>
    match NewPublisher (PublisherConfig environment) true true with
    | None => Ret false
    | Some config =>
      result ← embed (Publish config (mkPublishRequest (en_RepositoryRoot environment) source recipients
                 (en_CommitSHA environment) (en_CreatedAt environment)));
      match result with
      | Err _ => Ret false
      | Ok result => writeJSON (published_report result) published_kind
      end
    end
  end.

(** [publishCommand]; [true] when there is no error. *)
Definition publishCommand (values : gmap gostring gostring) : cprog bool :=
  match ParsePublisherEnvironment values with
  | Err _ => Ret false
  | Ok environment =>
    input ← embed (loadInput (en_RepositoryRoot environment) (en_ReleaseID environment) (en_RecipientsFile environment));
    match input with
    | Err _ => Ret false
    | Ok (source, recipients) =>
      credential ← cperform CCredential;
      if negb credential then Ret false
      else
        storage ← cperform (CStorageClient (lit "https://" ++ en_StorageAccount environment ++ lit ".blob.core.windows.net/"));
        if negb storage then Ret false
        else match NewAzureBlobWriter true with
        | Err _ => Ret false
        | Ok _ =>
          bus ← cperform (CServiceBus (en_ServiceBusNamespace environment));
          if negb bus then Ret false
          else
            sender ← cperform (CSender (en_ServiceBusQueue environment));
            if negb sender then (_ ← cperform CCloseServiceBus; Ret false)
            else
              done ← publish_with_sender environment source recipients;
              _ ← cperform CCloseSender;
              _ ← cperform CCloseServiceBus;
              Ret done
        end
    end
  end.

Definition println (text : gostring) : cprog unit := cperform (CStderr (text ++ [byte 10])).

(** [commandRuntime.execute]: the exit code. *)
Definition execute (environment : gmap gostring gostring) (args : list gostring) : cprog Z :=
  match args with
  | [] => _ ← println (lit "expected validate or publish"); Ret 2
  | command :: rest =>
    if command =s lit "validate" then
      ok ← validateCommand rest;
      if negb ok then (_ ← println (lit "release validation failed"); Ret 1) else Ret 0
    else if command =s lit "publish" then
      ok ← (if negb (len args =? 1) then Ret false else publishCommand environment);
      if negb ok then (_ ← println (lit "release publication failed"); Ret 1) else Ret 0
    else (_ ← println (lit "unknown command"); Ret 2)
  end.

(** [main], with the environment and the arguments of the process. *)
Definition publisher_main (environ args : list gostring) : cprog Z := execute (environmentMap environ) (tail args).

(** ** Runs of the command *)

Definition lifted (x : { e : pevent & panswer e }) : { e : cevent & canswer e } :=
  let '(existT e a) := x in existT (CPublication e) a.

Lemma runs_embed {A} (p : pprog A) t r : runs (embed p) t r → ∃ t', t = map lifted t' ∧ runs p t' r.
Proof.
  revert t; induction p as [a|e k IH]; intros t H; cbn [embed runs] in *; [by exists []; destruct H|].
  destruct H as [[-> ->]|(x & t' & -> & H)]; [exists []; auto|]. apply IH in H as (t'' & -> & H). exists (existT e x :: t''). split; [done|]. right. eauto.
Qed.

(** A run of one request followed by the rest. *)
Lemma runs_request {E : Type} {ans : E → Type} {A} (e : E) (f : ans e → program E ans A) t a :
  runs (perform e ≫= f) t (Some a) → ∃ x t', t = existT e x :: t' ∧ runs (f x) t' (Some a).
Proof. cbn. intros [[_ ?]|(x & t' & -> & H)]; [done|]. eauto. Qed.

Lemma runs_ret {E : Type} {ans : E → Type} {A} (a b : A) (t : history E ans) : runs (Ret a) t (Some b) → t = [] ∧ a = b.
Proof. cbn. intros [-> [[= ->]|?]]; done. Qed.

Lemma runs_then {E : Type} {ans : E → Type} {A B} (p : program E ans A) (f : A → program E ans B) t b :
  runs (p ≫= f) t (Some b) → ∃ t1 t2 a, t = t1 ++ t2 ∧ runs p t1 (Some a) ∧ runs (f a) t2 (Some b).
Proof. intros [[_ ?]|H]%runs_bind; [done|exact H]. Qed.

(** The clients that were made, and what follows the publication: the report, and the two clients closed. *)
Definition clients_made (environment : Environment) : history cevent canswer :=
  [existT CCredential true;
   existT (CStorageClient (lit "https://" ++ en_StorageAccount environment ++ lit ".blob.core.windows.net/")) true;
   existT (CServiceBus (en_ServiceBusNamespace environment)) true; existT (CSender (en_ServiceBusQueue environment)) true].
Definition reported (res : PublicationResult) : history cevent canswer :=
  [existT (CStdout (marshal (published_report res) published_kind ++ [byte 10])) true; existT CCloseSender tt; existT CCloseServiceBus tt].

(** The request of the environment for the source and the recipients that were loaded. *)
Definition environment_request (environment : Environment) (source : SourceRelease) (recipients : list Recipient) : PublishRequest :=
  mkPublishRequest (en_RepositoryRoot environment) source recipients (en_CommitSHA environment) (en_CreatedAt environment).

(** A successful [publishCommand]: what it loaded, what it published and all it requested. *)
Definition command_published (values : gmap gostring gostring) (t : history cevent canswer) (environment : Environment) (config : Config)
  (source : SourceRelease) (recipients : list Recipient) (tl tp : history pevent panswer) (res : PublicationResult) : Prop :=
  ParsePublisherEnvironment values = Ok environment ∧ NewPublisher (PublisherConfig environment) true true = Some config ∧
  runs (loadInput (en_RepositoryRoot environment) (en_ReleaseID environment) (en_RecipientsFile environment)) tl (Some (Ok (source, recipients))) ∧
  runs (Publish config (environment_request environment source recipients)) tp (Some (Ok res)) ∧
  t = map lifted tl ++ clients_made environment ++ map lifted tp ++ reported res.

Lemma publish_with_sender_runs environment source recipients t :
  runs (publish_with_sender environment source recipients) t (Some true) →
  ∃ config tp res, NewPublisher (PublisherConfig environment) true true = Some config ∧
    runs (Publish config (environment_request environment source recipients)) tp (Some (Ok res)) ∧
    t = map lifted tp ++ [existT (CStdout (marshal (published_report res) published_kind ++ [byte 10])) true].
Proof.
  unfold publish_with_sender. cbn [NewAzureQueueWriter negb]. destruct (NewPublisher _ true true) as [config|]; [|by intros [_ ?]%runs_ret].
  intros (t1 & t2 & [res|e] & -> & (tp & -> & Hp)%runs_embed & H)%runs_then; [|by apply runs_ret in H as [_ ?]].
  exists config, tp, res. split_and!; try done. unfold writeJSON, cperform, perform in H. cbn [runs] in H. destruct H as [[_ ?]|(x & t' & -> & -> & H)]; [done|].
  destruct H as [H|?]; [|done]. by apply (inj Some) in H as <-.
Qed.

Lemma publishCommand_runs values t : runs (publishCommand values) t (Some true) →
  ∃ environment config source recipients tl tp res, command_published values t environment config source recipients tl tp res.
Proof.
  unfold publishCommand. destruct (ParsePublisherEnvironment values) as [environment|] eqn:He; [|by intros [_ ?]%runs_ret].
  intros (t1 & t2 & [[source recipients]|e] & -> & (tl & -> & Hl)%runs_embed & H)%runs_then; [|by apply runs_ret in H as [_ ?]].
  apply runs_request in H as ([] & t3 & -> & H); [|by apply runs_ret in H as [_ ?]]. cbn [negb] in H.
  apply runs_request in H as ([] & t4 & -> & H); [|by apply runs_ret in H as [_ ?]]. cbn [negb NewAzureBlobWriter] in H.
  apply runs_request in H as ([] & t5 & -> & H); [|by apply runs_ret in H as [_ ?]]. cbn [negb] in H.
  apply runs_request in H as ([] & t6 & -> & H); cbn [negb] in H; [|apply runs_request in H as (x & t7 & -> & [_ ?]%runs_ret); done].
  apply runs_then in H as (t7 & t8 & done_ & -> & Hs & H). apply runs_request in H as ([] & t9 & -> & H).
  apply runs_request in H as ([] & t10 & -> & [-> ->]%runs_ret).
  apply publish_with_sender_runs in Hs as (config & tp & res & Hc & Hp & ->).
  exists environment, config, source, recipients, tl, tp, res. split_and!; [done..|].
  unfold clients_made, reported. by rewrite <- !app_assoc.
Qed.

Lemma publish_exit values args t :
  runs (execute values (lit "publish" :: args)) t (Some 0) →
  args = [] ∧ ∃ environment config source recipients tl tp res, command_published values t environment config source recipients tl tp res.
Proof.
  unfold execute. change (lit "publish" =s lit "validate") with false. rewrite str_eqb_refl.
  intros (t1 & t2 & ok & -> & H1 & H2)%runs_then. destruct ok; cbn [negb] in H2.
  - apply runs_ret in H2 as [-> _]. rewrite app_nil_r. destruct args as [|a args].
    + change (len [lit "publish"] =? 1) with true in H1. cbn [negb] in H1. split; [done|by apply publishCommand_runs].
    + rewrite (proj2 (Z.eqb_neq _ _)) in H1 by (rewrite !len_cons; pose proof (len_nonneg args); lia). by apply runs_ret in H1 as [_ ?].
  - apply runs_request in H2 as (x & t' & -> & [_ ?]%runs_ret). done.
Qed.

(** C39: The command exits with 0 from [publish] only when it had no further arguments and the environment
    was accepted. Then the source and the recipients are those [loadInput] read from the repository,
    the release and the recipients file of the environment; [Publish] ran for them, the commit and the
    time of the environment, to a result; the archive, the manifest and every batch were acknowledged,
    every message was accepted and the current manifest advanced; and beyond loading and publishing the
    command made its four clients, printed the report of the result and closed the sender and the bus,
    in this order and nothing else. *)
Theorem publish_exit_zero values args t :
  runs (execute values (lit "publish" :: args)) t (Some 0) →
  args = [] ∧ ∃ environment config source recipients tl tp res,
    command_published values t environment config source recipients tl tp res ∧
    published config (environment_request environment source recipients) res tp.
Proof.
  intros (-> & environment & config & source & recipients & tl & tp & res & H)%publish_exit. split; [done|].
  exists environment, config, source, recipients, tl, tp, res. split; [exact H|]. destruct H as (_ & Hc & _ & Hr & _). by eapply publication_ends.
Qed.

(** ** Validation stays local *)

(** The requests of a program are among [P]. *)
Fixpoint only {E : Type} {ans : E → Type} {A} (P : E → Prop) (p : program E ans A) : Prop :=
  match p with
  | Ret _ => True
  | Vis e k => P e ∧ ∀ x, only P (k x)
  end.

Lemma only_bind {E : Type} {ans : E → Type} {A B} (P : E → Prop) (p : program E ans A) (f : A → program E ans B) :
  only P p → (∀ a, only P (f a)) → only P (p ≫= f).
Proof. intros Hp Hf. induction p as [a|e k IH]; cbn in *; [apply Hf|]. destruct Hp as [He Hk]. split; [done|]. intros x. by apply IH. Qed.

Lemma only_request {E : Type} {ans : E → Type} {B} (P : E → Prop) e (f : ans e → program E ans B) :
  P e → (∀ x, only P (f x)) → only P (perform e ≫= f).
Proof. by split. Qed.

Lemma only_embed {A} (P : cevent → Prop) (p : pprog A) : only (λ e, P (CPublication e)) p → only P (embed p).
Proof. induction p as [a|e k IH]; cbn; [done|]. intros [He Hk]. split; [done|]. intros x. by apply IH. Qed.

Lemma only_runs {E : Type} {ans : E → Type} {A} (P : E → Prop) (p : program E ans A) t r :
  only P p → runs p t r → Forall (λ x, P (projT1 x)) t.
Proof.
  revert t; induction p as [a|e k IH]; intros t Hp H; cbn in *; [by destruct H as [-> _]|]. destruct Hp as [He Hk].
  destruct H as [[-> _]|(x & t' & -> & H)]; [constructor|]. constructor; [done|]. by eapply IH.
Qed.

(** Reading the file system and printing. *)
Definition local_request (e : cevent) : Prop :=
  match e with
  | CPublication (FAbs _ | FEvalSymlinks _ | FStat _ | FLstat _ | FReadDir _ | FOpen _ | FZip _ | PClose) => True
  | CStdout _ | CStderr _ => True
  | _ => False
  end.

Ltac walk := repeat first [apply only_request; [done|intros ?]|apply only_bind; [|intros ?]|case_match|progress unfold cleanDirectory, rejectSymlink, discover_archive, validateReleaseZIP, fileDigest|exact I].

Lemma only_DiscoverSource root releaseID : only (λ e, local_request (CPublication e)) (DiscoverSource root releaseID).
Proof. unfold DiscoverSource. walk. Qed.

Lemma only_loadInput root releaseID file : only (λ e, local_request (CPublication e)) (loadInput root releaseID file).
Proof. unfold loadInput. apply only_bind; [apply only_DiscoverSource|]. intros ?. walk. Qed.

(** Validation only reads files and prints: whatever its arguments and the answers, it makes no
    client and no request of storage or queue. *)
Theorem validate_is_local values args t r :
  runs (execute values (lit "validate" :: args)) t r → Forall (λ x, local_request (projT1 x)) t.
Proof.
  apply only_runs. unfold execute. rewrite str_eqb_refl. apply only_bind.
  - unfold validateCommand. case_match; [|done]. case_match. case_match; [done|]. apply only_bind; [apply only_embed, only_loadInput|].
    intros [[source recipients]|]; [|done]. by split.
  - intros ok. destruct ok; [done|]. by split.
Qed.

(** ** A run of the command *)

Module Command.
Definition values : gmap gostring gostring := environmentMap
  [lit "PATH"; EnvRepository ++ lit "=Org/Repo"; EnvCommitSHA ++ lit "=" ++ repeat_byte "b"%char 40; EnvCommitEpoch ++ lit "=1767323045";
   EnvRepositoryRoot ++ lit "=/repo"; EnvReleaseID ++ lit "=release-1"; EnvRecipientsFile ++ lit "=/protected/recipients.csv";
   EnvStorageAccount ++ lit "=account1"; EnvReleasesContainer ++ lit "=releases"; EnvManifestsContainer ++ lit "=manifests";
   EnvBatchesContainer ++ lit "=batches"; EnvServiceBusNamespace ++ lit "=release-bus.servicebus.windows.net";
   EnvServiceBusQueue ++ lit "=release-batches"; EnvApplicationOrigin ++ lit "=https://d.example.internal/"].

(** The sample publication, with a file system to discover it in. *)
Definition env (s : phistory) (e : cevent) : option (canswer e) :=
  match e return option (canswer e) with
  | CPublication (FReadDir name) =>
    Some (Some (if has_suffix (lit "releases") name then [mkDirEntry (lit "v1.2.3.04") false true false]
                else [mkDirEntry (lit "dar-1.2.3.04.zip") true false false]))
  | CPublication (FStat name | FLstat name) =>
    let file := has_suffix (lit ".zip") name || has_suffix (lit ".csv") name in Some (Some (mkFileInfo 7 file (negb file) false))
  | CPublication (FOpen name) =>
    Some (Some (mkReader (if has_suffix (lit ".csv") name then lit "first_name,last_name,email" ++ [newline] ++ lit "Ada,O'Hara,Ada@example.com" ++ [newline]
                          else Publication.archive) None))
  | CPublication (FZip _) =>
    Some (Some [mkMember (lit "app.dar") 0 0 false false 3 3 (Some (mkReader (lit "dar") None)) true])
  | CPublication e => Publication.env s e
  | CStdout _ | CCredential | CStorageClient _ | CServiceBus _ | CSender _ => Some true
  | CStderr _ | CCloseSender | CCloseServiceBus => Some tt
  end.
Definition command_record (s : phistory) (e : cevent) : canswer e → phistory :=
  match e with CPublication e => record s e | _ => λ _, s end.
Definition run : history cevent canswer * option Z := play command_record env (execute values [lit "publish"]) [].
End Command.

Lemma command_exit : snd Command.run = Some 0.
Proof. vm_compute. reflexivity. Qed.

Lemma publish_exit_zero_witness :
  [] = @nil gostring ∧ ∃ environment config source recipients tl tp res,
    command_published Command.values (fst Command.run) environment config source recipients tl tp res ∧
    published config (environment_request environment source recipients) res tp.
Proof.
  apply (publish_exit_zero Command.values [] (fst Command.run)). rewrite <- command_exit.
  exact (play_runs Command.command_record Command.env (execute Command.values [lit "publish"]) []).
Defined.

Lemma validate_is_local_witness : Forall (λ x, local_request (projT1 x)) (A := { e : cevent & canswer e }) [existT (CStderr (lit "release validation failed" ++ [byte 10])) tt].
Proof.
  apply (validate_is_local Command.values [lit "-unknown"] _ (Some 1)). cbn. right. exists tt, []. auto.
Defined.
