(* ===== verification/DownloadMain.v ===== *)
(** * cmd/dar-download/main.go and cmd/dar-distribution-worker/main.go

    The two services as processes: start-up, the HTTP server of the download service with its
    graceful end as a transition system of the two goroutines, and the exit codes. Theorem: the
    download service ends after every signal, and with code 0 only when it was told to. *)

From S2P Require Import Prelude Utf8 GoStrings GoTime Program Config Blob HttpEffects WorkerConfig Runtime.

(** ** The download service *)

(** What is set of a [http.Server]; durations in nanoseconds. The error log is discarded. *)
Record HTTPServer : Type := mkHTTPServer {
  hs_Addr : gostring; hs_ReadHeaderTimeout : Z; hs_ReadTimeout : Z; hs_WriteTimeout : Z; hs_IdleTimeout : Z; hs_MaxHeaderBytes : Z }.

Definition newHTTPServer (port : Z) : HTTPServer :=
  mkHTTPServer (lit ":" ++ itoa port) (5 * Second) (15 * Second) (10 * (60 * Second)) (60 * Second) (32 * 1024).

(** The error [ListenAndServe] returns. *)
Inductive serve_error : Type := ErrServerClosed | ErrServe.
#[export] Instance serve_error_eq_dec : EqDecision serve_error.
Proof. solve_decision. Defined.

Inductive run_error : Type := ConfigurationRejected | StorageRejected | ShutdownFailed | ServerFailed.

(** [run] up to the start of the server. *)
Definition run_start {Credential Client : Type} (lookupEnv : gostring → option gostring) (credential : gostring → option Credential)
  (container : gostring → Credential → gostring → option Client) : result run_error (Config * Client * HTTPServer) :=
  match LoadEnvironment lookupEnv with
  | Err _ => Err ConfigurationRejected
  | Ok cfg =>
    match newAzureStore credential container cfg with
    | Err _ => Err StorageRejected
    | Ok store => Ok (cfg, store, newHTTPServer (c_Port cfg))
    end
  end.

(** Where the main goroutine is: in the select, in [Shutdown], at the receive behind it, or back with
    an error or none. *)
Inductive main_at : Type :=
| AtSelect
| AtShutdown
| AtReceive
| Returned (e : option run_error).

(** The main goroutine, whether the context has ended, whether [Shutdown] was called, and the channel
    [serveErrors] with room for one value. The serving goroutine has ended when its value was sent. *)
Record service : Type := mkService {
  sv_main : main_at; sv_ended : bool; sv_closed : bool; sv_serving : bool; sv_channel : option (option serve_error) }.

Definition started : service := mkService AtSelect false false true None.

Definition failed_serving (e : option serve_error) : bool :=
  match e with None => false | Some e => negb (bool_decide (e = ErrServerClosed)) end.

Inductive service_step : service → service → Prop :=
(** A signal. *)
| step_signal m closed serving channel :
    service_step (mkService m false closed serving channel) (mkService m true closed serving channel)
(** [ListenAndServe] returns: with [ErrServerClosed] once the server is shut down, with another error
    before; its result is sent. *)
| step_serve_closed m ended :
    service_step (mkService m ended true true None) (mkService m ended true false (Some (Some ErrServerClosed)))
| step_serve_failed m ended closed :
    service_step (mkService m ended closed true None) (mkService m ended closed false (Some (Some ErrServe)))
(** The two cases of the select. *)
| step_done closed serving channel :
    service_step (mkService AtSelect true closed serving channel) (mkService AtShutdown true true serving channel)
| step_served ended closed serving e :
    service_step (mkService AtSelect ended closed serving (Some e))
      (mkService (Returned (if failed_serving e then Some ServerFailed else None)) ended closed serving None)
(** [Shutdown] returns. *)
| step_shut ended closed serving channel :
    service_step (mkService AtShutdown ended closed serving channel) (mkService AtReceive ended closed serving channel)
| step_shut_failed ended closed serving channel :
    service_step (mkService AtShutdown ended closed serving channel) (mkService (Returned (Some ShutdownFailed)) ended closed serving channel)
(** The receive. *)
| step_received ended closed serving e :
    service_step (mkService AtReceive ended closed serving (Some e))
      (mkService (Returned (if failed_serving e then Some ServerFailed else None)) ended closed serving None).

(** The exit code of [main]. *)
Definition exit_code (e : option run_error) : Z := match e with Some _ => 1 | None => 0 end.

(** ** The service ends *)

(** The invariant, which is decidable: the main goroutine is past the select exactly when the server
    was shut down or a result received, shutting down follows a signal, the serving goroutine has
    ended exactly when its result is in the channel or was received, that result is an error, it is
    [ErrServerClosed] only after the shutdown, and so is a return without an error. *)
Definition service_inv (s : service) : bool :=
  implb (sv_closed s) (sv_ended s) &&
  match sv_main s with
  | AtSelect => negb (sv_closed s)
  | AtShutdown | AtReceive => sv_closed s
  | Returned None => sv_closed s && negb (sv_serving s)
  | Returned (Some _) => true
  end &&
  match sv_channel s with
  | None => sv_serving s || match sv_main s with Returned _ => true | _ => false end
  | Some None => false
  | Some (Some ErrServerClosed) => negb (sv_serving s) && sv_closed s
  | Some (Some ErrServe) => negb (sv_serving s)
  end.

Lemma started_inv : service_inv started = true.
Proof. reflexivity. Qed.

Lemma service_step_inv s s' : service_step s s' → service_inv s = true → service_inv s' = true.
Proof.
  destruct 1; repeat match goal with
    | m : main_at |- _ => destruct m as [| | |[|]]
    | b : bool |- _ => destruct b
    | c : option (option serve_error) |- _ => destruct c as [[[|]|]|]
    | e : option serve_error |- _ => destruct e as [[|]|]
    end; by intros H.
Qed.

Definition running : service → Prop := rtc service_step started.

Lemma running_inv s : running s → service_inv s = true.
Proof.
  unfold running. intros H. assert (Hall : ∀ a, rtc service_step a s → service_inv a = true → service_inv s = true).
  { clear H. intros a. induction 1 as [a|a b c Hs _ IH]; [done|]. intros Ha. apply IH. by eapply service_step_inv. }
  eapply Hall; [exact H|exact started_inv].
Qed.

(** Steps that are left at most. *)
Definition steps_left (s : service) : nat :=
  (if sv_ended s then 0 else 1) + (if sv_serving s then 1 else 0) +
  match sv_main s with AtSelect => 3 | AtShutdown => 2 | AtReceive => 1 | Returned _ => 0 end.

Lemma service_step_decreases s s' : service_step s s' → (steps_left s' < steps_left s)%nat.
Proof. destruct 1; cbn; repeat case_match; lia. Qed.

Lemma service_progress s :
  service_inv s = true → sv_ended s = true ∨ sv_serving s = false → (∀ e, sv_main s ≠ Returned e) → ∃ s', service_step s s'.
Proof.
  destruct s as [m ended closed serving channel]. intros Hi Hs Hm. cbn in Hs, Hm.
  destruct m as [| | |e]; [| | |by destruct (Hm e)].
  - destruct Hs as [->| ->]; [eexists; apply step_done|]. destruct channel as [e|]; [eexists; apply step_served|]. by destruct ended, closed.
  - eexists. apply step_shut.
  - destruct channel as [e|]; [eexists; apply step_received|]. destruct serving, closed, ended; try done. eexists. apply step_serve_closed.
Qed.

(** C40: The download service ends: no execution has more than five steps, and after a signal, or after
    the server stopped, it can only end by returning. It returns without an error, and exits with
    code 0, only after a signal, when the server was shut down and its goroutine has ended. *)
Theorem service_ends s :
  running s →
  (∀ n s', nsteps service_step n s s' → (n ≤ 5)%nat) ∧
  ((¬ ∃ s', service_step s s') → sv_ended s = true ∨ sv_serving s = false → ∃ e, sv_main s = Returned e) ∧
  (∀ e, sv_main s = Returned e → exit_code e = 0 → sv_ended s = true ∧ sv_closed s = true ∧ sv_serving s = false).
Proof.
  intros Hs%running_inv. split_and!.
  - intros n s' Hn. assert (Hle : (n + steps_left s' ≤ steps_left s)%nat).
    { clear Hs. induction Hn as [|n a b c Hab _ IH]; [lia|]. apply service_step_decreases in Hab. lia. }
    assert (steps_left s ≤ 5)%nat by (unfold steps_left; repeat case_match; lia). lia.
  - intros Hstuck Hend. destruct (sv_main s) as [| | |e] eqn:Em; [| | |by exists e];
      (destruct Hstuck; apply service_progress; [done|done|]; intros e; by rewrite Em).
  - intros [e|] He Hc; [done|]. destruct s as [m ended closed serving channel]. cbn in *. subst m. by destruct ended, closed, serving, channel as [[[|]|]|].
Qed.

Lemma service_ends_witness :
  running (mkService (Returned None) true true false None) ∧ exit_code None = 0 ∧
  ∀ n s', nsteps service_step n (mkService (Returned None) true true false None) s' → (n ≤ 5)%nat.
Proof.
  assert (H : running (mkService (Returned None) true true false None)).
  { eapply rtc_l; [apply step_signal|]. eapply rtc_l; [apply step_done|]. eapply rtc_l; [apply step_shut|].
    eapply rtc_l; [apply step_serve_closed|]. eapply rtc_l; [apply step_received|]. apply rtc_refl. }
  split_and!; [exact H|reflexivity|]. exact (proj1 (service_ends _ H)).
Defined.

(** ** The worker process *)

(** [main] of the worker: the exit code; [None] is a worker that goes on after [fuel] polls. The two
    build variables are arguments. *)
Definition worker_main (fuel : nat) (version revision : gostring) (lookupEnv : gostring → option gostring) : rprog (option Z) :=
  match LoadWorkerEnvironment lookupEnv with
  | Err _ => _ ← rperform (RLog (lit "worker configuration rejected") [(lit "event", AString (lit "fatal"))]); Ret (Some 1)
  | Ok config =>
    _ ← rperform (RLog (lit "worker candidate")
          [(lit "event", AString (lit "candidate")); (lit "version", AString version); (lit "revision", AString revision)]);
    exit ← RunWorker fuel config;
    match exit with
    | None => Ret None
    | Some ExitNil => Ret (Some 0)
    | Some _ => _ ← rperform (RLog (lit "worker stopped") [(lit "event", AString (lit "fatal"))]); Ret (Some 1)
    end
  end.

(** The process ends with 0 only when its worker was told to stop or its health server closed. *)
Lemma worker_main_zero fuel version revision lookupEnv t :
  runs (worker_main fuel version revision lookupEnv) t (Some (Some 0)) →
  ∃ config x t', LoadWorkerEnvironment lookupEnv = Ok config ∧ t = x :: t' ∧ runs (RunWorker fuel config) t' (Some (Some ExitNil)).
Proof.
  unfold worker_main. destruct (LoadWorkerEnvironment lookupEnv) as [config|].
  - intros H. cbn [runs mbind prog_mbind prog_bind rperform perform] in H. destruct H as [[_ ?]|(x & t' & -> & H)]; [done|]. apply runs_bind in H as [[_ ?]|(t1 & t2 & exit & -> & H1 & H2)]; [done|].
    destruct exit as [[]|]; cbn in H2; try naive_solver. destruct H2 as [-> _]. rewrite app_nil_r. eauto 7.
  - cbn. naive_solver.
Qed.
