(* ===== verification/TestStorage.v ===== *)
(** * internal/testsupport

    The Blob test double. Its methods run their critical sections under one mutex, so each section is
    a function on the state; callers, hooks and readers interleave them. Theorem: the double counts
    the readers that are open, whatever the interleaving, and hands out exactly the bytes asked for. *)

From S2P Require Import Prelude Utf8 GoStrings GoHttp Config Auth HttpEffects.

Record Object : Type := mkObject { ob_Data : gostring; ob_ETag : gostring }.
Record OpenCall : Type := mkOpenCall { oc_BlobName : gostring; oc_Offset : Z; oc_Length : Z; oc_ETag : gostring }.

(** The hook is a function the tests supply: here whether it is set. *)
Record Storage : Type := mkStorage {
  st_Objects : gmap gostring Object; st_StatErr : option blob_error; st_OpenErr : option blob_error; st_OpenHook : bool;
  st_StatCalls : list gostring; st_OpenCalls : list OpenCall; st_active : Z; st_maxActive : Z }.

Definition add_stat (s : Storage) (name : gostring) : Storage :=
  mkStorage (st_Objects s) (st_StatErr s) (st_OpenErr s) (st_OpenHook s) (st_StatCalls s ++ [name]) (st_OpenCalls s)
    (st_active s) (st_maxActive s).
Definition add_open (s : Storage) (call : OpenCall) : Storage :=
  mkStorage (st_Objects s) (st_StatErr s) (st_OpenErr s) (st_OpenHook s) (st_StatCalls s) (st_OpenCalls s ++ [call])
    (st_active s) (st_maxActive s).
Definition set_active (s : Storage) (active maxActive : Z) : Storage :=
  mkStorage (st_Objects s) (st_StatErr s) (st_OpenErr s) (st_OpenHook s) (st_StatCalls s) (st_OpenCalls s) active maxActive.

(** [Storage.Stat]. *)
Definition storage_Stat (s : Storage) (blobName : gostring) : Storage * result blob_error Snapshot :=
  let s := add_stat s blobName in
  match st_StatErr s with
  | Some e => (s, Err e)
  | None =>
    match st_Objects s !! blobName with
    | None => (s, Err ErrNotFound)
    | Some object => (s, Ok (mkSnapshot (len (ob_Data object)) (ob_ETag object)))
    end
  end.

(** The critical section of [Storage.OpenRange]: the object whose data is handed out. *)
Definition open_section (s : Storage) (call : OpenCall) : Storage * result blob_error Object :=
  let s := add_open s call in
  match st_OpenErr s with
  | Some e => (s, Err e)
  | None =>
    match st_Objects s !! oc_BlobName call with
    | None => (s, Err ErrNotFound)
    | Some object =>
      if negb (ob_ETag object =s oc_ETag call) then (s, Err ErrChanged)
      else if (oc_Offset call <? 0) || (oc_Length call <? 0) || (len (ob_Data object) <? wrap64 (oc_Offset call + oc_Length call))
      then (s, Err ErrUnavailable)
      else
        let active := st_active s + 1 in
        (set_active s active (if st_maxActive s <? active then active else st_maxActive s), Ok object)
    end
  end.

(** [object.Data[offset : offset+length]]; [None] is a panic. *)
Definition data_slice (data : gostring) (offset length : Z) : option gostring :=
  let high := wrap64 (offset + length) in
  if (0 <=? offset) && (offset <=? high) && (high <=? len data)
  then Some (take (Z.to_nat (high - offset)) (drop (Z.to_nat offset) data)) else None.

(** [Storage.readerClosed]. *)
Definition readerClosed (s : Storage) : Storage := set_active s (st_active s - 1) (st_maxActive s).

(** [trackedReader.Close]: whether the reader was closed before, and the storage. *)
Definition tracked_Close (closed : bool) (s : Storage) : bool * Storage := (true, if closed then s else readerClosed s).

(** [Storage.Counts]. *)
Definition Counts (s : Storage) : list gostring * list OpenCall * Z := (st_StatCalls s, st_OpenCalls s, st_maxActive s).

(** identity.go, [OIDCHeaders]: the evidence of the trusted upstream boundary. *)
Definition OIDCHeaders (issuer subject : gostring) : Header :=
  let headers := header_set IssuerHeader issuer ∅ in
  header_set SubjectHeader subject headers.

(** The evidence the tests build is evidence: it authenticates its subject and nobody else. *)
Lemma oidc_keys_differ : CanonicalHeaderKey SubjectHeader ≠ CanonicalHeaderKey IssuerHeader.
Proof. by vm_compute. Qed.

Lemma oidc_no_platform issuer subject : no_platform_headers (OIDCHeaders issuer subject).
Proof.
  intros name values. unfold OIDCHeaders, header_set.
  intros [[<- _]|[_ [[<- _]|[_ H]]%lookup_insert_Some]]%lookup_insert_Some; [by vm_compute..|by rewrite lookup_empty in H].
Qed.

Lemma oidc_evidence issuer subject id :
  IsValidOIDCIssuer issuer = true →
  (Authenticate (OIDCHeaders issuer subject) (mkPolicy issuer TrustedIdentityModeOIDCHeaders [] []) = Some id ↔
   IsValidOIDCSubject subject = true ∧ id = mkIdentity issuer subject).
Proof.
  intros Hi. unfold Authenticate. cbn [bp_Mode bp_ExpectedAzureTenantID bp_ExpectedOIDCProviderName bp_ExpectedIssuer].
  rewrite !str_eqb_refl, (proj2 (platform_headers_spec _) (oidc_no_platform issuer subject)). cbn [negb orb].
  rewrite headers_spec by done. unfold OIDCHeaders. rewrite header_values_set_ne by exact oidc_keys_differ.
  rewrite !header_values_set_eq. split.
  - intros (s & _ & [= <-] & Hs & ->). done.
  - intros [Hs ->]. by exists subject.
Qed.

(** ** Interleavings *)

(** Calls that wait for their hook, and the readers handed out with whether they are closed. *)
Record doubles : Type := mkDoubles { db_storage : Storage; db_hooks : nat; db_readers : list bool }.

Inductive double_step : doubles → doubles → Prop :=
| double_stat s name hooks readers :
    double_step (mkDoubles s hooks readers) (mkDoubles (fst (storage_Stat s name)) hooks readers)
| double_refused s call s' e hooks readers :
    open_section s call = (s', Err e) → double_step (mkDoubles s hooks readers) (mkDoubles s' hooks readers)
| double_opened s call s' object data hooks readers :
    open_section s call = (s', Ok object) → st_OpenHook s = false →
    data_slice (ob_Data object) (oc_Offset call) (oc_Length call) = Some data →
    double_step (mkDoubles s hooks readers) (mkDoubles s' hooks (readers ++ [false]))
| double_hooked s call s' object hooks readers :
    open_section s call = (s', Ok object) → st_OpenHook s = true →
    double_step (mkDoubles s hooks readers) (mkDoubles s' (S hooks) readers)
| double_hook_failed s hooks readers :
    double_step (mkDoubles s (S hooks) readers) (mkDoubles (readerClosed s) hooks readers)
| double_hook_done s hooks readers :
    double_step (mkDoubles s (S hooks) readers) (mkDoubles s hooks (readers ++ [false]))
| double_close s hooks before closed after :
    double_step (mkDoubles s hooks (before ++ closed :: after))
      (mkDoubles (snd (tracked_Close closed s)) hooks (before ++ fst (tracked_Close closed s) :: after)).

Definition open_readers (readers : list bool) : Z := len (List.filter negb readers).

Definition double_inv (d : doubles) : Prop :=
  st_active (db_storage d) = Z.of_nat (db_hooks d) + open_readers (db_readers d) ∧ st_active (db_storage d) ≤ st_maxActive (db_storage d).

Lemma open_readers_app l k : open_readers (l ++ k) = open_readers l + open_readers k.
Proof. unfold open_readers. by rewrite List.filter_app, len_app. Qed.

Lemma open_readers_cons b l : open_readers (b :: l) = (if b then 0 else 1) + open_readers l.
Proof. unfold open_readers. cbn [List.filter]. destruct b; cbn [negb]; [done|]. rewrite len_cons. lia. Qed.

Lemma open_readers_nil : open_readers [] = 0.
Proof. done. Qed.

(** What the critical section does to the counters. *)
Lemma open_section_counts s call s' r :
  open_section s call = (s', r) →
  st_maxActive s' = (if is_ok r then Z.max (st_maxActive s) (st_active s + 1) else st_maxActive s) ∧
  st_active s' = (if is_ok r then st_active s + 1 else st_active s).
Proof.
  unfold open_section. intros H. repeat case_match; simplify_eq; cbn [is_ok st_active st_maxActive set_active add_open] in *; try done;
    (split; [|done]); rewrite ?Z.ltb_lt, ?Z.ltb_ge in *; lia.
Qed.

Lemma double_step_inv d d' : double_step d d' → double_inv d → double_inv d'.
Proof.
  unfold double_inv. intros H. destruct H as [s name hooks readers|s call s' e hooks readers E|s call s' object data hooks readers E _ _
    |s call s' object hooks readers E _|s hooks readers|s hooks readers|s hooks before closed after]; cbn [db_storage db_hooks db_readers].
  - unfold storage_Stat. repeat case_match; done.
  - apply open_section_counts in E as [-> ->]. done.
  - apply open_section_counts in E as [-> ->]. rewrite open_readers_app, open_readers_cons, open_readers_nil. cbn [is_ok]. lia.
  - apply open_section_counts in E as [-> ->]. cbn [is_ok]. lia.
  - cbn [readerClosed set_active st_active st_maxActive]. lia.
  - rewrite open_readers_app, open_readers_cons, open_readers_nil. lia.
  - rewrite !open_readers_app, !open_readers_cons. destruct closed; cbn [tracked_Close fst snd readerClosed set_active st_active st_maxActive]; lia.
Qed.

Definition idle (s : Storage) : Prop := st_active s = 0 ∧ st_maxActive s = 0.

(** Starting from an idle double, however calls, hooks and repeated closes interleave, the double
    counts exactly the calls that wait for their hook and the readers not yet closed, and remembers at
    least that many as its maximum. *)
Theorem double_counts s d :
  idle s → rtc double_step (mkDoubles s 0 []) d →
  st_active (db_storage d) = Z.of_nat (db_hooks d) + open_readers (db_readers d) ∧ st_active (db_storage d) ≤ st_maxActive (db_storage d).
Proof.
  intros [Ha Hm] H. assert (Hi : double_inv (mkDoubles s 0 [])).
  { split; cbn [db_storage db_hooks db_readers]; rewrite ?Ha, ?Hm; done. }
  revert Hi. induction H as [d|d d1 d2 Hs _ IH]; [done|]. intros Hi. apply IH. by eapply double_step_inv.
Qed.

(** A range within the object is handed out byte for byte, and only such a range: except where the
    end of the range overflows, which the guard does not see. *)
Lemma open_section_slice s call s' object :
  open_section s call = (s', Ok object) → int64_range (oc_Offset call + oc_Length call) →
  0 ≤ oc_Offset call ∧ 0 ≤ oc_Length call ∧ oc_Offset call + oc_Length call ≤ len (ob_Data object) ∧
  data_slice (ob_Data object) (oc_Offset call) (oc_Length call) =
    Some (take (Z.to_nat (oc_Length call)) (drop (Z.to_nat (oc_Offset call)) (ob_Data object))).
Proof.
  unfold open_section, data_slice. intros H Hr. rewrite wrap64_small in * by done.
  destruct (st_OpenErr _); [done|]. destruct (st_Objects _ !! _) as [o|]; [|done]. destruct (negb _); [done|].
  destruct (_ || _) eqn:E in H; [done|]. injection H as _ <-. rewrite !orb_false_iff, !Z.ltb_ge in E. destruct E as [[Ho Hl] Hd].
  rewrite !(proj2 (Z.leb_le _ _)) by lia. cbn [andb]. split_and!; [done..|]. do 2 f_equal. lia.
Qed.

Lemma overflow_passes_guard :
  let s := mkStorage {[lit "a" := mkObject (lit "data") (lit "e")]} None None false [] [] 0 0 in
  let call := mkOpenCall (lit "a") maxInt64 1 (lit "e") in
  is_ok (snd (open_section s call)) = true ∧ data_slice (lit "data") maxInt64 1 = None.
Proof. vm_compute. done. Qed.

(** A reader is opened, another one is opened, and the first is closed twice: one reader is left open. *)
Definition sample_double : Storage := mkStorage {[lit "a" := mkObject (lit "data") (lit "e")]} None None false [] [] 0 0.
Definition sample_call : OpenCall := mkOpenCall (lit "a") 1 2 (lit "e").
Definition sample_open (s : Storage) : Storage := fst (open_section s sample_call).
Definition sample_end : Storage := readerClosed (sample_open (sample_open sample_double)).

Lemma sample_steps : rtc double_step (mkDoubles sample_double 0 []) (mkDoubles sample_end 0 [true; false]).
Proof.
  eapply rtc_l. { eapply (double_opened _ sample_call (sample_open sample_double)); reflexivity. }
  eapply rtc_l. { eapply (double_opened _ sample_call (sample_open (sample_open sample_double))); reflexivity. }
  eapply rtc_l. { eapply (double_close _ 0 [] false [false]). }
  eapply rtc_l. { eapply (double_close _ 0 [] true [false]). }
  apply rtc_refl.
Qed.

Lemma double_counts_witness : st_active sample_end = 1 ∧ st_active sample_end ≤ st_maxActive sample_end.
Proof. exact (double_counts sample_double (mkDoubles sample_end 0 [true; false]) (conj eq_refl eq_refl) sample_steps). Defined.
